(* ===== verification/_CoqProject ===== *)
-Q . S2P
Prelude.v
Frame.v
FrameQueue.v
FrameDecoder.v
Delegate.v
Transport.v
Types.v
Text.v
Duration.v
JsonText.v
JsonScan.v
JsonCompact.v
JsonCodec.v
JsonCodecFacts.v
TimeText.v
Policy.v
Sha256.v
Platform.v
Bson.v
JsonTypes.v
JsonTypesFacts.v
JsonDecoded.v
EventXml.v
JsonPlatform.v
UuidReference.v
JsonWitness.v
Abci.v
Rpc.v
MerkleProof.v
IdentityApp.v
EventsApp.v
RetentionApp.v
Multiplexer.v
Chain.v
ChainHistory.v
ChainMain.v
Reference.v
ChainWitness.v
StateStore.v
StateStoreFacts.v
StateStoreWitness.v
StoreInterface.v
Repository.v
Pool.v
BlockchainClient.v
Harmoniser.v
HarmoniserWitness.v
OffchainNode.v
NodeFacts.v
JsonOffchain.v
Retention.v
Viewer.v
Search.v
Stream.v
JsonViewer.v
MongoReference.v
ClientChain.v
ClientWitness.v
System.v
OffchainWitness.v
RetentionFacts.v
Startup.v
ViewerHost.v
AgentLoop.v
AgentWitness.v
SearchFacts.v
Schema.v
SearchWitness.v
HttpServer.v
Subscription.v
SubscriptionWitness.v
Console.v
ConsoleMain.v
Benchmark.v
HttpWitness.v
ConsoleWitness.v
Broadcast.v
StreamFacts.v
StreamWitness.v
