(* ===== verification/Prelude.v ===== *)
(** * WinEventChain: a verification development

    WinEventChain stores Windows event log entries on a CometBFT chain.  The
    chain holds identities, scrubbed events with the hash of their data, and
    one retention policy; the data itself is kept by off-chain nodes that
    exchange it over a gossip network and check it against the chain.  This
    library models the Go code of both, of their clients and tools, and proves
    the properties that make it correct.  Paths below are relative to the
    repository.

    ** The parts and the files that model them

    - [Prelude]: bytes, machine integers, errors, the [result] type (value,
      error or panic), the state-and-error monad [M] with its [do] notation,
      slices with Go's bounds checks, little-endian integers, the order of byte
      strings, and the automation the other files share.
    - The gossip transport, [offchain-interface/pkg/transport/swim]: [Frame]
      (frame.go), [FrameQueue] (frameset.go), [FrameDecoder]
      (framesetdecoder.go), [Delegate] (delegate.go) and [Transport]
      (transport.go, nooptransport.go).
    - Shared types, [common/pkg/types]: [Types] (the records), [Text] (hex,
      base64 and number syntax, UTF-8), [Duration] (duration.go), [Policy]
      (offchain/retentionpolicies.go), [Rpc] (rpc/), [Sha256], [TimeText] (the
      calendar and the texts of times), [Bson] (the documents of events).
    - JSON: [JsonText] (strings), [JsonScan] (the scanner), [JsonCompact]
      (compact texts and numbers), [JsonCodec] and [JsonCodecFacts] (decoding
      and encoding of structs, slices and pointers), [JsonTypes],
      [JsonTypesFacts] and [JsonDecoded] (the types of the chain),
      [JsonOffchain] (messages and submissions of the off-chain nodes) and
      [JsonViewer] (filters and messages of the viewer).  [JsonPlatform] shows
      that they satisfy what the applications assume of [encoding/json].
    - XML: [EventXml] (the reader of [encoding/xml], and the tags and methods
      of events/types.go and guid.go).
    - [Platform]: the interfaces of the libraries the chain runs on, as classes
      with laws: the versioned Merkle tree, the key-value database, Ed25519,
      JSON, the text of UUIDs and ICS-23 proofs.  [Reference] and
      [UuidReference] instantiate them, so the laws are consistent.
    - The chain, [wineventchain/]: [Abci] and [Multiplexer]
      (pkg/multiplexer), [MerkleProof] (common/pkg/proof), [IdentityApp],
      [EventsApp], [RetentionApp] (pkg/identity, pkg/events,
      pkg/retentionpolicy), [Chain] and [ChainHistory] (the assembled node and
      sequences of blocks), [ChainMain] (internal/config and the start of
      cmd/app/main.go).
    - The off-chain node, [offchain-interface/]: [StateStore] and
      [StateStoreFacts] (pkg/state), [StoreInterface] (the interface of
      pkg/state/store.go with the contract its clients use), [Harmoniser]
      (pkg/harmoniser), [Subscription] (pkg/blockchain/websocket.go, and the
      module [Subscriber] for subscriber.go), [Pool] (common/pkg/pool),
      [Broadcast] (common/pkg/broadcast and the loops of
      cmd/offchain-interface/main.go that it stops), [BlockchainClient]
      (pkg/blockchain/client.go, identity.go), [Repository] and [Schema]
      (pkg/repository, its collections and their indexes), [OffchainNode]
      (pkg/transport/payload with its handlers, internal/server), [Retention]
      and [AgentLoop] (the pipelines of mongodb/retention.go and the agent of
      pkg/retention), [Viewer] (the log-in of internal/viewer), [Search] and
      [SearchFacts] (the filters, queries and pages of events), [Stream] and
      [StreamFacts] (the live stream over websockets), [HttpServer] (the
      routes and bodies of both servers), [Startup] (internal/config and
      cmd/offchain-interface/main.go).
    - The command-line client, chain-client/ and helpers/transaction.go:
      [Console] (the actions) and [ConsoleMain] (settings, menus and the loop).
    - The tools: [ViewerHost] (viewer/: the static file server of the front
      end) and [Benchmark] (benchmark/: the generators of load).
    - Compositions: [ClientChain] (the client over nodes of the chain),
      [NodeFacts] (the handlers over the interfaces of client, repository and
      store), [System] (the handlers over the round-robin client, MongoDB and
      LevelDB), [RetentionFacts] (what the pipelines of a policy delete), and
      [Benchmark] (the tools against the chain and the server of a node).
    - [MongoReference] is a database of documents that satisfies the laws of the
      MongoDB driver, and runs pipelines; the [*Witness] files evaluate the
      theorems on concrete nodes, stores, databases, texts and settings.

    ** How the code is represented

    Integers keep their width through [uwrap] and [swrap]; a slice or index
    out of range and a nil dereference are [Panic]; an [error] is [Err].  A
    method that changes its receiver is a function of [M]: the state is kept on
    every path, errors included.  Handlers that hold their locks for the whole
    body are single steps.  The clock, random identifiers, the network and
    the databases are arguments.  Maps are [gmap], except where iteration order
    matters.  Definitions carry the names of the source.

    ** What the theorems show

    - Chain: executing and committing a block refines an abstract chain of
      identities, events and a policy; identities are immutable and only
      administrators add them, events are never lost or changed short of a
      SHA-256 collision, the policy is set once, a restarted node resumes, the
      application hash is deterministic, queries return proofs that clients
      accept, and the panics and mistakes of the code are characterised.
    - Texts: what can be decoded from JSON is well-formed, and written again
      reads as the same value, whatever the formatting; an event shown by an
      XML document is read as that event; nothing that is read makes the
      codecs panic.
    - Transport: frames round-trip, fit the MTU, and messages are recovered
      from every reordering and repetition of their frames by the decoder; the
      delegate delivers what is handled in order, sends every frame as often as
      it should, and crashes on frames out of order, which its goroutines can
      bring about by themselves.
    - State store: the LevelDB store refines an abstract store of a height and
      two queues; its identifiers, pages and encodings are characterised.
    - Harmoniser: no block height is forgotten, missed ranges are processed
      completely, a round of requests ends and treats each event as specified,
      and unavailable events are given up.
    - Pool and client: [Get] returns usable connections in turn, the client
      over nodes of the chain reads what the chain holds, a policy is accepted
      only if all answers agree; the races and mistakes of the pool are
      characterised.
    - Off-chain node: whatever it is sent, its database holds only events of
      the chain with data of the recorded hash; a submission is accepted only
      from the principal that created the event, and then always, as long as
      client and database work; missing events arrive from nodes that have
      them; documents round-trip, and the index keeps their identifiers
      unique.
    - Retention: enforcing a policy deletes exactly the events that no filter
      keeps; the loop of the agent, whatever fails, removes none before its time.
    - Viewer: a token needs a fresh challenge signed by an administrator, and a
      challenge buys one token; events are returned only for a token; a search
      returns the pages of exactly the events that the stream would send under
      the same filters; the stream sends an event only to authenticated clients
      whose filters match it, to each of them once, and every published event
      in the end, unless a client that has gone blocks it.
    - Network: a unicast reaches the peer it names, a broadcast all others, a
      random neighbour is never the node itself; a created event that the
      chain announces is queued with its identifier; the loop that follows a
      node translates its messages in order, and never returns.
    - Console: a registered principal can create events; with a usable key the
      menus never crash; waiting for a transaction finds it or times out.
    - Processes: the off-chain node comes up exactly when its settings and
      services allow it, a fresh chain node starts at the genesis state, and
      which settings make them crash or refuse is characterised; the viewer
      host opens no file outside the directories it is given.
    - Tools: what the generators of load make is accepted by the chain and by
      an off-chain node; their workers handle every payload once; the file one
      of them writes is read by the next.
    - Shutdown: a broadcast with acknowledgement waits for every subscriber, and
      the timeouts it reports are characterised.

    ** Bounds and fuel

    [FrameQueue.frames_until_eof] is driven by the list of MTUs it is given and
    at most sixty-five calls are needed, since a message has at most sixty-four
    frames.  [Harmoniser.fetchPages] takes the number of events left as fuel,
    which is enough for a positive page size; [Harmoniser.eventLoop] needs one
    round more than there are missing events.  [Delegate.ceil_log10] searches
    upwards with its argument as fuel.  [Pool.Get_from] needs one call more
    than there are connections, since every failed call removes one.  The
    readers of JSON and XML take a fuel that grows with the length of the text,
    which every step shortens.  Counters of sixteen bytes are assumed to have
    room for the operations at hand, and heights to fit 64 bits.

    ** Not modelled

    The CometBFT engine, the memberlist library and sockets, the matching of
    paths by the HTTP router, what loggers and the terminal print, the
    JavaScript of the viewer, the entry point of the load test library and
    the base of the test suites, and the Windows agent, which is written in
    Rust.  Of JSON, the limit on the depth of nesting, the texts of errors and
    the difference between nil and empty slices are left out; of XML, names
    outside ASCII and directives.  Goroutines are modelled by the steps they
    take under their locks or between channel operations, interleaved by step
    relations where their order matters ([Stream], [Pool], [Broadcast],
    [Delegate], [Benchmark]), not by a scheduler. *)

From stdpp Require Export base tactics list gmap sorting fin_maps strings numbers.
From Stdlib Require Export ZArith Lia.
From Stdlib Require Import Strings.Byte.

Open Scope Z_scope.

Declare Scope go_scope.
Delimit Scope go_scope with go.

(** ** Bytes

    A Go [string] and a Go [[]byte] are both sequences of 8-bit values; the
    conversions between them copy the bytes unchanged, so one type serves for
    both. *)

Abbreviation byte := Corelib.Init.Byte.byte.
Abbreviation bytes := (list byte).

#[global] Instance byte_eq_dec : EqDecision byte := Byte.byte_eq_dec.

(** [bz "..."] is the byte sequence of a string literal of the source. *)
Definition bz (s : string) : bytes := String.list_byte_of_string s.

(** The unsigned value of a byte, and the conversion [byte(z)] which keeps the
    low eight bits. *)
Definition b2z (b : byte) : Z := Z.of_N (Byte.to_N b).

Definition z2b (z : Z) : byte :=
  match Byte.of_N (Z.to_N (z mod 256)) with
  | Some b => b
  | None => Corelib.Init.Byte.x00
  end.

Lemma b2z_bound (b : byte) : 0 <= b2z b < 256.
Proof. unfold b2z. pose proof (Byte.to_N_bounded b). lia. Qed.

Lemma z2b_b2z (b : byte) : z2b (b2z b) = b.
Proof.
  unfold z2b. rewrite Z.mod_small by apply b2z_bound.
  unfold b2z. by rewrite N2Z.id, Byte.of_to_N.
Qed.

Lemma b2z_z2b (z : Z) : b2z (z2b z) = z mod 256.
Proof.
  pose proof (Z.mod_pos_bound z 256 eq_refl) as Hb.
  unfold z2b. destruct (Byte.of_N _) as [b|] eqn:E.
  - unfold b2z. apply Byte.to_of_N in E. rewrite E. lia.
  - apply Byte.of_N_None_iff in E. lia.
Qed.

Lemma b2z_inj (a b : byte) : b2z a = b2z b -> a = b.
Proof. intros H. by rewrite <- (z2b_b2z a), <- (z2b_b2z b), H. Qed.

#[global] Instance byte_countable : Countable byte :=
  inj_countable Byte.to_N Byte.of_N Byte.of_to_N.

(** ** Errors and panics

    A Go [error] is a message, a package-level sentinel compared by identity,
    or a wrapped error.  [errors.Is] walks the chain of wrapped errors. *)

Inductive error : Type :=
| NewError (msg : bytes)
| Sentinel (msg : bytes)
| WrapError (prefix : bytes) (inner : error).

#[global] Instance error_eq_dec : EqDecision error.
Proof. solve_decision. Defined.

(** [err.Error()]. *)
Fixpoint Error (e : error) : bytes :=
  match e with
  | NewError m => m
  | Sentinel m => m
  | WrapError p e => p ++ Error e
  end.

(** [errors.Is(e, target)] for a sentinel [target]: two errors made by
    [errors.New] are different values even when their messages agree, so only
    sentinels compare equal. *)
Fixpoint errors_Is (e target : error) : bool :=
  match e with
  | NewError _ => false
  | Sentinel _ => bool_decide (e = target)
  | WrapError _ e => errors_Is e target
  end.

(** A call that returns [(A, error)] and may also panic. *)
Inductive result (A : Type) : Type :=
| Ok (a : A)
| Err (e : error)
| Panic (why : bytes).
Arguments Ok {A} a.
Arguments Err {A} e.
Arguments Panic {A} why.

Definition res_bind {A B} (r : result A) (f : A -> result B) : result B :=
  match r with
  | Ok a => f a
  | Err e => Err e
  | Panic w => Panic w
  end.

Definition res_map {A B} (f : A -> B) (r : result A) : result B :=
  res_bind r (fun a => Ok (f a)).

Notation "'let*' p ':=' c 'in' k" := (res_bind c (fun p => k))
  (at level 10, p pattern, c at level 200, k at level 200) : go_scope.
Open Scope go_scope.

Definition is_ok {A} (r : result A) : bool :=
  match r with Ok _ => true | _ => false end.

Definition is_panic {A} (r : result A) : bool :=
  match r with Panic _ => true | _ => false end.

Lemma res_bind_ok {A B} (r : result A) (f : A -> result B) b :
  res_bind r f = Ok b <-> exists a, r = Ok a /\ f a = Ok b.
Proof. destruct r; cbn; split; [eauto|intros (x & [= <-] & ?); done|done|by intros (? & ? & ?)|done|by intros (? & ? & ?)]. Qed.

(** ** State

    A method that mutates its receiver and returns [(A, error)]: the state it
    leaves behind is kept on every path, errors included. *)

Definition M (S A : Type) : Type := S -> S * result A.

Definition m_ret {S A} (a : A) : M S A := fun s => (s, Ok a).
Definition m_err {S A} (e : error) : M S A := fun s => (s, Err e).
Definition m_lift {S A} (r : S -> result A) : M S A := fun s => (s, r s).
Definition m_modify {S} (f : S -> S) : M S unit := fun s => (f s, Ok tt).

Definition m_bind {S A B} (c : M S A) (f : A -> M S B) : M S B :=
  fun s => match c s with
           | (s, Ok a) => f a s
           | (s, Err e) => (s, Err e)
           | (s, Panic w) => (s, Panic w)
           end.

(** A method of a component, run inside the whole. *)
Definition m_zoom {W S A} (get : W -> S) (put : S -> W -> W) (c : M S A) : M W A :=
  fun w => let '(s, r) := c (get w) in (put s w, r).

Notation "'do' p <- c ';;' k" := (m_bind c (fun p => k))
  (at level 100, p pattern, c at level 99, k at level 200, right associativity) : go_scope.

Lemma m_bind_ok {S A B} (c : M S A) (f : A -> M S B) s s' a :
  c s = (s', Ok a) -> m_bind c f s = f a s'.
Proof. unfold m_bind. by intros ->. Qed.

(** ** Machine integers *)

Definition uwrap (bits : Z) (z : Z) : Z := z mod 2 ^ bits.
Definition swrap (bits : Z) (z : Z) : Z :=
  (z + 2 ^ (bits - 1)) mod 2 ^ bits - 2 ^ (bits - 1).

Abbreviation u16 := (uwrap 16).
Abbreviation u32 := (uwrap 32).
Abbreviation u64 := (uwrap 64).
Abbreviation i16 := (swrap 16).
Abbreviation i64 := (swrap 64).

Definition in_u (bits z : Z) : Prop := 0 <= z < 2 ^ bits.
Definition in_s (bits z : Z) : Prop := - 2 ^ (bits - 1) <= z < 2 ^ (bits - 1).

Lemma uwrap_id bits z : in_u bits z -> uwrap bits z = z.
Proof. apply Z.mod_small. Qed.

Lemma uwrap_bound bits z : 0 <= bits -> in_u bits (uwrap bits z).
Proof. intros. apply Z.mod_pos_bound. lia. Qed.

Lemma pow2_half bits : 1 <= bits -> 2 ^ bits = 2 * 2 ^ (bits - 1).
Proof.
  intros. rewrite <- Z.pow_succ_r by lia. f_equal. lia.
Qed.

Lemma swrap_id bits z : 1 <= bits -> in_s bits z -> swrap bits z = z.
Proof.
  intros Hb [H1 H2]. unfold swrap. pose proof (pow2_half bits Hb).
  rewrite Z.mod_small by lia. lia.
Qed.

Lemma swrap_bound bits z : 1 <= bits -> in_s bits (swrap bits z).
Proof.
  intros Hb. unfold in_s, swrap. pose proof (pow2_half bits Hb).
  pose proof (Z.mod_pos_bound (z + 2 ^ (bits - 1)) (2 ^ bits)). lia.
Qed.

(** Reinterpreting a signed value as unsigned and back is the identity. *)
Lemma swrap_uwrap bits z : 1 <= bits -> swrap bits (uwrap bits z) = swrap bits z.
Proof.
  intros Hb. unfold swrap, uwrap. f_equal. by rewrite Zplus_mod_idemp_l.
Qed.

(** ** Lengths and slices *)

Definition zlen {A} (l : list A) : Z := Z.of_nat (length l).

Lemma zlen_app {A} (l k : list A) : zlen (l ++ k) = zlen l + zlen k.
Proof. unfold zlen. rewrite length_app. lia. Qed.

Lemma zlen_nonneg {A} (l : list A) : 0 <= zlen l.
Proof. unfold zlen. lia. Qed.

Lemma zlen_nil {A} : zlen (@nil A) = 0.
Proof. done. Qed.

Lemma zlen_cons {A} (x : A) l : zlen (x :: l) = 1 + zlen l.
Proof. unfold zlen. cbn. lia. Qed.

Lemma elem_of_rev {A} (x : A) (l : list A) : x ∈ rev l <-> x ∈ l.
Proof. rewrite !list_elem_of_In. symmetry. apply in_rev. Qed.

(** [s[lo:hi]] on a slice whose elements are [data] and whose backing array
    continues with [spare]: Go checks the bounds against the capacity. *)
Definition slice_cap {A} (data spare : list A) (lo hi : Z) : result (list A) :=
  if (0 <=? lo) && (lo <=? hi) && (hi <=? zlen data + zlen spare)
  then Ok (take (Z.to_nat (hi - lo)) (drop (Z.to_nat lo) (data ++ spare)))
  else Panic (bz "slice bounds out of range").

(** [s[i]]: the bound is the length. *)
Definition index {A} (data : list A) (i : Z) : result A :=
  if 0 <=? i then
    match data !! Z.to_nat i with
    | Some x => Ok x
    | None => Panic (bz "index out of range")
    end
  else Panic (bz "index out of range").

Lemma slice_cap_ok {A} (a b c spare : list A) lo hi :
  lo = zlen a -> hi = zlen a + zlen b ->
  slice_cap (a ++ b ++ c) spare lo hi = Ok b.
Proof.
  intros -> ->. unfold slice_cap.
  rewrite !zlen_app. pose proof (zlen_nonneg a). pose proof (zlen_nonneg b).
  pose proof (zlen_nonneg c). pose proof (zlen_nonneg spare).
  rewrite !(proj2 (Z.leb_le _ _)) by lia. cbn. f_equal.
  replace (zlen a + zlen b - zlen a) with (zlen b) by lia.
  unfold zlen. rewrite !Nat2Z.id, <- !app_assoc, drop_app_length, take_app_length. done.
Qed.

Lemma index_ok {A} (a : list A) x b i :
  i = zlen a -> index (a ++ x :: b) i = Ok x.
Proof.
  intros ->. unfold index. rewrite (proj2 (Z.leb_le _ _)) by apply zlen_nonneg.
  unfold zlen. rewrite Nat2Z.id, list_lookup_middle; done.
Qed.

(** ** Little-endian and big-endian integers ([encoding/binary]) *)

Fixpoint le_encode (n : nat) (z : Z) : bytes :=
  match n with
  | O => []
  | S n => z2b z :: le_encode n (z / 256)
  end.

Fixpoint le_decode (l : bytes) : Z :=
  match l with
  | [] => 0
  | b :: l => b2z b + 256 * le_decode l
  end.

Lemma length_le_encode n z : length (le_encode n z) = n.
Proof. revert z. induction n; intros; cbn; auto. Qed.

Lemma zlen_le_encode n z : zlen (le_encode n z) = Z.of_nat n.
Proof. unfold zlen. by rewrite length_le_encode. Qed.

Lemma le_decode_encode n z : le_decode (le_encode n z) = z mod 256 ^ Z.of_nat n.
Proof.
  revert z. induction n as [|n IH]; intros z; cbn [le_encode le_decode].
  - by rewrite Z.mod_1_r.
  - rewrite IH, b2z_z2b, Nat2Z.inj_succ, Z.pow_succ_r by lia.
    rewrite Z.rem_mul_r by (try apply Z.pow_nonzero; lia). lia.
Qed.

Lemma le_decode_bound l : 0 <= le_decode l < 256 ^ zlen l.
Proof.
  induction l as [|b l IH]; cbn [le_decode].
  - unfold zlen. cbn. lia.
  - rewrite zlen_cons. pose proof (zlen_nonneg l).
    rewrite Z.pow_add_r, Z.pow_1_r by lia. pose proof (b2z_bound b). lia.
Qed.

Lemma le_encode_decode l : le_encode (length l) (le_decode l) = l.
Proof.
  induction l as [|b l IH]; cbn [le_encode le_decode length]; [done|].
  pose proof (b2z_bound b). f_equal.
  - apply b2z_inj. rewrite b2z_z2b, Z.mul_comm, Z_mod_plus_full.
    by apply Z.mod_small.
  - etransitivity; [|exact IH]. f_equal.
    rewrite Z.mul_comm, Z.div_add, Z.div_small by lia. lia.
Qed.

(** [int16ToBytes], [int64ToBytes]: the value is reinterpreted as unsigned
    first, which keeps the low bits. *)
Lemma le_decode_encode_u n z :
  in_u (8 * Z.of_nat n) z -> le_decode (le_encode n z) = z.
Proof.
  intros H. rewrite le_decode_encode. apply Z.mod_small.
  unfold in_u in H. rewrite Z.pow_mul_r in H by lia. exact H.
Qed.

(** ** The order of byte strings

    Go compares strings, and LevelDB orders keys, byte by byte. *)

Fixpoint bytes_leb (a b : bytes) : bool :=
  match a, b with
  | [], _ => true
  | _ :: _, [] => false
  | x :: a, y :: b => if b2z x <? b2z y then true else if b2z x =? b2z y then bytes_leb a b else false
  end.

Definition bytes_le (a b : bytes) : Prop := bytes_leb a b = true.
#[global] Instance bytes_le_dec a b : Decision (bytes_le a b).
Proof. unfold bytes_le; apply _. Defined.

#[global] Instance bytes_le_total : Total bytes_le.
Proof.
  intros a. induction a as [|x a IH]; intros [|y b]; unfold bytes_le; cbn; auto.
  destruct (Z.ltb_spec (b2z x) (b2z y)), (Z.ltb_spec (b2z y) (b2z x)); auto.
  assert (b2z x = b2z y) as -> by lia. rewrite Z.eqb_refl. apply IH.
Qed.

#[global] Instance bytes_le_trans : Transitive bytes_le.
Proof.
  intros a. induction a as [|x a IH]; intros [|y b] [|z c]; unfold bytes_le; cbn; try done.
  destruct (Z.ltb_spec (b2z x) (b2z y)), (Z.ltb_spec (b2z y) (b2z z)), (Z.ltb_spec (b2z x) (b2z z));
    try done; try lia; destruct (Z.eqb_spec (b2z x) (b2z y)), (Z.eqb_spec (b2z y) (b2z z)),
    (Z.eqb_spec (b2z x) (b2z z)); try done; try lia. apply IH.
Qed.

#[global] Instance bytes_le_antisymm : AntiSymm (=) bytes_le.
Proof.
  intros a. induction a as [|x a IH]; intros [|y b]; unfold bytes_le; cbn; try done.
  destruct (Z.ltb_spec (b2z x) (b2z y)), (Z.ltb_spec (b2z y) (b2z x)); try lia.
  - destruct (Z.eqb_spec (b2z y) (b2z x)); [lia|done].
  - destruct (Z.eqb_spec (b2z x) (b2z y)); [lia|done].
  - destruct (Z.eqb_spec (b2z x) (b2z y)) as [E|], (Z.eqb_spec (b2z y) (b2z x)); try done.
    apply b2z_inj in E as ->. intros. f_equal. by apply IH.
Qed.

(** ** Tactics *)

(** Invert a computation that returned [Ok]: every call it made returned [Ok]
    and every error branch was not taken. *)
Ltac inv_ok H :=
  repeat match type of H with
  | res_bind ?r _ = Ok _ =>
      let E := fresh "E" in
      destruct r eqn:E; cbn [res_bind] in H; [|discriminate H|discriminate H]
  | (if ?b then _ else _) = Ok _ =>
      let E := fresh "E" in destruct b eqn:E; try discriminate H
  end.

(** ** Automation

    [go] holds the facts about lengths and wrapped integers that side
    conditions ask for, and rewrites lengths of appended lists. *)
Create HintDb go.
Create Rewrite HintDb golen.
#[export] Hint Resolve zlen_nonneg b2z_bound uwrap_bound swrap_bound in_eq : go.
#[export] Hint Rewrite @zlen_app @zlen_nil @zlen_cons @zlen_le_encode : golen.

(** Solve an arithmetic goal about lengths. *)
Ltac zlen_lia := autorewrite with golen in *; lia.

(** Run the next call of a monadic goal, of which [E] says what it returns. *)
Ltac run E := rewrite (m_bind_ok _ _ _ _ _ E).

(** ** Filtering *)

Lemma filter_iff_list {A} (P Q : A -> Prop) `{!forall x, Decision (P x), !forall x, Decision (Q x)} (l : list A) :
  (forall x, x ∈ l -> P x <-> Q x) -> filter P l = filter Q l.
Proof.
  induction l as [|x l IH]; [done|]. intros Hiff. rewrite !filter_cons.
  rewrite IH by (intros y Hy; apply Hiff; by constructor).
  assert (P x <-> Q x) as Hx by (apply Hiff; constructor).
  destruct (decide (P x)), (decide (Q x)); tauto.
Qed.
