(* ===== verification/Frame.v ===== *)
(** * Wire frames of the SWIM transport

    Models [offchain-interface/pkg/transport/swim/frame.go]: the frame record,
    its binary encoding with an IEEE CRC-32 trailer, the decoder with every
    bounds check it makes, and the data budget of a frame for a given MTU.
    [hash/crc32] is modelled bit by bit, so frames evaluate to the bytes that
    are put on the wire. *)

From S2P Require Import Prelude.

(** ** [crc32.ChecksumIEEE] *)
Module Crc32.

Definition poly : Z := 0xEDB88320.

Definition shift1 (crc : Z) : Z :=
  if Z.odd crc then Z.lxor (Z.shiftr crc 1) poly else Z.shiftr crc 1.

Definition update1 (crc : Z) (b : byte) : Z :=
  Nat.iter 8 shift1 (Z.lxor crc (b2z b)).

Definition ChecksumIEEE (data : bytes) : Z :=
  Z.lxor (foldl update1 0xFFFFFFFF data) 0xFFFFFFFF.

(** The published check value of CRC-32/IEEE. *)
Example check_value : ChecksumIEEE (bz "123456789") = 0xCBF43926.
Proof. vm_compute. reflexivity. Qed.

Lemma lxor_u32 a b : in_u 32 a -> in_u 32 b -> in_u 32 (Z.lxor a b).
Proof.
  unfold in_u. intros [Ha1 Ha2] [Hb1 Hb2].
  assert (Hnn : 0 <= Z.lxor a b) by (apply Z.lxor_nonneg; lia).
  split; [done|].
  destruct (Z.eq_dec (Z.lxor a b) 0) as [->|Hne]; [lia|].
  apply Z.log2_lt_pow2; [lia|].
  eapply Z.le_lt_trans; [by apply Z.log2_lxor|].
  apply Z.max_lub_lt.
  - destruct (Z.eq_dec a 0) as [->|]; [done|]. apply Z.log2_lt_pow2; lia.
  - destruct (Z.eq_dec b 0) as [->|]; [done|]. apply Z.log2_lt_pow2; lia.
Qed.

Lemma shift1_u32 crc : in_u 32 crc -> in_u 32 (shift1 crc).
Proof.
  intros H. unfold shift1.
  assert (in_u 32 (Z.shiftr crc 1)).
  { unfold in_u in *. rewrite Z.shiftr_div_pow2 by lia.
    change (2 ^ 1) with 2. split; [apply Z.div_pos; lia|].
    apply Z.div_lt_upper_bound; lia. }
  destruct (Z.odd crc); [|done]. by apply lxor_u32.
Qed.

Lemma ChecksumIEEE_u32 data : in_u 32 (ChecksumIEEE data).
Proof.
  unfold ChecksumIEEE. apply lxor_u32; [|done].
  assert (Hi : in_u 32 0xFFFFFFFF) by done.
  revert Hi. generalize 0xFFFFFFFF. induction data as [|b data IH]; [done|].
  intros crc Hc. cbn [foldl]. apply IH. unfold update1.
  assert (H0 : in_u 32 (Z.lxor crc (b2z b))).
  { apply lxor_u32; [done|]. pose proof (b2z_bound b). unfold in_u. lia. }
  revert H0. generalize (Z.lxor crc (b2z b)). intros z Hz.
  apply Nat.iter_invariant; [apply shift1_u32|done].
Qed.

End Crc32.

(** ** Frames *)
Module Frame.

(** The constructor is the function [newFrame] of the source. *)
Record frame : Type := newFrame {
  IsCompressed : bool;
  StreamId : bytes; (* uuid.UUID, sixteen bytes *)
  FrameNumber : Z;  (* uint16 *)
  IsLast : bool;
  Source : bytes;
  Data : bytes
}.

#[global] Instance frame_eq_dec : EqDecision frame.
Proof. solve_decision. Defined.

(** The values a Go [frame] can hold whose lengths fit their wire fields. *)
Definition frame_ok (f : frame) : Prop :=
  length (StreamId f) = 16%nat /\ in_u 16 (FrameNumber f) /\
  in_u 16 (zlen (Source f)) /\ in_u 32 (zlen (Data f)).

Definition ErrChecksumMismatch : error := Sentinel (bz "checksum mismatch").
Definition ErrUnexpectedEOF : error := Sentinel (bz "unexpected EOF").
Definition ErrMtuTooSmall : error := Sentinel (bz "mtu too small").

Definition flag (b : bool) : byte := if b then z2b 1 else z2b 0.

(** Everything before the checksum. [le_encode] keeps the low bits, which is
    what the conversions [uint16(len(..))] and [uint32(len(..))] do. *)
Definition frame_body (f : frame) : bytes :=
  [flag (IsCompressed f)] ++ StreamId f ++ le_encode 2 (FrameNumber f) ++
  [flag (IsLast f)] ++ le_encode 2 (zlen (Source f)) ++ Source f ++
  le_encode 4 (zlen (Data f)) ++ Data f.

(** Writes to a [bytes.Buffer] do not fail. *)
Definition frame_Marshal (f : frame) : result bytes :=
  let buf := frame_body f in
  let checksum := Crc32.ChecksumIEEE buf in
  Ok (buf ++ le_encode 4 checksum).

(** [spare] is the part of the backing array after the slice: the slice
    expressions of Go are bounded by the capacity and not by the length. *)
Definition frame_Unmarshal (data spare : bytes) : result frame :=
  if zlen data <? 27 then Err ErrUnexpectedEOF else
  let* b0 := index data 0 in
  let offset := 1 in
  let* streamId := slice_cap data spare offset (offset + 16) in
  let offset := offset + 16 in
  let* frameNumber := slice_cap data spare offset (offset + 2) in
  let offset := offset + 2 in
  let* isLast := index data offset in
  let offset := offset + 1 in
  let* sourceLenRaw := slice_cap data spare offset (offset + 2) in
  let sourceLen := le_decode sourceLenRaw in
  let offset := offset + 2 in
  if zlen data <? offset + sourceLen then Err ErrUnexpectedEOF else
  let* source := slice_cap data spare offset (offset + sourceLen) in
  let offset := offset + sourceLen in
  if zlen data <? offset + 2 then Err ErrUnexpectedEOF else
  let* dataLenRaw := slice_cap data spare offset (offset + 4) in
  let dataLen := le_decode dataLenRaw in
  let offset := offset + 4 in
  if zlen data <? offset + dataLen then Err ErrUnexpectedEOF else
  let* payload := slice_cap data spare offset (offset + dataLen) in
  let offset := offset + dataLen in
  if zlen data <? offset + 4 then Err ErrUnexpectedEOF else
  let* checksumRaw := slice_cap data spare offset (offset + 4) in
  let* covered := slice_cap data spare 0 offset in
  if negb (Crc32.ChecksumIEEE covered =? le_decode checksumRaw) then Err ErrChecksumMismatch else
  Ok (newFrame (bool_decide (b2z b0 = 1)) streamId (le_decode frameNumber)
        (bool_decide (b2z isLast = 1)) source payload).

Definition header_bytes (sourceName : bytes) : Z :=
  1 + 16 + 2 + 1 + 2 + zlen sourceName + 4 + 4.

Definition calculateMaxDataBytes (mtu : Z) (sourceName : bytes) : result Z :=
  let headerBytes := header_bytes sourceName in
  if mtu <=? headerBytes then Err ErrMtuTooSmall else Ok (mtu - headerBytes).

(** ** Sizes *)

Lemma zlen_frame_body f :
  length (StreamId f) = 16%nat ->
  zlen (frame_body f) = 26 + zlen (Source f) + zlen (Data f).
Proof.
  intros H. unfold frame_body. rewrite !zlen_app, !zlen_le_encode.
  rewrite !zlen_cons, !zlen_nil. unfold zlen at 1. lia.
Qed.

Lemma zlen_frame_Marshal f m :
  length (StreamId f) = 16%nat -> frame_Marshal f = Ok m ->
  zlen m = 30 + zlen (Source f) + zlen (Data f).
Proof.
  intros H E. assert (m = frame_body f ++ le_encode 4 (Crc32.ChecksumIEEE (frame_body f)))
    as -> by (unfold frame_Marshal in E; cbv zeta in E; congruence).
  rewrite zlen_app, zlen_frame_body, zlen_le_encode by done. lia.
Qed.

(** ** Field access in an encoded frame *)

Lemma flag_is_1 b : bool_decide (b2z (flag b) = 1) = b.
Proof. by destruct b. Qed.

Lemma nth_slice {A} (a b c spare : list A) data lo hi :
  data = a ++ b ++ c -> zlen a = lo -> zlen a + zlen b = hi ->
  slice_cap data spare lo hi = Ok b.
Proof. intros -> <- <-. by apply slice_cap_ok. Qed.

Lemma nth_index {A} (a b : list A) x data i :
  data = a ++ x :: b -> zlen a = i -> index data i = Ok x.
Proof. intros -> <-. by apply index_ok. Qed.

Lemma ltb_ge a b : b <= a -> (a <? b) = false.
Proof. intros. by apply Z.ltb_ge. Qed.

Ltac solve_zlen :=
  rewrite <- ?app_assoc, ?zlen_app, ?zlen_cons, ?zlen_nil; done || lia.

(** Read the field [fld] that lies between [pre] and [post]. *)
Ltac read_slice pre fld post :=
  rewrite (nth_slice pre fld post) by solve_zlen; cbn [res_bind].
Ltac read_index pre x post :=
  rewrite (nth_index pre post x) by solve_zlen; cbn [res_bind].

(** An encoded frame with its fields named, in the nesting [frame_Unmarshal]
    reads them. *)
Lemma Unmarshal_fields c sid fn l sl src dl dat ck rest spare :
  zlen sid = 16 -> zlen fn = 2 -> zlen sl = 2 -> le_decode sl = zlen src ->
  zlen dl = 4 -> le_decode dl = zlen dat -> zlen ck = 4 ->
  let body := [c] ++ sid ++ fn ++ [l] ++ sl ++ src ++ dl ++ dat in
  frame_Unmarshal (body ++ ck ++ rest) spare =
  if Crc32.ChecksumIEEE body =? le_decode ck
  then Ok (newFrame (bool_decide (b2z c = 1)) sid (le_decode fn)
             (bool_decide (b2z l = 1)) src dat)
  else Err ErrChecksumMismatch.
Proof.
  intros Hsid Hfn Hsl Hsrc Hdl Hdat Hck body.
  assert (Hbody : zlen body = 26 + zlen src + zlen dat).
  { unfold body. rewrite !zlen_app, !zlen_cons, !zlen_nil. lia. }
  pose proof (zlen_nonneg src) as Hs0. pose proof (zlen_nonneg dat) as Hd0.
  pose proof (zlen_nonneg rest) as Hr0.
  assert (Hall : zlen (body ++ ck ++ rest) = 30 + zlen src + zlen dat + zlen rest).
  { rewrite !zlen_app. lia. }
  unfold frame_Unmarshal. rewrite Hall, !ltb_ge by lia. unfold body.
  read_index (@nil byte) c (sid ++ fn ++ [l] ++ sl ++ src ++ dl ++ dat ++ ck ++ rest).
  read_slice [c] sid (fn ++ [l] ++ sl ++ src ++ dl ++ dat ++ ck ++ rest).
  read_slice ([c] ++ sid) fn ([l] ++ sl ++ src ++ dl ++ dat ++ ck ++ rest).
  read_index ([c] ++ sid ++ fn) l (sl ++ src ++ dl ++ dat ++ ck ++ rest).
  read_slice ([c] ++ sid ++ fn ++ [l]) sl (src ++ dl ++ dat ++ ck ++ rest).
  rewrite Hsrc, ltb_ge by lia.
  read_slice ([c] ++ sid ++ fn ++ [l] ++ sl) src (dl ++ dat ++ ck ++ rest).
  rewrite ltb_ge by lia.
  read_slice ([c] ++ sid ++ fn ++ [l] ++ sl ++ src) dl (dat ++ ck ++ rest).
  rewrite Hdat, ltb_ge by lia.
  read_slice ([c] ++ sid ++ fn ++ [l] ++ sl ++ src ++ dl) dat (ck ++ rest).
  rewrite ltb_ge by lia.
  rewrite (nth_slice body ck rest spare) by (done || lia).
  cbn [res_bind].
  rewrite (nth_slice [] body (ck ++ rest) spare) by (done || (rewrite zlen_nil; lia)).
  cbn [res_bind]. by destruct (_ =? _).
Qed.

(** ** Reading back what was read *)

Lemma slice_cap_in {A} (data spare : list A) lo hi :
  0 <= lo <= hi -> hi <= zlen data + zlen spare ->
  slice_cap data spare lo hi =
  Ok (take (Z.to_nat (hi - lo)) (drop (Z.to_nat lo) (data ++ spare))).
Proof.
  intros ? ?. unfold slice_cap. by rewrite !(proj2 (Z.leb_le _ _)) by lia.
Qed.

Lemma slice_cap_inv {A} (data spare : list A) lo hi b :
  slice_cap data spare lo hi = Ok b ->
  0 <= lo <= hi /\ hi <= zlen data + zlen spare /\ zlen b = hi - lo.
Proof.
  unfold slice_cap. destruct (_ && _) eqn:E; [|done].
  rewrite !andb_true_iff, !Z.leb_le in E. destruct E as [[? ?] ?].
  intros [= <-]. split_and!; [done..|]. unfold zlen in *.
  rewrite length_take, length_drop, length_app. lia.
Qed.

(** Inside the slice, a field is followed by what comes after it. *)
Lemma slice_cap_drop {A} (data spare : list A) lo hi b :
  slice_cap data spare lo hi = Ok b -> hi <= zlen data ->
  drop (Z.to_nat lo) data = b ++ drop (Z.to_nat hi) data.
Proof.
  intros H Hhi. pose proof (slice_cap_inv _ _ _ _ _ H) as (? & ? & ?).
  rewrite slice_cap_in in H by done. injection H as <-.
  rewrite drop_app_le, take_app_le by (unfold zlen in *; rewrite ?length_drop; lia).
  rewrite <- (take_drop (Z.to_nat (hi - lo)) (drop (Z.to_nat lo) data)) at 1.
  rewrite drop_drop. do 2 f_equal. lia.
Qed.

Lemma index_drop {A} (data : list A) i x :
  index data i = Ok x -> 0 <= i /\ drop (Z.to_nat i) data = x :: drop (Z.to_nat (i + 1)) data.
Proof.
  unfold index. destruct (0 <=? i) eqn:E; [|done]. apply Z.leb_le in E.
  destruct (data !! Z.to_nat i) as [y|] eqn:L; [|done]. intros [= ->].
  split; [done|]. rewrite (drop_S _ _ _ L). f_equal. f_equal. lia.
Qed.

(** ** Theorems *)

Lemma Unmarshal_Marshal (f : frame) (rest spare : bytes) :
  frame_ok f ->
  exists m, frame_Marshal f = Ok m /\ frame_Unmarshal (m ++ rest) spare = Ok f.
Proof.
  intros (Hid & Hfn & Hsrc & Hdat). eexists. split; [reflexivity|].
  rewrite <- app_assoc. fold (frame_body f).
  assert (Hid' : zlen (StreamId f) = 16) by (unfold zlen; by rewrite Hid).
  pose proof (Unmarshal_fields (flag (IsCompressed f)) (StreamId f)
    (le_encode 2 (FrameNumber f)) (flag (IsLast f)) (le_encode 2 (zlen (Source f)))
    (Source f) (le_encode 4 (zlen (Data f))) (Data f)
    (le_encode 4 (Crc32.ChecksumIEEE (frame_body f))) rest spare) as H.
  fold (frame_body f) in H. cbv zeta in H.
  rewrite !zlen_le_encode, !le_decode_encode_u, !flag_is_1, Z.eqb_refl in H
    by first [done | apply Crc32.ChecksumIEEE_u32].
  rewrite H by done. by destruct f.
Qed.

(** Decoding an encoded frame gives the frame back, whatever bytes follow it
    in the packet and in the backing array. *)
Theorem frame_round_trip (f : frame) (rest spare : bytes) :
  frame_ok f ->
  exists m, frame_Marshal f = Ok m /\ frame_Unmarshal (m ++ rest) spare = Ok f.
Proof. apply Unmarshal_Marshal. Qed.

(** A re-encoded field: the encoder writes the bytes the decoder read. *)
Lemma le_encode_read n l v :
  zlen l = Z.of_nat n -> v = le_decode l -> le_encode n v = l.
Proof. intros H ->. rewrite <- (le_encode_decode l) at 2. f_equal. unfold zlen in H. lia. Qed.

(** A frame is accepted only when its bytes are a well-formed body followed by
    the body's own checksum. *)
Lemma Unmarshal_inv data spare f :
  frame_Unmarshal data spare = Ok f ->
  exists c l rest,
    let body := [c] ++ StreamId f ++ le_encode 2 (FrameNumber f) ++ [l] ++
      le_encode 2 (zlen (Source f)) ++ Source f ++ le_encode 4 (zlen (Data f)) ++ Data f in
    data = body ++ le_encode 4 (Crc32.ChecksumIEEE body) ++ rest /\
    IsCompressed f = bool_decide (b2z c = 1) /\ IsLast f = bool_decide (b2z l = 1) /\
    frame_ok f.
Proof.
  unfold frame_Unmarshal. intros H. inv_ok H. injection H as <-.
  cbn [StreamId FrameNumber Source Data IsCompressed IsLast].
  rewrite Z.ltb_ge in E, E5, E7, E9, E11. apply negb_false_iff, Z.eqb_eq in E14.
  pose proof (le_decode_bound a3) as B3. pose proof (le_decode_bound a5) as B5.
  pose proof (le_decode_bound a1) as B1.
  pose proof (slice_cap_inv _ _ _ _ _ E1) as (_ & _ & L0).
  pose proof (slice_cap_inv _ _ _ _ _ E2) as (_ & _ & L1).
  pose proof (slice_cap_inv _ _ _ _ _ E4) as (_ & _ & L3).
  pose proof (slice_cap_inv _ _ _ _ _ E6) as (_ & _ & L4).
  pose proof (slice_cap_inv _ _ _ _ _ E8) as (_ & _ & L5).
  pose proof (slice_cap_inv _ _ _ _ _ E10) as (_ & _ & L6).
  pose proof (slice_cap_inv _ _ _ _ _ E12) as (_ & _ & L7).
  apply index_drop in E0 as [_ E0], E3 as [_ E3]. change (0 + 1) with 1 in E0.
  apply slice_cap_drop in E1, E2, E4, E6, E8, E10, E12, E13; [|lia..].
  rewrite (le_encode_read 2 a1), (le_encode_read 2 a3), (le_encode_read 4 a5) by lia.
  set (body := [a] ++ a0 ++ a1 ++ [a2] ++ a3 ++ a4 ++ a5 ++ a6).
  assert (Hd : data = body ++ a7 ++ drop (Z.to_nat (1 + 16 + 2 + 1 + 2 + le_decode a3 + 4 + le_decode a5 + 4)) data).
  { change data with (drop (Z.to_nat 0) data) at 1. rewrite E0, E1, E2, E3, E4, E6, E8, E10, E12.
    unfold body. by rewrite <- !app_assoc. }
  assert (a8 = body) as ->.
  { rewrite E12 in E13. change (drop (Z.to_nat 0) data) with data in E13.
    rewrite Hd in E13 at 1. by apply app_inv_tail in E13. }
  exists a, a2. eexists. fold body. rewrite (le_encode_read 4 a7) by lia.
  split_and!; [exact Hd|done..|]. unfold frame_ok, in_u; cbn.
  replace (zlen a1) with 2 in B1 by lia. replace (zlen a3) with 2 in B3 by lia.
  replace (zlen a5) with 4 in B5 by lia. unfold zlen in L0. lia.
Qed.

(** The two flag bytes of a received frame are the ones [Marshal] writes. *)
Definition canonical_flags (data : bytes) : Prop :=
  exists c l, data !! 0%nat = Some (flag c) /\ data !! 19%nat = Some (flag l).

Lemma flag_of_byte b : flag (bool_decide (b2z (flag b) = 1)) = flag b.
Proof. by destruct b. Qed.

(** A packet whose flag bytes are 0 or 1 is accepted as [f] only if it is the
    encoding of [f], possibly followed by further bytes: no two frames share an
    encoding and nothing but an encoding is accepted. *)
Theorem frame_accepts_only_encodings (data spare : bytes) (f : frame) :
  canonical_flags data -> frame_Unmarshal data spare = Ok f ->
  frame_ok f /\ exists m rest, frame_Marshal f = Ok m /\ data = m ++ rest.
Proof.
  intros (c & l & Hc & Hl) H.
  apply Unmarshal_inv in H as (c' & l' & rest & Hd & Fc & Fl & Hok).
  split; [done|]. destruct Hok as (Hid & _).
  assert (c' = flag c) as -> by (rewrite Hd in Hc; cbn in Hc; congruence).
  assert (l' = flag l) as ->.
  { cbv zeta in Hd. rewrite <- !app_assoc in Hd.
    rewrite Hd, 3!lookup_app_r, Hid, length_le_encode in Hl
      by (rewrite ?Hid, ?length_le_encode; cbn; lia).
    cbn in Hl. congruence. }
  eexists _, rest. split; [reflexivity|].
  assert (Hb : frame_body f = [flag c] ++ StreamId f ++ le_encode 2 (FrameNumber f) ++ [flag l] ++
      le_encode 2 (zlen (Source f)) ++ Source f ++ le_encode 4 (zlen (Data f)) ++ Data f).
  { unfold frame_body. by rewrite Fc, Fl, !flag_of_byte. }
  cbv zeta in Hd. rewrite <- Hb in Hd. by rewrite <- app_assoc.
Qed.

(** The source length a packet claims. *)
Definition claimed_source_len (data : bytes) : Z := le_decode (take 2 (drop 20 data)).

(** Exactly which packets make the decoder panic: those whose header and
    source name leave fewer than four bytes for the data length in the backing
    array, although at least two of them are in the packet.  The guard before
    the four-byte read asks for two bytes only. *)
Theorem frame_Unmarshal_panics_iff (data spare : bytes) :
  is_panic (frame_Unmarshal data spare) = true <->
  27 <= zlen data /\
  22 + claimed_source_len data + 2 <= zlen data /\
  zlen data + zlen spare < 22 + claimed_source_len data + 4.
Proof.
  unfold frame_Unmarshal. pose proof (zlen_nonneg spare) as Hsp.
  destruct (Z.ltb_spec (zlen data) 27) as [|Hlen]; [cbn; split; [done|lia]|].
  assert (Hidx : forall i, 0 <= i < 27 -> exists x, index data i = Ok x).
  { intros i Hi. unfold index. rewrite (proj2 (Z.leb_le _ _)) by lia.
    destruct (data !! Z.to_nat i) eqn:E; eauto.
    apply lookup_ge_None in E. unfold zlen in Hlen. lia. }
  destruct (Hidx 0) as [b0 ->]; [lia|]. cbn [res_bind].
  rewrite (slice_cap_in _ _ 1), (slice_cap_in _ _ (1 + 16)) by lia. cbn [res_bind].
  destruct (Hidx (1 + 16 + 2)) as [b19 ->]; [lia|]. cbn [res_bind].
  rewrite (slice_cap_in _ _ (1 + 16 + 2 + 1)) by lia. cbn [res_bind].
  replace (le_decode _) with (claimed_source_len data).
  2:{ unfold claimed_source_len. f_equal. cbn.
      rewrite drop_app_le, take_app_le by (unfold zlen in Hlen; rewrite ?length_drop; lia). done. }
  pose proof (le_decode_bound (take 2 (drop 20 data))) as [Hsl _].
  fold (claimed_source_len data) in Hsl.
  generalize dependent (claimed_source_len data). intros sl Hsl.
  destruct (Z.ltb_spec (zlen data) (1 + 16 + 2 + 1 + 2 + sl)); [cbn; split; [done|lia]|].
  rewrite (slice_cap_in _ _ (1 + 16 + 2 + 1 + 2)) by lia. cbn [res_bind].
  destruct (Z.ltb_spec (zlen data) (1 + 16 + 2 + 1 + 2 + sl + 2)); [cbn; split; [done|lia]|].
  destruct (Z.le_gt_cases (1 + 16 + 2 + 1 + 2 + sl + 4) (zlen data + zlen spare)) as [Hc|Hc].
  - split; [|lia]. rewrite (slice_cap_in _ _ (1 + 16 + 2 + 1 + 2 + sl)) by lia. cbn [res_bind].
    match goal with |- context [le_decode ?x] =>
      pose proof (le_decode_bound x) as [Hdl _]; generalize dependent (le_decode x) end.
    intros dl Hdl. destruct (Z.ltb_spec (zlen data) (1 + 16 + 2 + 1 + 2 + sl + 4 + dl)); [done|].
    rewrite slice_cap_in by lia. cbn [res_bind].
    destruct (Z.ltb_spec (zlen data) (1 + 16 + 2 + 1 + 2 + sl + 4 + dl + 4)); [done|].
    rewrite !slice_cap_in by lia. cbn [res_bind]. by destruct (negb _).
  - split; [lia|]. intros _. unfold slice_cap at 1.
    rewrite (proj2 (Z.leb_gt _ (zlen data + zlen spare))) by lia.
    by rewrite andb_false_r.
Qed.

(** ** Evaluation *)

Definition example_frame : frame :=
  newFrame false (replicate 16 (z2b 7)) 3 true (bz "node0") (bz "hello").

Definition example_packet : bytes :=
  match frame_Marshal example_frame with Ok m => m | _ => [] end.

Lemma frame_round_trip_witness :
  frame_ok example_frame /\
  exists m, frame_Marshal example_frame = Ok m /\
            frame_Unmarshal (m ++ bz "xyz") [] = Ok example_frame.
Proof.
  assert (H : frame_ok example_frame) by (vm_compute; repeat split; congruence).
  split; [exact H|exact (frame_round_trip example_frame (bz "xyz") [] H)].
Defined.

Lemma frame_accepts_only_encodings_witness :
  canonical_flags example_packet /\ frame_Unmarshal example_packet [] = Ok example_frame /\
  frame_ok example_frame.
Proof.
  assert (Hc : canonical_flags example_packet)
    by (exists false, true; split; vm_compute; reflexivity).
  assert (Hu : frame_Unmarshal example_packet [] = Ok example_frame)
    by (vm_compute; reflexivity).
  split; [exact Hc|split; [exact Hu|]].
  exact (proj1 (frame_accepts_only_encodings example_packet [] example_frame Hc Hu)).
Defined.

(** A 27-byte packet that claims a three-byte source name: the two bytes after
    the name pass the guard and the four-byte read leaves the packet. *)
Example short_packet_panics :
  is_panic (frame_Unmarshal (replicate 20 (z2b 0) ++ [z2b 3; z2b 0] ++ bz "abc" ++ replicate 2 (z2b 0)) [])
  = true.
Proof. vm_compute. reflexivity. Qed.

(** One flipped bit is detected. *)
Example corrupted_packet_rejected :
  frame_Unmarshal (<[25%nat := z2b 255]> example_packet) [] = Err ErrChecksumMismatch.
Proof. vm_compute. reflexivity. Qed.

End Frame.
