(* ===== verification/FrameQueue.v ===== *)
(** * Fragmentation and reassembly of messages

    Models [offchain-interface/pkg/transport/swim/frameset.go] (the sender's
    [frameQueue], which cuts a message into numbered frames and compresses it
    when it does not fit one frame) and [framesetdecoder.go] (the receiver's
    [frameQueueDecoder], which collects the frames of one stream).  The zlib
    codec of the Go library is an interface with the law that inflating undoes
    deflating. *)

From S2P Require Import Prelude Frame.
Import Frame.

(** ** The compressor *)

Class Zlib : Type := {
  zlib_deflate : bytes -> result bytes; (* zlib.NewWriter, Write, Close *)
  zlib_inflate : bytes -> result bytes  (* zlib.NewReader, io.Copy *)
}.

Class ZlibLaws (Z0 : Zlib) : Prop :=
  zlib_inverse : forall data, exists c, zlib_deflate data = Ok c /\ zlib_inflate c = Ok data.

Definition compress `{Zlib} (data : bytes) : result bytes :=
  let* buf := zlib_deflate data in Ok buf.

Definition decompress `{Zlib} (data : bytes) : result bytes :=
  let* buf := zlib_inflate data in Ok buf.

Definition MaxFrameCount : Z := 64.

Definition EOF : error := Sentinel (bz "EOF").
Definition ErrMixedCompression : error := Sentinel (bz "mixed compression").
Definition ErrMaxFrameCountExceeded : error := Sentinel (bz "max frame count exceeded").

(** ** The sender *)
Module FrameQueue.
Section Sender.
Context `{Zlib}.

Record frameQueue : Type := mkFrameQueue {
  fq_id : bytes;
  fq_sourceName : bytes;
  fq_bytes : bytes;
  fq_compressed : bool;
  fq_offset : Z;      (* uint *)
  fq_frameNumber : Z  (* uint16 *)
}.

(** [id] is the fresh [uuid.New()]. *)
Definition newFrameQueue (id sourceName bytes : bytes) : frameQueue :=
  mkFrameQueue id sourceName bytes false 0 0.

Definition ResetReader (fq : frameQueue) : frameQueue :=
  mkFrameQueue (fq_id fq) (fq_sourceName fq) (fq_bytes fq) (fq_compressed fq) 0 0.

Definition Next (fq : frameQueue) (mtu : Z) : frameQueue * result frame :=
  if zlen (fq_bytes fq) <=? fq_offset fq then (fq, Err EOF) else
  if MaxFrameCount <=? fq_frameNumber fq then (fq, Err ErrMaxFrameCountExceeded) else
  let isFirstFrame := fq_frameNumber fq =? 0 in
  match calculateMaxDataBytes mtu (fq_sourceName fq) with
  | Err e => (fq, Err e)
  | Panic w => (fq, Panic w)
  | Ok availBytes =>
    if availBytes <? 1 then (fq, Err ErrMtuTooSmall) else
    let compressing := isFirstFrame && (availBytes <? zlen (fq_bytes fq)) && negb (fq_compressed fq) in
    match (if compressing then compress (fq_bytes fq) else Ok (fq_bytes fq)) with
    | Err e => (fq, Err e)
    | Panic w => (fq, Panic w)
    | Ok bytes =>
      let compressed := compressing || fq_compressed fq in
      let end0 := u64 (fq_offset fq + availBytes) in
      let isLast := zlen bytes <=? end0 in
      let end1 := if zlen bytes <? end0 then zlen bytes else end0 in
      match slice_cap bytes [] (fq_offset fq) end1 with
      | Ok data =>
          (mkFrameQueue (fq_id fq) (fq_sourceName fq) bytes compressed end1 (u16 (fq_frameNumber fq + 1)),
           Ok (newFrame compressed (fq_id fq) (fq_frameNumber fq) isLast (fq_sourceName fq) data))
      | Err e => (mkFrameQueue (fq_id fq) (fq_sourceName fq) bytes compressed (fq_offset fq) (fq_frameNumber fq), Err e)
      | Panic w => (mkFrameQueue (fq_id fq) (fq_sourceName fq) bytes compressed (fq_offset fq) (fq_frameNumber fq), Panic w)
      end
    end
  end.

(** The frames a sequence of calls to [Next] hands out before [io.EOF], if it
    reaches [io.EOF] without another error; each call may get another MTU. *)
Fixpoint frames_until_eof (fq : frameQueue) (mtus : list Z) : option (list frame) :=
  match mtus with
  | [] => None
  | mtu :: mtus =>
      match Next fq mtu with
      | (fq', Ok f) => fs ← frames_until_eof fq' mtus; Some (f :: fs)
      | (_, Err e) => if decide (e = EOF) then Some [] else None
      | (_, Panic _) => None
      end
  end.

(** What the frames of one message look like on the wire: numbered from [n],
    all of one stream, the payload in order, the last one and only the last
    one marked. *)
Definition is_stream_from (n : nat) (id src : bytes) (c : bool) (payload : bytes) (fs : list frame) : Prop :=
  concat (Data <$> fs) = payload /\
  forall i f, fs !! i = Some f ->
    FrameNumber f = Z.of_nat (n + i) /\ StreamId f = id /\ IsCompressed f = c /\ Source f = src /\
    IsLast f = bool_decide (S i = length fs).

Definition is_stream := is_stream_from 0.

(** The payload of a message: the message, or its compressed form. *)
Definition payload_of (msg : bytes) (c : bool) (payload : bytes) : Prop :=
  if c then compress msg = Ok payload else payload = msg.

(** The MTUs and lengths for which [offset + availBytes] cannot wrap. *)
Definition small (z : Z) : Prop := 0 <= z < 2 ^ 63.

Lemma calculateMaxDataBytes_inv mtu src avail :
  calculateMaxDataBytes mtu src = Ok avail ->
  avail = mtu - header_bytes src /\ 0 < avail /\ avail <= mtu.
Proof.
  unfold calculateMaxDataBytes, header_bytes. pose proof (zlen_nonneg src).
  destruct (Z.leb_spec mtu (1 + 16 + 2 + 1 + 2 + zlen src + 4 + 4)); [done|].
  intros [= <-]. lia.
Qed.

Lemma slice_cap_not_err {A} (data spare : list A) lo hi e :
  slice_cap data spare lo hi <> Err e.
Proof. unfold slice_cap. by destruct (_ && _). Qed.

(** One successful call: what it consumes and what it emits. [bytes'] and [c']
    are the queue's contents after the decision to compress. *)
Lemma Next_ok fq mtu fq' f :
  Next fq mtu = (fq', Ok f) ->
  small mtu -> 0 <= fq_offset fq -> in_u 16 (fq_frameNumber fq + 1) ->
  small (zlen (fq_bytes fq')) -> fq_offset fq <= zlen (fq_bytes fq') ->
  let n := Z.min (mtu - header_bytes (fq_sourceName fq)) (zlen (fq_bytes fq') - fq_offset fq) in
  fq_id fq' = fq_id fq /\ fq_sourceName fq' = fq_sourceName fq /\
  fq_offset fq' = fq_offset fq + n /\ fq_frameNumber fq' = fq_frameNumber fq + 1 /\
  fq_frameNumber fq < MaxFrameCount /\ fq_offset fq < zlen (fq_bytes fq) /\
  0 < mtu - header_bytes (fq_sourceName fq) /\
  f = newFrame (fq_compressed fq') (fq_id fq) (fq_frameNumber fq)
        (zlen (fq_bytes fq') <=? fq_offset fq') (fq_sourceName fq)
        (take (Z.to_nat n) (drop (Z.to_nat (fq_offset fq)) (fq_bytes fq'))).
Proof.
  unfold Next. destruct (Z.leb_spec (zlen (fq_bytes fq)) (fq_offset fq)); [done|].
  destruct (Z.leb_spec MaxFrameCount (fq_frameNumber fq)); [done|].
  destruct (calculateMaxDataBytes _ _) as [avail| |] eqn:Ha; [|done..].
  apply calculateMaxDataBytes_inv in Ha as (Hav & ? & ?).
  destruct (Z.ltb_spec avail 1); [done|].
  destruct (if _ : bool then _ else _) as [b| |] eqn:Hb; [|done..]. cbv zeta.
  destruct (slice_cap b _ _ _) as [d| |] eqn:Hd; [|done..].
  intros [= <- <-] Hm Ho Hfn Hb' Hob.
  cbn [fq_id fq_sourceName fq_bytes fq_compressed fq_offset fq_frameNumber] in *.
  unfold small in *. pose proof (zlen_nonneg b).
  rewrite uwrap_id in Hd by (unfold in_u; lia). rewrite !(uwrap_id 64) by (unfold in_u; lia).
  rewrite (uwrap_id 16) by done.
  apply slice_cap_inv in Hd as Hd'. pose proof (@zlen_nil byte) as Hnil.
  set (end1 := if zlen b <? fq_offset fq + avail then zlen b else fq_offset fq + avail) in *.
  assert (He : end1 = fq_offset fq + Z.min avail (zlen b - fq_offset fq)).
  { unfold end1. destruct (Z.ltb_spec (zlen b) (fq_offset fq + avail)); lia. }
  rewrite <- Hav, <- He. split_and!; try done; try lia.
  f_equal.
  - unfold end1. destruct (Z.ltb_spec (zlen b) (fq_offset fq + avail));
      rewrite ?Z.leb_refl; [by apply Z.leb_le; lia|done].
  - rewrite slice_cap_in, app_nil_r in Hd by lia.
    injection Hd as <-. do 2 f_equal. lia.
Qed.

(** The contents change only in the first call, and only by compression. *)
Lemma Next_bytes fq mtu fq' f :
  Next fq mtu = (fq', Ok f) ->
  (fq_frameNumber fq <> 0 -> fq_bytes fq' = fq_bytes fq /\ fq_compressed fq' = fq_compressed fq) /\
  (fq_compressed fq = false -> payload_of (fq_bytes fq) (fq_compressed fq') (fq_bytes fq')).
Proof.
  unfold Next. destruct (_ <=? _); [done|]. destruct (_ <=? _); [done|].
  destruct (calculateMaxDataBytes _ _) as [avail| |]; [|done..].
  destruct (avail <? 1); [done|].
  destruct (if _ : bool then _ else _) as [b| |] eqn:Hb; [|done..]. cbv zeta.
  destruct (slice_cap b _ _ _) as [d| |]; [|done..].
  intros [= <- <-]. cbn. split.
  - intros Hn. rewrite (proj2 (Z.eqb_neq _ _) Hn) in *. cbn in *. split; congruence.
  - intros Hc. rewrite Hc in *. rewrite orb_false_r. unfold payload_of.
    destruct (_ && _ && _); [done|congruence].
Qed.

Lemma Next_eof fq mtu fq' :
  Next fq mtu = (fq', Err EOF) -> (forall d, compress d <> Err EOF) ->
  zlen (fq_bytes fq) <= fq_offset fq.
Proof.
  unfold Next. destruct (Z.leb_spec (zlen (fq_bytes fq)) (fq_offset fq)); [done|].
  destruct (_ <=? _); [done|]. unfold calculateMaxDataBytes.
  destruct (_ <=? _); [done|]. destruct (_ <? 1); [done|].
  destruct (if _ : bool then _ else _) as [b|e|] eqn:Hb; cbv zeta; [..|done].
  - destruct (slice_cap b _ _ _) eqn:Hsl; [done| |done]. by apply slice_cap_not_err in Hsl.
  - intros [= <- ->] Hc. destruct (_ && _ && _); [|done]. by apply Hc in Hb.
Qed.

Lemma is_stream_cons n id src c payload last k fs :
  is_stream_from (S n) id src c (drop k payload) fs -> (fs = [] <-> last = true) ->
  is_stream_from n id src c payload
    (newFrame c id (Z.of_nat n) last src (take k payload) :: fs).
Proof.
  intros [Hcat Hpt] Hnil. split.
  - cbn [fmap list_fmap concat]. rewrite Hcat. apply take_drop.
  - intros [|i] g.
    + intros [= <-]. cbn. split_and!; [lia|done..|].
      destruct fs; cbn; [by rewrite (proj1 Hnil)|].
      destruct last; [|done]. by discriminate (proj2 Hnil eq_refl).
    + intros Hg. apply Hpt in Hg as (-> & -> & -> & -> & ->). cbn.
      split_and!; [lia|done..|]. apply bool_decide_ext. cbn. lia.
Qed.

(** The frames still to come, once the first has been sent. *)
Lemma stream_rest mtus : forall fq fs n,
  Forall small mtus -> (forall d, compress d <> Err EOF) ->
  small (zlen (fq_bytes fq)) -> 0 <= fq_offset fq <= zlen (fq_bytes fq) ->
  fq_frameNumber fq = Z.of_nat n -> (1 <= n <= 64)%nat ->
  frames_until_eof fq mtus = Some fs ->
  is_stream_from n (fq_id fq) (fq_sourceName fq) (fq_compressed fq)
    (drop (Z.to_nat (fq_offset fq)) (fq_bytes fq)) fs /\
  (fs = [] <-> zlen (fq_bytes fq) <= fq_offset fq) /\ (n + length fs <= 64)%nat.
Proof.
  induction mtus as [|mtu mtus IH]; intros fq fs n Hm Hc Hs Ho Hn Hn64; [done|].
  cbn [frames_until_eof]. apply Forall_cons_1 in Hm as [Hmtu Hm].
  destruct (Next fq mtu) as [fq' [f|e|w]] eqn:E; [|case_decide; [|done]|done].
  - destruct (frames_until_eof fq' mtus) as [fs'|] eqn:Ef; [|done]. intros [= <-].
    destruct (Next_bytes _ _ _ _ E) as [Hb _]. destruct Hb as [Hb1 Hb2]; [lia|].
    assert (Hfn : in_u 16 (fq_frameNumber fq + 1)) by (unfold in_u; lia).
    pose proof (Next_ok _ _ _ _ E Hmtu (proj1 Ho) Hfn) as Hok.
    rewrite !Hb1 in Hok. cbv zeta in Hok.
    destruct Hok as (Hid & Hsrc & Hoff & Hnum & Hlt & Hlt2 & Hav & Hf); [done|lia|].
    set (k := Z.min (mtu - header_bytes (fq_sourceName fq)) (zlen (fq_bytes fq) - fq_offset fq)) in *.
    destruct (IH fq' fs' (S n) Hm Hc) as ([Hcat Hpt] & Hnil & Hlen);
      rewrite ?Hb1, ?Hoff, ?Hnum; [done|lia| lia|unfold MaxFrameCount in Hlt; lia|done|].
    rewrite Hb1, Hb2, Hoff, Hid, Hsrc in *.
    split_and!; [|split; [done|lia]|cbn; lia].
    rewrite Hf, Hn. apply is_stream_cons; [|by rewrite Z.leb_le].
    split; [|done]. rewrite Hcat, Z2Nat.inj_add, <- drop_drop by lia. done.
  - intros [= <-]. subst e. apply Next_eof in E; [|done].
    split_and!; [split|split; [lia|done]|cbn; lia]; [|done].
    cbn. symmetry. apply drop_ge. unfold zlen in E. lia.
Qed.

(** Go lengths are values of the 64-bit type [int]. *)
Definition go_lengths (msg : bytes) : Prop :=
  forall c payload, payload_of msg c payload -> small (zlen payload).

Lemma compress_ok `{!ZlibLaws _} d : exists c, compress d = Ok c /\ decompress c = Ok d.
Proof.
  unfold compress, decompress. destruct (zlib_inverse d) as (c & -> & Hd).
  exists c. cbn. by rewrite Hd.
Qed.

Lemma compress_not_eof `{!ZlibLaws _} d : compress d <> Err EOF.
Proof. by destruct (compress_ok d) as (? & -> & _). Qed.

Lemma fragments_stream `{!ZlibLaws _} (id src msg : bytes) (mtus : list Z) (fs : list frame) :
  msg <> [] -> go_lengths msg -> Forall small mtus ->
  frames_until_eof (newFrameQueue id src msg) mtus = Some fs ->
  exists c payload, payload_of msg c payload /\ is_stream id src c payload fs /\
                    (1 <= length fs <= 64)%nat.
Proof.
  intros Hne Hg Hm. destruct mtus as [|mtu mtus]; [done|]. cbn [frames_until_eof].
  apply Forall_cons_1 in Hm as [Hmtu Hm].
  destruct (Next _ mtu) as [fq' [f|e|w]] eqn:E; [|case_decide; [|done]|done].
  - destruct (frames_until_eof fq' mtus) as [fs'|] eqn:Ef; [|done]. intros [= <-].
    pose proof (proj2 (Next_bytes _ _ _ _ E) eq_refl) as Hp. cbn [fq_bytes newFrameQueue] in Hp.
    pose proof (Hg _ _ Hp) as Hsm.
    destruct (Next_ok _ _ _ _ E Hmtu) as (Hid & Hsrc & Hoff & Hnum & _ & Hlt & Hav & Hf);
      try done; [cbn; apply zlen_nonneg|].
    cbn [fq_id fq_sourceName fq_offset fq_frameNumber newFrameQueue] in *.
    pose proof (zlen_nonneg (fq_bytes fq')).
    set (k := Z.min (mtu - header_bytes src) (zlen (fq_bytes fq') - 0)) in *.
    destruct (stream_rest mtus fq' fs' 1 Hm compress_not_eof Hsm) as ([Hcat Hpt] & Hnil & Hlen);
      [lia|done|lia|done|].
    exists (fq_compressed fq'), (fq_bytes fq'). rewrite Hid, Hsrc, Hoff in *.
    split_and!; [done| |cbn; lia|cbn; lia].
    rewrite Hf. apply is_stream_cons; [by split|by rewrite Z.leb_le].
  - subst e. apply Next_eof in E; [|apply compress_not_eof]. cbn in E. intros _.
    destruct msg; [done|]. unfold zlen in E. cbn in E. lia.
Qed.

(** The frames handed out for a message, whatever MTU each call gets, are a
    complete stream: they are numbered from zero, they carry the message (or
    its compressed form) in order, exactly the last one is marked, and there
    are between one and sixty-four of them. *)
Theorem frames_form_a_stream `{!ZlibLaws _} (id src msg : bytes) (mtus : list Z) (fs : list frame) :
  msg <> [] -> go_lengths msg -> Forall small mtus ->
  frames_until_eof (newFrameQueue id src msg) mtus = Some fs ->
  exists c payload, payload_of msg c payload /\ is_stream id src c payload fs /\
                    (1 <= length fs <= 64)%nat.
Proof. apply fragments_stream. Qed.

(** C38. A frame obtained for an MTU is never larger than that MTU on the wire. *)
Theorem Next_fits_mtu (fq fq' : frameQueue) (mtu : Z) (f : frame) (m : bytes) :
  length (fq_id fq) = 16%nat -> 0 <= fq_offset fq ->
  Next fq mtu = (fq', Ok f) -> frame_Marshal f = Ok m -> zlen m <= mtu.
Proof.
  intros Hid Ho. unfold Next. destruct (_ <=? _); [done|]. destruct (_ <=? _); [done|].
  destruct (calculateMaxDataBytes _ _) as [avail| |] eqn:Ha; [|done..].
  apply calculateMaxDataBytes_inv in Ha as (Hav & ? & ?).
  destruct (avail <? 1); [done|].
  destruct (if _ : bool then _ else _) as [b| |]; [|done..]. cbv zeta.
  destruct (slice_cap b _ _ _) as [d| |] eqn:Hd; [|done..].
  intros [= _ <-] Hmar. apply zlen_frame_Marshal in Hmar; [|exact Hid].
  rewrite Hmar. cbn.
  apply slice_cap_inv in Hd as (_ & _ & Hd). unfold header_bytes in Hav.
  assert (u64 (fq_offset fq + avail) <= fq_offset fq + avail) by (apply Z.mod_le; lia).
  destruct (Z.ltb_spec (zlen b) (u64 (fq_offset fq + avail))); lia.
Qed.

(** ** Progress *)

(** A call with room for at least one byte emits a frame. *)
Lemma Next_progress fq mtu :
  small mtu -> 0 < mtu - header_bytes (fq_sourceName fq) ->
  small (zlen (fq_bytes fq)) -> 0 <= fq_offset fq < zlen (fq_bytes fq) ->
  0 <= fq_frameNumber fq < MaxFrameCount -> fq_frameNumber fq <> 0 ->
  exists fq' f, Next fq mtu = (fq', Ok f).
Proof.
  intros Hm Hav Hs Ho Hn Hn0. unfold Next, calculateMaxDataBytes, small in *.
  rewrite (proj2 (Z.leb_gt _ _)), (proj2 (Z.leb_gt MaxFrameCount _)), (proj2 (Z.leb_gt _ _)) by lia.
  rewrite (proj2 (Z.ltb_ge _ 1)), (proj2 (Z.eqb_neq _ _) Hn0) by lia. cbn [andb]. cbv zeta.
  assert (0 <= header_bytes (fq_sourceName fq))
    by (unfold header_bytes; pose proof (zlen_nonneg (fq_sourceName fq)); lia).
  rewrite uwrap_id by (unfold in_u; lia). rewrite slice_cap_in; [by eexists _, _|..];
    destruct (Z.ltb_spec (zlen (fq_bytes fq)) (fq_offset fq + (mtu - header_bytes (fq_sourceName fq))));
    pose proof (@zlen_nil byte); lia.
Qed.

(** With a fixed MTU the rest of the queue is emitted when it fits the frames
    that are left. *)
Lemma drain_rest `{!ZlibLaws _} k : forall fq mtu n,
  small mtu -> small (zlen (fq_bytes fq)) -> 0 <= fq_offset fq <= zlen (fq_bytes fq) ->
  fq_frameNumber fq = Z.of_nat n -> (1 <= n)%nat -> (n + k = 64)%nat ->
  let avail := mtu - header_bytes (fq_sourceName fq) in
  0 < avail -> zlen (fq_bytes fq) - fq_offset fq <= Z.of_nat k * avail ->
  exists fs, frames_until_eof fq (replicate (S k) mtu) = Some fs.
Proof.
  induction k as [|k IH]; intros fq mtu n Hm Hs Ho Hn Hn1 Hk avail Hav Hfit;
    cbn [replicate frames_until_eof];
    destruct (Z.le_gt_cases (zlen (fq_bytes fq)) (fq_offset fq)) as [Hge|Hlt].
  - unfold Next. rewrite (proj2 (Z.leb_le _ _)) by lia. rewrite decide_True by done. eauto.
  - lia.
  - unfold Next. rewrite (proj2 (Z.leb_le _ _)) by lia. rewrite decide_True by done. eauto.
  - destruct (Next_progress fq mtu) as (fq' & f & E); [done..|lia| |lia|].
    { unfold MaxFrameCount. lia. }
    rewrite E. destruct (proj1 (Next_bytes _ _ _ _ E)) as [Hb1 Hb2]; [lia|].
    destruct (Next_ok _ _ _ _ E Hm) as (Hid & Hsrc & Hoff & Hnum & _);
      rewrite ?Hb1; try done; try lia; [unfold in_u; lia|].
    rewrite Hb1 in *. fold avail in Hoff.
    destruct (IH fq' mtu (S n)) as [fs Hfs]; rewrite ?Hb1, ?Hsrc; [done|done|lia|lia|lia|lia|done| |].
    + fold avail. nia.
    + exists (f :: fs). cbn [replicate frames_until_eof] in Hfs. by rewrite Hfs.
Qed.

(** The first call on a fresh queue. *)
Lemma Next_first `{!ZlibLaws _} id src msg mtu :
  msg <> [] -> go_lengths msg -> small mtu -> 0 < mtu - header_bytes src ->
  exists fq' f, Next (newFrameQueue id src msg) mtu = (fq', Ok f) /\
    fq_compressed fq' = (mtu - header_bytes src <? zlen msg).
Proof.
  intros Hne Hg Hm Hav. unfold Next, calculateMaxDataBytes, newFrameQueue. cbn -[MaxFrameCount].
  assert (Hpos : 0 < zlen msg) by (destruct msg; [done|unfold zlen; cbn; lia]).
  assert (Hh : 0 <= header_bytes src)
    by (unfold header_bytes; pose proof (zlen_nonneg src); lia).
  rewrite !(proj2 (Z.leb_gt _ _)) by (unfold MaxFrameCount; lia).
  rewrite (proj2 (Z.ltb_ge _ 1)), andb_true_r, orb_false_r, Z.add_0_l by lia.
  unfold small in Hm.
  assert (Hslice : forall b : bytes, exists d, slice_cap b [] 0
    (if zlen b <? u64 (mtu - header_bytes src) then zlen b else u64 (mtu - header_bytes src)) = Ok d).
  { intros b. rewrite uwrap_id by (unfold in_u; lia). pose proof (zlen_nonneg b).
    rewrite slice_cap_in; [by eexists|..];
      destruct (Z.ltb_spec (zlen b) (mtu - header_bytes src)); pose proof (@zlen_nil byte); lia. }
  destruct (mtu - header_bytes src <? zlen msg) eqn:Ec.
  - destruct (compress_ok msg) as (p & -> & _). destruct (Hslice p) as [d ->]. eauto.
  - destruct (Hslice msg) as [d ->]. eauto.
Qed.

(** Every message whose payload fits sixty-four frames of the given MTU is
    handed out completely: within sixty-five calls the queue reports
    [io.EOF] and no other error. *)
Theorem message_is_handed_out `{!ZlibLaws _} (id src msg : bytes) (mtu : Z) :
  msg <> [] -> go_lengths msg -> small mtu ->
  0 < mtu - header_bytes src ->
  (forall payload, payload_of msg (mtu - header_bytes src <? zlen msg) payload ->
     zlen payload <= 64 * (mtu - header_bytes src)) ->
  exists fs, frames_until_eof (newFrameQueue id src msg) (replicate 65 mtu) = Some fs.
Proof.
  intros Hne Hg Hm Hav Hfit.
  destruct (Next_first id src msg mtu) as (fq' & f & E & Hc); [done..|].
  change (replicate 65 mtu) with (mtu :: replicate 64 mtu). cbn [frames_until_eof]. rewrite E.
  pose proof (proj2 (Next_bytes _ _ _ _ E) eq_refl) as Hp. cbn [fq_bytes newFrameQueue] in Hp.
  pose proof (Hg _ _ Hp) as Hsm. rewrite Hc in Hp. apply Hfit in Hp.
  pose proof (zlen_nonneg (fq_bytes fq')).
  destruct (Next_ok _ _ _ _ E Hm) as (Hid & Hsrc & Hoff & Hnum & _); try done.
  cbn [fq_id fq_sourceName fq_offset fq_frameNumber newFrameQueue] in *.
  destruct (drain_rest 63 fq' mtu 1) as [fs Hfs]; rewrite ?Hsrc; [done|done|lia|done|lia|lia|done|lia|].
  exists (f :: fs). by rewrite Hfs.
Qed.

(** Unicast messages are sent as one frame of unlimited MTU: the first call
    returns the whole message, uncompressed and marked as the last frame. *)
Theorem jumbo_frame (id src msg : bytes) :
  msg <> [] -> small (zlen msg + header_bytes src) ->
  Next (newFrameQueue id src msg) (2 ^ 64 - 1) =
  (mkFrameQueue id src msg false (zlen msg) 1, Ok (newFrame false id 0 true src msg)).
Proof.
  intros Hne Hs. unfold Next, calculateMaxDataBytes, newFrameQueue. cbn -[MaxFrameCount Z.pow].
  assert (Hpos : 0 < zlen msg) by (destruct msg; [done|unfold zlen; cbn; lia]).
  assert (Hh : 0 <= header_bytes src)
    by (unfold header_bytes; pose proof (zlen_nonneg src); lia).
  unfold small in Hs. set (a := 2 ^ 64 - 1 - header_bytes src).
  assert (zlen msg < a) by (unfold a; lia).
  rewrite !(proj2 (Z.leb_gt _ _)) by (unfold MaxFrameCount, a in *; lia).
  rewrite !(proj2 (Z.ltb_ge _ _)) by lia. cbn [andb negb orb].
  rewrite Z.add_0_l, (uwrap_id 64) by (unfold in_u, a; lia).
  rewrite (proj2 (Z.ltb_lt _ _)), (proj2 (Z.leb_le _ _)) by lia.
  rewrite slice_cap_in by (pose proof (@zlen_nil byte); lia).
  rewrite app_nil_r, Z.sub_0_r. change (Z.to_nat 0) with 0%nat.
  rewrite drop_0, take_ge by (unfold zlen; lia). done.
Qed.

End Sender.

(** ** Evaluation, with a codec that only adds a header byte *)

Definition header_zlib : Zlib := {|
  zlib_deflate d := Ok (z2b 120 :: d);
  zlib_inflate d := match d with _ :: d => Ok d | [] => Err (NewError (bz "zlib: invalid header")) end
|}.

Lemma header_zlib_laws : ZlibLaws header_zlib.
Proof. intros d. by exists (z2b 120 :: d). Qed.

Definition example_id : bytes := replicate 16 (z2b 9).
Definition example_msg : bytes := bz "hello, world".

Lemma example_lengths : @go_lengths header_zlib example_msg.
Proof.
  intros [] p; [intros [= <-]|intros ->]; vm_compute; split; congruence.
Defined.

(** Four bytes of data per frame. *)
Definition example_mtus : list Z := replicate 65 36.

Lemma frames_form_a_stream_witness :
  exists fs, @frames_until_eof header_zlib (newFrameQueue example_id (bz "n0") example_msg) example_mtus = Some fs /\
  exists c payload, @payload_of header_zlib example_msg c payload /\
    is_stream example_id (bz "n0") c payload fs /\ (1 <= length fs <= 64)%nat.
Proof.
  eexists. split; [vm_compute; reflexivity|].
  eapply (@frames_form_a_stream header_zlib header_zlib_laws _ _ example_msg example_mtus).
  - done.
  - apply example_lengths.
  - apply Forall_replicate. vm_compute. split; congruence.
  - vm_compute. reflexivity.
Defined.

Lemma Next_fits_mtu_witness :
  exists fq' f m,
    @Next header_zlib (newFrameQueue example_id (bz "n0") example_msg) 36 = (fq', Ok f) /\
    frame_Marshal f = Ok m /\ zlen m <= 36.
Proof.
  eexists _, _, _. split; [vm_compute; reflexivity|split; [vm_compute; reflexivity|]].
  eapply (@Next_fits_mtu header_zlib (newFrameQueue example_id (bz "n0") example_msg));
    [done|cbn; lia|vm_compute; reflexivity|vm_compute; reflexivity].
Defined.

Lemma message_is_handed_out_witness :
  exists fs, @frames_until_eof header_zlib
    (newFrameQueue example_id (bz "n0") example_msg) (replicate 65 36) = Some fs.
Proof.
  apply (@message_is_handed_out header_zlib header_zlib_laws).
  - done.
  - apply example_lengths.
  - vm_compute. split; congruence.
  - vm_compute. reflexivity.
  - intros p. vm_compute. intros [= <-]. congruence.
Defined.

Lemma jumbo_frame_witness :
  @Next header_zlib (newFrameQueue example_id (bz "n0") example_msg) (2 ^ 64 - 1) =
  (mkFrameQueue example_id (bz "n0") example_msg false (zlen example_msg) 1,
   Ok (newFrame false example_id 0 true (bz "n0") example_msg)).
Proof.
  apply (@jumbo_frame header_zlib); [done|vm_compute; split; congruence].
Defined.

End FrameQueue.
