(* ===== verification/FrameDecoder.v ===== *)
(** * Reassembly of a frame stream

    Models [offchain-interface/pkg/transport/swim/framesetdecoder.go]: the
    decoder a node keeps per stream.  Its slice of frame pointers is a list of
    options; a [None] is a frame that has not arrived, and reading through it
    is the nil dereference of the source. *)

From S2P Require Import Prelude Frame FrameQueue.
Import Frame FrameQueue.

Module Decoder.
Section Receiver.
Context `{Zlib}.

Record frameQueueDecoder : Type := mkDecoder {
  d_id : bytes;
  d_receivedCount : Z; (* uint16 *)
  d_terminated : bool;
  d_isCompressed : bool;
  d_frames : list (option frame)
}.

Definition ErrFrameStreamUuidMismatch : error := Sentinel (bz "frame set UUID mismatch").
Definition ErrNotTerminated : error := Sentinel (bz "frame set not terminated").
Definition ErrNoFrames : error := Sentinel (bz "no frames received").

Definition nil_dereference : bytes := bz "invalid memory address or nil pointer dereference".

Definition newFrameQueueDecoder (id : bytes) : frameQueueDecoder :=
  mkDecoder id 0 false false [].

(** [frames] grown with nil pointers to at least [n] elements. *)
Definition extend (n : nat) (l : list (option frame)) : list (option frame) :=
  l ++ replicate (n - length l) None.

Definition ReadFrame (d : frameQueueDecoder) (f : frame) : frameQueueDecoder * option error :=
  if (MaxFrameCount <? d_receivedCount d) || (MaxFrameCount <? FrameNumber f)
  then (d, Some ErrMaxFrameCountExceeded) else
  if bool_decide (d_id d <> StreamId f)
  then (d, Some (WrapError (bz "stream id differs: ") ErrFrameStreamUuidMismatch)) else
  if negb (d_receivedCount d =? 0) && negb (eqb (d_isCompressed d) (IsCompressed f))
  then (d, Some ErrMixedCompression) else
  let isCompressed := if d_receivedCount d =? 0 then IsCompressed f else d_isCompressed d in
  let d1 := mkDecoder (d_id d) (d_receivedCount d) (d_terminated d) isCompressed (d_frames d) in
  let i := Z.to_nat (FrameNumber f) in
  match d_frames d !! i with
  | Some (Some _) => (d1, None) (* duplicate *)
  | _ =>
      let frames := extend (S i) (d_frames d) in
      (mkDecoder (d_id d) (u16 (d_receivedCount d + 1)) (d_terminated d || IsLast f) isCompressed
         (<[i := Some f]> frames), None)
  end.

(** [ReadBytes] decodes a second copy of the packet. *)
Definition ReadBytes (d : frameQueueDecoder) (data spare : bytes) : result (frameQueueDecoder * option error) :=
  match frame_Unmarshal data spare with
  | Ok f => Ok (ReadFrame d f)
  | Err e => Ok (d, Some e)
  | Panic w => Panic w
  end.

Fixpoint has_frame (frames : list (option frame)) (frameNumber : Z) : result bool :=
  match frames with
  | [] => Ok false
  | None :: _ => Panic nil_dereference
  | Some f :: frames =>
      if FrameNumber f =? frameNumber then Ok true else has_frame frames frameNumber
  end.

Definition HasReceivedFrame (d : frameQueueDecoder) (frameNumber : Z) : result bool :=
  has_frame (d_frames d) frameNumber.

Definition ReceivedAll (d : frameQueueDecoder) : bool :=
  d_terminated d && (d_receivedCount d =? u16 (zlen (d_frames d))).

Definition SourceName (d : frameQueueDecoder) : result bytes :=
  match d_frames d with
  | [] => Err ErrNoFrames
  | None :: _ => Panic nil_dereference
  | Some f :: _ => Ok (Source f)
  end.

Fixpoint join_data (frames : list (option frame)) : result bytes :=
  match frames with
  | [] => Ok []
  | None :: _ => Panic nil_dereference
  | Some f :: frames => let* rest := join_data frames in Ok (Data f ++ rest)
  end.

Definition Decode (d : frameQueueDecoder) : result bytes :=
  if negb (d_terminated d) then Err ErrNotTerminated else
  let* buf := join_data (d_frames d) in
  if d_isCompressed d then decompress buf else Ok buf.

(** Feed a sequence of frames, keeping the errors. *)
Fixpoint read_all (d : frameQueueDecoder) (fs : list frame) : frameQueueDecoder * list error :=
  match fs with
  | [] => (d, [])
  | f :: fs =>
      let '(d1, e) := ReadFrame d f in
      let '(d2, es) := read_all d1 fs in
      (d2, match e with Some e => e :: es | None => es end)
  end.

(** ** Counting the frames that are present *)

Definition count_some {A} (l : list (option A)) : nat := length (omap id l).

Lemma count_some_insert {A} (l : list (option A)) i x :
  l !! i = Some None -> count_some (<[i := Some x]> l) = S (count_some l).
Proof.
  revert i. induction l as [|o l IH]; intros [|i]; [done|done| |].
  - intros [= ->]. done.
  - intros Hi. cbn in Hi. unfold count_some in *. cbn [insert list_insert omap list_omap].
    destruct o; cbn; by rewrite IH.
Qed.

Lemma count_some_app {A} (l k : list (option A)) :
  count_some (l ++ k) = (count_some l + count_some k)%nat.
Proof. unfold count_some. by rewrite omap_app, length_app. Qed.

Lemma count_some_nones {A} n : count_some (replicate n (@None A)) = 0%nat.
Proof. by induction n. Qed.

Lemma count_some_le {A} (l : list (option A)) : (count_some l <= length l)%nat.
Proof. induction l as [|[x|] l IH]; unfold count_some in *; cbn; lia. Qed.

Lemma count_some_full {A} (l : list (option A)) :
  count_some l = length l <-> exists k, l = Some <$> k.
Proof.
  split.
  - induction l as [|[x|] l IH]; unfold count_some in *; cbn.
    + by exists [].
    + intros [= Hl]. destruct (IH Hl) as [k ->]. by exists (x :: k).
    + pose proof (count_some_le l). unfold count_some in *. lia.
  - intros [k ->]. induction k; unfold count_some in *; cbn; [done|]. by f_equal.
Qed.

(** ** The receiver's invariant

    [d] has collected frames of the stream [fs] and nothing else. *)
Section Stream.
Variables (sid src : bytes) (c : bool) (payload : bytes) (fs : list frame).
Hypothesis Hstream : is_stream sid src c payload fs.
Hypothesis Hlen : (1 <= length fs <= 64)%nat.

Definition present (d : frameQueueDecoder) (i : nat) : Prop := is_Some (mjoin (d_frames d !! i)).

Record collecting (d : frameQueueDecoder) : Prop := {
  col_id : d_id d = sid;
  col_frames : forall i f, d_frames d !! i = Some (Some f) -> fs !! i = Some f;
  col_length : (length (d_frames d) <= length fs)%nat;
  col_count : d_receivedCount d = Z.of_nat (count_some (d_frames d));
  col_last : d_terminated d = true <-> present d (length fs - 1);
  col_compressed : d_receivedCount d <> 0 -> d_isCompressed d = c
}.

Lemma collecting_new : collecting (newFrameQueueDecoder sid).
Proof.
  split; cbn; [done|done|lia|done| |done]. split; [done|]. intros [x Hx]. done.
Qed.

Lemma lookup_extend n l i :
  extend n l !! i = if decide (i < length l)%nat then l !! i
                    else if decide (i < n)%nat then Some None else None.
Proof.
  unfold extend. case_decide.
  - by apply lookup_app_l.
  - rewrite lookup_app_r by lia. case_decide.
    + apply lookup_replicate_2. lia.
    + apply lookup_ge_None. rewrite length_replicate. lia.
Qed.

Lemma length_extend n l : length (extend n l) = Nat.max n (length l).
Proof. unfold extend. rewrite length_app, length_replicate. lia. Qed.

Lemma count_extend n l : count_some (extend n l) = count_some l.
Proof. unfold extend. rewrite count_some_app, count_some_nones. lia. Qed.

(** The decoder after storing frame [i] in an empty place. *)
Definition stored (d : frameQueueDecoder) (i : nat) (f : frame) : frameQueueDecoder :=
  mkDecoder (d_id d) (u16 (d_receivedCount d + 1)) (d_terminated d || IsLast f) c
    (<[i := Some f]> (extend (S i) (d_frames d))).

(** On a frame of the stream, [ReadFrame] takes one of its two last branches. *)
Lemma ReadFrame_stream d i f :
  collecting d -> fs !! i = Some f ->
  ReadFrame d f =
  match mjoin (d_frames d !! i) with
  | Some _ => (mkDecoder (d_id d) (d_receivedCount d) (d_terminated d) c (d_frames d), None)
  | None => (stored d i f, None)
  end.
Proof.
  intros Hd Hf. pose proof (lookup_lt_Some _ _ _ Hf) as Hi.
  destruct (proj2 Hstream i f Hf) as (Hn & Hid & Hc & _ & _). rewrite Nat.add_0_l in Hn.
  pose proof (count_some_le (d_frames d)). pose proof (col_length d Hd).
  assert (Hcnt : d_receivedCount d <= MaxFrameCount) by (rewrite (col_count d Hd); unfold MaxFrameCount; lia).
  assert (Hi64 : Z.of_nat i <= MaxFrameCount) by (unfold MaxFrameCount; lia).
  apply Z.ltb_ge in Hcnt, Hi64. unfold ReadFrame. rewrite Hn, Hcnt, Hi64. cbn [orb].
  rewrite bool_decide_false, Nat2Z.id by (rewrite (col_id d Hd); auto).
  destruct (Z.eqb_spec (d_receivedCount d) 0) as [Hz|Hz]; cbn [negb andb]; [rewrite Hc|
    rewrite (col_compressed d Hd Hz), Hc, eqb_reflx];
    cbn [negb]; by destruct (d_frames d !! i) as [[g|]|].
Qed.

Lemma extend_hole d i :
  mjoin (d_frames d !! i) = None -> extend (S i) (d_frames d) !! i = Some None.
Proof.
  intros Hg. rewrite lookup_extend, (decide_True (P := (i < S i)%nat)) by lia.
  destruct (decide (i < length (d_frames d))%nat) as [Hlt|]; [|done].
  destruct (lookup_lt_is_Some_2 _ _ Hlt) as [o Ho]. rewrite Ho in *. by destruct o.
Qed.

Lemma extend_present d i j x :
  extend (S i) (d_frames d) !! j = Some (Some x) <-> d_frames d !! j = Some (Some x).
Proof.
  rewrite lookup_extend. destruct (decide (j < length (d_frames d))%nat); [done|].
  rewrite (lookup_ge_None_2 (d_frames d)) by lia. by destruct (decide (j < S i)%nat).
Qed.

Lemma present_iff d j : present d j <-> exists x, d_frames d !! j = Some (Some x).
Proof.
  unfold present. split.
  - intros [x Hx]. exists x. by destruct (d_frames d !! j) as [[?|]|]; cbn in Hx; simplify_eq.
  - intros [x ->]. by eexists.
Qed.

Lemma stored_present d i f j :
  mjoin (d_frames d !! i) = None -> present (stored d i f) j <-> j = i \/ present d j.
Proof.
  intros Hh%extend_hole. rewrite !present_iff. cbn [stored d_frames].
  destruct (decide (j = i)) as [->|Hne].
  - rewrite list_lookup_insert_eq by (by eapply lookup_lt_Some). split; [by left|by eexists].
  - rewrite list_lookup_insert_ne by done. setoid_rewrite extend_present.
    split; [by right|by intros [->|?]].
Qed.

Lemma stored_collecting d i f :
  collecting d -> fs !! i = Some f -> mjoin (d_frames d !! i) = None -> collecting (stored d i f).
Proof.
  intros Hd Hf Hnone. pose proof (lookup_lt_Some _ _ _ Hf) as Hi.
  destruct (proj2 Hstream i f Hf) as (_ & _ & _ & _ & Hlast).
  pose proof (extend_hole d i Hnone) as Hh. pose proof (col_length d Hd).
  pose proof (count_some_le (<[i := Some f]> (extend (S i) (d_frames d)))) as Hle.
  rewrite length_insert, length_extend, count_some_insert, count_extend in Hle by done.
  split; cbn [stored d_id d_receivedCount d_terminated d_isCompressed d_frames].
  - apply (col_id d Hd).
  - intros j x. destruct (decide (j = i)) as [->|Hne].
    + rewrite list_lookup_insert_eq by (by eapply lookup_lt_Some). by intros [= <-].
    + rewrite list_lookup_insert_ne, extend_present by done. apply (col_frames d Hd).
  - rewrite length_insert, length_extend. lia.
  - rewrite count_some_insert, count_extend, (col_count d Hd) by done.
    rewrite uwrap_id by (unfold in_u; lia). lia.
  - change (d_terminated d || IsLast f = true <-> present (stored d i f) (length fs - 1)).
    rewrite stored_present, <- (col_last d Hd), orb_true_iff, Hlast, bool_decide_eq_true by done.
    assert (Hl : S i = length fs <-> (length fs - 1)%nat = i) by lia. tauto.
  - done.
Qed.

(** Delivering a frame of the stream raises no error, keeps the invariant and
    makes exactly that frame present. *)
Lemma ReadFrame_collecting d i f :
  collecting d -> fs !! i = Some f ->
  exists d', ReadFrame d f = (d', None) /\ collecting d' /\
    forall j, present d' j <-> j = i \/ present d j.
Proof.
  intros Hd Hf. rewrite (ReadFrame_stream d i f Hd Hf).
  destruct (mjoin (d_frames d !! i)) as [g|] eqn:Hg; eexists; (split; [reflexivity|split]).
  - destruct Hd. by split.
  - intros j. split; [by right|]. intros [->|]; [|done]. unfold present. cbn. by rewrite Hg.
  - by apply stored_collecting.
  - intros j. by apply stored_present.
Qed.

(** Any sequence of deliveries, in any order and with repetitions. *)
Lemma read_all_collecting l : forall d,
  collecting d -> Forall (fun f => f ∈ fs) l ->
  exists d', read_all d l = (d', []) /\ collecting d' /\
    forall j, present d' j <-> present d j \/ exists f, fs !! j = Some f /\ f ∈ l.
Proof.
  induction l as [|f l IH]; intros d Hd Hl.
  - exists d. split_and!; [done..|]. intros j. split; [by left|].
    intros [?|(f & _ & Hf)]; [done|]. by apply not_elem_of_nil in Hf.
  - apply Forall_cons_1 in Hl as [Hf Hl]. apply list_elem_of_lookup in Hf as [i Hi].
    destruct (ReadFrame_collecting d i f Hd Hi) as (d1 & E & Hd1 & Hp1).
    destruct (IH d1 Hd1 Hl) as (d2 & E2 & Hd2 & Hp2).
    exists d2. cbn [read_all]. rewrite E, E2. split_and!; [done..|].
    intros j. rewrite Hp2, Hp1. split.
    + intros [[->|?]|(g & Hg & Hgl)]; [right; exists f; split; [done|left]|by left|].
      right. exists g. split; [done|by right].
    + intros [?|(g & Hg & [->|Hgl]%elem_of_cons)]; [by left; right| |by right; eauto].
      left. left. destruct (proj2 Hstream i f Hi) as (Hn & _).
      destruct (proj2 Hstream j f Hg) as (Hn' & _). lia.
Qed.

Lemma frames_full d :
  collecting d -> (forall j, (j < length fs)%nat -> present d j) -> d_frames d = Some <$> fs.
Proof.
  intros Hd Hall. apply list_eq. intros j. rewrite list_lookup_fmap.
  destruct (decide (j < length fs)%nat) as [Hj|Hj].
  - destruct (proj1 (present_iff d j) (Hall j Hj)) as [y Hy].
    by rewrite Hy, (col_frames d Hd j y Hy).
  - pose proof (col_length d Hd). rewrite !lookup_ge_None_2 by lia. done.
Qed.

(** The completion test says exactly that every frame has arrived. *)
Lemma ReceivedAll_complete d :
  collecting d -> ReceivedAll d = true <-> forall j, (j < length fs)%nat -> present d j.
Proof.
  intros Hd. pose proof (col_length d Hd) as Hdl. pose proof (count_some_le (d_frames d)) as Hle.
  unfold ReceivedAll. rewrite andb_true_iff, Z.eqb_eq, (col_count d Hd), (col_last d Hd).
  rewrite uwrap_id by (unfold in_u, zlen; lia). unfold zlen. rewrite Nat2Z.inj_iff, count_some_full.
  split.
  - intros [[x Hx]%present_iff [k Hk]] j Hj. apply present_iff.
    apply lookup_lt_Some in Hx. rewrite Hk, length_fmap in Hx. rewrite Hk.
    destruct (lookup_lt_is_Some_2 k j) as [y Hy]; [lia|].
    exists y. by rewrite list_lookup_fmap, Hy.
  - intros Hall. split; [apply Hall; lia|]. apply count_some_full.
    rewrite (frames_full d Hd Hall). apply count_some_full. eauto.
Qed.

Lemma join_data_full k : join_data (Some <$> k) = Ok (concat (Data <$> k)).
Proof. induction k as [|f k IH]; cbn in *; [done|]. by rewrite IH. Qed.

(** A complete decoder yields the payload and the source of the stream. *)
Lemma Decode_complete d :
  collecting d -> ReceivedAll d = true ->
  Decode d = (if c then decompress payload else Ok payload) /\ SourceName d = Ok src.
Proof.
  intros Hd HR. pose proof (proj1 (ReceivedAll_complete d Hd) HR) as Hall.
  pose proof (frames_full d Hd Hall) as Hfr.
  unfold Decode, SourceName. rewrite (proj2 (col_last d Hd)) by (apply Hall; lia).
  rewrite Hfr, join_data_full. cbn [negb res_bind].
  assert (Hz : d_receivedCount d <> 0).
  { rewrite (col_count d Hd), Hfr, (proj2 (count_some_full _)), length_fmap by eauto. lia. }
  rewrite (col_compressed d Hd Hz). destruct Hstream as [Hcat Hpt]. rewrite Hcat.
  split; [done|]. destruct fs as [|f fs']; [cbn in Hlen; lia|]. cbn.
  by destruct (Hpt 0%nat f eq_refl) as (_ & _ & _ & -> & _).
Qed.

End Stream.

(** ** Theorems *)

Lemma reassemble (sid src : bytes) (c : bool) (payload : bytes) (fs l : list frame) :
  is_stream sid src c payload fs -> (1 <= length fs <= 64)%nat ->
  Forall (fun f => f ∈ fs) l ->
  exists d, read_all (newFrameQueueDecoder sid) l = (d, []) /\
    (ReceivedAll d = true <-> forall f, f ∈ fs -> f ∈ l) /\
    (ReceivedAll d = true ->
       Decode d = (if c then decompress payload else Ok payload) /\ SourceName d = Ok src).
Proof.
  intros Hs Hlen Hl.
  pose proof (collecting_new sid c fs Hlen) as H0.
  destruct (read_all_collecting sid src c payload fs Hs Hlen l _ H0 Hl) as (d & E & Hd & Hp).
  exists d. split_and!; [done| |by eapply Decode_complete].
  rewrite (ReceivedAll_complete sid c fs Hlen d Hd). split.
  - intros Hall f [i Hi]%list_elem_of_lookup.
    destruct (proj1 (Hp i) (Hall i (lookup_lt_Some _ _ _ Hi))) as [[x Hx]%present_iff|(g & Hg & Hgl)];
      [done|]. congruence.
  - intros Hall j Hj. apply Hp. right. destruct (lookup_lt_is_Some_2 fs j Hj) as [f Hf].
    exists f. split; [done|]. apply Hall. by eapply list_elem_of_lookup_2.
Qed.

(** Whatever the order in which the frames of a stream arrive, and however
    often each arrives, no frame is rejected, the stream counts as complete
    exactly when every frame has arrived, and then the decoder returns the
    payload of the stream and the name of its source. *)
Theorem stream_reassembled (sid src : bytes) (c : bool) (payload : bytes) (fs l : list frame) :
  is_stream sid src c payload fs -> (1 <= length fs <= 64)%nat ->
  Forall (fun f => f ∈ fs) l ->
  exists d, read_all (newFrameQueueDecoder sid) l = (d, []) /\
    (ReceivedAll d = true <-> forall f, f ∈ fs -> f ∈ l) /\
    (ReceivedAll d = true ->
       Decode d = (if c then decompress payload else Ok payload) /\ SourceName d = Ok src).
Proof. apply reassemble. Qed.

(** C8. End to end: a message cut into frames with any sequence of MTUs is
    recovered by the receiver from any delivery of all its frames, reordered
    or repeated, with compression undone. *)
Theorem message_recovered `{!ZlibLaws _} (id src msg : bytes) (mtus : list Z) (fs l : list frame) :
  msg <> [] -> go_lengths msg -> Forall small mtus ->
  frames_until_eof (newFrameQueue id src msg) mtus = Some fs ->
  Forall (fun f => f ∈ fs) l -> (forall f, f ∈ fs -> f ∈ l) ->
  exists d, read_all (newFrameQueueDecoder id) l = (d, []) /\
    ReceivedAll d = true /\ Decode d = Ok msg /\ SourceName d = Ok src.
Proof.
  intros Hne Hg Hm Hf Hl Hall.
  destruct (fragments_stream id src msg mtus fs Hne Hg Hm Hf) as (c & p & Hp & Hs & Hlen).
  destruct (reassemble id src c p fs l Hs Hlen Hl) as (d & E & HR & Hdec).
  exists d. apply HR in Hall. destruct (Hdec Hall) as [-> ->].
  split_and!; [done..| |done]. unfold payload_of in Hp. destruct c; [|by subst].
  destruct (compress_ok msg) as (p' & Hc & Hd). congruence.
Qed.

(** The duplicate test does not tolerate gaps: once a frame other than the
    first has arrived first, testing any frame number dereferences a nil
    pointer. *)
Lemma gap_nil (sid : bytes) (f : frame) :
  StreamId f = sid -> 0 < FrameNumber f <= MaxFrameCount ->
  HasReceivedFrame (newFrameQueueDecoder sid) (FrameNumber f) = Ok false /\
  exists d, ReadFrame (newFrameQueueDecoder sid) f = (d, None) /\ ReceivedAll d = false /\
    forall n, is_panic (HasReceivedFrame d n) = true.
Proof.
  intros Hid [Hpos Hmax]. split; [done|]. unfold ReadFrame, newFrameQueueDecoder.
  cbn [d_receivedCount d_id d_frames d_terminated d_isCompressed].
  rewrite (proj2 (Z.ltb_ge MaxFrameCount 0)), (proj2 (Z.ltb_ge _ (FrameNumber f))) by lia.
  cbn [orb]. rewrite bool_decide_false by (intros Hn; by apply Hn). cbn [Z.eqb negb andb].
  rewrite lookup_nil. eexists. split; [reflexivity|].
  destruct (Z.to_nat (FrameNumber f)) as [|k] eqn:E; [lia|]. split; [|done].
  unfold ReceivedAll. cbn [d_receivedCount d_frames d_terminated].
  assert (zlen (<[S k := Some f]> (extend (S (S k)) [])) = Z.of_nat k + 2) as ->
    by (unfold zlen; unfold extend; rewrite length_insert, length_app, length_replicate; cbn [length]; lia).
  unfold MaxFrameCount in Hmax. rewrite !uwrap_id by (unfold in_u; lia).
  rewrite (proj2 (Z.eqb_neq (0 + 1) (Z.of_nat k + 2))) by lia. by rewrite andb_false_r.
Qed.

End Receiver.

(** ** Evaluation *)

Definition example_frames : list frame :=
  match @frames_until_eof header_zlib (newFrameQueue example_id (bz "n0") example_msg) example_mtus with
  | Some fs => fs
  | None => []
  end.

Lemma stream_reassembled_witness :
  exists d, read_all (newFrameQueueDecoder example_id) (rev example_frames) = (d, []) /\
    ReceivedAll d = true /\ @Decode header_zlib d = Ok example_msg.
Proof.
  destruct (@stream_reassembled header_zlib example_id (bz "n0") true (z2b 120 :: example_msg)
              example_frames (rev example_frames)) as (d & E & HR & Hd).
  - split; [vm_compute; reflexivity|].
    intros i f Hf. do 4 (destruct i as [|i]; [vm_compute in Hf; injection Hf as <-; by vm_compute|]).
    vm_compute in Hf. done.
  - vm_compute. split; repeat constructor.
  - apply Forall_forall. intros f Hf. apply list_elem_of_In in Hf. exact (proj1 (elem_of_rev _ _) Hf).
  - exists d. split; [done|]. assert (Hall : ReceivedAll d = true).
    { apply HR. intros f Hf. exact (proj2 (elem_of_rev _ _) Hf). }
    split; [done|]. apply Hd in Hall as [-> _]. done.
Defined.

Lemma message_recovered_witness :
  exists d, read_all (newFrameQueueDecoder example_id) (rev example_frames) = (d, []) /\
    ReceivedAll d = true /\ @Decode header_zlib d = Ok example_msg /\ SourceName d = Ok (bz "n0").
Proof.
  apply (@message_recovered header_zlib header_zlib_laws example_id (bz "n0") example_msg
           example_mtus example_frames (rev example_frames)).
  - done.
  - apply example_lengths.
  - apply Forall_replicate. vm_compute. split; congruence.
  - vm_compute. reflexivity.
  - apply Forall_forall. intros f Hf. apply list_elem_of_In in Hf. exact (proj1 (elem_of_rev _ _) Hf).
  - intros f Hf. exact (proj2 (elem_of_rev _ _) Hf).
Defined.

End Decoder.
