(* ===== verification/Delegate.v ===== *)
(** * The gossip delegate

    Models [offchain-interface/pkg/transport/swim/delegate.go]: what a node
    hands to the membership library for its next packet, and what it does with
    the frames it receives.  Both locks are held for the whole body of a
    handler, so a handler is one step; the clock and the size of the cluster
    are arguments, and the channel of received messages is the list of the
    messages sent on it. *)

From S2P Require Import Prelude Frame FrameQueue FrameDecoder.
From Corelib Require Import Init.Byte.
Import Frame FrameQueue Decoder.

Module Delegate.
Section Delegate.
Context `{Zlib}.

Record inboundMessage : Type := mkInboundMessage {
  im_source : bytes;
  im_data : bytes
}.

Record retransmissionFrame : Type := mkRetransmission {
  rf_frame : frame;
  rf_transmitCount : Z
}.

Record delegate : Type := mkDelegate {
  dg_sourceName : bytes;
  dg_retransmitMultiplier : Z;
  dg_rx : list inboundMessage;
  dg_decoders : gmap bytes frameQueueDecoder;
  dg_lastSeen : gmap bytes Z;
  dg_messageQueue : list frameQueue;
  dg_retransmitQueue : list retransmissionFrame;
  dg_framesSeen : gmap bytes (gset Z)
}.

(** Durations and times in nanoseconds. *)
Definition WaitTimeout : Z := 10 * 10 ^ 9.

Definition newDelegate (sourceName : bytes) (retransmitMultiplier : Z) : delegate :=
  mkDelegate sourceName retransmitMultiplier [] ∅ ∅ [] [] ∅.

Definition set_rx (rx : list inboundMessage) (d : delegate) : delegate :=
  mkDelegate (dg_sourceName d) (dg_retransmitMultiplier d) rx (dg_decoders d) (dg_lastSeen d)
    (dg_messageQueue d) (dg_retransmitQueue d) (dg_framesSeen d).
Definition set_decoders (ds : gmap bytes frameQueueDecoder) (d : delegate) : delegate :=
  mkDelegate (dg_sourceName d) (dg_retransmitMultiplier d) (dg_rx d) ds (dg_lastSeen d)
    (dg_messageQueue d) (dg_retransmitQueue d) (dg_framesSeen d).
Definition set_lastSeen (ls : gmap bytes Z) (d : delegate) : delegate :=
  mkDelegate (dg_sourceName d) (dg_retransmitMultiplier d) (dg_rx d) (dg_decoders d) ls
    (dg_messageQueue d) (dg_retransmitQueue d) (dg_framesSeen d).
Definition set_messageQueue (q : list frameQueue) (d : delegate) : delegate :=
  mkDelegate (dg_sourceName d) (dg_retransmitMultiplier d) (dg_rx d) (dg_decoders d) (dg_lastSeen d)
    q (dg_retransmitQueue d) (dg_framesSeen d).
Definition set_retransmitQueue (q : list retransmissionFrame) (d : delegate) : delegate :=
  mkDelegate (dg_sourceName d) (dg_retransmitMultiplier d) (dg_rx d) (dg_decoders d) (dg_lastSeen d)
    (dg_messageQueue d) q (dg_framesSeen d).
Definition set_framesSeen (fs : gmap bytes (gset Z)) (d : delegate) : delegate :=
  mkDelegate (dg_sourceName d) (dg_retransmitMultiplier d) (dg_rx d) (dg_decoders d) (dg_lastSeen d)
    (dg_messageQueue d) (dg_retransmitQueue d) fs.

(** [math.Ceil(math.Log10(x))] for a positive integer, as the least exponent
    whose power of ten is not below [x]. *)
Fixpoint ceil_log10_from (fuel : nat) (k p x : Z) : Z :=
  match fuel with
  | O => k
  | S fuel => if x <=? p then k else ceil_log10_from fuel (k + 1) (10 * p) x
  end.
Definition ceil_log10 (x : Z) : Z := ceil_log10_from (Z.to_nat x) 0 1 x.

Definition getTransmissionCount (memberCount : Z) (d : delegate) : Z :=
  dg_retransmitMultiplier d * ceil_log10 (memberCount + 1).

(** ** Sending *)

(** [id] is the [uuid.New()] of the queue. *)
Definition Send (id msg : bytes) (d : delegate) : delegate :=
  set_messageQueue (dg_messageQueue d ++ [newFrameQueue id (dg_sourceName d) msg]) d.

(** The loop that looks for a frame: exhausted messages are dropped, and so is
    a message that fails, which ends the call. *)
Fixpoint nextFrame (mtu : Z) (q : list frameQueue) : list frameQueue * result (option frame) :=
  match q with
  | [] => ([], Ok None)
  | fq :: rest =>
      match Next fq mtu with
      | (fq', Ok f) => (fq' :: rest, Ok (Some f))
      | (fq', Err err) => if errors_Is err EOF then nextFrame mtu rest else (rest, Err err)
      | (fq', Panic w) => (fq' :: rest, Panic w)
      end
  end.

(** A frame of the retransmission queue: its count goes up, and it leaves the
    queue when the count is reached or when it cannot be encoded. *)
Definition retransmit (memberCount : Z) : M delegate (list bytes) := fun d =>
  match dg_retransmitQueue d with
  | [] => (d, Ok [])
  | r :: rest =>
      let count := rf_transmitCount r + 1 in
      let d := set_retransmitQueue
                 (if getTransmissionCount memberCount d <=? count then rest
                  else mkRetransmission (rf_frame r) count :: rest) d in
      match frame_Marshal (rf_frame r) with
      | Ok b => (d, Ok [b])
      | Err _ => (set_retransmitQueue rest d, Ok [])
      | Panic w => (d, Panic w)
      end
  end.

(** An empty list is the nil the source returns. *)
Definition GetBroadcasts (memberCount overhead limit : Z) : M delegate (list bytes) := fun d =>
  match dg_messageQueue d, dg_retransmitQueue d with
  | [], [] => (d, Ok [])
  | _, _ =>
      let mtu := limit - overhead in
      if mtu <? 1 then (d, Ok [])
      else
        let '(q, r) := nextFrame mtu (dg_messageQueue d) in
        let d := set_messageQueue q d in
        match r with
        | Panic w => (d, Panic w)
        | Err _ => (d, Ok [])
        | Ok None => retransmit memberCount d
        | Ok (Some f) =>
            let d := if 1 <? getTransmissionCount memberCount d
                     then set_retransmitQueue (dg_retransmitQueue d ++ [mkRetransmission f 1]) d
                     else d in
            match frame_Marshal f with
            | Ok b => (d, Ok [b])
            | Err _ => (set_messageQueue (drop 1 (dg_messageQueue d)) d, Ok [])
            | Panic w => (d, Panic w)
            end
        end
  end.

(** ** Receiving *)

(** The record of the frames seen, and the queue of frames to pass on. *)
Definition noteFrame (f : frame) (d : delegate) : delegate :=
  if bool_decide (Source f = dg_sourceName d) then d
  else
    match dg_framesSeen d !! StreamId f with
    | Some seen =>
        if bool_decide (FrameNumber f ∈ seen) then d
        else set_retransmitQueue (dg_retransmitQueue d ++ [mkRetransmission f 0])
               (set_framesSeen (<[StreamId f := {[FrameNumber f]} ∪ seen]> (dg_framesSeen d)) d)
    | None => set_framesSeen (<[StreamId f := {[FrameNumber f]}]> (dg_framesSeen d)) d
    end.

(** The decoder of the frame's stream, which is made on its first frame. *)
Definition decoderFor (now : Z) (f : frame) (d : delegate) : frameQueueDecoder * delegate :=
  match dg_decoders d !! StreamId f with
  | Some decoder => (decoder, d)
  | None =>
      let decoder := newFrameQueueDecoder (StreamId f) in
      (decoder, set_lastSeen (<[StreamId f := now]> (dg_lastSeen d))
                  (set_decoders (<[StreamId f := decoder]> (dg_decoders d)) d))
  end.

(** A complete stream is taken out of the maps and its message is sent on. *)
Definition complete (f : frame) (decoder : frameQueueDecoder) : M delegate unit := fun d =>
  let d := set_lastSeen (delete (StreamId f) (dg_lastSeen d))
             (set_decoders (delete (StreamId f) (dg_decoders d)) d) in
  match Decode decoder with
  | Panic w => (d, Panic w)
  | Err _ => (d, Ok tt)
  | Ok decoded =>
      match SourceName decoder with
      | Panic w => (d, Panic w)
      | Err _ => (d, Ok tt)
      | Ok sourceName => (set_rx (dg_rx d ++ [mkInboundMessage sourceName decoded]) d, Ok tt)
      end
  end.

(** [spare] is the rest of the packet's buffer.  The decoder is shared through
    the map, so what it reads is visible there. *)
Definition handleInboundMessage (now : Z) (data spare : bytes) : M delegate unit := fun d =>
  match frame_Unmarshal data spare with
  | Panic w => (d, Panic w)
  | Err _ => (d, Ok tt)
  | Ok f =>
      let '(decoder, d) := decoderFor now f d in
      let d := noteFrame f d in
      match HasReceivedFrame decoder (FrameNumber f) with
      | Panic w => (d, Panic w)
      | Err _ => (d, Ok tt)
      | Ok true => (d, Ok tt)
      | Ok false =>
          match ReadBytes decoder data spare with
          | Panic w => (d, Panic w)
          | Err _ => (d, Ok tt)
          | Ok (decoder, Some _) => (set_decoders (<[StreamId f := decoder]> (dg_decoders d)) d, Ok tt)
          | Ok (decoder, None) =>
              let d := set_decoders (<[StreamId f := decoder]> (dg_decoders d)) d in
              if ReceivedAll decoder then complete f decoder d else (d, Ok tt)
          end
      end
  end.

(** One round of the pruning loop. *)
Definition expired (now : Z) (d : delegate) (id : bytes) : bool :=
  match dg_lastSeen d !! id with
  | Some t => WaitTimeout <? now - t
  | None => false
  end.

Definition prune (now : Z) (d : delegate) : delegate :=
  let keep {A} (m : gmap bytes A) := filter (fun kv => expired now d kv.1 = false) m in
  mkDelegate (dg_sourceName d) (dg_retransmitMultiplier d) (dg_rx d) (keep (dg_decoders d))
    (keep (dg_lastSeen d)) (dg_messageQueue d) (dg_retransmitQueue d) (keep (dg_framesSeen d)).

(** A sequence of packets, each with the time it is handled at. *)
Fixpoint receive (packets : list (Z * bytes)) : M delegate unit :=
  match packets with
  | [] => m_ret tt
  | (now, p) :: rest => do _ <- handleInboundMessage now p [] ;; receive rest
  end.

(** ** The stream a delegate is collecting *)

Lemma noteFrame_keeps f d :
  dg_rx (noteFrame f d) = dg_rx d /\ dg_decoders (noteFrame f d) = dg_decoders d /\
  dg_lastSeen (noteFrame f d) = dg_lastSeen d /\ dg_sourceName (noteFrame f d) = dg_sourceName d.
Proof.
  unfold noteFrame. destruct (bool_decide (Source f = _)); [done|].
  destruct (_ !! _) as [seen|]; [|done]. by destruct (bool_decide _).
Qed.

Definition decoder_of (d : delegate) (sid : bytes) : frameQueueDecoder :=
  default (newFrameQueueDecoder sid) (dg_decoders d !! sid).

Lemma decoderFor_run now f d :
  exists d', decoderFor now f d = (decoder_of d (StreamId f), d') /\ dg_rx d' = dg_rx d /\
    (forall id, id <> StreamId f -> dg_decoders d' !! id = dg_decoders d !! id).
Proof.
  unfold decoderFor, decoder_of. destruct (dg_decoders d !! StreamId f) as [dec|] eqn:E; [by exists d|].
  eexists. split; [done|]. cbn. split; [done|]. intros id Hid. by apply lookup_insert_ne.
Qed.

(** What a packet does to a delegate, when it decodes to the frame [f]. *)
Lemma handle_run now p spare f d :
  frame_Unmarshal p spare = Ok f ->
  exists d1, dg_rx d1 = dg_rx d /\
    (forall id, id <> StreamId f -> dg_decoders d1 !! id = dg_decoders d !! id) /\
    handleInboundMessage now p spare d =
      match HasReceivedFrame (decoder_of d (StreamId f)) (FrameNumber f) with
      | Panic w => (d1, Panic w)
      | Err _ => (d1, Ok tt)
      | Ok true => (d1, Ok tt)
      | Ok false =>
          let '(decoder, err) := ReadFrame (decoder_of d (StreamId f)) f in
          let d2 := set_decoders (<[StreamId f := decoder]> (dg_decoders d1)) d1 in
          match err with
          | Some _ => (d2, Ok tt)
          | None => if ReceivedAll decoder then complete f decoder d2 else (d2, Ok tt)
          end
      end.
Proof.
  intros Hu. destruct (decoderFor_run now f d) as (d0 & E & Hrx & Hdec).
  destruct (noteFrame_keeps f d0) as (K1 & K2 & _ & _).
  exists (noteFrame f d0). split_and!; [by rewrite K1|by rewrite K2|].
  unfold handleInboundMessage. rewrite Hu, E. cbv zeta.
  destruct (HasReceivedFrame _ _) as [[]| |]; try done.
  unfold ReadBytes. rewrite Hu. by destruct (ReadFrame _ f) as [dec [e|]].
Qed.

(** Frames of other streams do not touch the decoder, and received messages stay. *)
Lemma handle_other now p spare d d' sid r :
  handleInboundMessage now p spare d = (d', r) ->
  (forall f, frame_Unmarshal p spare = Ok f -> StreamId f <> sid) ->
  dg_decoders d' !! sid = dg_decoders d !! sid /\ exists k, dg_rx d' = dg_rx d ++ k.
Proof.
  intros Hh Hne. destruct (frame_Unmarshal p spare) as [f|e|w] eqn:Hu.
  2-3: unfold handleInboundMessage in Hh; rewrite Hu in Hh; injection Hh as <- _; split; [done|exists []; by rewrite app_nil_r].
  specialize (Hne f eq_refl). destruct (handle_run now p spare f d Hu) as (d1 & Hrx & Hdec & E).
  rewrite E in Hh. clear E. assert (sid <> StreamId f) as Hne' by auto.
  assert (dg_decoders d1 !! sid = dg_decoders d !! sid /\ exists k, dg_rx d1 = dg_rx d ++ k) as Hd1
    by (split; [by apply Hdec|exists []; by rewrite Hrx, app_nil_r]).
  destruct (HasReceivedFrame _ _) as [[]| |]; [by injection Hh as <- _| |by injection Hh as <- _..].
  destruct (ReadFrame _ f) as [dec [e|]]; cbv zeta in Hh.
  - injection Hh as <- _. cbn. by rewrite lookup_insert_ne by auto.
  - destruct (ReceivedAll dec).
    + unfold complete in Hh. cbn in Hh.
      assert (delete (StreamId f) (<[StreamId f := dec]> (dg_decoders d1)) !! sid = dg_decoders d !! sid) as Hl
        by (rewrite lookup_delete_ne, lookup_insert_ne by auto; apply Hd1).
      destruct (Decode dec) as [m| |]; [destruct (SourceName dec)|..]; injection Hh as <- _; cbn; rewrite Hl;
        (split; [done|]); try apply Hd1. eexists. by rewrite Hrx.
    + injection Hh as <- _. cbn. by rewrite lookup_insert_ne by auto.
Qed.

Section Collecting.
Variables (sid src : bytes) (c : bool) (payload msg : bytes) (fs : list frame).
Hypothesis Hstream : is_stream sid src c payload fs.
Hypothesis Hlen : (1 <= length fs <= 64)%nat.
Hypothesis Hok : Forall frame_ok fs.
Hypothesis Hmsg : (if c then decompress payload else Ok payload) = Ok msg.

(** The first [k] frames of the stream have been read, and no other. *)
Definition dense (k : nat) (dec : frameQueueDecoder) : Prop :=
  collecting sid c fs dec /\ d_frames dec = Some <$> take k fs.

Lemma has_frame_dense l n : has_frame (Some <$> l) n = Ok (existsb (fun f => FrameNumber f =? n) l).
Proof. induction l as [|f l IH]; [done|]. cbn. destruct (FrameNumber f =? n); [done|]. apply IH. Qed.

Lemma dense_new_frame k dec f : dense k dec -> fs !! k = Some f ->
  HasReceivedFrame dec (FrameNumber f) = Ok false.
Proof.
  intros [_ Hfr] Hf. unfold HasReceivedFrame. rewrite Hfr, has_frame_dense. f_equal.
  apply Bool.not_true_iff_false. intros (g & Hg & Heq)%existsb_exists.
  apply list_elem_of_In, list_elem_of_lookup in Hg as [i Hi]. apply lookup_take_Some in Hi as [Hi Hlt].
  destruct (proj2 Hstream i g Hi) as (Hn & _). destruct (proj2 Hstream k f Hf) as (Hn' & _). lia.
Qed.

Lemma dense_read k dec f : dense k dec -> fs !! k = Some f ->
  exists dec', ReadFrame dec f = (dec', None) /\ dense (S k) dec'.
Proof.
  intros [Hcol Hfr] Hf. pose proof (lookup_lt_Some _ _ _ Hf) as Hk.
  assert (Hl : length (d_frames dec) = k) by (rewrite Hfr, length_fmap, length_take; lia).
  assert (mjoin (d_frames dec !! k) = None) as Hnone by (rewrite lookup_ge_None_2 by lia; done).
  rewrite (ReadFrame_stream sid src c payload fs Hstream Hlen dec k f Hcol Hf), Hnone.
  eexists. split; [done|]. split; [by eapply stored_collecting|].
  cbn [stored d_frames]. unfold extend. rewrite Hl. replace (S k - k)%nat with 1%nat by lia.
  cbn [replicate]. rewrite <- Hl at 1. rewrite <- (Nat.add_0_r (length (d_frames dec))), insert_app_r. cbn.
  rewrite (take_S_r _ _ _ Hf), fmap_app, Hfr. done.
Qed.

Lemma dense_complete k dec : dense k dec -> (k <= length fs)%nat ->
  ReceivedAll dec = bool_decide (k = length fs).
Proof.
  intros [Hcol Hfr] Hk. pose proof (ReceivedAll_complete sid c fs Hlen dec Hcol) as HR.
  destruct (bool_decide_reflect (k = length fs)) as [->|Hne].
  - apply HR. intros j Hj. apply present_iff. rewrite Hfr, take_ge by lia.
    destruct (lookup_lt_is_Some_2 fs j Hj) as [g Hg]. exists g. by rewrite list_lookup_fmap, Hg.
  - apply Bool.not_true_iff_false. intros HA. apply HR with (j := k) in HA; [|lia].
    apply present_iff in HA as [g Hg]. apply lookup_lt_Some in Hg.
    rewrite Hfr, length_fmap, length_take in Hg. lia.
Qed.

Lemma dense_zero : dense 0 (newFrameQueueDecoder sid).
Proof. split; [by apply collecting_new|done]. Qed.

(** The next frame of the stream: no crash, and the message when it is the last. *)
Lemma handle_next now k f p d :
  dense k (decoder_of d sid) -> fs !! k = Some f -> frame_Marshal f = Ok p ->
  exists d', handleInboundMessage now p [] d = (d', Ok tt) /\
    (forall id, id <> sid -> dg_decoders d' !! id = dg_decoders d !! id) /\
    if decide (S k = length fs)
    then dg_decoders d' !! sid = None /\ dg_rx d' = dg_rx d ++ [mkInboundMessage src msg]
    else dense (S k) (decoder_of d' sid) /\ dg_rx d' = dg_rx d.
Proof.
  intros Hd Hf Hm. pose proof (lookup_lt_Some _ _ _ Hf) as Hk.
  assert (frame_ok f) as Hfok by (rewrite List.Forall_forall in Hok; apply Hok, list_elem_of_In; by eapply list_elem_of_lookup_2).
  destruct (Unmarshal_Marshal f [] [] Hfok) as (p' & Hm' & Hu). rewrite app_nil_r in Hu.
  assert (p' = p) as -> by congruence. destruct (proj2 Hstream k f Hf) as (_ & Hsid & _ & _ & _).
  destruct (handle_run now p [] f d Hu) as (d1 & Hrx & Hdec & E). rewrite Hsid in *.
  rewrite E, (dense_new_frame _ _ _ Hd Hf). clear E.
  destruct (dense_read _ _ _ Hd Hf) as (dec & Hr & Hd'). rewrite Hr. cbv zeta.
  rewrite (dense_complete _ _ Hd' ltac:(lia)). case_decide as Hlast.
  - rewrite bool_decide_eq_true_2 by done. unfold complete. rewrite Hsid.
    assert (ReceivedAll dec = true) as HA by (rewrite (dense_complete _ _ Hd' ltac:(lia)); by apply bool_decide_eq_true_2).
    destruct (Decode_complete sid src c payload fs Hstream Hlen dec (proj1 Hd') HA) as [-> ->]. rewrite Hmsg.
    eexists. split; [reflexivity|]. cbn. rewrite Hrx. split_and!; [|apply lookup_delete_eq|done].
    intros id Hid. rewrite lookup_delete_ne, lookup_insert_ne by auto. by apply Hdec.
  - rewrite bool_decide_eq_false_2 by done. eexists. split; [reflexivity|]. cbn. split_and!; [|..|done].
    + intros id Hid. rewrite lookup_insert_ne by auto. by apply Hdec.
    + unfold decoder_of. cbn. by rewrite lookup_insert_eq.
Qed.

Definition frame_packets (l : list frame) (ps : list (Z * bytes)) : Prop :=
  Forall2 (fun f np => frame_Marshal f = Ok np.2) l ps.

Lemma stream_alone ps : forall k d,
  frame_packets (drop k fs) ps -> (k < length fs)%nat -> dense k (decoder_of d sid) ->
  exists d', receive ps d = (d', Ok tt) /\ dg_rx d' = dg_rx d ++ [mkInboundMessage src msg] /\
    dg_decoders d' = delete sid (dg_decoders d).
Proof.
  induction ps as [|[now p] ps IH]; intros k d Hc Hk Hd; inversion Hc as [Hl|f p' l ps' Hm Hc' Hl]; subst.
  - apply (f_equal length) in Hl. rewrite length_drop in Hl. cbn in Hl. lia.
  - assert (fs !! k = Some f) as Hf by (rewrite <- (Nat.add_0_r k), <- lookup_drop, <- Hl; done).
    assert (l = drop (S k) fs) as -> by (rewrite (drop_S _ _ _ Hf) in Hl; congruence).
    destruct (handle_next now k f p d Hd Hf Hm) as (d1 & E & Hother & Hnext).
    cbn [receive]. run E. case_decide as Hlast.
    + destruct Hnext as [Hnone Hrx]. rewrite drop_ge in Hc' by lia. inversion Hc'; subst.
      exists d1. split_and!; [done..|]. apply map_eq. intros id. destruct (decide (id = sid)) as [->|Hid].
      * by rewrite lookup_delete_eq.
      * by rewrite lookup_delete_ne, Hother by auto.
    + destruct Hnext as [Hd1 Hrx]. destruct (IH (S k) d1 Hc' ltac:(lia) Hd1) as (d' & E' & Hrx' & Hdec').
      exists d'. split_and!; [done|by rewrite Hrx', Hrx|]. rewrite Hdec'. apply map_eq. intros id.
      destruct (decide (id = sid)) as [->|Hid]; [by rewrite !lookup_delete_eq|].
      by rewrite !lookup_delete_ne, Hother by auto.
Qed.

(** The node keeps no record of the streams it has completed: a message of
    one frame is delivered again every time its packet is received. *)
Theorem single_frame_redelivered f p now now' d :
  dg_decoders d !! sid = None -> fs = [f] -> frame_Marshal f = Ok p ->
  exists d', receive [(now, p); (now', p)] d = (d', Ok tt) /\
    dg_rx d' = dg_rx d ++ [mkInboundMessage src msg; mkInboundMessage src msg].
Proof.
  intros Hnone Hfs Hm. assert (forall d, dg_decoders d !! sid = None -> dense 0 (decoder_of d sid)) as Hz
    by (intros d0 H0; unfold decoder_of; rewrite H0; apply dense_zero).
  assert (fs !! 0%nat = Some f) as Hf by (by rewrite Hfs). assert (1%nat = length fs) as Hl by (by rewrite Hfs).
  destruct (handle_next now 0 f p d (Hz _ Hnone) Hf Hm) as (d1 & E1 & _ & H1). rewrite decide_True in H1 by done.
  destruct H1 as [Hn1 Hrx1].
  destruct (handle_next now' 0 f p d1 (Hz _ Hn1) Hf Hm) as (d2 & E2 & _ & H2). rewrite decide_True in H2 by done.
  exists d2. cbn [receive]. rewrite (m_bind_ok _ _ _ _ _ E1), (m_bind_ok _ _ _ _ _ E2).
  split; [done|]. by rewrite (proj2 H2), Hrx1, <- app_assoc.
Qed.

End Collecting.

(** ** Messages of several streams at once *)

Record stream : Type := mkStream {
  sm_id : bytes;
  sm_source : bytes;
  sm_compressed : bool;
  sm_payload : bytes;
  sm_message : bytes;
  sm_frames : list frame
}.

Record stream_ok (st : stream) : Prop := {
  so_stream : is_stream (sm_id st) (sm_source st) (sm_compressed st) (sm_payload st) (sm_frames st);
  so_length : (1 <= length (sm_frames st) <= 64)%nat;
  so_frames : Forall frame_ok (sm_frames st);
  so_message : (if sm_compressed st then decompress (sm_payload st) else Ok (sm_payload st)) = Ok (sm_message st)
}.

Definition inbound (st : stream) : inboundMessage := mkInboundMessage (sm_source st) (sm_message st).

(** The packets carry the frames of the lists, those of each list in order; packets
    that are no frames may come in between. *)
Inductive interleaving : list (list frame) -> list (Z * bytes) -> Prop :=
| il_nil ls : Forall (eq []) ls -> interleaving ls []
| il_next l1 f l l2 p now ps : frame_Marshal f = Ok p -> interleaving (l1 ++ l :: l2) ps ->
    interleaving (l1 ++ (f :: l) :: l2) ((now, p) :: ps)
| il_noise ls p now err ps : frame_Unmarshal p [] = Err err -> interleaving ls ps -> interleaving ls ((now, p) :: ps).

(** [k] frames of a stream have been received. *)
Definition progress (d : delegate) (x : stream * nat) : Prop :=
  if decide (x.2 < length (sm_frames x.1))%nat
  then dense (sm_id x.1) (sm_compressed x.1) (sm_frames x.1) x.2 (decoder_of d (sm_id x.1))
  else dg_decoders d !! sm_id x.1 = None.

Definition outstanding (x : stream * nat) : option inboundMessage :=
  if decide (x.2 < length (sm_frames x.1))%nat then Some (inbound x.1) else None.

Definition ids (xs : list (stream * nat)) : list bytes := (fun x => sm_id x.1) <$> xs.

Lemma progress_other d d' x : dg_decoders d' !! sm_id x.1 = dg_decoders d !! sm_id x.1 -> progress d x -> progress d' x.
Proof. unfold progress, decoder_of. intros E. by rewrite E. Qed.

(** One frame: the stream it belongs to advances, or its message is delivered. *)
Lemma progress_next now st k f l p d : stream_ok st -> progress d (st, k) -> drop k (sm_frames st) = f :: l -> frame_Marshal f = Ok p ->
  exists d', handleInboundMessage now p [] d = (d', Ok tt) /\ drop (S k) (sm_frames st) = l /\ progress d' (st, S k) /\
    (forall id, id <> sm_id st -> dg_decoders d' !! id = dg_decoders d !! id) /\
    exists m, option_list (outstanding (st, k)) = m ++ option_list (outstanding (st, S k)) /\ dg_rx d' = dg_rx d ++ m.
Proof.
  intros [Hs Hl Hf Hm] Hp Hd Hfm.
  assert (sm_frames st !! k = Some f) as Hk by (rewrite <- (Nat.add_0_r k), <- lookup_drop, Hd; done).
  pose proof (lookup_lt_Some _ _ _ Hk) as Hlt. unfold progress, outstanding in *. cbn [fst snd] in *.
  rewrite decide_True in Hp by done. rewrite (decide_True (P := (k < _)%nat)) by done.
  destruct (handle_next _ _ _ _ _ _ Hs Hl Hf Hm now k f p d Hp Hk Hfm) as (d' & E & Hother & Hnext).
  exists d'. split_and!; [done|rewrite (drop_S _ _ _ Hk) in Hd; congruence| |done|].
  - case_decide as Hlast; case_decide; try lia; [by destruct Hnext|by destruct Hnext].
  - case_decide as Hlast; case_decide; try lia; destruct Hnext as [_ ->]; [exists [inbound st]|exists []]; [done|by rewrite app_nil_r].
Qed.

Lemma handle_noise now p err d : frame_Unmarshal p [] = Err err -> handleInboundMessage now p [] d = (d, Ok tt).
Proof. unfold handleInboundMessage. by intros ->. Qed.

Lemma interleaving_delivers ls ps : interleaving ls ps -> forall xs d,
  ls = (fun x => drop x.2 (sm_frames x.1)) <$> xs -> Forall (fun x => stream_ok x.1) xs -> NoDup (ids xs) -> Forall (progress d) xs ->
  exists d' ms, receive ps d = (d', Ok tt) /\ dg_rx d' = dg_rx d ++ ms /\ ms ≡ₚ omap outstanding xs /\
    (forall id, id ∈ ids xs -> dg_decoders d' !! id = None) /\ (forall id, id ∉ ids xs -> dg_decoders d' !! id = dg_decoders d !! id).
Proof.
  induction 1 as [ls Hnil|l1 f l l2 p now ps Hfm _ IH|ls p now err ps Hu _ IH]; intros xs d Hls Hok Hnd Hpr.
  - subst ls. assert (Forall (fun x => ~ (x.2 < length (sm_frames x.1))%nat) xs) as Hdone.
    { apply List.Forall_forall. intros x Hx. rewrite List.Forall_forall in Hnil. specialize (Hnil _ (List.in_map _ _ _ Hx)).
      apply (f_equal length) in Hnil. rewrite length_drop in Hnil. cbn in Hnil. lia. }
    exists d, []. split_and!; [done|by rewrite app_nil_r| | |done].
    + clear -Hdone. induction Hdone as [|x xs Hx _ IH]; [done|]. cbn. unfold outstanding at 1. by rewrite decide_False.
    + intros id Hid. apply list_elem_of_fmap in Hid as (x & -> & Hx). rewrite List.Forall_forall in Hdone, Hpr.
      apply list_elem_of_In in Hx. specialize (Hdone _ Hx). specialize (Hpr _ Hx). unfold progress in Hpr. by rewrite decide_False in Hpr.
  - symmetry in Hls. apply fmap_app_inv in Hls as (x1 & x2' & E1 & E2 & ->). symmetry in E2.
    apply fmap_cons_inv in E2 as ([st k] & x2 & Ed & E2 & ->). cbn [fst snd] in Ed. symmetry in Ed.
    apply Forall_app in Hok as [Ho1 [Ho Ho2]%List.Forall_cons_iff]. apply Forall_app in Hpr as [Hp1 [Hp Hp2]%List.Forall_cons_iff].
    destruct (progress_next now st k f l p d Ho Hp Ed Hfm) as (d1 & E & El & Hp' & Hother & m & Em & Hrx).
    unfold ids in Hnd. rewrite fmap_app, fmap_cons in Hnd. cbn [fst] in Hnd.
    assert (forall x, x ∈ x1 \/ x ∈ x2 -> sm_id x.1 <> sm_id st) as Hne.
    { apply list.NoDup_app in Hnd as (_ & Hd1 & [Hd2 _]%list.NoDup_cons). intros x [Hx|Hx] Heq.
      - apply (Hd1 (sm_id x.1)); [by apply (list_elem_of_fmap_2 (fun x => sm_id x.1))|rewrite Heq; apply list_elem_of_here].
      - apply Hd2. rewrite <- Heq. by apply (list_elem_of_fmap_2 (fun x => sm_id x.1)). }
    assert (forall xs, (forall x, x ∈ xs -> sm_id x.1 <> sm_id st) -> Forall (progress d) xs -> Forall (progress d1) xs) as Hkeep.
    { intros xs Hx. rewrite !List.Forall_forall. intros Hall x Hin. eapply progress_other; [|by apply Hall]. by apply Hother, Hx, list_elem_of_In. }
    destruct (IH (x1 ++ (st, S k) :: x2) d1) as (d' & ms & Er & Hrx' & Hms & Hin & Hout).
    + rewrite fmap_app, fmap_cons. cbn [fst snd]. by rewrite <- E1, <- E2, El.
    + apply Forall_app. split; [done|]. by apply List.Forall_cons_iff.
    + unfold ids. by rewrite fmap_app, fmap_cons.
    + apply Forall_app. split; [apply Hkeep; auto|]. apply List.Forall_cons_iff. split; [done|]. apply Hkeep; auto.
    + exists d', (m ++ ms). cbn [receive]. rewrite (m_bind_ok _ _ _ _ _ E).
      assert (ids (x1 ++ (st, k) :: x2) = ids (x1 ++ (st, S k) :: x2)) as -> by (unfold ids; by rewrite !fmap_app).
      split_and!; [done|by rewrite Hrx', Hrx, app_assoc| |done|].
      * rewrite Hms, !omap_app. cbn [omap list_omap].
        assert (forall (o : option inboundMessage) r, match o with Some y => y :: r | None => r end = option_list o ++ r) as Hopt by (by intros []).
        rewrite !Hopt, Em. solve_Permutation.
      * intros id Hid. rewrite Hout by done. apply Hother. intros ->. apply Hid. unfold ids. rewrite fmap_app, fmap_cons.
        apply list.elem_of_app. right. apply list_elem_of_here.
  - destruct (IH xs d Hls Hok Hnd Hpr) as (d' & ms & Er & Hrest). exists d', ms. cbn [receive].
    by rewrite (m_bind_ok _ _ _ _ _ (handle_noise now p err d Hu)).
Qed.


(** When the first frame to arrive of a stream is not its first. *)
Lemma late_frame_first f g p q now now' d :
  frame_ok f -> frame_ok g -> frame_Marshal f = Ok p -> frame_Marshal g = Ok q ->
  StreamId f = StreamId g -> 0 < FrameNumber f <= MaxFrameCount ->
  dg_decoders d !! StreamId f = None ->
  is_panic (receive [(now, p); (now', q)] d).2 = true.
Proof.
  intros Hfo Hgo Hp Hq Hsid Hn Hnone.
  destruct (Unmarshal_Marshal f [] [] Hfo) as (p' & Hp' & Hu). assert (p' = p) as -> by congruence.
  destruct (Unmarshal_Marshal g [] [] Hgo) as (q' & Hq' & Hv). assert (q' = q) as -> by congruence.
  rewrite app_nil_r in Hu, Hv. destruct (handle_run now p [] f d Hu) as (d1 & _ & _ & E).
  pose proof (gap_nil (StreamId f) f eq_refl Hn) as (Hr & dec & Hread & Hall & Hgap).
  unfold decoder_of in E. rewrite Hnone in E. cbn [default] in E.
  rewrite Hr, Hread in E. cbv zeta in E. rewrite Hall in E.
  cbn [receive]. run E. unfold m_bind at 1.
  destruct (handle_run now' q [] g (set_decoders (<[StreamId f := dec]> (dg_decoders d1)) d1) Hv) as (d2 & _ & _ & E2).
  assert (decoder_of (set_decoders (<[StreamId f := dec]> (dg_decoders d1)) d1) (StreamId g) = dec) as Hdec
    by (unfold decoder_of; cbn; by rewrite <- Hsid, lookup_insert_eq).
  rewrite E2, Hdec. specialize (Hgap (FrameNumber g)).
  destruct (HasReceivedFrame dec (FrameNumber g)); done.
Qed.

(** Out of order, the node crashes: when the first frame to arrive of a
    stream is not its first, the next frame of that stream, whichever it is,
    makes the handler dereference a nil pointer. *)
Theorem out_of_order_crashes f g p q now now' d :
  frame_ok f -> frame_ok g -> frame_Marshal f = Ok p -> frame_Marshal g = Ok q ->
  StreamId f = StreamId g -> 0 < FrameNumber f <= MaxFrameCount ->
  dg_decoders d !! StreamId f = None ->
  is_panic (receive [(now, p); (now', q)] d).2 = true.
Proof. apply late_frame_first. Qed.

(** ** Packets and goroutines

    [NotifyMsg] starts a goroutine for every packet, so that the order in which they
    are handled is not that of their arrival; the mutex makes a handler one step. *)

Record arrivals : Type := mkArrivals {
  ar_delegate : delegate;
  ar_waiting : list bytes;     (* goroutines that do not hold the mutex yet *)
  ar_crashed : bool
}.

Definition NotifyMsg (b : bytes) (a : arrivals) : arrivals :=
  mkArrivals (ar_delegate a) (ar_waiting a ++ [b]) (ar_crashed a).

Inductive scheduled : arrivals -> arrivals -> Prop :=
| sch_run now b l1 l2 d d' r : handleInboundMessage now b [] d = (d', r) ->
    scheduled (mkArrivals d (l1 ++ b :: l2) false) (mkArrivals d' (l1 ++ l2) (is_panic r)).

(** C40. Even when the frames of a stream arrive in order, two of them can be handled in
    the other order, and the node crashes. *)
Theorem in_order_may_crash f g p q d :
  frame_ok f -> frame_ok g -> frame_Marshal f = Ok p -> frame_Marshal g = Ok q ->
  StreamId f = StreamId g -> FrameNumber f = 0 -> 0 < FrameNumber g <= MaxFrameCount ->
  dg_decoders d !! StreamId f = None ->
  exists a, rtc scheduled (NotifyMsg q (NotifyMsg p (mkArrivals d [] false))) a /\ ar_crashed a = true.
Proof.
  intros Hf Hg Hp Hq Hsid _ Hn Hnone. assert (dg_decoders d !! StreamId g = None) as Hnone' by (by rewrite <- Hsid).
  pose proof (late_frame_first g f q p 0 0 d Hg Hf Hq Hp (eq_sym Hsid) Hn Hnone') as Hc.
  cbn [receive] in Hc. unfold m_bind in Hc. destruct (handleInboundMessage 0 q [] d) as [d1 r1] eqn:E1.
  pose proof (sch_run 0 q [p] [] d d1 r1 E1) as S1. destruct r1 as [u|err|w]; [| |by exists (mkArrivals d1 [p] true); split; [apply rtc_once|]].
  - destruct (handleInboundMessage 0 p [] d1) as [d2 r2] eqn:E2. exists (mkArrivals d2 [] (is_panic r2)).
    split; [|by destruct r2]. eapply rtc_l; [exact S1|]. apply rtc_once. exact (sch_run 0 p [] [] d1 d2 r2 E2).
  - done.
Qed.

(** ** The pruning loop *)

Inductive prune_input : Type := TimerFires (now : Z) | PruneShutdown.

(** The timer of [time.NewTimer] fires once; [armed] until then.  The flag of the
    result says whether the goroutine is still running. *)
Fixpoint StartPruneLoop (armed : bool) (inputs : list prune_input) (d : delegate) : delegate * bool :=
  match inputs with
  | [] => (d, true)
  | PruneShutdown :: _ => (d, false)
  | TimerFires now :: inputs => if armed then StartPruneLoop false inputs (prune now d) else StartPruneLoop armed inputs d
  end.

(** At most one round takes place, so a stream that is abandoned later is kept. *)
Lemma pruned_once inputs d : (StartPruneLoop true inputs d).1 = d \/
  exists now rest, inputs = TimerFires now :: rest /\ (StartPruneLoop true inputs d).1 = prune now d.
Proof.
  destruct inputs as [|[now|] inputs]; [by left| |by left]. right. exists now, inputs. split; [done|]. cbn.
  generalize (prune now d). induction inputs as [|[now'|] inputs IH]; intros d'; [done|exact (IH d')|done].
Qed.

(** ** What is sent *)

(** [k] calls of [GetBroadcasts], with the packets they return. *)
Fixpoint broadcasts (k : nat) (memberCount overhead limit : Z) : M delegate (list bytes) :=
  match k with
  | O => m_ret []
  | S k =>
      do ps <- GetBroadcasts memberCount overhead limit ;;
      do rest <- broadcasts k memberCount overhead limit ;;
      m_ret (ps ++ rest)
  end.

Definition packet (f : frame) : bytes := frame_body f ++ le_encode 4 (Crc32.ChecksumIEEE (frame_body f)).

Lemma Marshal_packet f : frame_Marshal f = Ok (packet f).
Proof. done. Qed.

Section Sending.
Variables (memberCount overhead limit : Z).
Hypothesis Hmtu : 1 <= limit - overhead.
Let mtu := limit - overhead.

Lemma broadcasts_app a b d d1 d2 ps qs :
  broadcasts a memberCount overhead limit d = (d1, Ok ps) ->
  broadcasts b memberCount overhead limit d1 = (d2, Ok qs) ->
  broadcasts (a + b) memberCount overhead limit d = (d2, Ok (ps ++ qs)).
Proof.
  revert d ps. induction a as [|a IH]; intros d ps Ha Hb; cbn [Nat.add broadcasts] in *.
  - injection Ha as <- <-. done.
  - unfold m_bind in *. destruct (GetBroadcasts _ _ _ d) as [d0 [p0|e|w]]; [|done..].
    destruct (broadcasts a memberCount overhead limit d0) as [d3 [p3|e|w]] eqn:E; [|done..].
    injection Ha as <- <-. rewrite (IH _ _ E Hb). unfold m_ret. by rewrite <- app_assoc.
Qed.

(** The delegate has nothing new to send. *)
Definition idle (d : delegate) : Prop := nextFrame mtu (dg_messageQueue d) = ([], Ok None).

Lemma GetBroadcasts_retransmit d r rest :
  idle d -> dg_retransmitQueue d = r :: rest ->
  let n := getTransmissionCount memberCount d in
  let d' := set_retransmitQueue
      (if n <=? rf_transmitCount r + 1 then rest
       else mkRetransmission (rf_frame r) (rf_transmitCount r + 1) :: rest) (set_messageQueue [] d) in
  GetBroadcasts memberCount overhead limit d = (d', Ok [packet (rf_frame r)]) /\ idle d'.
Proof.
  intros Hi Hq. unfold GetBroadcasts. rewrite Hq. fold mtu. unfold idle in Hi.
  assert ((mtu <? 1) = false) as Hm by (apply Z.ltb_ge; exact Hmtu).
  assert (retransmit memberCount (set_messageQueue [] d) = 
    (set_retransmitQueue
      (if getTransmissionCount memberCount d <=? rf_transmitCount r + 1 then rest
       else mkRetransmission (rf_frame r) (rf_transmitCount r + 1) :: rest) (set_messageQueue [] d),
     Ok [packet (rf_frame r)])) as Hr.
  { unfold retransmit. cbn [set_messageQueue dg_retransmitQueue]. rewrite Hq. done. }
  destruct (dg_messageQueue d) eqn:E; rewrite Hm, Hi, Hr; done.
Qed.

(** A frame at the head of the queue is sent until its count is reached. *)
Lemma drain_head k : forall d f c rest,
  idle d -> dg_retransmitQueue d = mkRetransmission f c :: rest ->
  k = Z.to_nat (Z.max 1 (getTransmissionCount memberCount d - c)) ->
  exists d', broadcasts k memberCount overhead limit d = (d', Ok (replicate k (packet f))) /\
    idle d' /\ dg_retransmitQueue d' = rest /\
    getTransmissionCount memberCount d' = getTransmissionCount memberCount d.
Proof.
  induction k as [|k IH]; intros d f c rest Hi Hq Hk; [lia|].
  destruct (GetBroadcasts_retransmit d _ _ Hi Hq) as [E Hi']. cbv zeta in E, Hi'. cbn [rf_frame rf_transmitCount] in E, Hi'.
  cbn [broadcasts replicate]. run E. clear E.
  destruct (Z.leb_spec (getTransmissionCount memberCount d) (c + 1)) as [Hle|Hgt].
  - assert (k = 0%nat) as -> by lia. eexists. split; [reflexivity|]. split_and!; done.
  - destruct (IH _ f (c + 1) rest Hi' eq_refl) as (d' & E & H1 & H2 & H3); [unfold getTransmissionCount in *; cbn; lia|].
    exists d'. run E. split_and!; [done..|]. rewrite H3. done.
Qed.

(** The packets a queue of retransmissions amounts to. *)
Definition repetitions (n : Z) (r : retransmissionFrame) : list bytes :=
  replicate (Z.to_nat (Z.max 1 (n - rf_transmitCount r))) (packet (rf_frame r)).

Lemma drain_all q : forall d, idle d -> dg_retransmitQueue d = q ->
  let ps := concat (repetitions (getTransmissionCount memberCount d) <$> q) in
  exists d', broadcasts (length ps) memberCount overhead limit d = (d', Ok ps) /\
    idle d' /\ dg_retransmitQueue d' = [].
Proof.
  induction q as [|[f c] q IH]; intros d Hi Hq; cbv zeta; [by exists d|].
  destruct (drain_head _ d f c q Hi Hq eq_refl) as (d1 & E1 & Hi1 & Hq1 & Hn1).
  destruct (IH d1 Hi1 Hq1) as (d2 & E2 & Hi2 & Hq2). rewrite Hn1 in E2.
  exists d2. cbn [fmap list_fmap concat]. rewrite length_app. split_and!; [|done..].
  eapply broadcasts_app; [|exact E2]. unfold repetitions at 1. rewrite length_replicate. exact E1.
Qed.

(** New frames go out one by one and are queued for retransmission. *)
Lemma send_phase fs : forall fq d,
  frames_until_eof fq (replicate (S (length fs)) mtu) = Some fs -> dg_messageQueue d = [fq] ->
  let n := getTransmissionCount memberCount d in
  exists d', broadcasts (length fs) memberCount overhead limit d = (d', Ok (packet <$> fs)) /\
    idle d' /\ getTransmissionCount memberCount d' = n /\
    dg_retransmitQueue d' = dg_retransmitQueue d ++
      (if 1 <? n then (fun f => mkRetransmission f 1) <$> fs else []).
Proof.
  induction fs as [|f fs IH]; intros fq d Hf Hq; cbv zeta.
  - exists d. split_and!; [done| |done|by destruct (1 <? _); rewrite app_nil_r].
    cbn [length replicate frames_until_eof] in Hf. unfold idle. rewrite Hq. cbn [nextFrame].
    destruct (Next fq mtu) as [fq' [f|e|w]]; [done| |done].
    case_decide; [subst e; done|done].
  - change (replicate (S (length (f :: fs))) mtu) with (mtu :: replicate (S (length fs)) mtu) in Hf.
    revert IH Hf. generalize (replicate (S (length fs)) mtu) as mtus. intros mtus IH Hf. cbn [frames_until_eof] in Hf.
    destruct (Next fq mtu) as [fq' [g|e|w]] eqn:E; [|by case_decide|done].
    destruct (frames_until_eof fq' mtus) as [gs|] eqn:E'; [|done]. cbn in Hf.
    injection Hf as -> ->.
    set (d1 := set_messageQueue [fq'] d).
    set (d2 := if 1 <? getTransmissionCount memberCount d
               then set_retransmitQueue (dg_retransmitQueue d ++ [mkRetransmission f 1]) d1 else d1).
    assert (GetBroadcasts memberCount overhead limit d = (d2, Ok [packet f])) as EG.
    { unfold GetBroadcasts. rewrite Hq. fold mtu. rewrite (proj2 (Z.ltb_ge mtu 1)) by exact Hmtu.
      cbn [nextFrame]. rewrite E. reflexivity. }
    assert (dg_messageQueue d2 = [fq']) as Hq2 by (unfold d2; by destruct (1 <? _)).
    assert (getTransmissionCount memberCount d2 = getTransmissionCount memberCount d) as Hn2
      by (unfold d2; by destruct (1 <? _)).
    destruct (IH fq' d2 E' Hq2) as (d' & EB & Hi & Hn & Hr). rewrite Hn2 in Hn, Hr.
    exists d'. cbn [length broadcasts]. rewrite (m_bind_ok _ _ _ _ _ EG), (m_bind_ok _ _ _ _ _ EB).
    split_and!; [done..|]. rewrite Hr. unfold d2. destruct (1 <? _); [|done].
    cbn. by rewrite <- app_assoc.
Qed.

(** A message at an otherwise quiet node is broadcast frame by frame in
    order, and every frame is then repeated until it has been sent as many
    times as the size of the cluster asks for; nothing is left to send. *)
Theorem message_transmissions d id msg fs :
  dg_messageQueue d = [] -> dg_retransmitQueue d = [] ->
  frames_until_eof (newFrameQueue id (dg_sourceName d) msg) (replicate (S (length fs)) mtu) = Some fs ->
  let n := Z.to_nat (getTransmissionCount memberCount d) in
  let ps := (packet <$> fs) ++ concat ((fun f => replicate (n - 1) (packet f)) <$> fs) in
  exists d', broadcasts (length ps) memberCount overhead limit (Send id msg d) = (d', Ok ps) /\
    dg_retransmitQueue d' = [] /\ nextFrame mtu (dg_messageQueue d') = ([], Ok None).
Proof.
  intros Hmq Hrq Hf. cbv zeta.
  destruct (send_phase fs _ (Send id msg d) Hf) as (d1 & E1 & Hi1 & Hn1 & Hr1); [cbn; by rewrite Hmq|].
  cbn in Hr1. rewrite Hrq in Hr1. cbn [app] in Hr1.
  destruct (drain_all _ d1 Hi1 eq_refl) as (d2 & E2 & Hi2 & Hr2). rewrite Hn1, Hr1 in E2.
  change (getTransmissionCount memberCount (Send id msg d)) with (getTransmissionCount memberCount d) in *.
  exists d2. split_and!; [|done..]. rewrite length_app, length_fmap. eapply broadcasts_app; [exact E1|].
  replace (concat ((fun f => replicate (Z.to_nat (getTransmissionCount memberCount d) - 1) (packet f)) <$> fs))
    with (concat (repetitions (getTransmissionCount memberCount d) <$>
      (if 1 <? getTransmissionCount memberCount d then (fun f => mkRetransmission f 1) <$> fs else []))); [exact E2|].
  destruct (Z.ltb_spec 1 (getTransmissionCount memberCount d)).
  - f_equal. rewrite <- list_fmap_compose. apply list_fmap_ext. intros i f _. unfold compose, repetitions. cbn. f_equal. lia.
  - replace (_ - 1)%nat with 0%nat by lia. cbn. clear. induction fs; done.
Qed.

End Sending.
End Delegate.

(** ** Evaluation *)

Definition quiet : delegate := newDelegate (bz "n0") 2.

Lemma example_stream : is_stream example_id (bz "n0") true (z2b 120 :: example_msg) example_frames.
Proof.
  split; [vm_compute; reflexivity|].
  intros i f Hf. do 4 (destruct i as [|i]; [vm_compute in Hf; injection Hf as <-; by vm_compute|]).
  vm_compute in Hf. done.
Qed.

Lemma example_frames_ok : Forall frame_ok example_frames.
Proof.
  assert (example_frames = ltac:(let l := eval vm_compute in example_frames in exact l)) as -> by (vm_compute; reflexivity).
  repeat constructor; vm_compute; congruence || done.
Qed.

Definition example_packets : list (Z * bytes) := (fun f => (0, packet f)) <$> example_frames.

Definition example_stream_data : stream := mkStream example_id (bz "n0") true (z2b 120 :: example_msg) example_msg example_frames.

(** A second message, of one frame, that arrives between the frames of the first. *)
Definition other_id : bytes := replicate 16 (z2b 5).
Definition other_frame : frame := newFrame false other_id 0 true (bz "n2") (bz "hello").
Definition other_stream : stream := mkStream other_id (bz "n2") false (bz "hello") (bz "hello") [other_frame].

Lemma other_stream_ok : @stream_ok header_zlib other_stream.
Proof.
  split; [split; [reflexivity|]|cbn; lia|repeat constructor; vm_compute; congruence || done|reflexivity].
  intros [|i] f; [|done]. intros [= <-]. repeat split.
Qed.

Definition mixed_packets : list (Z * bytes) :=
  take 1 example_packets ++ [(1, packet other_frame); (2, bz "noise")] ++ drop 1 example_packets.

Lemma frames_in_order l : interleaving [l; []] ((fun f => (0, packet f)) <$> l).
Proof.
  induction l as [|f l IH]; [apply il_nil; repeat constructor|]. cbn. by apply (il_next [] f l [[]]); [apply Marshal_packet|].
Qed.

Lemma noise_refused : exists err, frame_Unmarshal (bz "noise") [] = Err err.
Proof. eexists. vm_compute. reflexivity. Qed.

Lemma mixed_in_order l g : l <> [] -> interleaving [l; [g]]
  (take 1 ((fun f => (0, packet f)) <$> l) ++ [(1, packet g); (2, bz "noise")] ++ drop 1 ((fun f => (0, packet f)) <$> l)).
Proof.
  destruct l as [|f l]; [done|]. intros _. destruct noise_refused as [err Herr]. cbn.
  apply (il_next [] f l [[g]]); [apply Marshal_packet|]. apply (il_next [l] g [] []); [apply Marshal_packet|].
  apply (il_noise _ _ _ err _ Herr). apply frames_in_order.
Qed.


Definition example_single : frame := newFrame false example_id 0 true (bz "n1") (bz "hi").

Lemma single_frame_redelivered_witness :
  exists d', @receive header_zlib [(0, packet example_single); (5, packet example_single)] quiet = (d', Ok tt) /\
    dg_rx d' = [mkInboundMessage (bz "n1") (bz "hi"); mkInboundMessage (bz "n1") (bz "hi")].
Proof.
  apply (@single_frame_redelivered header_zlib example_id (bz "n1") false (bz "hi") (bz "hi") [example_single])
    with (f := example_single).
  - split; [reflexivity|]. intros [|i] f Hf; [injection Hf as <-; by vm_compute|done].
  - cbn. lia.
  - repeat constructor; vm_compute; congruence || done.
  - reflexivity.
  - apply lookup_empty.
  - reflexivity.
  - reflexivity.
Defined.

Definition example_late : frame := newFrame false example_id 1 true (bz "n1") (bz "hi").

Lemma out_of_order_crashes_witness :
  is_panic (@receive header_zlib [(0, packet example_late); (5, packet example_single)] quiet).2 = true.
Proof.
  apply (@out_of_order_crashes header_zlib example_late example_single).
  1-2: repeat constructor; vm_compute; congruence || done.
  all: try reflexivity. vm_compute. split; congruence.
Defined.

Definition example_first : frame := newFrame false example_id 0 false (bz "n1") (bz "hi").

Lemma in_order_may_crash_witness : exists a,
  rtc (@scheduled header_zlib) (NotifyMsg (packet example_late) (NotifyMsg (packet example_first) (mkArrivals quiet [] false))) a /\
  ar_crashed a = true.
Proof.
  apply (@in_order_may_crash header_zlib example_first example_late).
  1-2: repeat constructor; vm_compute; congruence || done.
  all: try reflexivity. vm_compute. split; congruence.
Defined.

Lemma message_transmissions_witness :
  exists d', @broadcasts header_zlib 8 3 4 40 (@Send example_id example_msg quiet) =
    (d', Ok ((packet <$> example_frames) ++ example_frames ≫= (fun f => [packet f]))).
Proof.
  destruct (@message_transmissions header_zlib 3 4 40 ltac:(lia) quiet example_id example_msg example_frames
    eq_refl eq_refl ltac:(vm_compute; reflexivity)) as (d' & E & _). exists d'. exact E.
Defined.

End Delegate.
