(* ===== verification/Transport.v ===== *)
(** * The SWIM transport

    Models [offchain-interface/pkg/transport/swim/transport.go] over the
    cluster of [hashicorp/memberlist], a parameter: its members, and what
    [SendReliable], [Join], [Leave] and [Shutdown] return, are arguments.  The
    loop of [StartListener] is a function from a state and what it receives to
    the next state and what it does; it is blocked when it answers a caller that
    has gone, because the channel for answers has no buffer. *)

From S2P Require Import Prelude Frame FrameQueue FrameDecoder Delegate.

Module Transport.
Import Frame FrameQueue Decoder Delegate.

Definition ErrTargetNotFound : error := Sentinel (bz "target not found").
Definition ErrClusterEmpty : error := Sentinel (bz "cluster is empty").

Section Transport.
Context `{Zlib}.

Record SWIMTransport : Type := mkSWIMTransport {
  t_NodeName : bytes;
  t_UseGossip : bool;
  t_delegate : delegate;
  t_listeners : list nat;
  t_connected : bool;  (* variable of [StartListener] *)
  t_timer : bool;      (* the timer has not fired *)
  t_pruneOpen : bool   (* [pruneShutdown] has not been closed *)
}.

Definition put_delegate (d : delegate) (t : SWIMTransport) : SWIMTransport :=
  mkSWIMTransport (t_NodeName t) (t_UseGossip t) d (t_listeners t) (t_connected t) (t_timer t) (t_pruneOpen t).
Definition put_listeners (ls : list nat) (t : SWIMTransport) : SWIMTransport :=
  mkSWIMTransport (t_NodeName t) (t_UseGossip t) (t_delegate t) ls (t_connected t) (t_timer t) (t_pruneOpen t).
Definition put_connected (b : bool) (t : SWIMTransport) : SWIMTransport :=
  mkSWIMTransport (t_NodeName t) (t_UseGossip t) (t_delegate t) (t_listeners t) b (t_timer t) (t_pruneOpen t).
Definition fire_timer (t : SWIMTransport) : SWIMTransport :=
  mkSWIMTransport (t_NodeName t) (t_UseGossip t) (t_delegate t) (t_listeners t) (t_connected t) false (t_pruneOpen t).
Definition close_prune (t : SWIMTransport) : SWIMTransport :=
  mkSWIMTransport (t_NodeName t) (t_UseGossip t) (t_delegate t) (t_listeners t) (t_connected t) (t_timer t) false.

(** [NewSWIMTransport], when the cluster could be created. *)
Definition NewSWIMTransport (name : bytes) (useGossip : bool) (retransmitMultiplier : Z) : SWIMTransport :=
  mkSWIMTransport name useGossip (newDelegate name retransmitMultiplier) [] false true true.

Definition Identifier (t : SWIMTransport) : bytes := t_NodeName t.
Definition AddRxListener (l : nat) (t : SWIMTransport) : SWIMTransport := put_listeners (t_listeners t ++ [l]) t.
Definition ClearListeners (t : SWIMTransport) : SWIMTransport := put_listeners [] t.

(** ** Choosing a target *)

(** The member to send to; members are their names. *)
Definition Unicast (target : bytes) (members : list bytes) : result bytes :=
  if existsb (fun m => bool_decide (m = target)) members then Ok target else Err ErrTargetNotFound.

(** [append(members[:i], members[i+1:]...)] for the first [i]. *)
Fixpoint exclude_self (self : bytes) (members : list bytes) : list bytes :=
  match members with
  | [] => []
  | m :: rest => if bool_decide (m = self) then rest else m :: exclude_self self rest
  end.

(** [intn] is [rand.Intn], which panics for zero. *)
Definition UnicastRandomNeighbour (intn : Z -> Z) (self : bytes) (members : list bytes) : result bytes :=
  match members with
  | [] => Err ErrClusterEmpty
  | _ =>
      let members := exclude_self self members in
      if zlen members <=? 0 then Panic (bz "invalid argument to Intn")
      else index members (intn (zlen members))
  end.

(** ** The loop *)

Definition MaxUint : Z := 2 ^ 64 - 1.

(** What [StartListener] receives, with what the calls return in that round:
    [id] is the fresh identifier of a stream, [waits] says whether the caller is
    still waiting for the answer. *)
Inductive input : Type :=
| OnTx (id : bytes) (members : list bytes) (bytes_ : bytes)
| OnUnicast (id target bytes_ : bytes) (SendReliable : option error) (waits : bool)
| OnRx (msg : inboundMessage)
| OnShutdown (Leave Shutdown : option error) (waits : bool)
| OnTimer (Join : option error).

Inductive output : Type :=
| Send_ (target packet : bytes)               (* [cluster.SendReliable] *)
| Answer (err : option error)                 (* on the channel of the caller *)
| Start (listener : nat) (msg : inboundMessage)
| Request (target bytes_ : bytes).            (* [t.unicast] of the broadcasting goroutine *)

Inductive loop : Type :=
| Running (t : SWIMTransport)
| Blocked (t : SWIMTransport)
| Crashed.

(** Answers are taken by a caller that waits, once. *)
Definition answering (t : SWIMTransport) (waits : bool) (answers : list output) : loop :=
  if (length answers <=? if waits then 1 else 0)%nat then Running t else Blocked t.

Definition jumbo (id name bytes_ : bytes) : result frame := (Next (newFrameQueue id name bytes_) MaxUint).2.

(** The goroutine that sends to every other member, one after the other. *)
Definition broadcastRequests (id self : bytes) (members : list bytes) (bytes_ : bytes) : list output :=
  concat ((fun member =>
    if bool_decide (member = self) then []
    else match jumbo id self bytes_ with Ok f => [Request member (Data f)] | _ => [] end) <$> members).

(** The answers to a unicast message, after what is sent. *)
Definition unicastOutputs (id self target bytes_ : bytes) (SendReliable : option error) : result (list output * list output) :=
  match jumbo id self bytes_ with
  | Panic w => Panic w
  | Err err => Ok ([], [Answer (Some err)])
  | Ok jumboFrame =>
      match frame_Marshal jumboFrame with
      | Panic w => Panic w
      | Err err => Ok ([Send_ target []], [Answer (Some err); Answer SendReliable])
      | Ok encoded => Ok ([Send_ target encoded], [Answer SendReliable])
      end
  end.

Definition onShutdown (t : SWIMTransport) (Leave Shutdown : option error) (waits : bool) : loop * list output :=
  let answers := match Leave with Some e => [Answer (Some e)] | None => [] end ++
                 match Shutdown with Some e => [Answer (Some e)] | None => [] end ++ [Answer None] in
  if t_pruneOpen t then (answering (close_prune t) waits answers, answers) else (Crashed, []).

Definition step (t : SWIMTransport) (i : input) : loop * list output :=
  match i with
  | OnTx id members bytes_ =>
      if negb (t_connected t) then (Running t, [])
      else if t_UseGossip t then (Running (put_delegate (Send id bytes_ (t_delegate t)) t), [])
      else (Running t, broadcastRequests id (t_NodeName t) members bytes_)
  | OnUnicast id target bytes_ SendReliable waits =>
      if negb (t_connected t) then (Running t, [])
      else match unicastOutputs id (t_NodeName t) target bytes_ SendReliable with
           | Ok (sends, answers) => (answering t waits answers, sends ++ answers)
           | _ => (Crashed, [])
           end
  | OnRx msg => (Running t, (fun l => Start l msg) <$> t_listeners t)
  | OnShutdown Leave Shutdown waits => onShutdown t Leave Shutdown waits
  | OnTimer Join =>
      if t_timer t then
        let t := fire_timer t in
        (Running (if t_connected t then t else match Join with Some _ => t | None => put_connected true t end), [])
      else (Running t, [])  (* cannot happen: the timer fires once *)
  end.

(** [StartListener]: the first attempt to connect, then the loop. *)
Fixpoint run_from (l : loop) (is_ : list input) : loop * list output :=
  match l, is_ with
  | Running t, i :: rest => let '(l, out) := step t i in let '(l, out') := run_from l rest in (l, out ++ out')
  | _, _ => (l, [])
  end.

Definition StartListener (Join : option error) (t : SWIMTransport) (is_ : list input) : loop * list output :=
  run_from (Running (put_connected (match Join with Some _ => false | None => true end) t)) is_.

(** ** Properties *)

(** What a unicast message of a connected node does. *)
Lemma unicast_sends t id target msg r waits : t_connected t = true -> msg <> [] -> small (zlen msg + header_bytes (t_NodeName t)) ->
  step t (OnUnicast id target msg r waits) =
  (if waits then Running t else Blocked t,
   [Send_ target (packet (newFrame false id 0 true (t_NodeName t) msg)); Answer r]).
Proof.
  intros Hc Hne Hs. unfold step. rewrite Hc. cbn [negb]. unfold unicastOutputs, jumbo, MaxUint.
  rewrite (jumbo_frame id (t_NodeName t) msg Hne Hs). cbn [snd]. rewrite Marshal_packet. unfold answering. by destruct waits.
Qed.

(** A unicast message reaches its peer: a connected node sends one packet to
    the target and answers the caller with the outcome; a node that receives the
    packet, and is not collecting a stream with the same identifier, gives the
    name of the sender and the message to its listeners. *)
Theorem unicast_reaches_peer t id target msg r peer now :
  t_connected t = true -> msg <> [] -> zlen msg < 2 ^ 32 -> zlen (t_NodeName t) < 2 ^ 16 -> length id = 16%nat ->
  dg_decoders peer !! id = None ->
  exists p peer', step t (OnUnicast id target msg r true) = (Running t, [Send_ target p; Answer r]) /\
    handleInboundMessage now p [] peer = (peer', Ok tt) /\
    dg_rx peer' = dg_rx peer ++ [mkInboundMessage (t_NodeName t) msg] /\ dg_decoders peer' = dg_decoders peer.
Proof.
  intros Hc Hne Hm Hn Hid Hnone. pose proof (zlen_nonneg msg) as Hm0. pose proof (zlen_nonneg (t_NodeName t)) as Hn0.
  set (f := newFrame false id 0 true (t_NodeName t) msg).
  assert (is_stream id (t_NodeName t) false msg [f]) as Hst.
  { split; [cbn; by rewrite app_nil_r|]. intros [|i] g Hg; [|done]. by injection Hg as <-. }
  assert (frame_ok f) as Hf by (split_and!; cbn; [done|unfold in_u; lia..]).
  destruct (stream_alone id (t_NodeName t) false msg msg [f] Hst ltac:(cbn; lia) ltac:(by repeat constructor) eq_refl
    [(now, packet f)] 0 peer) as (peer' & Hr & Hrx & Hdec).
  - by repeat constructor.
  - cbn. lia.
  - unfold decoder_of. rewrite Hnone. apply dense_zero. cbn. lia.
  - exists (packet f), peer'. split; [apply unicast_sends; [done..|]; unfold small, header_bytes; lia|].
    cbn [receive] in Hr. unfold m_bind in Hr. destruct (handleInboundMessage now (packet f) [] peer) as [d [[]|e|w]]; cbn in Hr; [|done..].
    injection Hr as <-. split; [done|]. split; [done|]. rewrite Hdec. by apply delete_id.
Qed.

(** A message that is broadcast without gossip is sent once to every other
    member of the cluster. *)
Theorem broadcast_to_others t id members msg : t_connected t = true -> t_UseGossip t = false ->
  msg <> [] -> small (zlen msg + header_bytes (t_NodeName t)) ->
  step t (OnTx id members msg) =
  (Running t, (fun member => Request member msg) <$> filter (fun member => member <> t_NodeName t) members).
Proof.
  intros Hc Hg Hne Hs. unfold step. rewrite Hc, Hg. cbn [negb]. f_equal. unfold broadcastRequests, jumbo, MaxUint.
  rewrite (jumbo_frame id (t_NodeName t) msg Hne Hs). cbn [snd].
  induction members as [|m members IH]; [done|]. cbn [fmap list_fmap concat]. rewrite filter_cons.
  case_bool_decide; [rewrite decide_False by (intros Hx; by apply Hx)|rewrite decide_True by done]; [exact IH|].
  cbn. f_equal. exact IH.
Qed.

(** *** A random neighbour *)

Lemma index_in {A} (l : list A) i : 0 <= i < zlen l -> exists x, index l i = Ok x /\ x ∈ l.
Proof.
  intros Hi. unfold index. rewrite (proj2 (Z.leb_le _ _)) by lia.
  destruct (lookup_lt_is_Some_2 l (Z.to_nat i)) as [x Hx]; [unfold zlen in Hi; lia|]. rewrite Hx. exists x.
  split; [done|]. by eapply list_elem_of_lookup_2.
Qed.

Lemma exclude_self_elem self members m : m ∈ exclude_self self members -> m ∈ members.
Proof.
  induction members as [|x members IH]; [done|]. cbn. case_bool_decide; rewrite !elem_of_cons; [by right|].
  intros [->|Hin]; [by left|]. right. by apply IH.
Qed.

Lemma exclude_self_gone self members : NoDup members -> self ∉ exclude_self self members.
Proof.
  induction members as [|x members IH]; intros Hn; [by apply not_elem_of_nil|]. apply list.NoDup_cons in Hn as [Hx Hn]. cbn.
  case_bool_decide as Hs; [by subst|]. rewrite elem_of_cons. intros [->|Hin]; [done|]. by apply IH.
Qed.

Lemma exclude_self_nil self members : exclude_self self members = [] <-> members = [] \/ members = [self].
Proof.
  destruct members as [|x members]; cbn; [by split; [left|]|]. case_bool_decide as Hs.
  - subst x. split; [intros ->; by right|]. by intros [[=]|[= ->]].
  - split; [done|]. by intros [[=]|[= ->]].
Qed.

(** A request for missing events goes to a member other than the node
    itself; a node that is alone in its cluster does not get [ErrClusterEmpty]
    but crashes. *)
Theorem random_neighbour intn self members : (forall n, 0 < n -> 0 <= intn n < n) -> NoDup members ->
  match UnicastRandomNeighbour intn self members with
  | Ok m => m ∈ members /\ m <> self
  | Err e => e = ErrClusterEmpty /\ members = []
  | Panic _ => members = [self]
  end.
Proof.
  intros Hi Hn. unfold UnicastRandomNeighbour. destruct members as [|x members]; [done|].
  set (others := exclude_self self (x :: members)). destruct (Z.leb_spec (zlen others) 0) as [Hz|Hz].
  - assert (others = []) as Ho by (destruct others; [done|unfold zlen in Hz; cbn in Hz; lia]).
    by apply exclude_self_nil in Ho as [?|?].
  - pose proof (Hi _ Hz) as Hb. destruct (index_in others (intn (zlen others)) Hb) as (m & -> & Hm).
    split; [by apply (exclude_self_elem self)|]. intros ->. by apply (exclude_self_gone self (x :: members)).
Qed.

(** *** Ways to stop the loop *)

(** A caller that gives up stops the transport: when its context has ended
    before the message was sent, the loop waits for ever to answer it, and
    nothing is sent or received afterwards. *)
Theorem late_answer_blocks t id target msg r is_ : t_connected t = true -> msg <> [] ->
  small (zlen msg + header_bytes (t_NodeName t)) ->
  exists p, run_from (Running t) (OnUnicast id target msg r false :: is_) = (Blocked t, [Send_ target p; Answer r]).
Proof.
  intros Hc Hne Hs. eexists. cbn [run_from]. rewrite unicast_sends by done. by destruct is_.
Qed.

Definition sends (o : output) : Prop := match o with Send_ _ _ | Request _ _ => True | _ => False end.

(** The cluster is joined in the first attempt or in the one of the timer,
    or not at all: the timer fires once, and after it has failed every outbound
    message is dropped. *)
Theorem failed_join_is_final is_ : forall t l out, t_connected t = false -> t_timer t = false ->
  run_from (Running t) is_ = (l, out) ->
  Forall (fun o => ~ sends o) out /\
  match l with Running t' | Blocked t' => t_connected t' = false /\ t_delegate t' = t_delegate t | Crashed => True end.
Proof.
  induction is_ as [|i is_ IH]; intros t l out Hc Ht E; cbn [run_from] in E.
  { injection E as <- <-. by repeat constructor. }
  destruct (step t i) as [l1 out1] eqn:Es. destruct (run_from l1 is_) as [l2 out2] eqn:Er. injection E as <- <-.
  assert (forall t', l1 = Running t' -> t_connected t' = false /\ t_timer t' = false /\ t_delegate t' = t_delegate t) as Hrun.
  { intros t' ->. destruct i; cbn in Es; rewrite ?Hc, ?Ht in Es; cbn in Es; try (by injection Es as <- _).
    unfold onShutdown, answering in Es. repeat case_match; by simplify_eq. }
  assert (forall t', l1 = Blocked t' -> t_connected t' = false /\ t_delegate t' = t_delegate t) as Hblk.
  { intros t' ->. destruct i; cbn in Es; rewrite ?Hc, ?Ht in Es; cbn in Es; try done.
    unfold onShutdown, answering in Es. repeat case_match; by simplify_eq. }
  assert (Forall (fun o => ~ sends o) out1) as Hout.
  { destruct i; cbn in Es; rewrite ?Hc, ?Ht in Es; cbn in Es; try (by injection Es as _ <-; constructor).
    - injection Es as _ <-. apply List.Forall_forall. intros o (x & <- & _)%in_map_iff. cbn. tauto.
    - unfold onShutdown in Es. destruct (t_pruneOpen t); injection Es as _ <-; [|constructor].
      destruct Leave, Shutdown; cbn; repeat constructor; cbn; tauto. }
  destruct l1 as [t1|t1|]; cbn [run_from] in Er.
  - destruct (Hrun t1 eq_refl) as (H1' & H2' & H3'). destruct (IH t1 l2 out2 H1' H2' Er) as [Ho Hl].
    split; [by apply Forall_app|]. rewrite <- H3'. exact Hl.
  - assert (l2 = Blocked t1 /\ out2 = []) as [-> ->] by (by destruct is_; injection Er as <- <-).
    rewrite app_nil_r. split; [done|]. by apply Hblk.
  - assert (l2 = Crashed /\ out2 = []) as [-> ->] by (by destruct is_; injection Er as <- <-). by rewrite app_nil_r.
Qed.

End Transport.

(** ** No transport ([nooptransport.go]) *)
Module NoopTransport.
Definition Broadcast (_ : bytes) : result unit := Ok tt.
Definition Unicast (_ _ : bytes) : result unit := Ok tt.
Definition UnicastRandomNeighbour (_ : bytes) : result unit := Ok tt.
Definition Identifier : bytes := [].
Definition Shutdown : result unit := Ok tt.
End NoopTransport.

(** ** On concrete messages *)
#[local] Existing Instance header_zlib.

Definition wNode : SWIMTransport := put_connected true (NewSWIMTransport (bz "n1") false 3).
Definition wId : bytes := replicate 16 (z2b 7).

Lemma unicast_reaches_peer_witness : exists p peer',
  step wNode (OnUnicast wId (bz "n2") (bz "hello") None true) = (Running wNode, [Send_ (bz "n2") p; Answer None]) /\
  handleInboundMessage 0 p [] (newDelegate (bz "n2") 3) = (peer', Ok tt) /\
  dg_rx peer' = [mkInboundMessage (bz "n1") (bz "hello")] /\ dg_decoders peer' = ∅.
Proof. apply (unicast_reaches_peer wNode wId (bz "n2") (bz "hello") None (newDelegate (bz "n2") 3) 0); done. Defined.

Lemma broadcast_to_others_witness :
  step wNode (OnTx wId [bz "n1"; bz "n2"; bz "n3"] (bz "hello")) =
  (Running wNode, [Request (bz "n2") (bz "hello"); Request (bz "n3") (bz "hello")]).
Proof. rewrite broadcast_to_others; done. Defined.

Lemma random_neighbour_witness :
  UnicastRandomNeighbour (fun _ => 0) (bz "n1") [bz "n1"] = Panic (bz "invalid argument to Intn") /\ [bz "n1"] = [bz "n1"].
Proof.
  split; [reflexivity|]. pose proof (random_neighbour (fun _ => 0) (bz "n1") [bz "n1"]) as Hr.
  apply Hr; [intros n Hn; lia|apply NoDup_singleton].
Defined.

Lemma late_answer_blocks_witness : exists p,
  run_from (Running wNode) [OnUnicast wId (bz "n2") (bz "hello") None false; OnRx (mkInboundMessage (bz "n2") (bz "hi"))] =
  (Blocked wNode, [Send_ (bz "n2") p; Answer None]).
Proof. apply (late_answer_blocks wNode wId (bz "n2") (bz "hello") None [OnRx (mkInboundMessage (bz "n2") (bz "hi"))]); done. Defined.

(** A node that could not join and whose timer has fired. *)
Definition wAlone : SWIMTransport := fire_timer (NewSWIMTransport (bz "n1") false 3).

Lemma failed_join_is_final_witness :
  Forall (fun o => ~ sends o) (run_from (Running wAlone) [OnTx wId [bz "n2"] (bz "hello"); OnTimer None]).2.
Proof.
  destruct (run_from (Running wAlone) [OnTx wId [bz "n2"] (bz "hello"); OnTimer None]) as [l out] eqn:E.
  apply (failed_join_is_final _ wAlone l out eq_refl eq_refl E).
Defined.

End Transport.
