(* ===== verification/Types.v ===== *)
(** * Shared data types

    Models the data of [common/pkg/types]: identities, signed requests, events,
    retention policies, and the result codes of the on-chain applications.
    Go strings, keys and hashes are byte sequences; a pointer field is an
    option; [time.Time] is the instant in nanoseconds since the Unix epoch
    with the offset of its location, which its textual form shows; [int] is a
    [Z]. *)

From S2P Require Import Prelude.

(** ** Time *)

Record time : Type := mkTime {
  instant : Z; (* nanoseconds since the Unix epoch *)
  offset : Z   (* seconds east of UTC *)
}.

#[global] Instance time_eq_dec : EqDecision time.
Proof. solve_decision. Defined.

(** [t.Equal(u)] compares instants, whatever the locations. *)
Definition Time_Equal (t u : time) : bool := instant t =? instant u.

Abbreviation Principal := bytes (only parsing).
Abbreviation Role := bytes (only parsing).
Abbreviation RequestType := bytes (only parsing).
Abbreviation EventHash := bytes (only parsing).
Abbreviation TxHash := bytes (only parsing).
Abbreviation RawMessage := bytes (only parsing).

(** ** Result codes

    [iota] counts the lines of a constant block, the typed codespace of the
    identity and retention blocks included. *)
Module MuxCode.
Definition Codespace : bytes := bz "multiplex".
Definition CodeOk : Z := 0.
Definition CodeUnknownError : Z := 1.
Definition CodeEncodingError : Z := 2.
Definition CodeUnknownApp : Z := 3.
Definition CodeInvalidValidatorTx : Z := 4.
End MuxCode.

Module IdentityCode.
Definition Codespace : bytes := bz "identity".
Definition CodeOk : Z := 0.
Definition CodeUnknownRequestType : Z := 1002.
Definition CodeInvalidSignature : Z := 1003.
Definition CodeAlreadySeeded : Z := 1004.
Definition CodeUnauthorized : Z := 1005.
Definition CodeNotFound : Z := 1006.
Definition CodePrincipalAlreadyExists : Z := 1007.
Definition CodeTreeUninitialized : Z := 1008.
Definition CodeUnknownError : Z := 1009.
End IdentityCode.

Module EventsCode.
Definition Codespace : bytes := bz "events".
Definition CodeOk : Z := 0.
Definition CodeUnknownError : Z := 1.
Definition CodeInvalidQueryPath : Z := 2.
Definition CodeEventNotFound : Z := 3.
Definition CodeTreeUninitialized : Z := 4.
End EventsCode.

Module RetentionCode.
Definition Codespace : bytes := bz "retention_policy".
Definition CodeOk : Z := 0.
Definition CodeUnknownRequestType : Z := 4002.
Definition CodeUnsupportedRequest : Z := 4003.
Definition CodeUnauthorized : Z := 4004.
Definition CodePolicyAlreadySet : Z := 4005.
Definition CodePolicyNotSet : Z := 4006.
Definition CodeInvalidPolicy : Z := 4007.
End RetentionCode.

Module RpcCode.
Definition Codespace : bytes := bz "rpc".
Definition CodeOk : Z := 0.
Definition CodeUnknownRequestType : Z := 1.
Definition CodeInvalidSignature : Z := 2.
End RpcCode.

(** ** Identities *)

Definition RoleAdmin : Role := bz "admin".
Definition RoleUser : Role := bz "user".

Record IdentityData : Type := mkIdentityData {
  PublicKey : bytes;
  id_Role : Role
}.

#[global] Instance IdentityData_eq_dec : EqDecision IdentityData.
Proof. solve_decision. Defined.

Definition IsAdmin (i : IdentityData) : bool := bool_decide (id_Role i = RoleAdmin).

Definition RequestTypeSeed : RequestType := bz "seed".
Definition RequestTypeRegister : RequestType := bz "register".

Record PayloadSeed : Type := mkPayloadSeed {
  seed_Principal : Principal;
  seed_Key : bytes
}.

Record PayloadRegister : Type := mkPayloadRegister {
  reg_Principal : Principal;
  reg_Role : Role;
  reg_Key : bytes
}.

(** ** Requests *)

Record Payload : Type := mkPayload {
  p_Type : RequestType;
  p_Data : RawMessage
}.

Record UnsignedPayload : Type := mkUnsignedPayload { up_Payload : Payload }.

Record SignedPayload : Type := mkSignedPayload {
  sp_Payload : Payload;
  sp_Principal : Principal;
  sp_Signature : bytes (* hex encoded *)
}.

Record MuxedRequest : Type := mkMuxedRequest {
  mr_App : bytes;
  mr_Data : RawMessage
}.

(** ** Events *)

Definition AppNameEvents : bytes := bz "events".
Definition AppNameIdentity : bytes := bz "identity".
Definition AppNameRetention : bytes := bz "retention_policy".
Definition RequestTypeCreate : RequestType := bz "create".
Definition RequestTypeSetPolicy : RequestType := bz "set_policy".

Record Provider : Type := mkProvider {
  prov_Name : option bytes;
  prov_Guid : option bytes; (* uuid.UUID *)
  prov_EventSourceName : option bytes
}.

Record System : Type := mkSystem {
  sys_Provider : Provider;
  sys_EventId : Z;
  sys_SystemTime : time;           (* TimeCreated.SystemTime *)
  sys_EventRecordId : Z;
  sys_ActivityId : option bytes;   (* Correlation.ActivityId *)
  sys_ProcessId : option Z;        (* Execution.ProcessId *)
  sys_ThreadId : option Z;         (* Execution.ThreadId *)
  sys_Channel : bytes;
  sys_Computer : bytes
}.

Record Event : Type := mkEvent { ev_System : System }.

Record ScrubbedEvent : Type := mkScrubbedEvent {
  OffChainHash : bytes;
  se_Event : Event
}.

Record Metadata : Type := mkMetadata {
  EventId : EventHash;
  ReceivedTime : time;
  md_Principal : Principal
}.

Record EventWithMetadata : Type := mkEventWithMetadata {
  em_ScrubbedEvent : ScrubbedEvent;
  em_Metadata : Metadata
}.

Record CreateRequest : Type := mkCreateRequest {
  cr_Event : ScrubbedEvent;
  cr_Nonce : bytes
}.

Record CreateResponse : Type := mkCreateResponse { cresp_Metadata : Metadata }.
Record EventCountResponse : Type := mkEventCountResponse { ec_Count : Z }.

Record EvData : Type := mkEvData {
  data_Name : option bytes;
  data_Value : option bytes
}.

Abbreviation EventData := (list EvData) (only parsing).

Record EventWithData : Type := mkEventWithData {
  ed_Event : Event;
  ed_EventData : EventData
}.

Record StoredEvent : Type := mkStoredEvent {
  st_EventWithData : EventWithData;
  st_Metadata : Metadata;
  st_TxHash : TxHash
}.

#[global] Instance Provider_eq_dec : EqDecision Provider.
Proof. solve_decision. Defined.
#[global] Instance System_eq_dec : EqDecision System.
Proof. solve_decision. Defined.
#[global] Instance Event_eq_dec : EqDecision Event.
Proof. solve_decision. Defined.
#[global] Instance ScrubbedEvent_eq_dec : EqDecision ScrubbedEvent.
Proof. solve_decision. Defined.
#[global] Instance Metadata_eq_dec : EqDecision Metadata.
Proof. solve_decision. Defined.
#[global] Instance EventWithMetadata_eq_dec : EqDecision EventWithMetadata.
Proof. solve_decision. Defined.
#[global] Instance EvData_eq_dec : EqDecision EvData.
Proof. solve_decision. Defined.
#[global] Instance EventWithData_eq_dec : EqDecision EventWithData.
Proof. solve_decision. Defined.
#[global] Instance StoredEvent_eq_dec : EqDecision StoredEvent.
Proof. solve_decision. Defined.

(** ** Retention policies *)

Record Match : Type := mkMatch {
  m_Channel : option bytes;
  m_EventId : option Z;
  m_ProviderGuid : option bytes
}.

Record PolicyAction : Type := mkPolicyAction {
  pa_Type : bytes;
  pa_RuleGroup : bytes;
  pa_RetentionPeriod : Z; (* time.Duration, nanoseconds *)
  pa_Volume : Z           (* uint64 *)
}.

Record Filter : Type := mkFilter {
  f_Label : bytes;
  f_Match : Match;
  f_PolicyAction : PolicyAction
}.

Record RetentionPolicy : Type := mkRetentionPolicy { Filters : list Filter }.

Record StoredPolicy : Type := mkStoredPolicy {
  spol_Policy : RetentionPolicy;
  spol_Author : Principal;
  spol_AppliedAt : time
}.

Record SetPolicyRequest : Type := mkSetPolicyRequest {
  spr_Policy : RetentionPolicy;
  spr_Nonce : bytes
}.

#[global] Instance Match_eq_dec : EqDecision Match.
Proof. solve_decision. Defined.
#[global] Instance PolicyAction_eq_dec : EqDecision PolicyAction.
Proof. solve_decision. Defined.
#[global] Instance Filter_eq_dec : EqDecision Filter.
Proof. solve_decision. Defined.
#[global] Instance RetentionPolicy_eq_dec : EqDecision RetentionPolicy.
Proof. solve_decision. Defined.
#[global] Instance StoredPolicy_eq_dec : EqDecision StoredPolicy.
Proof. solve_decision. Defined.

#[global] Instance Payload_eq_dec : EqDecision Payload.
Proof. solve_decision. Defined.
#[global] Instance UnsignedPayload_eq_dec : EqDecision UnsignedPayload.
Proof. solve_decision. Defined.
#[global] Instance SignedPayload_eq_dec : EqDecision SignedPayload.
Proof. solve_decision. Defined.
#[global] Instance MuxedRequest_eq_dec : EqDecision MuxedRequest.
Proof. solve_decision. Defined.
#[global] Instance PayloadSeed_eq_dec : EqDecision PayloadSeed.
Proof. solve_decision. Defined.
#[global] Instance PayloadRegister_eq_dec : EqDecision PayloadRegister.
Proof. solve_decision. Defined.
#[global] Instance CreateRequest_eq_dec : EqDecision CreateRequest.
Proof. solve_decision. Defined.
#[global] Instance CreateResponse_eq_dec : EqDecision CreateResponse.
Proof. solve_decision. Defined.
#[global] Instance EventCountResponse_eq_dec : EqDecision EventCountResponse.
Proof. solve_decision. Defined.
#[global] Instance SetPolicyRequest_eq_dec : EqDecision SetPolicyRequest.
Proof. solve_decision. Defined.
