(* ===== verification/Text.v ===== *)
(** * Text encodings

    Models what the sources use of [encoding/hex], [strconv] and [time] for
    turning values into text and back: hexadecimal byte strings, decimal
    integers of bounded width, UTF-8, and base64. *)

From S2P Require Import Prelude.
From Corelib Require Import Init.Byte.

(** ** Hexadecimal ([encoding/hex]) *)
Module Hex.

Definition hextable : bytes := bz "0123456789abcdef".

Definition digit (n : Z) : byte := nth (Z.to_nat n) hextable (z2b 48).

(** The value of a hexadecimal digit, upper case accepted. *)
Definition value (b : byte) : option Z :=
  let z := b2z b in
  if (48 <=? z) && (z <=? 57) then Some (z - 48)
  else if (97 <=? z) && (z <=? 102) then Some (z - 87)
  else if (65 <=? z) && (z <=? 70) then Some (z - 55)
  else None.

Definition EncodeToString (src : bytes) : bytes :=
  concat ((fun b => [digit (b2z b / 16); digit (b2z b mod 16)]) <$> src).

Definition ErrLength : error := Sentinel (bz "encoding/hex: odd length hex string").
Definition InvalidByteError : error := NewError (bz "encoding/hex: invalid byte").

Fixpoint DecodeString (s : bytes) : result bytes :=
  match s with
  | [] => Ok []
  | [a] => match value a with None => Err InvalidByteError | Some _ => Err ErrLength end
  | a :: b :: s =>
      match value a, value b with
      | Some x, Some y => let* rest := DecodeString s in Ok (z2b (16 * x + y) :: rest)
      | _, _ => Err InvalidByteError
      end
  end.

(** A property of the sixteen digit values is checked by evaluating it. *)
Lemma small_digits (P : Z -> Prop) n : Forall P (seqZ 0 16) -> 0 <= n < 16 -> P n.
Proof.
  rewrite List.Forall_forall. intros HP Hn. apply HP, list_elem_of_In, elem_of_seqZ. lia.
Qed.

Lemma value_digit n : 0 <= n < 16 -> value (digit n) = Some n.
Proof.
  intros Hn. apply (small_digits (fun n => value (digit n) = Some n)); [|done].
  vm_compute. repeat constructor.
Qed.

Lemma decode_encode (src : bytes) : DecodeString (EncodeToString src) = Ok src.
Proof.
  induction src as [|b src IH]; [done|].
  pose proof (b2z_bound b) as Hb. pose proof (Z.mod_pos_bound (b2z b) 16 eq_refl).
  assert (0 <= b2z b / 16 < 16).
  { split; [apply Z.div_pos; lia|apply Z.div_lt_upper_bound; lia]. }
  change (EncodeToString (b :: src)) with
    (digit (b2z b / 16) :: digit (b2z b mod 16) :: EncodeToString src).
  cbn [DecodeString]. rewrite !value_digit by lia. rewrite IH. cbn [res_bind].
  rewrite <- Z.div_mod by lia. by rewrite z2b_b2z.
Qed.

Lemma decode_no_panic s w : DecodeString s <> Panic w.
Proof.
  revert w. assert (forall n s w, (length s <= n)%nat -> DecodeString s <> Panic w) as H.
  { induction n as [|n IH]; intros [|a [|b r]] w Hl; cbn in *; try done; try lia.
    1: by destruct (value a). destruct (value a), (value b); try done.
    destruct (DecodeString r) as [| |w'] eqn:E; cbn; try done.
    by destruct (IH r w' ltac:(lia)). }
  intros w. by apply (H (length s)).
Qed.

Lemma encode_inj a b : EncodeToString a = EncodeToString b -> a = b.
Proof.
  intros H. assert (Ok a = Ok b) as [=]; [|done]. by rewrite <- !decode_encode, H.
Qed.

(** The shape [^[a-f0-9]{64}$] which the query paths and event routes demand. *)
Definition lower_hex_digit (b : byte) : bool :=
  let z := b2z b in ((48 <=? z) && (z <=? 57)) || ((97 <=? z) && (z <=? 102)).

Definition is_sha256_hex (s : bytes) : bool :=
  bool_decide (length s = 64%nat) && forallb lower_hex_digit s.

Lemma lower_hex_value b : lower_hex_digit b = true -> exists n, value b = Some n.
Proof.
  unfold lower_hex_digit, value. intros [->|Hl]%orb_true_iff; [by eexists|].
  destruct ((48 <=? b2z b) && (b2z b <=? 57)); [by eexists|]. rewrite Hl. by eexists.
Qed.

Lemma decode_total n s :
  length s = (n + n)%nat -> forallb lower_hex_digit s = true ->
  exists d, DecodeString s = Ok d /\ length d = n.
Proof.
  revert s. induction n as [|n IH]; intros s Hs Hd.
  - destruct s; [|done]. by exists [].
  - destruct s as [|a [|b s]]; [done|cbn in Hs; lia|]. cbn in Hd.
    apply andb_true_iff in Hd as [Ha Hd]. apply andb_true_iff in Hd as [Hb Hd].
    destruct (lower_hex_value a Ha) as [x Hx], (lower_hex_value b Hb) as [y Hy].
    destruct (IH s) as (d & Hdec & Hlen); [cbn in Hs; lia|done|].
    exists (z2b (16 * x + y) :: d). cbn [DecodeString]. rewrite Hx, Hy, Hdec. cbn. by rewrite Hlen.
Qed.

(** A path that passed the pattern decodes to a 32-byte hash. *)
Lemma is_sha256_hex_decodes s :
  is_sha256_hex s = true -> exists d, DecodeString s = Ok d /\ length d = 32%nat.
Proof.
  unfold is_sha256_hex. intros [Hl%bool_decide_eq_true Hd]%andb_true_iff.
  by apply (decode_total 32).
Qed.

Lemma digit_lower n : 0 <= n < 16 -> lower_hex_digit (digit n) = true.
Proof.
  intros Hn. apply (small_digits (fun n => lower_hex_digit (digit n) = true)); [|done].
  vm_compute. repeat constructor.
Qed.

Lemma length_encode src : length (EncodeToString src) = (2 * length src)%nat.
Proof.
  induction src as [|b src IH]; [done|].
  change (EncodeToString (b :: src)) with
    (digit (b2z b / 16) :: digit (b2z b mod 16) :: EncodeToString src).
  cbn [length]. lia.
Qed.

Lemma encode_lower src : forallb lower_hex_digit (EncodeToString src) = true.
Proof.
  induction src as [|b src IH]; [done|].
  pose proof (b2z_bound b). pose proof (Z.mod_pos_bound (b2z b) 16 eq_refl).
  assert (0 <= b2z b / 16 < 16).
  { split; [apply Z.div_pos; lia|apply Z.div_lt_upper_bound; lia]. }
  change (EncodeToString (b :: src)) with
    (digit (b2z b / 16) :: digit (b2z b mod 16) :: EncodeToString src).
  cbn [forallb]. by rewrite !digit_lower, IH by lia.
Qed.

Lemma encode_is_sha256_hex src : length src = 32%nat -> is_sha256_hex (EncodeToString src) = true.
Proof.
  intros Hl. unfold is_sha256_hex. rewrite encode_lower, bool_decide_true; [done|].
  rewrite length_encode. lia.
Qed.

End Hex.

(** ** Decimal integers ([strconv]) *)
Module Strconv.

Definition is_digit (b : byte) : bool := (48 <=? b2z b) && (b2z b <=? 57).
Definition digit_char (n : Z) : byte := z2b (48 + n).

(** The digits of a non-negative number, most significant first. *)
Fixpoint digits (fuel : nat) (n : Z) : bytes :=
  match fuel with
  | O => []
  | S f => if n <? 10 then [digit_char n] else digits f (n / 10) ++ [digit_char (n mod 10)]
  end.

(** A number needs no more decimal than binary digits. *)
Definition dec_fuel (n : Z) : nat := S (Z.to_nat (Z.log2 n)).

Definition FormatUint (n : Z) : bytes := digits (dec_fuel n) n.
Definition FormatInt (n : Z) : bytes :=
  if n <? 0 then bz "-" ++ FormatUint (- n) else FormatUint n.

Definition digits_value (acc : Z) (s : bytes) : Z :=
  fold_left (fun a b => 10 * a + (b2z b - 48)) s acc.

Definition ErrSyntax : error := Sentinel (bz "invalid syntax").
Definition ErrRange : error := Sentinel (bz "value out of range").
Definition numError (e : error) : error := WrapError (bz "strconv.ParseInt: ") e.

Definition max_int64 : Z := 2 ^ 63 - 1.

(** [strconv.ParseInt(s, 10, 64)], of which [strconv.Atoi] is the instance for
    a 64-bit [int]. *)
Definition ParseInt (s : bytes) : result Z :=
  let '(neg, body) :=
    match s with
    | c :: r => if bool_decide (c = "-"%byte) then (true, r)
                else if bool_decide (c = "+"%byte) then (false, r) else (false, s)
    | [] => (false, [])
    end in
  if bool_decide (body = []) || negb (forallb is_digit body) then Err (numError ErrSyntax)
  else
    let n := digits_value 0 body in
    if negb neg && (max_int64 <? n) then Err (numError ErrRange)
    else if neg && (max_int64 + 1 <? n) then Err (numError ErrRange)
    else Ok (if neg then - n else n).

Definition Atoi (s : bytes) : result Z := ParseInt s.

Lemma digit_char_b2z n : 0 <= n < 10 -> b2z (digit_char n) = 48 + n.
Proof. intros. unfold digit_char. rewrite b2z_z2b. apply Z.mod_small. lia. Qed.

Lemma is_digit_char n : 0 <= n < 10 -> is_digit (digit_char n) = true.
Proof.
  intros. unfold is_digit. rewrite digit_char_b2z by done. apply andb_true_iff. lia.
Qed.

Lemma digits_value_app acc a b : digits_value acc (a ++ b) = digits_value (digits_value acc a) b.
Proof. apply fold_left_app. Qed.

Lemma digits_spec fuel n :
  0 <= n < 2 * 2 ^ Z.of_nat fuel ->
  digits_value 0 (digits (S fuel) n) = n /\ forallb is_digit (digits (S fuel) n) = true /\
  digits (S fuel) n <> [].
Proof.
  assert (Hsmall : forall m, 0 <= m < 10 -> forall k, digits (S k) m = [digit_char m]).
  { intros m Hm k. cbn [digits]. by rewrite (proj2 (Z.ltb_lt _ _)) by lia. }
  revert n. induction fuel as [|fuel IH]; intros n Hn.
  - rewrite Hsmall by (cbn in Hn; lia). cbn in *. rewrite digit_char_b2z, is_digit_char by lia.
    split; [lia|done].
  - remember (S fuel) as k eqn:Hk. cbn [digits]. subst k. destruct (n <? 10) eqn:E.
    + apply Z.ltb_lt in E. cbn [digits_value fold_left forallb].
      rewrite digit_char_b2z, is_digit_char by lia. split; [lia|done].
    + apply Z.ltb_ge in E. rewrite Nat2Z.inj_succ, Z.pow_succ_r in Hn by lia.
      assert (Hd : 0 <= n / 10 < 2 * 2 ^ Z.of_nat fuel).
      { split; [apply Z.div_pos; lia|apply Z.div_lt_upper_bound; lia]. }
      pose proof (Z.mod_pos_bound n 10 eq_refl). pose proof (Z.div_mod n 10).
      destruct (IH _ Hd) as (Hv & Hf & Hne).
      rewrite digits_value_app, forallb_app, Hv, Hf.
      cbn [digits_value fold_left forallb]. rewrite digit_char_b2z, is_digit_char by lia.
      split_and!; [lia|done|by destruct (digits (S fuel) (n / 10))].
Qed.

Lemma FormatUint_spec n :
  0 <= n ->
  digits_value 0 (FormatUint n) = n /\ forallb is_digit (FormatUint n) = true /\
  FormatUint n <> [].
Proof.
  intros Hn. apply digits_spec. destruct (decide (n = 0)) as [->|Hs]; [cbn; lia|].
  pose proof (Z.log2_spec n ltac:(lia)) as [_ Hl]. pose proof (Z.log2_nonneg n).
  rewrite Z.pow_succ_r in Hl by done. rewrite Z2Nat.id by done. lia.
Qed.

Lemma forallb_cons_digit c r : forallb is_digit (c :: r) = true ->
  c <> "-"%byte /\ c <> "+"%byte.
Proof. intros H. split; intros ->; discriminate H. Qed.

(** On digit strings [Atoi] is the decimal value, or a range error. *)
Lemma Atoi_digits s :
  s <> [] -> forallb is_digit s = true ->
  Atoi s = if max_int64 <? digits_value 0 s then Err (numError ErrRange) else Ok (digits_value 0 s).
Proof.
  intros Hne Hd. unfold Atoi, ParseInt. destruct s as [|c r]; [done|].
  destruct (forallb_cons_digit c r Hd) as [H1 H2].
  rewrite (bool_decide_false _ H1), (bool_decide_false _ H2), (bool_decide_false _ Hne), Hd. cbn [orb negb andb].
  by destruct (max_int64 <? _).
Qed.

Lemma Atoi_FormatUint n : 0 <= n <= max_int64 -> Atoi (FormatUint n) = Ok n.
Proof.
  intros [H1 H2]. destruct (FormatUint_spec n H1) as (Hv & Hd & Hne).
  rewrite Atoi_digits, Hv by done. by rewrite (proj2 (Z.ltb_ge _ _)).
Qed.

Lemma ParseInt_FormatInt n : in_s 64 n -> ParseInt (FormatInt n) = Ok n.
Proof.
  unfold in_s. intros [Hlo Hhi]. change (2 ^ (64 - 1)) with (max_int64 + 1) in *.
  unfold FormatInt. destruct (n <? 0) eqn:E.
  - apply Z.ltb_lt in E. destruct (FormatUint_spec (- n) ltac:(lia)) as (Hv & Hd & Hne).
    unfold ParseInt. cbn [app bz String.list_byte_of_string].
    change (bz "-" ++ FormatUint (- n)) with ("-"%byte :: FormatUint (- n)). cbn iota.
    rewrite bool_decide_true, (bool_decide_false _ Hne), Hd, Hv by done. cbn [orb negb andb].
    rewrite (proj2 (Z.ltb_ge _ _)) by lia. f_equal. lia.
  - apply Z.ltb_ge in E. apply Atoi_FormatUint. lia.
Qed.

End Strconv.

(** ** UTF-8 ([unicode/utf8]) *)
Module Utf8.

Definition between (lo hi : Z) (b : byte) : bool := (lo <=? b2z b) && (b2z b <=? hi).
Definition cont (b : byte) : bool := between 0x80 0xBF b.

(** [utf8.Valid]: no overlong forms, no surrogates, nothing above U+10FFFF. *)
Fixpoint Valid (s : bytes) : bool :=
  match s with
  | [] => true
  | b0 :: r =>
      if b2z b0 <? 0x80 then Valid r
      else if between 0xC2 0xDF b0 then
        match r with b1 :: r => cont b1 && Valid r | _ => false end
      else if between 0xE0 0xEF b0 then
        match r with
        | b1 :: b2 :: r =>
            between (if b2z b0 =? 0xE0 then 0xA0 else 0x80)
                    (if b2z b0 =? 0xED then 0x9F else 0xBF) b1 && cont b2 && Valid r
        | _ => false
        end
      else if between 0xF0 0xF4 b0 then
        match r with
        | b1 :: b2 :: b3 :: r =>
            between (if b2z b0 =? 0xF0 then 0x90 else 0x80)
                    (if b2z b0 =? 0xF4 then 0x8F else 0xBF) b1 && cont b2 && cont b3 && Valid r
        | _ => false
        end
      else false
  end.

Example valid_text : Valid (bz "principal") = true.
Proof. reflexivity. Qed.

Example invalid_text : Valid [xc3; x28] = false.
Proof. reflexivity. Qed.

End Utf8.

(** * Base64

    The standard encoding with padding of [encoding/base64], as the program
    uses it for keys on disk.  Line breaks are skipped by the decoder, and the
    unused bits of the last character are not examined, as in Go. *)

Module Base64.

Definition alphabet : bytes := bz "ABCDEFGHIJKLMNOPQRSTUVWXYZabcdefghijklmnopqrstuvwxyz0123456789+/".
Definition pad : byte := "="%byte.

Definition char (n : Z) : byte := nth (Z.to_nat n) alphabet pad.

Definition value (b : byte) : option Z :=
  let z := b2z b in
  if (65 <=? z) && (z <=? 90) then Some (z - 65)
  else if (97 <=? z) && (z <=? 122) then Some (z - 71)
  else if (48 <=? z) && (z <=? 57) then Some (z + 4)
  else if z =? 43 then Some 62
  else if z =? 47 then Some 63
  else None.

Fixpoint EncodeToString (src : bytes) : bytes :=
  match src with
  | [] => []
  | [a] => [char (b2z a / 4); char (b2z a mod 4 * 16); pad; pad]
  | [a; b] => [char (b2z a / 4); char (b2z a mod 4 * 16 + b2z b / 16); char (b2z b mod 16 * 4); pad]
  | a :: b :: c :: rest =>
      char (b2z a / 4) :: char (b2z a mod 4 * 16 + b2z b / 16) ::
      char (b2z b mod 16 * 4 + b2z c / 64) :: char (b2z c mod 64) :: EncodeToString rest
  end.

Definition CorruptInputError : error := NewError (bz "illegal base64 data").

(** Four characters at a time. *)
Fixpoint decode_quanta (s : bytes) : result bytes :=
  match s with
  | [] => Ok []
  | w :: x :: y :: z :: rest =>
      match value w, value x with
      | Some v, Some v1 =>
          match value y, value z with
          | Some v2, Some v3 =>
              let* out := decode_quanta rest in
              Ok (z2b (v * 4 + v1 / 16) :: z2b (v1 mod 16 * 16 + v2 / 4) :: z2b (v2 mod 4 * 64 + v3) :: out)
          | Some v2, None =>
              if bool_decide (z = pad) && bool_decide (rest = [])
              then Ok [z2b (v * 4 + v1 / 16); z2b (v1 mod 16 * 16 + v2 / 4)] else Err CorruptInputError
          | None, _ =>
              if bool_decide (y = pad) && bool_decide (z = pad) && bool_decide (rest = [])
              then Ok [z2b (v * 4 + v1 / 16)] else Err CorruptInputError
          end
      | _, _ => Err CorruptInputError
      end
  | _ => Err CorruptInputError
  end.

Definition line_break (b : byte) : bool := (b2z b =? 10) || (b2z b =? 13).

Definition DecodeString (s : bytes) : result bytes :=
  decode_quanta (filter (fun b => line_break b = false) s).

(** ** Round trip *)

Lemma small_values (P : Z -> Prop) n : Forall P (seqZ 0 64) -> 0 <= n < 64 -> P n.
Proof.
  rewrite List.Forall_forall. intros HP Hn. apply HP, list_elem_of_In, elem_of_seqZ. lia.
Qed.

Lemma char_ok n : 0 <= n < 64 -> value (char n) = Some n /\ line_break (char n) = false.
Proof.
  intros Hn. apply (small_values (fun n => value (char n) = Some n /\ line_break (char n) = false)); [|done].
  vm_compute. repeat constructor.
Qed.

(** The three groups of six bits of a byte and its neighbours. *)
Lemma bits a b c : 0 <= a < 256 -> 0 <= b < 256 -> 0 <= c < 256 ->
  0 <= a / 4 < 64 /\ 0 <= a mod 4 * 16 < 64 /\ 0 <= a mod 4 * 16 + b / 16 < 64 /\ 0 <= b mod 16 * 4 < 64 /\
  0 <= b mod 16 * 4 + c / 64 < 64 /\ 0 <= c mod 64 < 64.
Proof.
  intros. pose proof (Z.mod_pos_bound a 4 eq_refl). pose proof (Z.mod_pos_bound b 16 eq_refl).
  pose proof (Z.mod_pos_bound c 64 eq_refl).
  assert (0 <= a / 4 < 64) by (split; [apply Z.div_pos; lia|apply Z.div_lt_upper_bound; lia]).
  assert (0 <= b / 16 < 16) by (split; [apply Z.div_pos; lia|apply Z.div_lt_upper_bound; lia]).
  assert (0 <= c / 64 < 4) by (split; [apply Z.div_pos; lia|apply Z.div_lt_upper_bound; lia]).
  lia.
Qed.

Lemma first_byte a b : 0 <= a < 256 -> 0 <= b < 256 -> a / 4 * 4 + (a mod 4 * 16 + b / 16) / 16 = a.
Proof.
  intros. assert (0 <= b / 16 < 16) by (split; [apply Z.div_pos; lia|apply Z.div_lt_upper_bound; lia]).
  rewrite Z.div_add_l, (Z.div_small (b / 16)) by lia. pose proof (Z.div_mod a 4). lia.
Qed.

Lemma second_byte a b c : 0 <= b < 256 -> 0 <= c < 256 ->
  (a mod 4 * 16 + b / 16) mod 16 * 16 + (b mod 16 * 4 + c / 64) / 4 = b.
Proof.
  intros. assert (0 <= b / 16 < 16) by (split; [apply Z.div_pos; lia|apply Z.div_lt_upper_bound; lia]).
  assert (0 <= c / 64 < 4) by (split; [apply Z.div_pos; lia|apply Z.div_lt_upper_bound; lia]).
  rewrite Z.div_add_l, (Z.div_small (c / 64)) by lia. rewrite (Z.add_comm (a mod 4 * 16)), Z.mod_add, Z.mod_small by lia.
  pose proof (Z.div_mod b 16). lia.
Qed.

Lemma third_byte b c : 0 <= c < 256 -> (b mod 16 * 4 + c / 64) mod 4 * 64 + c mod 64 = c.
Proof.
  intros. assert (0 <= c / 64 < 4) by (split; [apply Z.div_pos; lia|apply Z.div_lt_upper_bound; lia]).
  rewrite (Z.add_comm (b mod 16 * 4)), Z.mod_add, Z.mod_small by lia. pose proof (Z.div_mod c 64). lia.
Qed.

(** Encoding has no line breaks. *)
Lemma encode_clean src : Forall (fun b => line_break b = false) (EncodeToString src).
Proof.
  assert (forall n src, (length src <= n)%nat -> Forall (fun b => line_break b = false) (EncodeToString src)) as Hn.
  { induction n as [|n IH]; intros [|a [|b [|c r]]] Hl; cbn in Hl; try lia; cbn [EncodeToString]; try constructor;
      try (pose proof (b2z_bound a) as Ha); try (pose proof (b2z_bound b) as Hb); try (pose proof (b2z_bound c) as Hc).
    - apply char_ok, (bits _ 0 0); lia.
    - constructor; [apply char_ok, (bits _ 0 0); lia|by repeat constructor].
    - apply char_ok, (bits _ 0 0); lia.
    - constructor; [apply char_ok, (bits _ _ 0); lia|]. constructor; [apply char_ok, (bits 0 _ 0); lia|by repeat constructor].
    - apply char_ok, (bits _ 0 0); lia.
    - constructor; [apply char_ok, (bits _ _ 0); lia|]. constructor; [apply char_ok, (bits 0 _ _); lia|].
      constructor; [apply char_ok, (bits 0 0 _); lia|]. apply IH. lia. }
  by apply (Hn (length src)).
Qed.

Lemma decode_encode_quanta n : forall src, (length src <= n)%nat -> decode_quanta (EncodeToString src) = Ok src.
Proof.
  induction n as [|n IH]; intros [|a [|b [|c r]]] Hl; cbn in Hl; try lia; try done;
    pose proof (b2z_bound a) as Ha; try (pose proof (b2z_bound b) as Hb); try (pose proof (b2z_bound c) as Hc); cbn [EncodeToString decode_quanta].
  - destruct (bits (b2z a) 0 0) as (H1 & H2 & _); [lia..|].
    rewrite (proj1 (char_ok _ H1)), (proj1 (char_ok _ H2)). cbn.
    pose proof (first_byte (b2z a) 0 Ha ltac:(lia)) as E. rewrite Z.div_0_l, Z.add_0_r in E by lia. by rewrite E, z2b_b2z.
  - destruct (bits (b2z a) (b2z b) 0) as (H1 & _ & H2 & H3 & _); [lia..|].
    rewrite (proj1 (char_ok _ H1)), (proj1 (char_ok _ H2)), (proj1 (char_ok _ H3)). cbn [value pad b2z].
    pose proof (second_byte (b2z a) (b2z b) 0 Hb ltac:(lia)) as E. rewrite Z.div_0_l, Z.add_0_r in E by lia.
    cbn. by rewrite (first_byte _ (b2z b)), E, !z2b_b2z by done.
  - destruct (bits (b2z a) (b2z b) (b2z c)) as (H1 & _ & H2 & _ & H3 & H4); [lia..|].
    rewrite (proj1 (char_ok _ H1)), (proj1 (char_ok _ H2)), (proj1 (char_ok _ H3)), (proj1 (char_ok _ H4)).
    rewrite IH by lia. cbn [res_bind]. by rewrite (first_byte _ (b2z b)), (second_byte _ _ (b2z c)), third_byte, !z2b_b2z by done.
Qed.

Lemma base64_decode_encode src : DecodeString (EncodeToString src) = Ok src.
Proof.
  unfold DecodeString.
  assert (forall s, Forall (fun b => line_break b = false) s -> filter (fun b => line_break b = false) s = s) as ->.
  - induction 1 as [|b s Hb _ IH]; [done|]. by rewrite filter_cons_True, IH.
  - by apply (decode_encode_quanta (length src)).
  - exact (encode_clean src).
Qed.

Example rfc : EncodeToString (bz "foob") = bz "Zm9vYg==" /\ DecodeString (bz "Zm9vYg==") = Ok (bz "foob").
Proof. vm_compute. auto. Qed.

End Base64.
