(* ===== verification/Duration.v ===== *)
(** * Durations

    Models [common/pkg/types/duration.go]: the duration type of retention
    policies, its textual form ([time.Duration.String]) and its parser, which
    understands weeks and days.  The central question is which durations
    survive being written to JSON and read back. *)

From S2P Require Import Prelude Text.
From Corelib Require Import Init.Byte.
Import Strconv.

Module Duration.

Definition Nanosecond : Z := 1.
Definition Microsecond : Z := 1000.
Definition Millisecond : Z := 1000000.
Definition Second : Z := 1000000000.
Definition Minute : Z := 60 * Second.
Definition Hour : Z := 60 * Minute.

(** ** [time.Duration.String] *)

(** [fmtFrac]: the low [prec] digits of [v] without trailing zeros, with the
    decimal point, and the remaining integer. *)
Fixpoint fmtFrac_loop (prec : nat) (v : Z) (print : bool) (acc : bytes) : bool * Z * bytes :=
  match prec with
  | O => (print, v, acc)
  | S prec =>
      let d := v mod 10 in
      let print := print || negb (d =? 0) in
      fmtFrac_loop prec (v / 10) print (if print then digit_char d :: acc else acc)
  end.

Definition fmtFrac (v : Z) (prec : nat) : Z * bytes :=
  let '(print, v, acc) := fmtFrac_loop prec v false [] in
  (v, if print : bool then "."%byte :: acc else acc).

Definition format (u : Z) : bytes :=
  if u <? Second then
    if u =? 0 then bz "0s"
    else
      let '(prec, suffix) :=
        if u <? Microsecond then (0%nat, bz "ns")
        else if u <? Millisecond then (3%nat, [xc2; xb5] ++ bz "s")
        else (6%nat, bz "ms") in
      let '(v, frac) := fmtFrac u prec in
      FormatUint v ++ frac ++ suffix
  else
    let '(secs, frac) := fmtFrac u 9 in
    let s := FormatUint (secs mod 60) ++ frac ++ bz "s" in
    let mins := secs / 60 in
    if 0 <? mins then
      let m := FormatUint (mins mod 60) ++ bz "m" ++ s in
      let hours := mins / 60 in
      if 0 <? hours then FormatUint hours ++ bz "h" ++ m else m
    else s.

Definition String (d : Z) : bytes :=
  if d <? 0 then "-"%byte :: format (- d) else format d.

(** ** [parseDuration] *)

Fixpoint span_digits (s : bytes) : bytes * bytes :=
  match s with
  | c :: r => if is_digit c then let '(ds, r') := span_digits r in (c :: ds, r') else ([], s)
  | [] => ([], [])
  end.

Fixpoint strip (prefix s : bytes) : option bytes :=
  match prefix, s with
  | [], _ => Some s
  | p :: ps, c :: r => if bool_decide (p = c) then strip ps r else None
  | _ :: _, [] => None
  end.

(** [ ?]: the space is consumed if the rest then matches. *)
Definition opt_space (k : bytes -> option (list bytes)) (s : bytes) : option (list bytes) :=
  match s with
  | c :: r =>
      if bool_decide (c = " "%byte)
      then match k r with Some g => Some g | None => k s end
      else k s
  | [] => k s
  end.

(** [^(?:(\d+)u1)? ?(?:(\d+)u2)? ... (?:(\d+)un)?$], leftmost-first: the result
    is the text of each group, empty when the group did not take part. *)
Fixpoint match_groups (units : list bytes) (s : bytes) : option (list bytes) :=
  match units with
  | [] => if bool_decide (s = []) then Some [] else None
  | u :: us =>
      let next r := match us with [] => match_groups us r | _ :: _ => opt_space (match_groups us) r end in
      let '(ds, r) := span_digits s in
      let taken :=
        match ds, strip u r with
        | _ :: _, Some r' => cons ds <$> next r'
        | _, _ => None
        end in
      match taken with
      | Some g => Some g
      | None => cons [] <$> next s
      end
  end.

Definition durationRegex : list bytes :=
  [bz "w"; bz "d"; bz "h"; bz "m"; bz "s"; bz "ms"; bz "ns"].

Definition add_group (duration : Z) (group : bytes) (unit : Z) : result Z :=
  if bool_decide (group = []) then Ok duration
  else let* n := Atoi group in Ok (i64 (duration + i64 (n * unit))).

Definition parseDuration (s : bytes) : result Z :=
  if bool_decide (s = bz "0") then Ok 0
  else
    match match_groups durationRegex s with
    | Some [weeks; days; hours; minutes; seconds; milliseconds; nanoseconds] =>
        let* d := add_group 0 weeks (7 * 24 * Hour) in
        let* d := add_group d days (24 * Hour) in
        let* d := add_group d hours Hour in
        let* d := add_group d minutes Minute in
        let* d := add_group d seconds Second in
        let* d := add_group d milliseconds Millisecond in
        add_group d nanoseconds Nanosecond
    | _ => Err (NewError (bz "invalid duration: " ++ s))
    end.

(** ** JSON and text forms *)

Definition MarshalJSON (d : Z) : bytes := [x22] ++ String d ++ [x22].

Definition UnmarshalJSON (data : bytes) : result Z :=
  let missing := Err (NewError (bz "invalid duration: missing quotes")) in
  if zlen data <? 2 then missing
  else
    let* first := index data 0 in
    if negb (bool_decide (first = x22)) then missing
    else
      let* last := index data (zlen data - 1) in
      if negb (bool_decide (last = x22)) then missing
      else
        let* body := slice_cap data [] 1 (zlen data - 1) in
        parseDuration body.

Definition UnmarshalText (text : bytes) : result Z := parseDuration text.
Definition UnmarshalYAML (data : bytes) : result Z := UnmarshalText data.

Example parse_weeks : parseDuration (bz "1w 2d 3h") = Ok (((7 + 2) * 24 + 3) * Hour).
Proof. vm_compute. reflexivity. Qed.

Example parse_backtracks : parseDuration (bz "1m500ms") = Ok (Minute + 500 * Millisecond).
Proof. vm_compute. reflexivity. Qed.

Example print_mixed : String (Hour + 90 * Second + 500 * Millisecond) = bz "1h1m30.5s".
Proof. vm_compute. reflexivity. Qed.

Example parse_wraps : parseDuration (bz "15251w") = Ok (15251 * 7 * 24 * Hour - 2 ^ 64).
Proof. vm_compute. reflexivity. Qed.

(** ** The parser on well-formed text *)

Definition digit_run (ds : bytes) : Prop := ds <> [] /\ forallb is_digit ds = true.

Definition no_digit_head (r : bytes) : Prop :=
  match r with [] => True | c :: _ => is_digit c = false end.

Lemma FormatUint_run n : 0 <= n -> digit_run (FormatUint n).
Proof. intros H. destruct (FormatUint_spec n H) as (_ & ? & ?). done. Qed.

Lemma span_digits_app ds r :
  forallb is_digit ds = true -> no_digit_head r -> span_digits (ds ++ r) = (ds, r).
Proof.
  intros Hd Hr. induction ds as [|c ds IH]; cbn in *.
  - destruct r as [|c r]; [done|]. cbn in *. by rewrite Hr.
  - apply andb_true_iff in Hd as [-> Hd]. by rewrite IH.
Qed.

Lemma opt_space_digit k ds r : digit_run ds -> opt_space k (ds ++ r) = k (ds ++ r).
Proof.
  intros [Hne Hd]. destruct ds as [|c ds]; [done|]. cbn in *.
  rewrite bool_decide_false; [done|]. intros ->. discriminate Hd.
Qed.

(** A group whose unit does not follow the number is skipped. *)
Lemma match_skip u u' us ds r :
  digit_run ds -> no_digit_head r -> strip u r = None ->
  match_groups (u :: u' :: us) (ds ++ r) = cons [] <$> match_groups (u' :: us) (ds ++ r).
Proof.
  intros Hds Hr Hu. change (match_groups (u :: u' :: us) (ds ++ r)) with
    (let '(ds0, r0) := span_digits (ds ++ r) in
     match (match ds0, strip u r0 with
            | _ :: _, Some r' => cons ds0 <$> opt_space (match_groups (u' :: us)) r'
            | _, _ => None end) with
     | Some g => Some g
     | None => cons [] <$> opt_space (match_groups (u' :: us)) (ds ++ r)
     end).
  destruct Hds as [Hne Hd]. rewrite span_digits_app, Hu by done.
  rewrite opt_space_digit by done. by destruct ds.
Qed.

(** A group whose unit follows the number is taken when the rest matches. *)
Lemma match_take u u' us ds r r' g :
  digit_run ds -> no_digit_head r -> strip u r = Some r' ->
  opt_space (match_groups (u' :: us)) r' = Some g ->
  match_groups (u :: u' :: us) (ds ++ r) = Some (ds :: g).
Proof.
  intros [Hne Hd] Hr Hu Hg. change (match_groups (u :: u' :: us) (ds ++ r)) with
    (let '(ds0, r0) := span_digits (ds ++ r) in
     match (match ds0, strip u r0 with
            | _ :: _, Some r' => cons ds0 <$> opt_space (match_groups (u' :: us)) r'
            | _, _ => None end) with
     | Some g => Some g
     | None => cons [] <$> opt_space (match_groups (u' :: us)) (ds ++ r)
     end).
  rewrite span_digits_app, Hu by done. rewrite Hg. by destruct ds.
Qed.

Ltac skip_unit := rewrite match_skip by (done || by apply FormatUint_run).

(** The four shapes that [String] prints without a fraction. *)
Lemma groups_ns ds : digit_run ds ->
  match_groups durationRegex (ds ++ bz "ns") = Some [[]; []; []; []; []; []; ds].
Proof.
  intros Hds. unfold durationRegex. do 6 skip_unit.
  cbn [match_groups]. destruct Hds as [Hne Hd]. rewrite span_digits_app by done.
  cbn. by destruct ds.
Qed.

Lemma groups_ms ds : digit_run ds ->
  match_groups durationRegex (ds ++ bz "ms") = Some [[]; []; []; []; []; ds; []].
Proof.
  intros Hds. unfold durationRegex. do 3 skip_unit.
  assert (Hm : match_groups [bz "m"; bz "s"; bz "ms"; bz "ns"] (ds ++ bz "ms") =
               cons [] <$> match_groups [bz "s"; bz "ms"; bz "ns"] (ds ++ bz "ms")).
  { remember [bz "s"; bz "ms"; bz "ns"] as us eqn:Hus.
    change (match_groups (bz "m" :: us) (ds ++ bz "ms")) with
      (let next r := match us with [] => match_groups us r | _ :: _ => opt_space (match_groups us) r end in
       let '(ds0, r0) := span_digits (ds ++ bz "ms") in
       match (match ds0, strip (bz "m") r0 with
              | _ :: _, Some r' => cons ds0 <$> next r' | _, _ => None end) with
       | Some g => Some g | None => cons [] <$> next (ds ++ bz "ms") end).
    destruct Hds as [Hne Hd]. rewrite span_digits_app by done. subst us. cbv zeta.
    rewrite opt_space_digit by done. destruct ds; [done|]. by vm_compute (strip _ _). }
  rewrite Hm. skip_unit. by rewrite (match_take _ _ _ _ _ [] [[]]).
Qed.

Lemma groups_s ds : digit_run ds ->
  match_groups [bz "s"; bz "ms"; bz "ns"] (ds ++ bz "s") = Some [ds; []; []].
Proof. intros Hds. by rewrite (match_take _ _ _ _ _ [] [[]; []]). Qed.

Lemma groups_m ds ds' : digit_run ds -> digit_run ds' ->
  match_groups [bz "m"; bz "s"; bz "ms"; bz "ns"] (ds ++ bz "m" ++ ds' ++ bz "s") =
  Some [ds; ds'; []; []].
Proof.
  intros Hds Hds'. rewrite (match_take _ _ _ _ _ (ds' ++ bz "s") [ds'; []; []]); try done.
  rewrite opt_space_digit by done. by apply groups_s.
Qed.

Lemma groups_secs ds : digit_run ds ->
  match_groups durationRegex (ds ++ bz "s") = Some [[]; []; []; []; ds; []; []].
Proof. intros Hds. unfold durationRegex. do 4 skip_unit. by rewrite groups_s. Qed.

Lemma groups_mins ds ds' : digit_run ds -> digit_run ds' ->
  match_groups durationRegex (ds ++ bz "m" ++ ds' ++ bz "s") = Some [[]; []; []; ds; ds'; []; []].
Proof. intros Hds Hds'. unfold durationRegex. do 3 skip_unit. by rewrite groups_m. Qed.

Lemma groups_hours h ds ds' : digit_run h -> digit_run ds -> digit_run ds' ->
  match_groups durationRegex (h ++ bz "h" ++ ds ++ bz "m" ++ ds' ++ bz "s") =
  Some [[]; []; h; ds; ds'; []; []].
Proof.
  intros Hh Hds Hds'. unfold durationRegex. do 2 skip_unit.
  rewrite (match_take _ _ _ _ _ (ds ++ bz "m" ++ ds' ++ bz "s") [ds; ds'; []; []]); try done.
  rewrite opt_space_digit by done. by apply groups_m.
Qed.

(** ** Which durations survive printing and parsing *)

Lemma add_group_ok d n unit :
  0 <= n -> 0 < unit -> 0 <= d -> d + n * unit < 2 ^ 63 ->
  add_group d (FormatUint n) unit = Ok (d + n * unit).
Proof.
  intros Hn Hu Hd Hb. assert (n <= n * unit) by nia.
  unfold add_group. destruct (FormatUint_run n Hn) as [Hne _].
  rewrite (bool_decide_false _ Hne), Atoi_FormatUint by (unfold max_int64; lia). cbn [res_bind].
  rewrite !swrap_id; [done|..]; unfold in_s; rewrite ?swrap_id by (unfold in_s; lia); lia.
Qed.

Lemma add_group_nil d unit : add_group d [] unit = Ok d.
Proof. done. Qed.

(** Evaluate the additions of [parseDuration] on printed numbers. *)
Ltac add_groups :=
  repeat (first [rewrite add_group_nil | rewrite add_group_ok by
    (unfold Hour, Minute, Second, Millisecond, Nanosecond; lia)]; cbn [res_bind]);
  f_equal; unfold Hour, Minute, Second, Millisecond, Nanosecond; lia.

Lemma not_zero_text ds r : digit_run ds -> r <> [] -> bool_decide (ds ++ r = bz "0") = false.
Proof.
  intros [Hne _] Hr. apply bool_decide_false. destruct ds as [|c ds]; [done|].
  intros [= _ H]. by apply app_eq_nil in H as [_ ?].
Qed.

Lemma fmtFrac_loop_exact prec v acc :
  v mod 10 ^ Z.of_nat prec = 0 ->
  fmtFrac_loop prec v false acc = (false, v / 10 ^ Z.of_nat prec, acc).
Proof.
  revert v acc. induction prec as [|prec IH]; intros v acc H; cbn [fmtFrac_loop].
  - by rewrite Z.pow_0_r, Z.div_1_r.
  - rewrite Nat2Z.inj_succ, Z.pow_succ_r in H |- * by lia.
    assert (0 < 10 ^ Z.of_nat prec) by (apply Z.pow_pos_nonneg; lia).
    apply Z.mod_divide in H as [q ->]; [|lia].
    replace (q * (10 * 10 ^ Z.of_nat prec)) with (q * 10 ^ Z.of_nat prec * 10) by lia.
    rewrite Z_mod_mult, Z_div_mult by lia. cbn [Z.eqb negb orb].
    rewrite IH by apply Z_mod_mult.
    by rewrite Z_div_mult, (Z.mul_comm 10), Z.div_mul_cancel_r, Z_div_mult by lia.
Qed.

Lemma fmtFrac_exact v prec :
  v mod 10 ^ Z.of_nat prec = 0 -> fmtFrac v prec = (v / 10 ^ Z.of_nat prec, []).
Proof. intros H. unfold fmtFrac. by rewrite fmtFrac_loop_exact. Qed.

Definition whole_seconds (d : Z) : Prop := d mod Second = 0.
Definition whole_subsecond (d : Z) : Prop :=
  d < Microsecond \/ (d < Second /\ d mod Millisecond = 0).
Definition survives (d : Z) : Prop := 0 <= d /\ (whole_seconds d \/ whole_subsecond d).

#[global] Instance survives_dec d : Decision (survives d).
Proof. unfold survives, whole_seconds, whole_subsecond. apply _. Defined.

Lemma format_subsecond d :
  0 < d < Second -> whole_subsecond d -> parseDuration (format d) = Ok d.
Proof.
  unfold Second, whole_subsecond, Microsecond, Millisecond. intros Hd Hw. unfold format.
  rewrite (proj2 (Z.ltb_lt d Second)), (proj2 (Z.eqb_neq d 0)) by (unfold Second; lia).
  unfold Microsecond, Millisecond. destruct (d <? 1000) eqn:E.
  - apply Z.ltb_lt in E. cbn [fmtFrac fmtFrac_loop]. rewrite app_nil_l.
    pose proof (FormatUint_run d ltac:(lia)) as Hr.
    unfold parseDuration. rewrite (not_zero_text _ _ Hr) by done. rewrite groups_ns by done.
    add_groups.
  - apply Z.ltb_ge in E. destruct Hw as [?|[_ Hm]]; [lia|].
    assert (Hge : 1000000 <= d).
    { destruct (decide (1000000 <= d)); [done|]. rewrite Z.mod_small in Hm; lia. }
    rewrite (proj2 (Z.ltb_ge _ _)) by lia. rewrite fmtFrac_exact by done.
    change (10 ^ Z.of_nat 6) with 1000000. rewrite app_nil_l.
    assert (0 <= d / 1000000) by (apply Z.div_pos; lia).
    pose proof (FormatUint_run (d / 1000000) ltac:(lia)) as Hr.
    unfold parseDuration. rewrite (not_zero_text _ _ Hr) by done. rewrite groups_ms by done.
    pose proof (Z.div_mod d 1000000). add_groups.
Qed.

Lemma format_seconds d :
  Second <= d < 2 ^ 63 -> whole_seconds d -> parseDuration (format d) = Ok d.
Proof.
  unfold whole_seconds. intros Hd Hm. unfold format.
  rewrite (proj2 (Z.ltb_ge d Second)) by lia. rewrite fmtFrac_exact by done.
  change (10 ^ Z.of_nat 9) with Second.
  pose proof (Z.div_mod d Second ltac:(done)) as Hdm. rewrite Hm in Hdm.
  remember (d / Second) as secs eqn:Hs. clear Hs Hm.
  unfold Second in *. assert (0 < secs) by lia. rewrite app_nil_l.
  pose proof (Z.mod_pos_bound secs 60 eq_refl). pose proof (Z.div_mod secs 60 ltac:(done)).
  remember (secs / 60) as mins eqn:Hmins. remember (secs mod 60) as sc eqn:Hsc. clear Hmins Hsc.
  pose proof (FormatUint_run sc ltac:(lia)) as Hrs.
  destruct (0 <? mins) eqn:E; [|apply Z.ltb_ge in E].
  2:{ unfold parseDuration. rewrite (not_zero_text _ _ Hrs), groups_secs by done.
      add_groups. }
  apply Z.ltb_lt in E.
  pose proof (Z.mod_pos_bound mins 60 eq_refl). pose proof (Z.div_mod mins 60 ltac:(done)).
  remember (mins / 60) as hrs eqn:Hhrs. remember (mins mod 60) as mn eqn:Hmn. clear Hhrs Hmn.
  pose proof (FormatUint_run mn ltac:(lia)) as Hrm.
  unfold parseDuration. destruct (0 <? hrs) eqn:E'; [apply Z.ltb_lt in E'|apply Z.ltb_ge in E'].
  - pose proof (FormatUint_run hrs ltac:(lia)) as Hrh.
    rewrite (not_zero_text _ _ Hrh), groups_hours by done. add_groups.
  - rewrite (not_zero_text _ _ Hrm), groups_mins by done. add_groups.
Qed.

(** *** Text the parser rejects *)

Definition allowed (b : byte) : bool :=
  is_digit b || bool_decide (b ∈ bz " wdhmsn").

Lemma span_digits_split s ds r :
  span_digits s = (ds, r) -> s = ds ++ r /\ forallb is_digit ds = true.
Proof.
  revert ds r. induction s as [|c s IH]; intros ds r H; cbn in H; [by injection H as <- <-|].
  destruct (is_digit c) eqn:E.
  - destruct (span_digits s) as [ds' r'] eqn:Es. injection H as <- <-.
    destruct (IH _ _ eq_refl) as [-> ?]. cbn. by rewrite E.
  - by injection H as <- <-.
Qed.

Lemma strip_split p s r : strip p s = Some r -> s = p ++ r.
Proof.
  revert s. induction p as [|c p IH]; intros s H; cbn in *; [by injection H as ->|].
  destruct s as [|c' s]; [done|]. destruct (bool_decide (c = c')) eqn:E; [|done].
  apply bool_decide_eq_true in E as <-. by rewrite (IH _ H).
Qed.

Lemma digits_allowed ds : forallb is_digit ds = true -> forallb allowed ds = true.
Proof.
  intros H. apply forallb_forall. intros x Hx. eapply forallb_forall in H; [|done].
  unfold allowed. by rewrite H.
Qed.

Lemma opt_space_allowed k s g :
  (forall s g, k s = Some g -> forallb allowed s = true) ->
  opt_space k s = Some g -> forallb allowed s = true.
Proof.
  intros Hk. unfold opt_space. destruct s as [|c r]; [done|].
  destruct (bool_decide (c = " "%byte)) eqn:E; [|apply Hk].
  apply bool_decide_eq_true in E as ->.
  destruct (k r) eqn:E; [|apply Hk]. intros _. cbn. by apply Hk in E as ->.
Qed.

Lemma match_groups_allowed us s g :
  Forall (fun u => forallb allowed u = true) us ->
  match_groups us s = Some g -> forallb allowed s = true.
Proof.
  revert s g. induction us as [|u us IH]; intros s g Hus H; cbn [match_groups] in H.
  { destruct (bool_decide (s = [])) eqn:E; [|done]. by apply bool_decide_eq_true in E as ->. }
  apply Forall_cons_1 in Hus as [Hu Hus].
  assert (Hnext : forall r g, match us with [] => match_groups us r
    | _ :: _ => opt_space (match_groups us) r end = Some g -> forallb allowed r = true).
  { intros r g' Hr. destruct us; [eapply IH; eauto|].
    eapply opt_space_allowed; [|exact Hr]. intros. eapply IH; eauto. }
  cbv zeta in H. destruct (span_digits s) as [ds r] eqn:Es.
  apply span_digits_split in Es as [-> Hds].
  destruct (match ds, strip u r with _ :: _, Some r' => _ | _, _ => None end) eqn:Et.
  - destruct ds as [|c ds]; [done|]. destruct (strip u r) as [r'|] eqn:Er; [|done].
    apply strip_split in Er as ->. apply fmap_Some in Et as (g' & Hg & _).
    rewrite !forallb_app, (digits_allowed _ Hds), Hu, (Hnext _ _ Hg). done.
  - apply fmap_Some in H as (g' & Hg & _). by eapply Hnext.
Qed.

Lemma parse_rejects s : forallb allowed s = false -> is_ok (parseDuration s) = false.
Proof.
  intros Hs. unfold parseDuration. rewrite bool_decide_false by (by intros ->).
  destruct (match_groups durationRegex s) as [g|] eqn:E; [|done].
  apply match_groups_allowed in E; [congruence|]. repeat constructor.
Qed.

Lemma fmtFrac_loop_print prec v print acc :
  (fmtFrac_loop prec v print acc).1.1 = print || negb (v mod 10 ^ Z.of_nat prec =? 0).
Proof.
  revert v print acc. induction prec as [|prec IH]; intros v print acc; cbn [fmtFrac_loop].
  - by rewrite Z.mod_1_r, orb_false_r.
  - rewrite IH, Nat2Z.inj_succ, Z.pow_succ_r, Z.rem_mul_r by lia.
    rewrite <- orb_assoc. f_equal.
    pose proof (Z.mod_pos_bound v 10 eq_refl).
    pose proof (Z.mod_pos_bound (v / 10) (10 ^ Z.of_nat prec) ltac:(lia)).
    destruct (v mod 10 =? 0) eqn:E1, (v / 10 mod 10 ^ Z.of_nat prec =? 0) eqn:E2; cbn [negb orb];
      symmetry; first [apply negb_true_iff, Z.eqb_neq | apply negb_false_iff, Z.eqb_eq];
      rewrite ?Z.eqb_eq, ?Z.eqb_neq in *; lia.
Qed.

(** A fraction prints a decimal point. *)
Lemma fmtFrac_point v prec :
  v mod 10 ^ Z.of_nat prec <> 0 -> exists r, (fmtFrac v prec).2 = "."%byte :: r.
Proof.
  intros H. unfold fmtFrac. pose proof (fmtFrac_loop_print prec v false []) as Hp.
  destruct (fmtFrac_loop prec v false []) as [[print v'] acc]. cbn in *.
  rewrite Hp, (proj2 (Z.eqb_neq _ _) H). cbn. by eexists.
Qed.

Lemma forallb_app_bad (a b c : bytes) :
  forallb allowed b = false -> forallb allowed (a ++ b ++ c) = false.
Proof. intros H. rewrite !forallb_app, H. cbn. by rewrite andb_false_r. Qed.

Lemma format_fraction_bad d :
  0 < d -> ~ survives d -> forallb allowed (format d) = false.
Proof.
  intros Hd Hs. unfold survives, whole_seconds, whole_subsecond in Hs. unfold format.
  destruct (d <? Second) eqn:E; [apply Z.ltb_lt in E|apply Z.ltb_ge in E].
  - rewrite (proj2 (Z.eqb_neq d 0)) by lia.
    destruct (d <? Microsecond) eqn:E1; [apply Z.ltb_lt in E1; exfalso; apply Hs; lia|].
    destruct (d <? Millisecond) eqn:E2.
    + destruct (fmtFrac d 3) as [v fr]. rewrite app_assoc. by apply forallb_app_bad.
    + assert (Hm : d mod 10 ^ Z.of_nat 6 <> 0) by (intros Hz; apply Hs; split; [lia|right; right; done]).
      destruct (fmtFrac_point _ _ Hm) as [r Hr]. destruct (fmtFrac d 6) as [v fr]. cbn in Hr.
      subst fr. by apply forallb_app_bad.
  - assert (Hm : d mod 10 ^ Z.of_nat 9 <> 0) by (intros Hz; apply Hs; split; [unfold Second in *; lia|by left]).
    destruct (fmtFrac_point _ _ Hm) as [r Hr]. destruct (fmtFrac d 9) as [v fr]. cbn in Hr. subst fr.
    assert (Hbad : forall x y, forallb allowed (x ++ ("."%byte :: r) ++ y) = false)
      by (intros; by apply forallb_app_bad).
    destruct (0 <? v / 60); [destruct (0 <? v / 60 / 60)|];
      rewrite ?forallb_app, ?Hbad, ?andb_false_r; done.
Qed.

Lemma String_survives d : in_s 64 d -> survives d -> parseDuration (String d) = Ok d.
Proof.
  unfold in_s. intros [_ Hd] [H0 Hs]. change (2 ^ (64 - 1)) with (2 ^ 63) in Hd.
  unfold String. rewrite (proj2 (Z.ltb_ge _ _)) by done.
  destruct (decide (d = 0)) as [->|]; [done|]. destruct (decide (d < Second)) as [Hlt|Hge].
  - apply format_subsecond; [lia|]. destruct Hs as [Hw|]; [|done].
    unfold whole_seconds in Hw. rewrite Z.mod_small in Hw; lia.
  - apply format_seconds; [lia|]. destruct Hs as [|[?|[? _]]]; [done|..]; unfold Microsecond, Second in *; lia.
Qed.

Lemma String_rejected d : ~ survives d -> is_ok (parseDuration (String d)) = false.
Proof.
  intros Hs. apply parse_rejects. unfold String. destruct (d <? 0) eqn:E; [done|].
  apply Z.ltb_ge in E. destruct (decide (d = 0)) as [->|].
  - exfalso. apply Hs. split; [lia|]. by left.
  - apply format_fraction_bad; [lia|done].
Qed.

Lemma UnmarshalJSON_MarshalJSON d : UnmarshalJSON (MarshalJSON d) = parseDuration (String d).
Proof.
  unfold UnmarshalJSON, MarshalJSON. rewrite !zlen_app. pose proof (zlen_nonneg (String d)).
  change (zlen [x22]) with 1. rewrite (proj2 (Z.ltb_ge _ _)) by lia.
  change (index ([x22] ++ String d ++ [x22]) 0) with (Ok x22). cbn [res_bind].
  rewrite bool_decide_true by done. cbn [negb].
  rewrite (app_assoc [x22]), (index_ok ([x22] ++ String d) x22 [])
    by (rewrite zlen_app; change (zlen [x22]) with 1; lia).
  cbn [res_bind]. rewrite bool_decide_true by done. cbn [negb].
  rewrite <- app_assoc. rewrite (slice_cap_ok [x22] (String d) [x22] []); [done|done|].
  change (zlen [x22]) with 1. lia.
Qed.

(** A duration that was printed by [MarshalJSON] is read back by
    [UnmarshalJSON] exactly when it is non-negative and a whole number of
    seconds, or below a second a whole number of milliseconds or below a
    microsecond: all other durations (a fraction of a second next to whole
    seconds, microseconds, negative values) are rejected with an error. *)
Theorem duration_json_round_trip (d : Z) :
  in_s 64 d ->
  if decide (survives d) then UnmarshalJSON (MarshalJSON d) = Ok d
  else is_ok (UnmarshalJSON (MarshalJSON d)) = false.
Proof.
  intros Hd. rewrite UnmarshalJSON_MarshalJSON.
  destruct (decide (survives d)); [by apply String_survives|by apply String_rejected].
Qed.

Lemma duration_json_round_trip_witness :
  UnmarshalJSON (MarshalJSON (36 * Hour)) = Ok (36 * Hour) /\
  is_ok (UnmarshalJSON (MarshalJSON 1500000000)) = false.
Proof.
  split.
  - apply (duration_json_round_trip (36 * Hour)). vm_compute. split; discriminate || reflexivity.
  - apply (duration_json_round_trip 1500000000). vm_compute. split; discriminate || reflexivity.
Defined.

(** A retention period may be written in a form the parser accepts and
    then be stored in a form it does not: the value of [1s 500ms] is printed
    as [1.5s], which no decoder of the policy accepts. *)
Theorem accepted_duration_not_rereadable :
  exists s d, UnmarshalJSON s = Ok d /\ is_ok (UnmarshalJSON (MarshalJSON d)) = false.
Proof.
  exists ([x22] ++ bz "1s 500ms" ++ [x22]), (Second + 500 * Millisecond).
  by vm_compute.
Qed.

End Duration.
