(* ===== verification/JsonText.v ===== *)
(** * JSON text ([encoding/json])

    Models what the sources use of the JSON library of Go 1.21 at the level of
    text: the quoting of strings with its escapes, the scanner that accepts or
    rejects a text and finds where a value ends, the members of objects and
    elements of arrays with the text of their values, and the compaction of
    raw messages.  The limit of the scanner on nesting (ten thousand levels) is
    not modelled. *)

From S2P Require Import Prelude Text.
From Corelib Require Import Init.Byte.

Module JsonText.

Definition quote_char : byte := x22.
Definition backslash : byte := x5c.

(** ** Runes *)

(** The number of bytes of the rune a string starts with, 0 when they are not
    the encoding of one ([utf8.DecodeRune] returns [RuneError] and width 1). *)
Definition width (s : bytes) : nat :=
  match s with
  | [] => 0%nat
  | b0 :: r =>
      if b2z b0 <? 0x80 then 1%nat
      else if Utf8.between 0xC2 0xDF b0 then
        match r with b1 :: _ => if Utf8.cont b1 then 2%nat else 0%nat | _ => 0%nat end
      else if Utf8.between 0xE0 0xEF b0 then
        match r with
        | b1 :: b2 :: _ =>
            if Utf8.between (if b2z b0 =? 0xE0 then 0xA0 else 0x80)
                            (if b2z b0 =? 0xED then 0x9F else 0xBF) b1 && Utf8.cont b2 then 3%nat else 0%nat
        | _ => 0%nat
        end
      else if Utf8.between 0xF0 0xF4 b0 then
        match r with
        | b1 :: b2 :: b3 :: _ =>
            if Utf8.between (if b2z b0 =? 0xF0 then 0x90 else 0x80)
                            (if b2z b0 =? 0xF4 then 0x8F else 0xBF) b1 && Utf8.cont b2 && Utf8.cont b3 then 4%nat else 0%nat
        | _ => 0%nat
        end
      else 0%nat
  end.

Definition RuneError : Z := 0xFFFD.

(** [utf8.AppendRune]. *)
Definition encode_rune (r : Z) : bytes :=
  let r := if (r <? 0) || (0x10FFFF <? r) || ((0xD800 <=? r) && (r <=? 0xDFFF)) then RuneError else r in
  if r <? 0x80 then [z2b r]
  else if r <? 0x800 then [z2b (0xC0 + r / 64); z2b (0x80 + r mod 64)]
  else if r <? 0x10000 then [z2b (0xE0 + r / 4096); z2b (0x80 + r / 64 mod 64); z2b (0x80 + r mod 64)]
  else [z2b (0xF0 + r / 262144); z2b (0x80 + r / 4096 mod 64); z2b (0x80 + r / 64 mod 64); z2b (0x80 + r mod 64)].

(** ** Rewriting a string step by step *)

(** A step takes something off the front of a string and says what to write
    for it. *)
Definition step_fun : Type := bytes -> bytes * bytes.

Fixpoint transduce (step : step_fun) (n : nat) (s : bytes) : bytes :=
  match n, s with
  | S n, _ :: _ => let '(out, r) := step s in out ++ transduce step n r
  | _, _ => []
  end.

Definition run (step : step_fun) (s : bytes) : bytes := transduce step (length s) s.

(** ** Quoting *)

Definition u_escape (n : Z) : bytes :=
  backslash :: "u"%byte ::
    (Hex.digit <$> [n / 4096; n / 256 mod 16; n / 16 mod 16; n mod 16]).

(** How one rune is written ([appendString] with [escapeHTML]). *)
Definition quote_rune (c : bytes) : bytes :=
  match c with
  | [b] =>
      if (b2z b =? 0x22) || (b2z b =? 0x5C) then [backslash; b]
      else if b2z b =? 0x0A then [backslash; "n"%byte]
      else if b2z b =? 0x0D then [backslash; "r"%byte]
      else if b2z b =? 0x09 then [backslash; "t"%byte]
      else if (b2z b <? 0x20) || (b2z b =? 0x3C) || (b2z b =? 0x3E) || (b2z b =? 0x26) then u_escape (b2z b)
      else c
  | [b0; b1; b2] =>
      if (b2z b0 =? 0xE2) && (b2z b1 =? 0x80) && ((b2z b2 =? 0xA8) || (b2z b2 =? 0xA9))
      then u_escape (0x2000 + (b2z b2 - 0x80)) else c
  | _ => c
  end.

Definition quote_step : step_fun := fun s =>
  match width s with
  | O => (u_escape RuneError, drop 1 s)
  | w => (quote_rune (take w s), drop w s)
  end.

(** The text between the quotes, and the whole literal. *)
Definition quote_body (s : bytes) : bytes := run quote_step s.
Definition quote (s : bytes) : bytes := [quote_char] ++ quote_body s ++ [quote_char].

(** ** Unquoting *)

(** The value of [\uXXXX] at the front of a string ([getu4]). *)
Definition getu4 (s : bytes) : option (Z * bytes) :=
  match s with
  | c :: u :: h1 :: h2 :: h3 :: h4 :: r =>
      if (b2z c =? 0x5C) && (b2z u =? 0x75) then
        match Hex.value h1, Hex.value h2, Hex.value h3, Hex.value h4 with
        | Some a, Some b, Some c, Some d => Some (4096 * a + 256 * b + 16 * c + d, r)
        | _, _, _, _ => None
        end
      else None
  | _ => None
  end.

Definition escape_value (e : byte) : option byte :=
  let z := b2z e in
  if z =? 0x62 then Some x08 else if z =? 0x66 then Some x0c else if z =? 0x6E then Some x0a
  else if z =? 0x72 then Some x0d else if z =? 0x74 then Some x09
  else if (z =? 0x22) || (z =? 0x5C) || (z =? 0x2F) || (z =? 0x27) then Some e else None.

(** [utf16.DecodeRune]. *)
Definition decode_pair (r1 r2 : Z) : Z :=
  if (0xD800 <=? r1) && (r1 <? 0xDC00) && (0xDC00 <=? r2) && (r2 <? 0xE000)
  then (r1 - 0xD800) * 1024 + (r2 - 0xDC00) + 0x10000 else RuneError.

Definition unquote_step : step_fun := fun s =>
  match getu4 s with
  | Some (rr, r) =>
      if (0xD800 <=? rr) && (rr <? 0xE000) then
        match getu4 r with
        | Some (rr1, r') =>
            if decode_pair rr rr1 =? RuneError then (encode_rune RuneError, r)
            else (encode_rune (decode_pair rr rr1), r')
        | None => (encode_rune RuneError, r)
        end
      else (encode_rune rr, r)
  | None =>
      match s with
      | c :: r =>
          if b2z c =? 0x5C then
            match r with
            | e :: r' => (option_list (escape_value e), r') (* the scanner lets no other escape pass *)
            | [] => ([], [])
            end
          else match width s with
               | O => (encode_rune RuneError, r)
               | w => (take w s, drop w s)
               end
      | [] => ([], [])
      end
  end.

(** The string a scanned literal stands for, from the text between its quotes. *)
Definition unquote (body : bytes) : bytes := run unquote_step body.

(** ** Lemmas: steps *)

Definition shrinks (step : step_fun) : Prop :=
  forall s, s <> [] -> (length (snd (step s)) < length s)%nat.

Lemma transduce_fuel step (Hs : shrinks step) n : forall m s,
  (length s <= n)%nat -> (length s <= m)%nat -> transduce step n s = transduce step m s.
Proof.
  induction n as [|n IH]; intros [|m] [|c r] Hn Hm; try done; [cbn in *; lia..|].
  cbn [transduce]. pose proof (Hs (c :: r) ltac:(done)) as Hlt.
  destruct (step (c :: r)) as [out r']. cbn in Hlt, Hn, Hm. f_equal. apply IH; lia.
Qed.

Lemma run_step step (Hs : shrinks step) s : s <> [] -> run step s = fst (step s) ++ run step (snd (step s)).
Proof.
  intros Hne. unfold run at 1. pose proof (Hs s Hne) as Hlt. destruct s as [|c r]; [done|].
  cbn [length transduce]. destruct (step (c :: r)) as [out r']. cbn [fst snd] in *. f_equal.
  apply transduce_fuel; [done|cbn in Hlt; lia|done].
Qed.

(** A step that treats [p] as a whole writes [out] for it. *)
Lemma run_prefix step (Hs : shrinks step) p out t : p <> [] ->
  step (p ++ t) = (out, t) -> run step (p ++ t) = out ++ run step t.
Proof.
  intros Hp E. rewrite run_step by (done || by destruct p). by rewrite E.
Qed.

(** ** Lemmas: runes *)

Lemma width_length s : (width s <= length s)%nat.
Proof. unfold width. repeat (case_match; cbn; try lia). Qed.

Lemma width_app s t : width s <> 0%nat -> width (s ++ t) = width s.
Proof.
  intros Hw. destruct s as [|b0 [|b1 [|b2 [|b3 r]]]]; [done|..]; cbn in *; repeat (case_match; try (done || congruence)).
Qed.

Lemma width_take s : width (take (width s) s) = width s.
Proof.
  destruct s as [|b0 [|b1 [|b2 [|b3 r]]]]; cbn; repeat (case_match; cbn; try done); congruence.
Qed.

Lemma Valid_width s : s <> [] ->
  Utf8.Valid s = negb (Nat.eqb (width s) 0) && Utf8.Valid (drop (width s) s).
Proof.
  destruct s as [|b0 r]; [done|]. intros _. cbn [Utf8.Valid width].
  destruct (b2z b0 <? 0x80); [done|]. destruct (Utf8.between 0xC2 0xDF b0).
  { destruct r as [|b1 r]; [done|]. by destruct (Utf8.cont b1). }
  destruct (Utf8.between 0xE0 0xEF b0).
  { destruct r as [|b1 [|b2 r]]; try done. by destruct (Utf8.between _ _ b1), (Utf8.cont b2). }
  destruct (Utf8.between 0xF0 0xF4 b0); [|done].
  destruct r as [|b1 [|b2 [|b3 r]]]; try done.
  by destruct (Utf8.between _ _ b1), (Utf8.cont b2), (Utf8.cont b3).
Qed.

(** A valid string is a sequence of whole runes. *)
Lemma utf8_ind (P : bytes -> Prop) :
  P [] ->
  (forall c t, c <> [] -> width c = length c -> Utf8.Valid t = true -> P t -> P (c ++ t)) ->
  forall s, Utf8.Valid s = true -> P s.
Proof.
  intros Hnil Hcons s. induction s as [s IH] using (induction_ltof1 _ length). unfold ltof in IH.
  intros Hv. destruct (decide (s = [])) as [->|Hne]; [done|].
  rewrite Valid_width in Hv by done. apply andb_true_iff in Hv as [Hw Hv].
  apply negb_true_iff, Nat.eqb_neq in Hw. pose proof (width_length s) as Hl.
  rewrite <- (take_drop (width s) s).
  assert (length (take (width s) s) = width s) as Ht by (rewrite length_take; lia).
  apply Hcons; [intros E; rewrite E in Ht; cbn in Ht; lia|by rewrite width_take|done|].
  apply IH; [rewrite length_drop; lia|done].
Qed.

Lemma Valid_rune c t : c <> [] -> width c = length c -> Utf8.Valid (c ++ t) = Utf8.Valid t.
Proof.
  intros Hne Hw. rewrite Valid_width by (by destruct c).
  rewrite width_app, Hw by (rewrite Hw; by destruct c). rewrite drop_app_length.
  by destruct c.
Qed.

Lemma Valid_app s t : Utf8.Valid s = true -> Utf8.Valid t = true -> Utf8.Valid (s ++ t) = true.
Proof.
  intros Hs Ht. revert s Hs. refine (utf8_ind _ Ht _). intros c s' Hc Hw _ IH.
  by rewrite <- app_assoc, Valid_rune.
Qed.

(** The form of a rune: its bytes, and that those of longer ones are not ASCII. *)
Lemma rune_form c : c <> [] -> width c = length c ->
  (exists b, c = [b] /\ b2z b < 0x80) \/
  ((2 <= length c)%nat /\ Forall (fun b => 0x80 <= b2z b) c).
Proof.
  intros Hne Hw. destruct c as [|b0 r]; [done|]. cbn [width] in Hw.
  destruct (b2z b0 <? 0x80) eqn:E0.
  { left. exists b0. destruct r; [|done]. split; [done|]. by apply Z.ltb_lt. }
  apply Z.ltb_ge in E0. right. unfold Utf8.cont, Utf8.between in Hw.
  destruct r as [|b1 [|b2 [|b3 [|b4 r]]]]; cbn in Hw |- *;
    repeat (case_match; try done); repeat constructor; try lia.
Qed.

(** ** Lemmas: quoting *)

Lemma quote_shrinks : shrinks quote_step.
Proof.
  intros s Hne. unfold quote_step. pose proof (width_length s). destruct (width s) as [|w] eqn:E; cbn [snd].
  - rewrite length_drop. destruct s; [done|cbn; lia].
  - rewrite length_drop. lia.
Qed.

Lemma getu4_length s z r : getu4 s = Some (z, r) -> (length r < length s)%nat.
Proof. unfold getu4. repeat (case_match; try done). intros [= <- <-]. cbn. lia. Qed.

Lemma unquote_shrinks : shrinks unquote_step.
Proof.
  intros s Hne. unfold unquote_step. destruct (getu4 s) as [[rr r]|] eqn:E.
  - pose proof (getu4_length _ _ _ E). destruct (_ && _); [|done].
    destruct (getu4 r) as [[rr1 r']|] eqn:E'; [|done]. pose proof (getu4_length _ _ _ E').
    destruct (_ =? _); cbn; lia.
  - destruct s as [|c r]; [done|]. destruct (_ =? _); [destruct r; cbn; lia|].
    destruct (width (c :: r)); cbn [snd]; [cbn; lia|]. rewrite length_drop. cbn. lia.
Qed.

Lemma quote_body_rune c t : c <> [] -> width c = length c ->
  quote_body (c ++ t) = quote_rune c ++ quote_body t.
Proof.
  intros Hne Hw. apply run_prefix; [apply quote_shrinks|done|]. unfold quote_step.
  rewrite width_app, Hw by (rewrite Hw; by destruct c).
  destruct (length c) eqn:E; [by destruct c|]. rewrite <- E, take_app_length, drop_app_length. done.
Qed.

(** Every ASCII character is a case. *)
Lemma ascii_cases (P : byte -> bool) :
  forallb P (z2b <$> seqZ 0 128) = true -> forall b, b2z b < 0x80 -> P b = true.
Proof.
  rewrite List.forallb_forall. intros HP b Hb. apply HP.
  rewrite <- (z2b_b2z b). apply list_elem_of_In, list_elem_of_fmap. eexists. split; [done|].
  apply elem_of_seqZ. pose proof (b2z_bound b). lia.
Qed.

Lemma getu4_app s z r t : getu4 s = Some (z, r) -> getu4 (s ++ t) = Some (z, r ++ t).
Proof.
  unfold getu4. destruct s as [|c [|u [|h1 [|h2 [|h3 [|h4 r']]]]]]; try done. cbn [app].
  destruct (_ && _); [|done].
  destruct (Hex.value h1), (Hex.value h2), (Hex.value h3), (Hex.value h4); try done. by intros [= <- <-].
Qed.

Lemma getu4_plain c e t : b2z c <> 0x5C \/ b2z e <> 0x75 -> getu4 (c :: e :: t) = None.
Proof. intros H. unfold getu4. repeat (case_match; try done). lia. Qed.

Lemma unquote_u p z t : getu4 p = Some (z, []) -> (z < 0xD800 \/ 0xE000 <= z) ->
  unquote (p ++ t) = encode_rune z ++ unquote t.
Proof.
  intros Hu Hz. apply run_prefix; [apply unquote_shrinks|by destruct p|]. unfold unquote_step.
  rewrite (getu4_app _ _ _ _ Hu). case_match; [lia|done].
Qed.

Lemma unquote_escape e b t : escape_value e = Some b ->
  unquote (backslash :: e :: t) = b :: unquote t.
Proof.
  intros He. apply (run_prefix unquote_step unquote_shrinks [backslash; e] [b] t); [done|].
  unfold unquote_step. cbn [app]. rewrite getu4_plain.
  - change (b2z backslash =? 0x5C) with true. cbn iota. by rewrite He.
  - right. intros Hu. unfold escape_value in He. by rewrite Hu in He.
Qed.

Lemma unquote_rune c t : c <> [] -> width c = length c -> Forall (fun b => b2z b <> 0x5C) c ->
  unquote (c ++ t) = c ++ unquote t.
Proof.
  intros Hne Hw Hc. apply run_prefix; [apply unquote_shrinks|done|]. unfold unquote_step.
  assert (getu4 (c ++ t) = None) as ->.
  { destruct c as [|b c]; [done|]. inversion Hc; subst. unfold getu4. cbn.
    repeat (case_match; try done). lia. }
  destruct c as [|b c]; [done|]. inversion Hc; subst. cbn [app].
  rewrite (proj2 (Z.eqb_neq _ _)) by done. change (b :: c ++ t) with ((b :: c) ++ t).
  rewrite width_app, Hw by (by rewrite Hw). cbn [length].
  change (S (length c)) with (length (b :: c)). by rewrite take_app_length, drop_app_length.
Qed.

(** The ways an ASCII character is written, with the reason it is read back. *)
Definition ascii_ok (b : byte) : bool :=
  match quote_rune [b] with
  | [c] => bool_decide (c = b /\ b2z c <> 0x5C)
  | [c; e] => bool_decide (c = backslash /\ escape_value e = Some b)
  | p => bool_decide (getu4 p = Some (b2z b, []) /\ encode_rune (b2z b) = [b])
  end.

Lemma ascii_quoted b : b2z b < 0x80 -> ascii_ok b = true.
Proof. apply ascii_cases. by vm_compute. Qed.

(** Unquoting reads back what was written for a rune. *)
Lemma unquote_quote_rune c t : c <> [] -> width c = length c ->
  unquote (quote_rune c ++ t) = c ++ unquote t.
Proof.
  intros Hne Hw. destruct (rune_form c Hne Hw) as [(b & -> & Hb)|[Hl Hc]].
  - pose proof (ascii_quoted b Hb) as Ha. unfold ascii_ok in Ha.
    destruct (quote_rune [b]) as [|c [|e [|? ?]]]; apply bool_decide_eq_true in Ha; [by destruct Ha|..].
    + destruct Ha as [-> Hc]. apply unquote_rune; [done..|by apply Forall_singleton].
    + destruct Ha as (-> & He). by apply unquote_escape.
    + destruct Ha as [Hu He]. rewrite (unquote_u _ _ _ Hu), He by lia. done.
  - assert (Forall (fun b => b2z b <> 0x5C) c) as Hc' by (revert Hc; apply Forall_impl; lia).
    destruct c as [|b0 [|b1 [|b2 [|b3 r]]]]; cbn in Hl; try lia; cbn [quote_rune]; try (by apply unquote_rune).
    destruct (_ && _) eqn:E; [|by apply unquote_rune].
    apply andb_true_iff in E as [[E0 E1]%andb_true_iff E2]. apply Z.eqb_eq in E0, E1.
    rewrite <- (z2b_b2z b0), <- (z2b_b2z b1), <- (z2b_b2z b2), E0, E1.
    apply orb_true_iff in E2 as [->%Z.eqb_eq| ->%Z.eqb_eq].
    + by rewrite (unquote_u _ 0x2028) by (done || lia).
    + by rewrite (unquote_u _ 0x2029) by (done || lia).
Qed.

(** A valid string survives being quoted. *)
Lemma unquote_quote_body s : Utf8.Valid s = true -> unquote (quote_body s) = s.
Proof.
  revert s. apply utf8_ind; [done|]. intros c t Hne Hw _ IH.
  by rewrite quote_body_rune, unquote_quote_rune, IH.
Qed.

Lemma scalar_valid b0 r : width (b0 :: r) = length (b0 :: r) -> Utf8.Valid (b0 :: r) = true.
Proof. intros Hw. rewrite <- (app_nil_r (b0 :: r)). by rewrite Valid_rune. Qed.

(** Whatever number it is given, the encoder of runes writes UTF-8. *)
Lemma encode_rune_valid r : Utf8.Valid (encode_rune r) = true.
Proof.
  unfold encode_rune. destruct (_ || _) eqn:E; [done|].
  apply orb_false_iff in E as [[E1 E2]%orb_false_iff E3]. apply Z.ltb_ge in E1, E2.
  assert (r < 0xD800 \/ 0xDFFF < r) as Hs by lia. clear E3.
  assert (forall z, 0 <= z < 256 -> b2z (z2b z) = z) as Hb.
  { intros z Hz. rewrite b2z_z2b. by apply Z.mod_small. }
  pose proof (Z.mod_pos_bound r 64 eq_refl). pose proof (Z.mod_pos_bound (r / 64) 64 eq_refl).
  pose proof (Z.mod_pos_bound (r / 4096) 64 eq_refl).
  pose proof (Z.div_mod r 64). pose proof (Z.div_mod (r / 64) 64). pose proof (Z.div_mod (r / 4096) 64).
  assert (r / 64 / 64 = r / 4096) as D1 by (by rewrite Z.div_div).
  assert (r / 4096 / 64 = r / 262144) as D2 by (by rewrite Z.div_div).
  unfold Utf8.cont, Utf8.between in *.
  destruct (r <? 0x80) eqn:F1; [|destruct (r <? 0x800) eqn:F2; [|destruct (r <? 0x10000) eqn:F3]];
    apply scalar_valid; cbn [width length]; unfold Utf8.cont, Utf8.between; rewrite !Hb by lia;
    repeat (case_match; try done); lia.
Qed.

Lemma escape_ascii e b : escape_value e = Some b -> b2z b < 0x80.
Proof. unfold escape_value. intros E. repeat (case_match; simplify_eq; try done). lia. Qed.

Lemma unquote_step_valid s : Utf8.Valid (fst (unquote_step s)) = true.
Proof.
  unfold unquote_step. destruct (getu4 s) as [[rr r]|].
  { repeat (case_match; try apply encode_rune_valid). }
  destruct s as [|c r]; [done|]. destruct (_ =? _).
  - destruct r as [|e r]; [done|]. cbn [fst]. destruct (escape_value e) as [b|] eqn:E; [|done].
    apply escape_ascii in E. cbn. by rewrite (proj2 (Z.ltb_lt _ _)).
  - destruct (width (c :: r)) as [|w] eqn:E; [done|]. cbn [fst]. cbn [take]. apply scalar_valid.
    change (c :: take w r) with (take (S w) (c :: r)). rewrite <- E at 1. rewrite width_take, E, length_take.
    pose proof (width_length (c :: r)). lia.
Qed.

(** Whatever is unquoted is UTF-8. *)
Lemma unquote_valid s : Utf8.Valid (unquote s) = true.
Proof.
  induction s as [s IH] using (induction_ltof1 _ length). unfold ltof in IH.
  destruct (decide (s = [])) as [->|Hne]; [done|]. unfold unquote.
  rewrite (run_step unquote_step unquote_shrinks s Hne).
  apply Valid_app; [apply unquote_step_valid|by apply IH, unquote_shrinks].
Qed.

End JsonText.
