(* ===== verification/JsonScan.v ===== *)
(** * The scanner of JSON values

    Models the scanner of [encoding/json]: where a value ends, the members of
    an object and the elements of an array with the texts of their values,
    and the compaction that raw messages go through when they are written. *)

From S2P Require Import Prelude Text JsonText.
From Corelib Require Import Init.Byte.

Module JsonScan.
Import JsonText.

Definition isc (z : Z) (b : byte) : bool := b2z b =? z.
Definition is_space (b : byte) : bool := isc 0x20 b || isc 0x09 b || isc 0x0A b || isc 0x0D b.

Fixpoint skip_ws (s : bytes) : bytes :=
  match s with c :: r => if is_space c then skip_ws r else s | [] => [] end.

(** ** Strings, numbers and names *)

Definition is_hex (b : byte) : bool := match Hex.value b with Some _ => true | None => false end.
Definition simple_escape (e : byte) : bool := existsb (fun b => bool_decide (e = b)) (x22 :: x5c :: bz "/bfnrt").

(** What follows an opening quote: the text up to the closing one, and the rest. *)
Fixpoint string_body (s : bytes) : option (bytes * bytes) :=
  match s with
  | [] => None
  | c :: r =>
      if isc 0x22 c then Some ([], r)
      else if isc 0x5C c then
        match r with
        | e :: r' =>
            if simple_escape e then
              '(body, rest) ← string_body r'; Some (c :: e :: body, rest)
            else if isc 0x75 e then
              match r' with
              | h1 :: h2 :: h3 :: h4 :: r'' =>
                  if forallb is_hex [h1; h2; h3; h4] then
                    '(body, rest) ← string_body r''; Some (c :: e :: h1 :: h2 :: h3 :: h4 :: body, rest)
                  else None
              | _ => None
              end
            else None
        | [] => None
        end
      else if b2z c <? 0x20 then None
      else '(body, rest) ← string_body r; Some (c :: body, rest)
  end.

Fixpoint skip_digits (s : bytes) : bytes :=
  match s with c :: r => if Strconv.is_digit c then skip_digits r else s | [] => [] end.

(** One digit at least. *)
Definition digits1 (s : bytes) : option bytes :=
  match s with c :: r => if Strconv.is_digit c then Some (skip_digits r) else None | [] => None end.

Definition number_int (s : bytes) : option bytes :=
  match s with c :: r => if isc 0x30 c then Some r else digits1 s | [] => None end.

Definition number_frac (s : bytes) : option bytes :=
  match s with c :: r => if isc 0x2E c then digits1 r else Some s | [] => Some [] end.

Definition number_exp (s : bytes) : option bytes :=
  match s with
  | c :: r =>
      if isc 0x65 c || isc 0x45 c then
        match r with
        | sign :: r' => if isc 0x2B sign || isc 0x2D sign then digits1 r' else digits1 r
        | [] => None
        end
      else Some s
  | [] => Some []
  end.

Definition number (s : bytes) : option bytes :=
  let s := match s with c :: r => if isc 0x2D c then r else s | [] => s end in
  s ← number_int s; s ← number_frac s; number_exp s.

Fixpoint strip (prefix s : bytes) : option bytes :=
  match prefix, s with
  | [], _ => Some s
  | p :: prefix, c :: r => if bool_decide (p = c) then strip prefix r else None
  | _, [] => None
  end.

Definition name (s : bytes) : option bytes :=
  match strip (bz "true") s with
  | Some r => Some r
  | None => match strip (bz "false") s with Some r => Some r | None => strip (bz "null") s end
  end.

(** ** Values *)

(** The text between the beginning of [s] and its end part [rest]. *)
Definition consumed (s rest : bytes) : bytes := take (length s - length rest) s.

(** What is left after a value; the members of an object up to its closing
    brace, with the texts of their values; the elements of an array. *)
Fixpoint value (n : nat) (s : bytes) : option bytes :=
  match n with
  | O => None
  | S n =>
      match skip_ws s with
      | [] => None
      | c :: r =>
          if isc 0x7B c then
            match skip_ws r with
            | d :: r' => if isc 0x7D d then Some r' else snd <$> members n r
            | [] => None
            end
          else if isc 0x5B c then
            match skip_ws r with
            | d :: r' => if isc 0x5D d then Some r' else snd <$> elements n r
            | [] => None
            end
          else if isc 0x22 c then snd <$> string_body r
          else if isc 0x2D c || Strconv.is_digit c then number (c :: r)
          else name (c :: r)
      end
  end
with members (n : nat) (s : bytes) : option (list (bytes * bytes) * bytes) :=
  match n with
  | O => None
  | S n =>
      match skip_ws s with
      | [] => None
      | q :: r =>
          if isc 0x22 q then
            '(key, r) ← string_body r;
            match skip_ws r with
            | [] => None
            | c :: r =>
                if isc 0x3A c then
                  rest ← value n r;
                  let text := consumed (skip_ws r) rest in
                  match skip_ws rest with
                  | [] => None
                  | d :: r =>
                      if isc 0x2C d then '(ms, rest) ← members n r; Some ((key, text) :: ms, rest)
                      else if isc 0x7D d then Some ([(key, text)], r) else None
                  end
                else None
            end
          else None
      end
  end
with elements (n : nat) (s : bytes) : option (list bytes * bytes) :=
  match n with
  | O => None
  | S n =>
      rest ← value n s;
      let text := consumed (skip_ws s) rest in
      match skip_ws rest with
      | [] => None
      | d :: r =>
          if isc 0x2C d then '(vs, rest) ← elements n r; Some (text :: vs, rest)
          else if isc 0x5D d then Some ([text], r) else None
      end
  end.

(** Every call goes one level down and at least one byte further. *)
Definition fuel (s : bytes) : nat := S (length s).

(** [checkValid]: one value, and white space around it. *)
Definition Valid (s : bytes) : bool :=
  match value (fuel s) s with Some rest => bool_decide (skip_ws rest = []) | None => false end.

(** The members of a text that is an object, the elements of an array. *)
Definition object (s : bytes) : option (list (bytes * bytes)) :=
  match skip_ws s with
  | c :: r =>
      if isc 0x7B c then
        match skip_ws r with
        | d :: _ => if isc 0x7D d then Some [] else fst <$> members (fuel r) r
        | [] => None
        end
      else None
  | [] => None
  end.

Definition array (s : bytes) : option (list bytes) :=
  match skip_ws s with
  | c :: r =>
      if isc 0x5B c then
        match skip_ws r with
        | d :: _ => if isc 0x5D d then Some [] else fst <$> elements (fuel r) r
        | [] => None
        end
      else None
  | [] => None
  end.

(** ** Compaction *)

(** [appendCompact] with [escapeHTML], on a valid text: white space between
    tokens goes, and the characters that HTML or JavaScript would misread are
    escaped.  [instr] tells whether the text is inside a string. *)
Fixpoint squeeze (instr : bool) (s : bytes) : bytes :=
  match s with
  | [] => []
  | c :: r =>
      if isc 0x3C c || isc 0x3E c || isc 0x26 c then u_escape (b2z c) ++ squeeze instr r
      else
        let plain :=
          if instr then
            if isc 0x5C c then match r with e :: r' => c :: e :: squeeze true r' | [] => [c] end
            else c :: squeeze (negb (isc 0x22 c)) r
          else if is_space c then squeeze false r
          else c :: squeeze (isc 0x22 c) r in
        match r with
        | b1 :: b2 :: r' =>
            if isc 0xE2 c && isc 0x80 b1 && (isc 0xA8 b2 || isc 0xA9 b2)
            then u_escape (0x2000 + (b2z b2 - 0x80)) ++ squeeze instr r'
            else plain
        | _ => plain
        end
  end.

(** ** Writing *)

(** A member, from the text between the quotes of its key and the text of its
    value. *)
Definition member (kv : bytes * bytes) : bytes :=
  [quote_char] ++ fst kv ++ [quote_char] ++ bz ":" ++ snd kv.

Fixpoint join (l : list bytes) : bytes :=
  match l with
  | [] => []
  | [x] => x
  | x :: l => x ++ bz "," ++ join l
  end.

(** An object and an array as the encoder writes them. *)
Definition render_object (kvs : list (bytes * bytes)) : bytes := bz "{" ++ join (member <$> kvs) ++ bz "}".
Definition render_array (vs : list bytes) : bytes := bz "[" ++ join vs ++ bz "]".

Definition SyntaxError : error := NewError (bz "invalid character in JSON text").

(** [json.Compact] as the encoder applies it to the output of a marshaler. *)
Definition compaction (s : bytes) : result bytes :=
  if Valid s then Ok (squeeze false s) else Err SyntaxError.

Example scan_object :
  object ([x7b; x20; x22; x61; x22; x20; x3a; x20; x31; x2c; x22; x62; x22; x3a; x5b; x32; x20; x5d; x7d]) =
    Some [([x61], [x31]); ([x62], [x5b; x32; x20; x5d])].
Proof. reflexivity. Qed.

Example scan_numbers :
  Valid <$> [bz "0"; bz "-0.5e+3 "; bz "01"; bz "1."; bz "-"; bz "[1 2]"; bz "[1,]"; bz "nul"; bz " null"] =
    [true; true; false; false; false; false; false; false; true].
Proof. reflexivity. Qed.

End JsonScan.

(** * What the scanner does on the texts the encoder writes

    A text is a value, [is_value], if the scanner finds its end wherever it
    stands.  Quoted strings, numbers, objects and arrays of values are values,
    and the members of a written object are found again. *)

Module JsonScanFacts.
Import JsonText JsonScan.

(** What may follow a number: nothing that would continue it. *)
Definition number_char (c : byte) : bool :=
  Strconv.is_digit c || isc 0x2E c || isc 0x65 c || isc 0x45 c.
Definition delim (t : bytes) : Prop :=
  match t with c :: _ => number_char c = false | [] => True end.

Definition starts (v : bytes) : Prop :=
  match v with c :: _ => is_space c = false | [] => False end.

Definition is_value (v : bytes) : Prop :=
  starts v /\ forall n t, (length v < n)%nat -> delim t -> value n (v ++ t) = Some t.

Lemma starts_app v t : starts v -> starts (v ++ t).
Proof. by destruct v. Qed.

Lemma skip_ws_starts v t : starts v -> skip_ws (v ++ t) = v ++ t.
Proof. destruct v as [|c r]; [done|]. cbn. by intros ->. Qed.

Lemma skip_ws_starts' v : starts v -> skip_ws v = v.
Proof. intros H. rewrite <- (app_nil_r v). by apply skip_ws_starts. Qed.

Lemma consumed_app v t : consumed (v ++ t) t = v.
Proof.
  unfold consumed. rewrite length_app. replace (length v + length t - length t)%nat with (length v) by lia.
  apply take_app_length.
Qed.

(** ** Strings *)

(** A piece of text that stays inside a string. *)
Definition inner (p : bytes) : Prop :=
  forall t, string_body (p ++ t) = '(body, rest) ← string_body t; Some (p ++ body, rest).

Lemma inner_nil : inner [].
Proof. intros t. cbn. by destruct (string_body t) as [[]|]. Qed.

Lemma inner_app p q : inner p -> inner q -> inner (p ++ q).
Proof.
  intros Hp Hq t. rewrite <- app_assoc, Hp, Hq. destruct (string_body t) as [[b r]|]; cbn; [|done].
  by rewrite app_assoc.
Qed.

Lemma inner_plain c : 0x20 <= b2z c -> b2z c <> 0x22 -> b2z c <> 0x5C -> inner [c].
Proof.
  intros H1 H2 H3 t. cbn. unfold isc.
  by rewrite (proj2 (Z.eqb_neq _ _) H2), (proj2 (Z.eqb_neq _ _) H3), (proj2 (Z.ltb_ge _ _) H1).
Qed.

Lemma inner_high c : Forall (fun b => 0x80 <= b2z b) c -> inner c.
Proof.
  induction 1 as [|b c Hb _ IH]; [apply inner_nil|]. apply (inner_app [b] c); [|done].
  apply inner_plain; lia.
Qed.

Lemma inner_escape e : simple_escape e = true -> inner [backslash; e].
Proof. intros He t. cbn -[simple_escape]. by rewrite He. Qed.

Lemma inner_u h1 h2 h3 h4 : forallb is_hex [h1; h2; h3; h4] = true ->
  inner [backslash; "u"%byte; h1; h2; h3; h4].
Proof. intros Hh t. cbn -[forallb]. by rewrite Hh. Qed.

Lemma is_hex_digit n : 0 <= n < 16 -> is_hex (Hex.digit n) = true.
Proof. intros Hn. unfold is_hex. by rewrite Hex.value_digit. Qed.

Lemma inner_u_escape n : 0 <= n < 0x10000 -> inner (u_escape n).
Proof.
  intros Hn. apply inner_u. cbn [forallb].
  rewrite !is_hex_digit; [done|..]; try (apply Z.mod_pos_bound; lia).
  split; [apply Z.div_pos; lia|apply Z.div_lt_upper_bound; lia].
Qed.

Lemma ascii_inner b : b2z b < 0x80 -> inner (quote_rune [b]).
Proof.
  intros Hb. pose proof (b2z_bound b). cbn [quote_rune].
  destruct (_ || _) eqn:E.
  { apply inner_escape. apply orb_true_iff in E as [E|E]; apply Z.eqb_eq in E;
      [rewrite <- (z2b_b2z b), E; done|rewrite <- (z2b_b2z b), E; done]. }
  apply orb_false_iff in E as [E1 E2]. apply Z.eqb_neq in E1, E2.
  destruct (_ =? 0x0A); [by apply inner_escape|]. destruct (_ =? 0x0D); [by apply inner_escape|].
  destruct (_ =? 0x09); [by apply inner_escape|].
  destruct (b2z b <? 0x20) eqn:E3; cbn [orb]; [apply inner_u_escape; lia|].
  apply Z.ltb_ge in E3. destruct (_ || _); [apply inner_u_escape; lia|]. by apply inner_plain.
Qed.

Lemma rune_inner c : c <> [] -> width c = length c -> inner (quote_rune c).
Proof.
  intros Hne Hw. destruct (rune_form c Hne Hw) as [(b & -> & Hb)|[Hl Hc]]; [by apply ascii_inner|].
  destruct c as [|b0 [|b1 [|b2 [|b3 r]]]]; cbn in Hl; try lia; cbn [quote_rune]; try by apply inner_high.
  destruct (_ && _); [|by apply inner_high]. apply inner_u_escape.
  pose proof (b2z_bound b2). inversion Hc as [|? ? _ Hc1]. inversion Hc1 as [|? ? _ Hc2]. inversion Hc2. lia.
Qed.

(** Whatever string is quoted, the text between the quotes stays inside. *)
Lemma quote_inner s : inner (quote_body s).
Proof.
  induction s as [s IH] using (induction_ltof1 _ length). unfold ltof in IH.
  destruct (decide (s = [])) as [->|Hne]; [apply inner_nil|]. unfold quote_body.
  rewrite (run_step quote_step quote_shrinks s Hne).
  apply inner_app; [|by apply IH, quote_shrinks]. clear IH. unfold quote_step.
  pose proof (width_length s). pose proof (width_take s) as Ht.
  destruct (width s) as [|w] eqn:E; cbn [fst]; [by apply inner_u_escape|].
  apply rune_inner; [destruct s; [done|]; done|]. rewrite Ht, length_take. lia.
Qed.

Lemma string_body_inner p t : inner p -> string_body (p ++ quote_char :: t) = Some (p, t).
Proof. intros Hp. rewrite Hp. cbn. by rewrite app_nil_r. Qed.

Lemma value_string n body t rest : string_body t = Some (body, rest) ->
  value (S n) (quote_char :: t) = Some rest.
Proof. intros E. cbn. by rewrite E. Qed.

Lemma quote_is_value s : is_value (quote s).
Proof.
  split; [done|]. intros [|n] t Hn _; [lia|]. unfold quote. rewrite <- !app_assoc.
  apply (value_string n (quote_body s)). by apply string_body_inner, quote_inner.
Qed.

(** ** Names and numbers *)

Lemma null_is_value : is_value (bz "null").
Proof. split; [done|]. by intros [|n] t; [lia|]. Qed.

Lemma skip_digits_app ds t : forallb Strconv.is_digit ds = true -> delim t -> skip_digits (ds ++ t) = t.
Proof.
  intros Hd Ht. induction ds as [|c ds IH]; cbn in *.
  - destruct t as [|c r]; [done|]. cbn in Ht. unfold number_char in Ht. cbn.
    by destruct (Strconv.is_digit c).
  - apply andb_true_iff in Hd as [-> Hd]. auto.
Qed.

Lemma number_tail t : delim t -> (s ← number_frac t; number_exp s) = Some t.
Proof.
  destruct t as [|c r]; [done|]. cbn. unfold number_char. intros Ht.
  destruct (Strconv.is_digit c), (isc 0x2E c), (isc 0x65 c) eqn:E1, (isc 0x45 c) eqn:E2; try done.
  cbn. by rewrite E1, E2.
Qed.

(** The digits of a number: one zero, or no zero in front. *)
Definition canonical (ds : bytes) : Prop :=
  match ds with
  | [] => False
  | c :: r => forallb Strconv.is_digit (c :: r) = true /\ (isc 0x30 c = true -> r = [])
  end.

Lemma number_int_canonical ds t : canonical ds -> delim t -> number_int (ds ++ t) = Some t.
Proof.
  destruct ds as [|c ds]; [done|]. intros [Hd H0] Ht. cbn in *. apply andb_true_iff in Hd as [Hc Hd].
  destruct (isc 0x30 c); [by rewrite H0|]. by rewrite Hc, skip_digits_app.
Qed.

(** A positive number is not written with a zero in front. *)
Lemma digits_head fuel n : 1 <= n < 2 * 2 ^ Z.of_nat fuel ->
  exists c r, Strconv.digits (S fuel) n = c :: r /\ b2z c <> 48.
Proof.
  revert n. induction fuel as [|f IH]; intros n Hn.
  - cbn in *. rewrite (proj2 (Z.ltb_lt _ _)) by lia. do 2 eexists. split; [done|].
    rewrite Strconv.digit_char_b2z by lia. lia.
  - rewrite Nat2Z.inj_succ, Z.pow_succ_r in Hn by lia.
    remember (S f) as k eqn:Hk. cbn [Strconv.digits]. subst k. destruct (n <? 10) eqn:E.
    + apply Z.ltb_lt in E. do 2 eexists. split; [done|]. rewrite Strconv.digit_char_b2z by lia. lia.
    + apply Z.ltb_ge in E. destruct (IH (n / 10)) as (c & r & -> & Hc).
      { split; [apply Z.div_le_lower_bound; lia|apply Z.div_lt_upper_bound; lia]. }
      by do 2 eexists.
Qed.

Lemma FormatUint_canonical n : 0 <= n -> canonical (Strconv.FormatUint n).
Proof.
  intros Hn. destruct (decide (n = 0)) as [->|Hs]; [done|].
  destruct (Strconv.FormatUint_spec n Hn) as (_ & Hd & _).
  destruct (digits_head (Z.to_nat (Z.log2 n)) n) as (c & r & E & Hc).
  { pose proof (Z.log2_spec n ltac:(lia)) as [_ Hl]. pose proof (Z.log2_nonneg n).
    rewrite Z.pow_succ_r in Hl by done. rewrite Z2Nat.id by done. lia. }
  change (Strconv.FormatUint n) with (Strconv.digits (S (Z.to_nat (Z.log2 n))) n) in *.
  rewrite E in *. split; [done|]. unfold isc. by rewrite (proj2 (Z.eqb_neq _ _)).
Qed.

Lemma digit_not c z : Strconv.is_digit c = true -> z < 48 \/ 57 < z -> isc z c = false.
Proof. unfold Strconv.is_digit, isc. intros H Hz. apply Z.eqb_neq. lia. Qed.

Lemma digit_no_space c : Strconv.is_digit c = true -> is_space c = false.
Proof. intros H. unfold is_space. by rewrite !(digit_not _ _ H) by lia. Qed.

Lemma value_number n c r : Strconv.is_digit c || isc 0x2D c = true ->
  value (S n) (c :: r) = number (c :: r).
Proof.
  intros Hc. cbn [value]. assert (is_space c = false) as Hs.
  { apply orb_true_iff in Hc as [Hc|Hc]; [by apply digit_no_space|].
    unfold isc in Hc. apply Z.eqb_eq in Hc. unfold is_space, isc. by rewrite Hc. }
  cbn [skip_ws]. rewrite Hs.
  assert (forall z, z = 0x7B \/ z = 0x5B \/ z = 0x22 -> isc z c = false) as Hz.
  { intros z Hz. unfold isc, Strconv.is_digit in *. apply Z.eqb_neq. lia. }
  rewrite !Hz by auto. by rewrite orb_comm, Hc.
Qed.

Lemma number_is_value (neg : bool) ds : canonical ds -> is_value ((if neg then bz "-" else []) ++ ds).
Proof.
  intros Hc. assert (exists c r, ds = c :: r /\ Strconv.is_digit c = true) as (c & r & Eds & Hd).
  { destruct ds as [|c r]; [done|]. destruct Hc as [Hc _]. cbn in Hc. apply andb_true_iff in Hc as [Hc _]. eauto. }
  split; [destruct neg; [done|rewrite Eds; by apply digit_no_space]|].
  intros [|n] t Hn Ht; [lia|]. rewrite <- app_assoc.
  assert (number ((if neg then bz "-" else []) ++ ds ++ t) = Some t) as En.
  { transitivity (s ← number_int (ds ++ t); s ← number_frac s; number_exp s).
    - destruct neg; [done|]. unfold number. rewrite Eds. cbn [app]. by rewrite (digit_not _ _ Hd) by lia.
    - rewrite number_int_canonical by done. cbn. by apply number_tail. }
  rewrite <- En. destruct neg; [by apply value_number|]. rewrite Eds. cbn [app]. apply value_number.
  by rewrite Hd.
Qed.

Lemma FormatInt_is_value n : is_value (Strconv.FormatInt n).
Proof.
  unfold Strconv.FormatInt. destruct (n <? 0) eqn:E.
  - apply Z.ltb_lt in E. apply (number_is_value true), FormatUint_canonical. lia.
  - apply Z.ltb_ge in E. by apply (number_is_value false), FormatUint_canonical.
Qed.

(** ** Objects and arrays *)

(** A member whose key, as written between its quotes, stays there. *)
Definition member_ok (kv : bytes * bytes) : Prop := inner (fst kv) /\ is_value (snd kv).

Lemma members_one n kv d t : member_ok kv -> (length (member kv) < n)%nat -> number_char d = false ->
  is_space d = false ->
  members (S n) (member kv ++ d :: t) =
    (if isc 0x2C d then '(ms, rest) ← members n t; Some (kv :: ms, rest)
     else if isc 0x7D d then Some ([kv], t) else None).
Proof.
  intros [Hk [Hs Hv]] Hn Hd Hsp. destruct kv as [k v]. unfold member in *. cbn [fst snd] in *.
  rewrite !length_app in Hn. cbn [length] in Hn.
  rewrite <- !app_assoc. cbn [app].
  change (bz ":" ++ v ++ d :: t) with (":"%byte :: v ++ d :: t).
  remember (":"%byte :: v ++ d :: t) as r eqn:Er. cbn [members].
  change (skip_ws (quote_char :: ?x)) with (quote_char :: x). cbn iota.
  rewrite (string_body_inner _ _ Hk). cbn [mbind option_bind]. subst r.
  change (skip_ws (":"%byte :: ?x)) with (":"%byte :: x). cbn iota.
  rewrite Hv by (done || lia). cbn [mbind option_bind].
  rewrite skip_ws_starts, consumed_app by done. cbn [skip_ws]. rewrite Hsp. reflexivity.
Qed.

Lemma elements_one n v d t : is_value v -> (length v < n)%nat -> number_char d = false ->
  is_space d = false ->
  elements (S n) (v ++ d :: t) =
    (if isc 0x2C d then '(vs, rest) ← elements n t; Some (v :: vs, rest)
     else if isc 0x5D d then Some ([v], t) else None).
Proof.
  intros [Hs Hv] Hn Hd Hsp. cbn [elements]. rewrite Hv by (done || lia). cbn [mbind option_bind].
  rewrite skip_ws_starts, consumed_app by done. cbn [skip_ws]. by rewrite Hsp.
Qed.

Lemma join_cons x y l : join (x :: y :: l) = x ++ ","%byte :: join (y :: l).
Proof. done. Qed.

Lemma members_join kv kvs n t : Forall member_ok (kv :: kvs) ->
  (S (length (join (member <$> kv :: kvs))) < n)%nat ->
  members n (join (member <$> kv :: kvs) ++ "}"%byte :: t) = Some (kv :: kvs, t).
Proof.
  revert kv n. induction kvs as [|kv' kvs IH]; intros kv [|n] Hf Hn; [lia| |lia|].
  - inversion Hf; subst. change (join (member <$> [kv])) with (member kv) in *.
    rewrite members_one by (done || lia). done.
  - inversion Hf; subst. change (member <$> kv :: kv' :: kvs) with (member kv :: member kv' :: (member <$> kvs)) in *.
    rewrite join_cons in *. rewrite <- app_assoc. cbn [app]. rewrite length_app in Hn. cbn [length] in Hn.
    rewrite members_one by (done || lia). change (isc 0x2C ","%byte) with true. cbn iota.
    change (member kv' :: (member <$> kvs)) with (member <$> kv' :: kvs) in *.
    rewrite IH by (done || lia). done.
Qed.

Lemma elements_join v vs n t : Forall is_value (v :: vs) ->
  (S (length (join (v :: vs))) < n)%nat ->
  elements n (join (v :: vs) ++ "]"%byte :: t) = Some (v :: vs, t).
Proof.
  revert v n. induction vs as [|v' vs IH]; intros v [|n] Hf Hn; [lia| |lia|].
  - inversion Hf; subst. change (join [v]) with v in *. rewrite elements_one by (done || lia). done.
  - inversion Hf; subst. rewrite join_cons in *. rewrite <- app_assoc. cbn [app].
    rewrite length_app in Hn. cbn [length] in Hn.
    rewrite elements_one by (done || lia). change (isc 0x2C ","%byte) with true. cbn iota.
    rewrite IH by (done || lia). done.
Qed.

(** Something other than the closing bracket follows the opening one. *)
Definition opens (z : Z) (r : bytes) : Prop :=
  match r with c :: _ => is_space c = false /\ isc z c = false | [] => False end.

Lemma value_members n r : opens 0x7D r -> value (S n) ("{"%byte :: r) = snd <$> members n r.
Proof.
  destruct r as [|c r]; [done|]. intros [Hs Hc].
  change (value (S n) ("{"%byte :: c :: r)) with
    (match skip_ws (c :: r) with d :: r' => if isc 0x7D d then Some r' else snd <$> members n (c :: r) | [] => None end).
  cbn [skip_ws]. by rewrite Hs, Hc.
Qed.

Lemma value_elements n r : opens 0x5D r -> value (S n) ("["%byte :: r) = snd <$> elements n r.
Proof.
  destruct r as [|c r]; [done|]. intros [Hs Hc].
  change (value (S n) ("["%byte :: c :: r)) with
    (match skip_ws (c :: r) with d :: r' => if isc 0x5D d then Some r' else snd <$> elements n (c :: r) | [] => None end).
  cbn [skip_ws]. by rewrite Hs, Hc.
Qed.

Lemma opens_join z x l t : opens z x -> opens z (join (x :: l) ++ t).
Proof. by destruct x, l. Qed.

Lemma member_opens kv : opens 0x7D (member kv).
Proof. done. Qed.

Lemma value_no_bracket v : is_value v -> opens 0x5D v.
Proof.
  intros [Hs Hv]. destruct v as [|c r]; [done|]. split; [done|].
  specialize (Hv (S (S (length r))) [] ltac:(cbn; lia) I). rewrite app_nil_r in Hv. cbn in Hs.
  destruct (isc 0x5D c) eqn:E; [|done]. unfold isc in E. apply Z.eqb_eq in E.
  assert (c = "]"%byte) as -> by (apply b2z_inj; done). done.
Qed.

(** A written object is a value, and its members are those it was made of. *)
Lemma object_is_value kvs : Forall member_ok kvs -> is_value (render_object kvs).
Proof.
  intros Hf. split; [done|]. intros [|n] t Hn _; [lia|]. unfold render_object in *.
  rewrite !length_app in Hn. cbn [length bz String.list_byte_of_string] in Hn.
  rewrite <- !app_assoc. destruct kvs as [|kv kvs]; [done|].
  change (bz "{" ++ ?x) with ("{"%byte :: x). rewrite value_members by (apply (opens_join _ (member kv)), member_opens).
  change (bz "}" ++ t) with ("}"%byte :: t). rewrite members_join; [done|done|]. cbn in *. lia.
Qed.

Lemma object_render kvs : Forall member_ok kvs -> object (render_object kvs) = Some kvs.
Proof.
  intros Hf. destruct kvs as [|kv kvs]; [done|]. unfold object, render_object.
  change (skip_ws (bz "{" ++ ?x)) with ("{"%byte :: x).
  pose proof (opens_join 0x7D (member kv) (member <$> kvs) (bz "}") (member_opens kv)) as Ho.
  pose proof (members_join kv kvs (fuel (join (member <$> kv :: kvs) ++ bz "}")) [] Hf) as Hm.
  change (member kv :: (member <$> kvs)) with (member <$> kv :: kvs) in Ho.
  change ["}"%byte] with (bz "}") in Hm.
  remember (join (member <$> kv :: kvs) ++ bz "}") as r eqn:Er.
  destruct r as [|c r]; [done|]. change (isc 0x7B "{"%byte) with true. cbn iota.
  destruct Ho as [Hs Hc]. cbn [skip_ws]. rewrite Hs, Hc, Hm; [done|].
  rewrite Er. unfold fuel. rewrite length_app. cbn. lia.
Qed.

Lemma array_is_value vs : Forall is_value vs -> is_value (render_array vs).
Proof.
  intros Hf. split; [done|]. intros [|n] t Hn _; [lia|]. unfold render_array in *.
  rewrite !length_app in Hn. cbn [length bz String.list_byte_of_string] in Hn.
  rewrite <- !app_assoc. destruct vs as [|v vs]; [done|].
  change (bz "[" ++ ?x) with ("["%byte :: x). inversion Hf; subst.
  rewrite value_elements by (by apply opens_join, value_no_bracket).
  change (bz "]" ++ t) with ("]"%byte :: t). rewrite elements_join; [done|done|]. cbn in *. lia.
Qed.

Lemma array_render vs : Forall is_value vs -> array (render_array vs) = Some vs.
Proof.
  intros Hf. destruct vs as [|v vs]; [done|]. unfold array, render_array.
  change (skip_ws (bz "[" ++ ?x)) with ("["%byte :: x).
  inversion Hf as [|? ? Hv]; subst.
  pose proof (opens_join 0x5D v vs (bz "]") (value_no_bracket v Hv)) as Ho.
  pose proof (elements_join v vs (fuel (join (v :: vs) ++ bz "]")) [] Hf) as Hm.
  change ["]"%byte] with (bz "]") in Hm.
  remember (join (v :: vs) ++ bz "]") as r eqn:Er.
  destruct r as [|c r]; [done|]. change (isc 0x5B "["%byte) with true. cbn iota.
  destruct Ho as [Hs Hc]. cbn [skip_ws]. rewrite Hs, Hc, Hm; [done|].
  rewrite Er. unfold fuel. rewrite length_app. cbn. lia.
Qed.

(** ** Whole texts *)

Lemma is_value_Valid v : is_value v -> Valid v = true.
Proof.
  intros [Hs Hv]. unfold Valid. rewrite <- (app_nil_r v) at 2. rewrite Hv; [done| |done].
  unfold fuel. lia.
Qed.

End JsonScanFacts.
