(* ===== verification/JsonCompact.v ===== *)
(** * Compaction of JSON texts

    Compacting a valid text gives a value that is no longer changed by being
    compacted, and the values the encoder writes are of that kind: raw messages
    and what is built from them keep their bytes when they are written. *)

From S2P Require Import Prelude Text JsonText JsonScan.
From Corelib Require Import Init.Byte.

Module JsonCompact.
Import JsonText JsonScan JsonScanFacts.

(** ** Steps of compaction *)

Definition special (c : byte) : bool := isc 0x3C c || isc 0x3E c || isc 0x26 c.

(** The rest of U+2028 and U+2029 after their first byte. *)
Definition line_tail (r : bytes) : bool :=
  match r with b1 :: b2 :: _ => isc 0x80 b1 && (isc 0xA8 b2 || isc 0xA9 b2) | _ => false end.

Definition plain_out (instr : bool) (c : byte) (r : bytes) : bytes :=
  if instr then
    if isc 0x5C c then match r with e :: r' => c :: e :: squeeze true r' | [] => [c] end
    else c :: squeeze (negb (isc 0x22 c)) r
  else if is_space c then squeeze false r
  else c :: squeeze (isc 0x22 c) r.

Lemma squeeze_special instr c r : special c = true -> squeeze instr (c :: r) = u_escape (b2z c) ++ squeeze instr r.
Proof. unfold special. cbn [squeeze]. by intros ->. Qed.

Lemma squeeze_line instr c b1 b2 r : isc 0xE2 c = true -> line_tail (b1 :: b2 :: r) = true ->
  squeeze instr (c :: b1 :: b2 :: r) = u_escape (0x2000 + (b2z b2 - 0x80)) ++ squeeze instr r.
Proof.
  intros Hc Ht. cbn in Ht. cbn [squeeze]. unfold isc in Hc. apply Z.eqb_eq in Hc.
  assert (c = xe2) as -> by (apply b2z_inj; done). change (isc 0x3C xe2 || _ || _) with false. cbn iota.
  change (isc 0xE2 xe2) with true. cbn [andb]. by rewrite Ht.
Qed.

Lemma squeeze_plain instr c r : special c = false -> isc 0xE2 c && line_tail r = false ->
  squeeze instr (c :: r) = plain_out instr c r.
Proof.
  unfold special. intros Hs Ht. cbn [squeeze]. rewrite Hs. unfold plain_out.
  destruct r as [|b1 [|b2 r']]; [done..|]. cbn [line_tail] in Ht. rewrite <- andb_assoc, Ht. done.
Qed.

Lemma squeeze_skip s : squeeze false s = squeeze false (skip_ws s).
Proof.
  induction s as [|c r IH]; [done|]. cbn [skip_ws]. destruct (is_space c) eqn:E; [|done].
  rewrite <- IH. rewrite squeeze_plain; [unfold plain_out; by rewrite E|..].
  all: unfold special, is_space, isc in *; lia.
Qed.

(** ASCII that is not touched inside a string, and outside of one. *)
Lemma squeeze_in c r : special c = false -> isc 0xE2 c = false -> isc 0x5C c = false -> isc 0x22 c = false ->
  squeeze true (c :: r) = c :: squeeze true r.
Proof. intros Hs He Hb Hq. rewrite squeeze_plain; [|done|by rewrite He]. unfold plain_out. by rewrite Hb, Hq. Qed.

Lemma squeeze_out c r : special c = false -> isc 0xE2 c = false -> is_space c = false -> isc 0x22 c = false ->
  squeeze false (c :: r) = c :: squeeze false r.
Proof. intros Hs He Hb Hq. rewrite squeeze_plain; [|done|by rewrite He]. unfold plain_out. by rewrite Hb, Hq. Qed.

Lemma squeeze_escape e r : squeeze true (backslash :: e :: r) = backslash :: e :: squeeze true r.
Proof. by rewrite squeeze_plain. Qed.

Lemma squeeze_hex h r : is_hex h = true -> squeeze true (h :: r) = h :: squeeze true r.
Proof.
  unfold is_hex, Hex.value. intros Hh.
  assert ((48 <= b2z h <= 57) \/ (97 <= b2z h <= 102) \/ (65 <= b2z h <= 70)) as Hv
    by (repeat (case_match; try done); lia).
  apply squeeze_in; unfold special, isc; lia.
Qed.

Lemma squeeze_u_escape n r : 0 <= n < 0x10000 -> squeeze true (u_escape n ++ r) = u_escape n ++ squeeze true r.
Proof.
  intros Hn. unfold u_escape. cbn [fmap list_fmap app]. rewrite squeeze_escape.
  rewrite !squeeze_hex; [done|..]; apply is_hex_digit; try (apply Z.mod_pos_bound; lia).
  split; [apply Z.div_pos; lia|apply Z.div_lt_upper_bound; lia].
Qed.

(** ** Strings *)

(** A text between quotes that stays there and is compact. *)
Definition sealed (p : bytes) : Prop :=
  inner p /\ forall t, squeeze true (p ++ quote_char :: t) = p ++ quote_char :: squeeze false t.

(** What a compacted string [p] has to do with the text [r] it comes from: a
    first byte that is not ASCII, or the tail of a line separator, was there
    before. *)
Definition keeps_front (p r : bytes) : Prop :=
  forall t, (forall h, head (p ++ quote_char :: t) = Some h -> 0x80 <= b2z h -> head r = Some h) /\
            (line_tail (p ++ quote_char :: t) = true -> line_tail r = true).

Lemma keeps_ascii c p r : b2z c < 0x80 -> keeps_front (c :: p) r.
Proof.
  intros Hc t. split; [intros h [= <-]; lia|]. cbn. destruct (p ++ quote_char :: t); [done|].
  unfold isc. lia.
Qed.

Lemma keeps_nil r : keeps_front [] r.
Proof.
  intros t. split; [|destruct t as [|b t]; [done|cbn [app line_tail]; by change (isc 0x80 quote_char) with false]].
  intros h [= <-] Hh. change (b2z quote_char) with 0x22 in Hh. lia.
Qed.

Lemma front_same c p r : keeps_front p r -> keeps_front (c :: p) (c :: r).
Proof.
  intros Hk t. destruct (Hk t) as [Hh _]. split; [by intros h [= <-]|]. cbn. intros Hl.
  destruct (p ++ quote_char :: t) as [|b2 l]; [done|]. apply andb_true_iff in Hl as [Hc Hb].
  specialize (Hh b2 eq_refl). assert (0x80 <= b2z b2) as Hb2 by (unfold isc in Hb; lia).
  apply Hh in Hb2. destruct r as [|b2' r]; [done|]. injection Hb2 as ->. by rewrite Hc, Hb.
Qed.

Lemma sealed_nil : sealed [].
Proof. split; [apply inner_nil|]. intros t. cbn [app]. by rewrite squeeze_plain. Qed.

Lemma sealed_escape e p : simple_escape e = true -> sealed p -> sealed (backslash :: e :: p).
Proof.
  intros He [Hi Hs]. split; [apply (inner_app [backslash; e]); [by apply inner_escape|done]|].
  intros t. cbn [app]. by rewrite squeeze_escape, Hs.
Qed.

Lemma sealed_u_escape n p : 0 <= n < 0x10000 -> sealed p -> sealed (u_escape n ++ p).
Proof.
  intros Hn [Hi Hs]. split; [apply inner_app; [by apply inner_u_escape|done]|].
  intros t. rewrite <- app_assoc, squeeze_u_escape, Hs by done. by rewrite app_assoc.
Qed.

Lemma sealed_u h1 h2 h3 h4 p : forallb is_hex [h1; h2; h3; h4] = true -> sealed p ->
  sealed (backslash :: "u"%byte :: h1 :: h2 :: h3 :: h4 :: p).
Proof.
  intros Hh [Hi Hs]. split; [by apply (inner_app [backslash; "u"%byte; h1; h2; h3; h4]); [apply inner_u|]|].
  intros t. cbn [app]. cbn in Hh. rewrite !andb_true_iff in Hh. destruct Hh as (? & ? & ? & ? & _).
  by rewrite squeeze_escape, !squeeze_hex, Hs.
Qed.

Lemma sealed_plain c p : special c = false -> 0x20 <= b2z c -> isc 0x5C c = false -> isc 0x22 c = false ->
  (isc 0xE2 c = true -> forall t, line_tail (p ++ quote_char :: t) = false) ->
  sealed p -> sealed (c :: p).
Proof.
  intros Hs Hl Hb Hq He [Hi Hp]. split.
  - apply (inner_app [c]); [|done]. apply inner_plain; unfold isc in *; lia.
  - intros t. cbn [app]. rewrite squeeze_plain; [unfold plain_out; by rewrite Hb, Hq, Hp|done|].
    destruct (isc 0xE2 c); [|done]. by rewrite He.
Qed.

(** A scanned string compacts to a sealed one. *)
Lemma squeeze_string r : forall body rest, string_body r = Some (body, rest) ->
  exists p, squeeze true r = p ++ quote_char :: squeeze false rest /\ sealed p /\ keeps_front p r.
Proof.
  induction r as [r IH] using (induction_ltof1 _ length). unfold ltof in IH. intros body rest E.
  destruct r as [|c r]; [done|]. cbn [string_body] in E.
  destruct (isc 0x22 c) eqn:Hq.
  { injection E as <- <-. exists []. split_and!; [|apply sealed_nil|apply keeps_nil].
    unfold isc in Hq. apply Z.eqb_eq in Hq. assert (c = quote_char) as -> by (by apply b2z_inj).
    by rewrite squeeze_plain. }
  destruct (isc 0x5C c) eqn:Hb.
  { unfold isc in Hb. apply Z.eqb_eq in Hb. assert (c = backslash) as -> by (by apply b2z_inj).
    destruct r as [|e r]; [done|]. destruct (simple_escape e) eqn:He.
    - destruct (string_body r) as [[b rs]|] eqn:Er; [|done]. injection E as <- <-.
      destruct (IH r ltac:(cbn; lia) _ _ Er) as (p & Ep & Hp & _).
      exists (backslash :: e :: p). rewrite squeeze_escape, Ep. split_and!; [done|by apply sealed_escape|by apply keeps_ascii].
    - destruct (isc 0x75 e) eqn:Hu; [|done]. destruct r as [|h1 [|h2 [|h3 [|h4 r]]]]; try done.
      destruct (forallb _ _) eqn:Hh; [|done].
      destruct (string_body r) as [[b rs]|] eqn:Er; [|done]. injection E as <- <-.
      destruct (IH r ltac:(cbn; lia) _ _ Er) as (p & Ep & Hp & _).
      unfold isc in Hu. apply Z.eqb_eq in Hu. assert (e = "u"%byte) as -> by (by apply b2z_inj).
      exists (backslash :: "u"%byte :: h1 :: h2 :: h3 :: h4 :: p).
      split_and!; [|by apply sealed_u|by apply keeps_ascii].
      cbn in Hh. rewrite !andb_true_iff in Hh. destruct Hh as (? & ? & ? & ? & _).
      by rewrite squeeze_escape, !squeeze_hex, Ep. }
  destruct (b2z c <? 0x20) eqn:Hl; [done|]. apply Z.ltb_ge in Hl.
  destruct (string_body r) as [[b rs]|] eqn:Er; [|done]. injection E as <- <-.
  destruct (special c) eqn:Hs.
  { destruct (IH r ltac:(cbn; lia) _ _ Er) as (p & Ep & Hp & _).
    exists (u_escape (b2z c) ++ p). rewrite squeeze_special, Ep, <- app_assoc by done.
    pose proof (b2z_bound c). split_and!; [done|apply sealed_u_escape; [lia|done]|by apply keeps_ascii]. }
  destruct (isc 0xE2 c && line_tail r) eqn:Ht.
  { apply andb_true_iff in Ht as [He Ht]. destruct r as [|b1 [|b2 r]]; try done.
    cbn in Ht. apply andb_true_iff in Ht as [H1 H2].
    assert (forall b t bd rs, 0x80 <= b2z b -> string_body (b :: t) = Some (bd, rs) ->
      exists bd', string_body t = Some (bd', rs)) as Hpeel.
    { intros b' t bd rs' Hb' Hsb. pose proof (inner_plain b' ltac:(lia) ltac:(lia) ltac:(lia) t) as Hi.
      cbn [app] in Hi. rewrite Hi in Hsb. destruct (string_body t) as [[]|]; [|done].
      injection Hsb as <- <-. eauto. }
    destruct (Hpeel b1 _ _ _ ltac:(unfold isc in H1; lia) Er) as (bd1 & Er1).
    destruct (Hpeel b2 _ _ _ ltac:(unfold isc in H2; lia) Er1) as (bd2 & Er2).
    destruct (IH r ltac:(cbn; lia) _ _ Er2) as (p & Ep & Hp & _).
    exists (u_escape (0x2000 + (b2z b2 - 0x80)) ++ p).
    rewrite squeeze_line, Ep, <- app_assoc by (done || (cbn; by rewrite H1, H2)).
    pose proof (b2z_bound b2). split_and!; [done|apply sealed_u_escape; [unfold isc in H2; lia|done]|by apply keeps_ascii]. }
  destruct (IH r ltac:(cbn; lia) _ _ Er) as (p & Ep & Hp & Hk).
  exists (c :: p). split_and!; [|apply sealed_plain; try done|by apply front_same].
  - rewrite squeeze_plain by done. unfold plain_out. rewrite Hb, Hq. cbn [negb]. by rewrite Ep.
  - intros He t. rewrite He in Ht. cbn in Ht. destruct (line_tail (p ++ _)) eqn:El; [|done].
    apply Hk in El. congruence.
Qed.

(** Quoted strings are sealed. *)
Lemma squeeze_high b t : 0x80 <= b2z b -> isc 0xE2 b = false -> squeeze true (b :: t) = b :: squeeze true t.
Proof. intros Hb He. apply squeeze_in; try done; unfold special, isc; lia. Qed.

Lemma quote_rune_squeeze c t : c <> [] -> width c = length c ->
  squeeze true (quote_rune c ++ t) = quote_rune c ++ squeeze true t.
Proof.
  intros Hne Hw. destruct (rune_form c Hne Hw) as [(b & -> & Hb)|[Hl Hc]].
  - cbn [quote_rune]. pose proof (b2z_bound b).
    destruct (_ || _) eqn:E1; [apply squeeze_escape|]. destruct (_ =? 0x0A) eqn:E2; [apply squeeze_escape|].
    destruct (_ =? 0x0D) eqn:E3; [apply squeeze_escape|]. destruct (_ =? 0x09) eqn:E4; [apply squeeze_escape|].
    destruct ((b2z b <? 0x20) || (b2z b =? 0x3C) || (b2z b =? 0x3E) || (b2z b =? 0x26)) eqn:E5; [apply squeeze_u_escape; lia|].
    apply squeeze_in; unfold special, isc; lia.
  - destruct c as [|b0 [|b1 [|b2 [|b3 c]]]]; cbn in Hl; try lia.
    + rewrite !List.Forall_cons_iff in Hc. destruct Hc as (H0 & H1 & _). cbn in Hw.
      unfold Utf8.cont, Utf8.between in Hw. cbn [quote_rune app].
      rewrite !squeeze_high; try done; unfold isc; repeat (case_match; try done); lia.
    + rewrite !List.Forall_cons_iff in Hc. destruct Hc as (H0 & H1 & H2 & _). cbn [quote_rune].
      cbn in Hw. unfold Utf8.cont, Utf8.between in Hw. pose proof (b2z_bound b2).
      destruct ((b2z b0 =? 0xE2) && (b2z b1 =? 0x80) && ((b2z b2 =? 0xA8) || (b2z b2 =? 0xA9))) eqn:E;
        [apply squeeze_u_escape; lia|]. cbn [app].
      rewrite squeeze_plain; [|unfold special, isc; lia|cbn; unfold isc; lia]. unfold plain_out.
      replace (isc 0x5C b0) with false by (unfold isc; lia). replace (isc 0x22 b0) with false by (unfold isc; lia).
      cbn [negb]. rewrite !squeeze_high; try done; unfold isc; repeat (case_match; try done); lia.
    + cbn in Hw. assert (c = []) as ->.
      { destruct c; [done|]. unfold Utf8.cont, Utf8.between in Hw. repeat (case_match; try done). }
      rewrite !List.Forall_cons_iff in Hc. destruct Hc as (H0 & H1 & H2 & H3 & _). cbn [quote_rune app].
      unfold Utf8.cont, Utf8.between in Hw.
      rewrite !squeeze_high; try done; unfold isc; repeat (case_match; try done); lia.
Qed.

Lemma quote_body_squeeze s t : squeeze true (quote_body s ++ t) = quote_body s ++ squeeze true t.
Proof.
  revert t. induction s as [s IH] using (induction_ltof1 _ length). unfold ltof in IH. intros t.
  destruct (decide (s = [])) as [->|Hne]; [done|]. unfold quote_body.
  rewrite (run_step quote_step quote_shrinks s Hne), <- !app_assoc.
  specialize (IH _ (quote_shrinks s Hne)). unfold quote_body in IH. rewrite <- IH. unfold quote_step.
  pose proof (width_length s). pose proof (width_take s) as Ht.
  destruct (width s) as [|w] eqn:E; cbn [fst]; [by apply squeeze_u_escape|].
  apply quote_rune_squeeze; [destruct s; [done|]; done|]. rewrite Ht, length_take. lia.
Qed.

Lemma sealed_quote s : sealed (quote_body s).
Proof.
  split; [apply quote_inner|]. intros t. rewrite quote_body_squeeze. f_equal. by rewrite squeeze_plain.
Qed.

(** ** Values *)

(** A text that compaction does not change, wherever it stands. *)
Definition tight (v : bytes) : Prop := forall t, squeeze false (v ++ t) = v ++ squeeze false t.

Definition compact_value (v : bytes) : Prop := is_value v /\ tight v.
Definition compact_member (kv : bytes * bytes) : Prop := sealed (fst kv) /\ compact_value (snd kv).

Lemma tight_nil : tight [].
Proof. done. Qed.

Lemma tight_app p q : tight p -> tight q -> tight (p ++ q).
Proof. intros Hp Hq t. by rewrite <- app_assoc, Hp, Hq, app_assoc. Qed.

(** A token of its own: not a quote, not white space, and ASCII. *)
Definition token_char (c : byte) : bool :=
  negb (special c) && (b2z c <? 0x80) && negb (is_space c) && negb (isc 0x22 c).

Lemma tight_tokens p : forallb token_char p = true -> tight p.
Proof.
  induction p as [|c p IH]; [intros _; apply tight_nil|]. cbn [forallb].
  intros [Hc Hp]%andb_true_iff. apply (tight_app [c] p); [|auto]. intros t. unfold token_char in Hc.
  apply squeeze_out; unfold special, is_space, isc in *; lia.
Qed.

Lemma tight_string p : sealed p -> tight ([quote_char] ++ p ++ [quote_char]).
Proof.
  intros [_ Hp] t. rewrite <- !app_assoc. cbn [app]. rewrite squeeze_plain by done. unfold plain_out.
  change (is_space quote_char) with false. change (isc 0x22 quote_char) with true. cbn iota.
  by rewrite Hp.
Qed.

Lemma string_is_value p : inner p -> is_value ([quote_char] ++ p ++ [quote_char]).
Proof.
  intros Hp. split; [done|]. intros [|n] t Hn _; [lia|]. rewrite <- !app_assoc.
  apply (value_string n p). by apply string_body_inner.
Qed.

Lemma compact_string p : sealed p -> compact_value ([quote_char] ++ p ++ [quote_char]).
Proof. intros Hp. split; [by apply string_is_value, Hp|by apply tight_string]. Qed.

Lemma tight_member kv : compact_member kv -> tight (member kv).
Proof.
  intros [Hk [_ Hv]]. unfold member. rewrite !app_assoc. apply tight_app; [|done].
  apply tight_app; [|by apply tight_tokens]. rewrite <- app_assoc. by apply tight_string.
Qed.

Lemma tight_join l : Forall tight l -> tight (join l).
Proof.
  induction 1 as [|x l Hx Hl IH]; [apply tight_nil|]. destruct l as [|y l]; [done|].
  rewrite join_cons. apply tight_app; [done|]. apply (tight_app [","%byte]); [by apply tight_tokens|done].
Qed.

Lemma compact_object kvs : Forall compact_member kvs -> compact_value (render_object kvs).
Proof.
  intros Hf. split.
  - apply object_is_value. eapply List.Forall_impl; [|exact Hf]. by intros kv [[] []].
  - unfold render_object. apply tight_app; [by apply tight_tokens|]. apply tight_app; [|by apply tight_tokens].
    apply tight_join. rewrite Forall_fmap. eapply List.Forall_impl; [|exact Hf]. apply tight_member.
Qed.

Lemma compact_array vs : Forall compact_value vs -> compact_value (render_array vs).
Proof.
  intros Hf. split.
  - apply array_is_value. eapply List.Forall_impl; [|exact Hf]. by intros v [].
  - unfold render_array. apply tight_app; [by apply tight_tokens|]. apply tight_app; [|by apply tight_tokens].
    apply tight_join. eapply List.Forall_impl; [|exact Hf]. by intros v [].
Qed.

Lemma compact_null : compact_value (bz "null").
Proof. split; [apply null_is_value|by apply tight_tokens]. Qed.

(** ** Numbers *)

Definition all_digits (ds : bytes) : bool := forallb Strconv.is_digit ds.
Definition no_digit (t : bytes) : Prop := match t with c :: _ => Strconv.is_digit c = false | [] => True end.

Lemma delim_no_digit t : delim t -> no_digit t.
Proof. destruct t as [|c t]; [done|]. cbn. unfold number_char. by destruct (Strconv.is_digit c). Qed.

Lemma skip_digits_split s : exists ds, s = ds ++ skip_digits s /\ all_digits ds = true.
Proof.
  induction s as [|c r (ds & E & Hd)]; [by exists []|]. cbn [skip_digits].
  destruct (Strconv.is_digit c) eqn:Hc; [|by exists []]. exists (c :: ds).
  split; [cbn; by f_equal|]. cbn. by rewrite Hc.
Qed.

Lemma skip_digits_stop ds t : all_digits ds = true -> no_digit t -> skip_digits (ds ++ t) = t.
Proof.
  intros Hd Ht. induction ds as [|c ds IH]; cbn in *.
  - destruct t as [|c r]; [done|]. cbn in *. by rewrite Ht.
  - apply andb_true_iff in Hd as [-> Hd]. auto.
Qed.

Lemma digits1_split s rest : digits1 s = Some rest ->
  exists ds, s = ds ++ rest /\ ds <> [] /\ all_digits ds = true.
Proof.
  destruct s as [|c r]; [done|]. cbn [digits1]. destruct (Strconv.is_digit c) eqn:Hc; [|done]. intros [= <-].
  destruct (skip_digits_split r) as (ds & E & Hd). exists (c :: ds). split_and!; [cbn; by f_equal|done|].
  cbn. by rewrite Hc.
Qed.

Lemma digits1_stop ds t : ds <> [] -> all_digits ds = true -> no_digit t -> digits1 (ds ++ t) = Some t.
Proof.
  destruct ds as [|c ds]; [done|]. intros _ Hd Ht. cbn in *. apply andb_true_iff in Hd as [-> Hd].
  by rewrite skip_digits_stop.
Qed.

Lemma digits_tokens ds : all_digits ds = true -> forallb token_char ds = true.
Proof.
  intros Hd. apply List.forallb_forall. intros x Hx.
  pose proof (proj1 (List.forallb_forall _ _) Hd x Hx) as Hdx.
  unfold token_char, special, is_space, isc, Strconv.is_digit in *. lia.
Qed.

(** Each part of a number, as the text it takes and what it does elsewhere. *)
Lemma number_int_split s rest : number_int s = Some rest -> exists p, s = p ++ rest /\ p <> [] /\
  all_digits p = true /\ forall t, no_digit t -> number_int (p ++ t) = Some t.
Proof.
  destruct s as [|c r]; [done|]. cbn [number_int]. destruct (isc 0x30 c) eqn:H0.
  - intros [= <-]. exists [c]. split_and!; try done.
    + cbn. unfold isc, Strconv.is_digit in *. lia.
    + intros t _. cbn. by rewrite H0.
  - intros (ds & E & Hne & Hd)%digits1_split. exists ds. split_and!; try done. intros t Ht.
    destruct ds as [|c' ds]; [done|]. injection E as <- E. cbn [number_int app]. rewrite H0.
    change (c :: ds ++ t) with ((c :: ds) ++ t). by apply digits1_stop.
Qed.

Definition no_point (t : bytes) : Prop := match t with c :: _ => isc 0x2E c = false | [] => True end.

Lemma number_frac_split s rest : number_frac s = Some rest -> exists p, s = p ++ rest /\
  forallb token_char p = true /\ (forall t, no_digit t -> no_digit (p ++ t)) /\
  forall t, no_digit t -> no_point t -> number_frac (p ++ t) = Some t.
Proof.
  destruct s as [|c r]; cbn [number_frac].
  { intros [= <-]. exists []. split_and!; try done. intros [|c t] _ Ht; [done|]. cbn in *. by rewrite Ht. }
  destruct (isc 0x2E c) eqn:Hc.
  - unfold isc in Hc. apply Z.eqb_eq in Hc. assert (c = "."%byte) as -> by (by apply b2z_inj).
    intros (ds & -> & Hne & Hd)%digits1_split. exists ("."%byte :: ds). split_and!; try done.
    + change (forallb token_char ("."%byte :: ds)) with (forallb token_char ds). by apply digits_tokens.
    + intros t Ht _. cbn [app number_frac]. change (isc 0x2E "."%byte) with true. cbn iota. by apply digits1_stop.
  - intros [= <-]. exists []. split_and!; try done. intros [|c' t] _ Ht; [done|]. cbn in *. by rewrite Ht.
Qed.

Lemma number_exp_split s rest : number_exp s = Some rest -> exists p, s = p ++ rest /\
  forallb token_char p = true /\ (forall t, delim t -> no_digit (p ++ t) /\ no_point (p ++ t)) /\
  forall t, delim t -> number_exp (p ++ t) = Some t.
Proof.
  assert (forall s, number_exp s = Some s -> exists p, s = p ++ s /\
    forallb token_char p = true /\ (forall t, delim t -> no_digit (p ++ t) /\ no_point (p ++ t)) /\
    forall t, delim t -> number_exp (p ++ t) = Some t) as Hnone.
  { intros s' _. exists []. split_and!; try done.
    - intros t Ht. split; [by apply delim_no_digit|]. destruct t as [|c t]; [done|].
      cbn in *. unfold number_char in Ht. by destruct (isc 0x2E c), (Strconv.is_digit c).
    - intros [|c t] Ht; [done|]. cbn in *. unfold number_char in Ht.
      by destruct (isc 0x65 c), (isc 0x45 c), (isc 0x2E c), (Strconv.is_digit c). }
  destruct s as [|c r]; [intros [= <-]; by apply Hnone|]. intros E. pose proof E as E'. cbn [number_exp] in E.
  destruct (isc 0x65 c || isc 0x45 c) eqn:Hc; [|injection E as <-; by apply Hnone].
  destruct r as [|sign r]; [done|].
  assert (token_char c = true /\ Strconv.is_digit c = false /\ isc 0x2E c = false) as (Hct & Hcd & Hcp).
  { unfold token_char, special, is_space, isc, Strconv.is_digit in *. lia. }
  destruct (isc 0x2B sign || isc 0x2D sign) eqn:Hs.
  - apply digits1_split in E as (ds & -> & Hne & Hd). exists (c :: sign :: ds). split_and!; try done.
    + cbn [forallb]. rewrite Hct, digits_tokens by done.
      unfold token_char, special, is_space, isc in *. lia.
    + intros t Ht. cbn [app number_exp]. rewrite Hc, Hs. by apply digits1_stop, delim_no_digit.
  - apply digits1_split in E as (ds & E & Hne & Hd). destruct ds as [|d ds]; [done|]. injection E as <- ->.
    exists (c :: sign :: ds). split_and!; try done.
    + change (forallb token_char (c :: sign :: ds)) with (token_char c && forallb token_char (sign :: ds)).
      by rewrite Hct, digits_tokens.
    + intros t Ht. cbn [app number_exp]. rewrite Hc, Hs. change (sign :: ds ++ t) with ((sign :: ds) ++ t).
      by apply digits1_stop, delim_no_digit.
Qed.

Definition unsigned_part (s : bytes) : bytes :=
  match s with c :: r => if isc 0x2D c then r else s | [] => s end.

Lemma number_split s rest : number s = Some rest -> exists p, s = p ++ rest /\ compact_value p.
Proof.
  intros E. change (number s) with
    (s ← number_int (unsigned_part s); s ← number_frac s; number_exp s) in E.
  apply bind_Some in E as (r1 & E1 & E). apply bind_Some in E as (r2 & E2 & E3).
  apply number_int_split in E1 as (ip & Es & Hne & Hd & Hi).
  apply number_frac_split in E2 as (fp & -> & Hft & Hfd & Hf).
  apply number_exp_split in E3 as (ep & -> & Het & Hed & He).
  assert (Hnum : forall t, delim t ->
    (s ← number_int ((ip ++ fp ++ ep) ++ t); s ← number_frac s; number_exp s) = Some t).
  { intros t Ht. destruct (Hed t Ht) as [Hx Hy]. rewrite <- !app_assoc, Hi by auto. cbn [mbind option_bind].
    rewrite Hf by done. cbn [mbind option_bind]. auto. }
  set (sign := match s with c :: _ => if isc 0x2D c then [c] else [] | [] => [] end).
  assert (s = sign ++ unsigned_part s) as Hs.
  { unfold sign, unsigned_part. destruct s as [|c r]; [done|]. by destruct (isc 0x2D c). }
  assert (sign = [] \/ sign = bz "-") as Hsign.
  { unfold sign. destruct s as [|c r]; [auto|]. destruct (isc 0x2D c) eqn:Ec; [|auto]. right.
    unfold isc in Ec. apply Z.eqb_eq in Ec. by assert (c = "-"%byte) as -> by (by apply b2z_inj). }
  clearbody sign. exists (sign ++ ip ++ fp ++ ep). split; [by rewrite Hs, Es, <- !app_assoc|].
  destruct ip as [|d ip]; [done|]. assert (Strconv.is_digit d = true) as Hdd by (cbn in Hd; by apply andb_true_iff in Hd as [? _]).
  split; [split|].
  - destruct Hsign as [-> | ->]; [by apply digit_no_space|done].
  - intros [|n] t Hn Ht; [lia|]. rewrite <- (Hnum t Ht). destruct Hsign as [-> | ->].
    + cbn [app]. rewrite value_number by (by rewrite Hdd). unfold number. by rewrite (digit_not _ _ Hdd) by lia.
    + rewrite <- app_assoc. change (bz "-" ++ ?x) with ("-"%byte :: x).
      rewrite value_number by reflexivity. reflexivity.
  - apply tight_tokens. rewrite !forallb_app, Hft, Het, (digits_tokens (d :: ip)) by done.
    by destruct Hsign as [-> | ->].
Qed.

Lemma json_strip_split p s rest : strip p s = Some rest -> s = p ++ rest.
Proof.
  revert s. induction p as [|x p IH]; intros [|c s] E; cbn in *; try congruence.
  case_bool_decide; [|done]. subst. f_equal. auto.
Qed.

Lemma name_split s rest : name s = Some rest -> exists p, s = p ++ rest /\ compact_value p.
Proof.
  assert (forall p, compact_value p -> strip p s = Some rest -> exists p, s = p ++ rest /\ compact_value p) as Hx
    by (intros p Hp E; eauto using json_strip_split).
  assert (forall b : bool, compact_value (bz (if b then "true" else "false"))) as Hb.
  { intros b. split; [split; [by destruct b|]|by destruct b; apply tight_tokens].
    intros [|n] t Hn _; [lia|]. by destruct b. }
  unfold name. destruct (strip (bz "true") s) eqn:E1; [intros [= ->]; by eapply (Hx _ (Hb true))|].
  destruct (strip (bz "false") s) eqn:E2; [intros [= ->]; by eapply (Hx _ (Hb false))|].
  apply Hx, compact_null.
Qed.

(** ** Whole texts *)

(** What is compacted in front of the rest of a scan. *)
Definition scanned (s rest : bytes) : Prop :=
  exists v, squeeze false s = v ++ squeeze false rest /\ compact_value v.

Lemma scanned_split s p rest : skip_ws s = p ++ rest -> compact_value p -> scanned s rest.
Proof.
  intros E Hp. exists p. split; [|done]. rewrite squeeze_skip, E. by apply Hp.
Qed.

Lemma isc_eq z b : isc z b = true -> b2z b = z.
Proof. apply Z.eqb_eq. Qed.

(** A delimiter after white space. *)
Lemma squeeze_delim s d r : skip_ws s = d :: r -> token_char d = true ->
  squeeze false s = d :: squeeze false r.
Proof.
  intros E Hd. rewrite squeeze_skip, E. apply (tight_tokens [d]). cbn. by rewrite Hd.
Qed.

(** A string in quotes, after white space. *)
Lemma squeeze_quoted s r body rest : skip_ws s = quote_char :: r -> string_body r = Some (body, rest) ->
  exists p, squeeze false s = ([quote_char] ++ p ++ [quote_char]) ++ squeeze false rest /\ sealed p.
Proof.
  intros E (p & Ep & Hp & _)%squeeze_string. exists p. split; [|done]. rewrite squeeze_skip, E.
  rewrite squeeze_plain by done. unfold plain_out. change (is_space quote_char) with false.
  change (isc 0x22 quote_char) with true. cbn iota. rewrite Ep, <- !app_assoc. done.
Qed.

Definition members_scanned (s rest : bytes) : Prop :=
  exists kv kvs, Forall compact_member (kv :: kvs) /\
    squeeze false s = join (member <$> kv :: kvs) ++ "}"%byte :: squeeze false rest.

Definition elements_scanned (s rest : bytes) : Prop :=
  exists v vs, Forall compact_value (v :: vs) /\
    squeeze false s = join (v :: vs) ++ "]"%byte :: squeeze false rest.

Lemma scan_value n
  (Hm : forall s ms rest, members n s = Some (ms, rest) -> members_scanned s rest)
  (He : forall s vs rest, elements n s = Some (vs, rest) -> elements_scanned s rest) :
  forall s rest, value (S n) s = Some rest -> scanned s rest.
Proof.
  intros s rest E. cbn [value] in E. destruct (skip_ws s) as [|c r] eqn:Es; [done|].
  destruct (isc 0x7B c) eqn:H1.
  { assert (c = "{"%byte) as -> by (by apply b2z_inj, isc_eq).
    pose proof (squeeze_delim _ _ _ Es eq_refl) as Hq. destruct (skip_ws r) as [|d r'] eqn:Er; [done|].
    destruct (isc 0x7D d) eqn:H2.
    - injection E as <-. assert (d = "}"%byte) as -> by (by apply b2z_inj, isc_eq).
      exists (render_object []). split; [|by apply compact_object].
      by rewrite Hq, (squeeze_delim _ _ _ Er eq_refl).
    - apply fmap_Some in E as ([ms rest'] & E & ->). destruct (Hm _ _ _ E) as (kv & kvs & Hf & Hr).
      exists (render_object (kv :: kvs)). split; [|by apply compact_object].
      rewrite Hq, Hr. unfold render_object. by rewrite <- !app_assoc. }
  destruct (isc 0x5B c) eqn:H2.
  { assert (c = "["%byte) as -> by (by apply b2z_inj, isc_eq).
    pose proof (squeeze_delim _ _ _ Es eq_refl) as Hq. destruct (skip_ws r) as [|d r'] eqn:Er; [done|].
    destruct (isc 0x5D d) eqn:H3.
    - injection E as <-. assert (d = "]"%byte) as -> by (by apply b2z_inj, isc_eq).
      exists (render_array []). split; [|by apply compact_array].
      by rewrite Hq, (squeeze_delim _ _ _ Er eq_refl).
    - apply fmap_Some in E as ([vs rest'] & E & ->). destruct (He _ _ _ E) as (v & vs' & Hf & Hr).
      exists (render_array (v :: vs')). split; [|by apply compact_array].
      rewrite Hq, Hr. unfold render_array. by rewrite <- !app_assoc. }
  destruct (isc 0x22 c) eqn:H3.
  { assert (c = quote_char) as -> by (by apply b2z_inj, isc_eq).
    apply fmap_Some in E as ([body rest'] & E & ->). destruct (squeeze_quoted _ _ _ _ Es E) as (p & Hp & Hs).
    eexists. split; [exact Hp|]. by apply compact_string. }
  destruct (isc 0x2D c || Strconv.is_digit c).
  - apply number_split in E as (p & Ep & Hp). apply (scanned_split s p); [by rewrite Es|done].
  - apply name_split in E as (p & Ep & Hp). apply (scanned_split s p); [by rewrite Es|done].
Qed.

Lemma scan_members n
  (Hv : forall s rest, value n s = Some rest -> scanned s rest)
  (Hm : forall s ms rest, members n s = Some (ms, rest) -> members_scanned s rest) :
  forall s ms rest, members (S n) s = Some (ms, rest) -> members_scanned s rest.
Proof.
  intros s ms rest E. cbn [members] in E. destruct (skip_ws s) as [|q r] eqn:Es; [done|].
  destruct (isc 0x22 q) eqn:Hq; [|done]. assert (q = quote_char) as -> by (by apply b2z_inj, isc_eq).
  apply bind_Some in E as ([key r1] & Ek & E). destruct (skip_ws r1) as [|c r2] eqn:Er; [done|].
  destruct (isc 0x3A c) eqn:Hc; [|done]. assert (c = ":"%byte) as -> by (by apply b2z_inj, isc_eq).
  apply bind_Some in E as (r3 & Ev & E). destruct (skip_ws r3) as [|d r4] eqn:Ed; [done|].
  destruct (squeeze_quoted _ _ _ _ Es Ek) as (p & Hp & Hsp). destruct (Hv _ _ Ev) as (v & Hsv & Hcv).
  assert (squeeze false s = member (p, v) ++ squeeze false r3) as Hs.
  { rewrite Hp, (squeeze_delim _ _ _ Er eq_refl), Hsv. unfold member. by rewrite <- !app_assoc. }
  assert (compact_member (p, v)) as Hpv by done.
  destruct (isc 0x2C d) eqn:Hd.
  - assert (d = ","%byte) as -> by (by apply b2z_inj, isc_eq).
    apply bind_Some in E as ([ms' rest'] & Em & [= <- <-]). destruct (Hm _ _ _ Em) as (kv & kvs & Hf & Hr).
    exists (p, v), (kv :: kvs). split; [by constructor|].
    rewrite Hs, (squeeze_delim _ _ _ Ed eq_refl), Hr. cbn [fmap list_fmap]. rewrite join_cons, <- app_assoc. done.
  - destruct (isc 0x7D d) eqn:Hd'; [|done]. injection E as <- <-.
    assert (d = "}"%byte) as -> by (by apply b2z_inj, isc_eq).
    exists (p, v), []. split; [by apply Forall_singleton|]. by rewrite Hs, (squeeze_delim _ _ _ Ed eq_refl).
Qed.

Lemma scan_elements n
  (Hv : forall s rest, value n s = Some rest -> scanned s rest)
  (He : forall s vs rest, elements n s = Some (vs, rest) -> elements_scanned s rest) :
  forall s vs rest, elements (S n) s = Some (vs, rest) -> elements_scanned s rest.
Proof.
  intros s vs rest E. cbn [elements] in E.
  apply bind_Some in E as (r3 & Ev & E). destruct (skip_ws r3) as [|d r4] eqn:Ed; [done|].
  destruct (Hv _ _ Ev) as (v & Hsv & Hcv). destruct (isc 0x2C d) eqn:Hd.
  - assert (d = ","%byte) as -> by (by apply b2z_inj, isc_eq).
    apply bind_Some in E as ([vs' rest'] & Em & [= <- <-]). destruct (He _ _ _ Em) as (w & ws & Hf & Hr).
    exists v, (w :: ws). split; [by constructor|].
    rewrite Hsv, (squeeze_delim _ _ _ Ed eq_refl), Hr, join_cons, <- app_assoc. done.
  - destruct (isc 0x5D d) eqn:Hd'; [|done]. injection E as <- <-.
    assert (d = "]"%byte) as -> by (by apply b2z_inj, isc_eq).
    exists v, []. split; [by apply Forall_singleton|]. by rewrite Hsv, (squeeze_delim _ _ _ Ed eq_refl).
Qed.

Lemma scan_squeeze n :
  (forall s rest, value n s = Some rest -> scanned s rest) /\
  (forall s ms rest, members n s = Some (ms, rest) -> members_scanned s rest) /\
  (forall s vs rest, elements n s = Some (vs, rest) -> elements_scanned s rest).
Proof.
  induction n as [|n (Hv & Hm & He)]; [by split_and!|].
  split_and!; [by apply scan_value|by apply scan_members|by apply scan_elements].
Qed.

(** Compacting a valid text gives a value, which compaction leaves as it is. *)
Theorem compaction_compact s b : compaction s = Ok b -> compact_value b.
Proof.
  unfold compaction. destruct (Valid s) eqn:E; [|done]. intros [= <-]. unfold Valid in E.
  destruct (value (fuel s) s) as [rest|] eqn:Ev; [|done]. apply bool_decide_eq_true in E.
  destruct (proj1 (scan_squeeze _) _ _ Ev) as (v & -> & Hv).
  by rewrite (squeeze_skip rest), E, app_nil_r.
Qed.

Theorem compact_fixed v : compact_value v -> compaction v = Ok v.
Proof.
  intros [Hv Ht]. unfold compaction. rewrite is_value_Valid by done. f_equal.
  rewrite <- (app_nil_r v) at 1. rewrite Ht. apply app_nil_r.
Qed.

End JsonCompact.
