(* ===== verification/JsonCodec.v ===== *)
(** * Encoding and decoding Go values as JSON

    Models how [encoding/json] turns Go values into text and back: strings,
    integers, byte slices, pointers, structs with their field tags, maps and
    raw messages, and the calls of [MarshalJSON] and [UnmarshalJSON].  A decoder
    takes the value that is already in place, since members that are absent or
    null leave it alone.  Which of several errors is reported, and its text,
    is not modelled. *)

From S2P Require Import Prelude Text JsonText JsonScan JsonCompact.
From Corelib Require Import Init.Byte.

Module JsonCodec.
Import JsonText JsonScan JsonScanFacts JsonCompact.

Definition decoder (A : Type) : Type := A -> bytes -> result A.
Definition encoder (A : Type) : Type := A -> result bytes.

Definition UnmarshalTypeError : error := NewError (bz "json: cannot unmarshal value").

Definition null : bytes := bz "null".
Definition is_null (v : bytes) : bool := bool_decide (v = null).

(** ** Basic values *)

Definition enc_string : encoder bytes := fun s => Ok (quote s).

(** The text between the quotes of a string. *)
Definition string_text (v : bytes) : option bytes :=
  match v with
  | q :: r => if isc 0x22 q then fst <$> string_body r else None
  | [] => None
  end.

Definition dec_string : decoder bytes := fun old v =>
  match string_text v with
  | Some body => Ok (unquote body)
  | None => if is_null v then Ok old else Err UnmarshalTypeError
  end.

Definition enc_int : encoder Z := fun n => Ok (Strconv.FormatInt n).
Definition enc_uint : encoder Z := fun n => Ok (Strconv.FormatUint n).

Definition is_number (v : bytes) : bool :=
  match v with c :: _ => isc 0x2D c || Strconv.is_digit c | [] => false end.

Definition dec_int : decoder Z := fun old v =>
  if is_null v then Ok old
  else if is_number v then
    match Strconv.ParseInt v with Ok n => Ok n | _ => Err UnmarshalTypeError end
  else Err UnmarshalTypeError.

(** [strconv.ParseUint(s, 10, 64)] *)
Definition ParseUint (s : bytes) : result Z :=
  if bool_decide (s = []) || negb (forallb Strconv.is_digit s) then Err (Strconv.numError Strconv.ErrSyntax)
  else
    let n := Strconv.digits_value 0 s in
    if 2 ^ 64 - 1 <? n then Err (Strconv.numError Strconv.ErrRange) else Ok n.

Definition dec_uint64 : decoder Z := fun old v =>
  if is_null v then Ok old
  else if is_number v then
    match ParseUint v with Ok n => Ok n | _ => Err UnmarshalTypeError end
  else Err UnmarshalTypeError.

(** A [[]byte] is a string in base 64. *)
Definition enc_bytes : encoder bytes := fun b => enc_string (Base64.EncodeToString b).

(** An array of numbers is accepted as well. *)
Fixpoint dec_uint8s (vs : list bytes) : result bytes :=
  match vs with
  | [] => Ok []
  | v :: vs =>
      let* n := dec_uint64 0 v in
      if 255 <? n then Err UnmarshalTypeError
      else let* rest := dec_uint8s vs in Ok (z2b n :: rest)
  end.

Definition dec_bytes : decoder bytes := fun old v =>
  match string_text v with
  | Some body => Base64.DecodeString (unquote body)
  | None =>
      if is_null v then Ok []
      else match array v with Some vs => dec_uint8s vs | None => Err UnmarshalTypeError end
  end.

Definition enc_ptr {A} (enc : encoder A) : encoder (option A) := fun p =>
  match p with Some a => enc a | None => Ok null end.

(** Null makes a pointer nil; another value is decoded in place, or into a new
    zero value. *)
Definition dec_ptr {A} (zero : A) (dec : decoder A) : decoder (option A) := fun old v =>
  if is_null v then Ok None
  else let* a := dec (default zero old) v in Ok (Some a).

(** ** Marshalers *)

(** The output of a [MarshalJSON] is compacted. *)
Definition enc_marshaler {A} (MarshalJSON : A -> result bytes) : encoder A := fun a =>
  let* b := MarshalJSON a in compaction b.

(** [json.RawMessage]: nil is null. *)
Definition enc_raw : encoder bytes := fun b => if bool_decide (b = []) then Ok null else compaction b.
Definition dec_raw : decoder bytes := fun _ v => Ok v.

(** An [UnmarshalText] is given the contents of a string. *)
Definition dec_text {A} (UnmarshalText : bytes -> result A) : decoder A := fun old v =>
  match string_text v with
  | Some body => UnmarshalText (unquote body)
  | None => if is_null v then Ok old else Err UnmarshalTypeError
  end.

(** ** Structs *)

(** The fields of a struct, with what each one writes. *)
Fixpoint enc_fields (fs : list (bytes * result bytes)) : result (list (bytes * bytes)) :=
  match fs with
  | [] => Ok []
  | (k, r) :: fs => let* v := r in let* rest := enc_fields fs in Ok ((quote_body k, v) :: rest)
  end.

Definition enc_struct (fs : list (bytes * result bytes)) : result bytes :=
  let* kvs := enc_fields fs in Ok (render_object kvs).

Definition upper (b : byte) : byte :=
  if (0x61 <=? b2z b) && (b2z b <=? 0x7A) then z2b (b2z b - 32) else b.

(** [foldName], as far as it matters for names in ASCII: letters in upper case,
    the Kelvin sign as K and the long s as S. *)
Fixpoint foldName (s : bytes) : bytes :=
  match s with
  | [] => []
  | xe2 :: x84 :: xaa :: r => "K"%byte :: foldName r
  | xc5 :: xbf :: r => "S"%byte :: foldName r
  | c :: r => upper c :: foldName r
  end.

Definition field (A : Type) : Type := bytes * (A -> bytes -> result A).

Fixpoint lookup_by {A} (P : bytes -> bool) (fs : list (field A)) : option (A -> bytes -> result A) :=
  match fs with
  | [] => None
  | (k, set) :: fs => if P k then Some set else lookup_by P fs
  end.

(** The field of a key: the one of that name, or one whose name differs in case. *)
Definition find_field {A} (fs : list (field A)) (key : bytes) : option (A -> bytes -> result A) :=
  match lookup_by (fun k => bool_decide (k = key)) fs with
  | Some set => Some set
  | None => lookup_by (fun k => bool_decide (foldName k = foldName key)) fs
  end.

Fixpoint dec_members {A} (fs : list (field A)) (a : A) (ms : list (bytes * bytes)) : result A :=
  match ms with
  | [] => Ok a
  | (k, v) :: ms =>
      match find_field fs (unquote k) with
      | Some set => let* a := set a v in dec_members fs a ms
      | None => dec_members fs a ms
      end
  end.

Definition dec_struct {A} (fs : list (field A)) : decoder A := fun old v =>
  if is_null v then Ok old
  else match object v with
       | Some ms => dec_members fs old ms
       | None => Err UnmarshalTypeError
       end.

(** ** Slices *)

Fixpoint enc_list {A} (enc : encoder A) (l : list A) : result (list bytes) :=
  match l with
  | [] => Ok []
  | a :: l => let* v := enc a in let* vs := enc_list enc l in Ok (v :: vs)
  end.

(** Element by element, into what the slice holds already. *)
Fixpoint dec_elements {A} (zero : A) (dec : decoder A) (old : list A) (vs : list bytes) : result (list A) :=
  match vs with
  | [] => Ok []
  | v :: vs =>
      let* a := dec (default zero (head old)) v in
      let* l := dec_elements zero dec (tail old) vs in Ok (a :: l)
  end.

(** [[]T] without a distinction of nil and empty: written as an array. *)
Definition enc_slice {A} (enc : encoder A) : encoder (list A) := fun l =>
  let* vs := enc_list enc l in Ok (render_array vs).

Definition dec_slice {A} (zero : A) (dec : decoder A) : decoder (list A) := fun old v =>
  if is_null v then Ok []
  else match array v with
       | Some vs => dec_elements zero dec old vs
       | None => Err UnmarshalTypeError
       end.

(** ** [json.Unmarshal] *)

(** A text of one value, handed to a decoder without the white space around it. *)
Definition on_value {A} (f : bytes -> result A) (data : bytes) : result A :=
  match value (fuel data) data with
  | Some rest =>
      if bool_decide (skip_ws rest = []) then f (consumed (skip_ws data) rest)
      else Err SyntaxError
  | None => Err SyntaxError
  end.

Definition Unmarshal_into {A} (dec : decoder A) (zero : A) (data : bytes) : result A := on_value (dec zero) data.

(** [json.NewDecoder(r).Decode]: the first value of a stream; what follows it is
    not looked at. *)
Definition Decode_into {A} (dec : decoder A) (zero : A) (data : bytes) : result A :=
  match value (fuel data) data with
  | Some rest => dec zero (consumed (skip_ws data) rest)
  | None => Err SyntaxError
  end.

End JsonCodec.
