(* ===== verification/JsonCodecFacts.v ===== *)
(** * Round trips of the JSON codecs

    [codes enc dec a v] says that [v] is what is written for [a], that it is a
    compact value, and that decoding it gives [a] whatever was in place.  It is
    proved for each kind of value, and for structs from their fields. *)

From S2P Require Import Prelude Text JsonText JsonScan JsonCompact JsonCodec.
From Corelib Require Import Init.Byte.

Module JsonCodecFacts.
Import JsonText JsonScan JsonScanFacts JsonCompact JsonCodec.

Definition codes {A} (enc : encoder A) (dec : decoder A) (a : A) (v : bytes) : Prop :=
  enc a = Ok v /\ compact_value v /\ forall old, dec old v = Ok a.

Definition codable {A} (enc : encoder A) (dec : decoder A) (a : A) : Prop := exists v, codes enc dec a v.

(** ** Basic values *)

Lemma quote_compact s : compact_value (quote s).
Proof. apply compact_string, sealed_quote. Qed.

Lemma string_text_quote s : string_text (quote s) = Some (quote_body s).
Proof.
  unfold quote. cbn [app string_text]. change (isc 0x22 quote_char) with true. cbn iota.
  change [quote_char] with (quote_char :: []). by rewrite (string_body_inner _ _ (quote_inner s)).
Qed.

Lemma codes_string s : Utf8.Valid s = true -> codes enc_string dec_string s (quote s).
Proof.
  intros Hs. split_and!; [done|apply quote_compact|]. intros old. unfold dec_string.
  by rewrite string_text_quote, unquote_quote_body.
Qed.

Lemma dec_string_valid old v s : Utf8.Valid old = true -> dec_string old v = Ok s -> Utf8.Valid s = true.
Proof.
  intros Ho. unfold dec_string. destruct (string_text v); [intros [= <-]; apply unquote_valid|].
  destruct (is_null v); [by intros [= <-]|done].
Qed.

Lemma canonical_number (neg : bool) ds : canonical ds -> tight ((if neg then bz "-" else []) ++ ds) /\
  is_number ((if neg then bz "-" else []) ++ ds) = true /\ is_null ((if neg then bz "-" else []) ++ ds) = false.
Proof.
  intros Hc. destruct ds as [|c ds]; [done|]. destruct Hc as [Hd _]. split_and!.
  - apply tight_tokens. rewrite forallb_app, (digits_tokens (c :: ds)) by done. by destruct neg.
  - destruct neg; [done|]. cbn in *. apply andb_true_iff in Hd as [-> _]. apply orb_true_r.
  - unfold is_null. rewrite bool_decide_false; [done|]. destruct neg; cbn; [by intros [=]|].
    intros [= -> ->]. done.
Qed.

Lemma codes_number (neg : bool) ds : canonical ds -> compact_value ((if neg then bz "-" else []) ++ ds).
Proof. intros Hc. split; [by apply number_is_value|by apply canonical_number]. Qed.

Lemma codes_int n : in_s 64 n -> codes enc_int dec_int n (Strconv.FormatInt n).
Proof.
  intros Hn. set (neg := n <? 0). set (ds := Strconv.FormatUint (if neg then - n else n)).
  assert (canonical ds) as Hc by (apply FormatUint_canonical; unfold neg; case_match; lia).
  assert (Strconv.FormatInt n = (if neg then bz "-" else []) ++ ds) as E
    by (unfold Strconv.FormatInt, ds, neg; by destruct (n <? 0)).
  destruct (canonical_number neg ds Hc) as (_ & H1 & H2).
  split_and!; [done|rewrite E; by apply codes_number|].
  intros old. unfold dec_int. rewrite E, H1, H2, <- E. by rewrite Strconv.ParseInt_FormatInt.
Qed.

Lemma codes_uint n : in_u 64 n -> codes enc_uint dec_uint64 n (Strconv.FormatUint n).
Proof.
  intros [Hn Hm]. assert (canonical (Strconv.FormatUint n)) as Hc by (by apply FormatUint_canonical).
  destruct (canonical_number false _ Hc) as (_ & H1 & H2). cbn [app] in *.
  split_and!; [done|by apply (codes_number false)|].
  intros old. unfold dec_uint64. rewrite H1, H2. unfold ParseUint.
  destruct (Strconv.FormatUint_spec n Hn) as (Hv & Hd & Hne). rewrite bool_decide_false, Hd, Hv by done.
  cbn [orb negb]. by rewrite (proj2 (Z.ltb_ge _ _)) by lia.
Qed.

Lemma digits_value_nonneg s acc : forallb Strconv.is_digit s = true -> 0 <= acc -> 0 <= Strconv.digits_value acc s.
Proof.
  revert acc. induction s as [|b s IH]; intros acc Hd Ha; [done|]. cbn in Hd. apply andb_true_iff in Hd as [Hb Hd].
  apply IH; [done|]. unfold Strconv.is_digit in Hb. lia.
Qed.

Lemma dec_int_range old v n : in_s 64 old -> dec_int old v = Ok n -> in_s 64 n.
Proof.
  intros Ho. unfold dec_int. destruct (is_null v); [by intros [= <-]|]. destruct (is_number v); [|done].
  destruct (Strconv.ParseInt v) as [m| |] eqn:E; [|done..]. intros [= <-]. unfold Strconv.ParseInt in E.
  unfold in_s. change (2 ^ (64 - 1)) with (Strconv.max_int64 + 1).
  destruct (match v with [] => _ | _ => _ end) as [neg body]. destruct (_ || _) eqn:Eb; [done|].
  apply orb_false_iff in Eb as [_ Hd%negb_false_iff].
  pose proof (digits_value_nonneg body 0 Hd ltac:(done)) as Hpos.
  assert (0 <= Strconv.max_int64) by done.
  destruct neg; cbn in E; repeat case_match; simplify_eq; lia.
Qed.

Lemma dec_uint64_range old v n : in_u 64 old -> dec_uint64 old v = Ok n -> in_u 64 n.
Proof.
  intros Ho. unfold dec_uint64. destruct (is_null v); [by intros [= <-]|]. destruct (is_number v); [|done].
  destruct (ParseUint v) as [m| |] eqn:E; [|done..]. intros [= <-]. unfold ParseUint in E.
  destruct (_ || _) eqn:Eb; [done|]. apply orb_false_iff in Eb as [_ Hd%negb_false_iff].
  pose proof (digits_value_nonneg v 0 Hd ltac:(done)). destruct (_ <? _) eqn:El; [done|]. injection E as <-.
  apply Z.ltb_ge in El. unfold in_u. lia.
Qed.

Lemma base64_valid b : Utf8.Valid (Base64.EncodeToString b) = true.
Proof.
  assert (forall l, Forall (fun c => b2z c < 0x80) l -> Utf8.Valid l = true) as Hv.
  { induction 1 as [|c l Hc _ IH]; [done|]. cbn. by rewrite (proj2 (Z.ltb_lt _ _)). }
  apply Hv. clear Hv.
  assert (forall n, b2z (Base64.char n) < 0x80) as Hc.
  { intros n. unfold Base64.char. destruct (Nat.lt_ge_cases (Z.to_nat n) (length Base64.alphabet)) as [Hn|Hn];
      [|by rewrite nth_overflow].
    assert (Forall (fun c => b2z c < 0x80) Base64.alphabet) as Hf.
    { apply List.Forall_forall. intros x Hx. apply Z.ltb_lt. revert x Hx. apply List.forallb_forall. by vm_compute. }
    exact (proj1 (List.Forall_forall _ _) Hf _ (nth_In _ _ Hn)). }
  induction b as [b IH] using (induction_ltof1 _ length). unfold ltof in IH.
  destruct b as [|x [|y [|z b]]]; cbn; repeat constructor; try apply Hc.
  apply IH. cbn. lia.
Qed.

Lemma codes_bytes b : codes enc_bytes dec_bytes b (quote (Base64.EncodeToString b)).
Proof.
  split_and!; [done|apply quote_compact|]. intros old. unfold dec_bytes.
  by rewrite string_text_quote, unquote_quote_body, Base64.base64_decode_encode by apply base64_valid.
Qed.

Lemma codable_ptr {A} zero (enc : encoder A) dec p :
  (forall a, p = Some a -> exists v, codes enc dec a v /\ is_null v = false) ->
  codable (enc_ptr enc) (dec_ptr zero dec) p.
Proof.
  intros Hp. destruct p as [a|].
  - destruct (Hp a eq_refl) as (v & (E & Hc & Hd) & Hn). exists v. split_and!; [done|done|].
    intros old. unfold dec_ptr. by rewrite Hn, Hd.
  - exists null. split_and!; [done|apply compact_null|done].
Qed.

Lemma quote_not_null s : is_null (quote s) = false.
Proof. by apply bool_decide_eq_false. Qed.

Lemma int_not_null n : is_null (Strconv.FormatInt n) = false.
Proof.
  unfold Strconv.FormatInt. destruct (n <? 0) eqn:E.
  - by apply bool_decide_eq_false.
  - apply Z.ltb_ge in E. by apply (canonical_number false), FormatUint_canonical.
Qed.

Lemma codes_raw b : b <> [] -> compact_value b -> codes enc_raw dec_raw b b.
Proof.
  intros Hne Hc. split_and!; [|done|done]. unfold enc_raw. by rewrite bool_decide_false, compact_fixed.
Qed.

Lemma enc_raw_compact b v : enc_raw b = Ok v -> compact_value v.
Proof.
  unfold enc_raw. case_bool_decide; [intros [= <-]; apply compact_null|apply compaction_compact].
Qed.

(** ** Structs *)

Definition named (kv : bytes * bytes) : bytes * bytes := (quote_body (fst kv), snd kv).

(** Decoding members with the keys they were written for. *)
Fixpoint dec_named {A} (fs : list (field A)) (a : A) (kvs : list (bytes * bytes)) : result A :=
  match kvs with
  | [] => Ok a
  | (k, v) :: kvs =>
      match find_field fs k with
      | Some set => let* a := set a v in dec_named fs a kvs
      | None => dec_named fs a kvs
      end
  end.

Lemma dec_members_named {A} (fs : list (field A)) kvs : forall a,
  Forall (fun kv => Utf8.Valid (fst kv) = true) kvs ->
  dec_members fs a (named <$> kvs) = dec_named fs a kvs.
Proof.
  induction kvs as [|[k v] kvs IH]; intros a Hf; [done|]. inversion Hf; subst.
  change (named <$> (k, v) :: kvs) with ((quote_body k, v) :: (named <$> kvs)). cbn [dec_members dec_named].
  rewrite unquote_quote_body by done. destruct (find_field fs k) as [set|]; [|auto].
  destruct (set a v); cbn; auto.
Qed.

Lemma struct_compact kvs : Forall (fun kv => compact_value (snd kv)) kvs -> compact_value (render_object (named <$> kvs)).
Proof.
  intros Hf. apply compact_object. rewrite Forall_fmap. eapply List.Forall_impl; [|exact Hf].
  intros kv Hv. split; [apply sealed_quote|done].
Qed.

Lemma dec_struct_object {A} (fs : list (field A)) kvs old :
  Forall (fun kv => compact_value (snd kv)) kvs -> Forall (fun kv => Utf8.Valid (fst kv) = true) kvs ->
  dec_struct fs old (render_object (named <$> kvs)) = dec_named fs old kvs.
Proof.
  intros Hc Hk. unfold dec_struct. replace (is_null _) with false by (symmetry; by apply bool_decide_eq_false).
  rewrite object_render; [by apply dec_members_named|]. rewrite Forall_fmap.
  eapply List.Forall_impl; [|exact Hc]. intros kv [Hv _]. split; [apply quote_inner|done].
Qed.

Lemma object_not_null kvs : is_null (render_object kvs) = false.
Proof. by apply bool_decide_eq_false. Qed.

(** A struct whose fields are written as [kvs] and set again from them. *)
Lemma codes_struct {A} (enc : encoder A) (fs : list (field A)) kvs a :
  enc a = Ok (render_object (named <$> kvs)) ->
  Forall (fun kv => compact_value (snd kv)) kvs -> Forall (fun kv => Utf8.Valid (fst kv) = true) kvs ->
  (forall old, dec_named fs old kvs = Ok a) ->
  codes enc (dec_struct fs) a (render_object (named <$> kvs)).
Proof.
  intros He Hc Hk Hd. split_and!; [done|by apply struct_compact|].
  intros old. rewrite dec_struct_object by done. apply Hd.
Qed.

(** ** Slices *)

Lemma codable_slice {A} zero (enc : encoder A) dec l :
  Forall (codable enc dec) l -> codable (enc_slice enc) (dec_slice zero dec) l.
Proof.
  intros Hf. assert (exists vs, enc_list enc l = Ok vs /\ Forall compact_value vs /\
    forall old, dec_elements zero dec old vs = Ok l) as (vs & He & Hc & Hd).
  { induction Hf as [|a l (v & He & Hc & Hd) _ (vs & IHe & IHc & IHd)]; [by exists []|].
    exists (v :: vs). cbn. rewrite He. cbn. rewrite IHe. split_and!; [done|by constructor|].
    intros old. rewrite Hd. cbn. by rewrite IHd. }
  exists (render_array vs). split_and!; [unfold enc_slice; by rewrite He|by apply compact_array|].
  intros old. unfold dec_slice. replace (is_null _) with false by (symmetry; by apply bool_decide_eq_false).
  rewrite array_render; [done|]. eapply List.Forall_impl; [|exact Hc]. by intros v [].
Qed.

(** ** Whole texts *)

Lemma compact_not_nil v : compact_value v -> v <> [].
Proof. intros [[Hs _] _] ->. done. Qed.

Lemma on_value_compact {A} (f : bytes -> result A) v : compact_value v -> on_value f v = f v.
Proof.
  intros [[Hs Hv] _]. unfold on_value.
  assert (value (fuel v) v = Some []) as ->.
  { rewrite <- (app_nil_r v) at 2. apply Hv; [unfold fuel; lia|done]. }
  rewrite bool_decide_true by done. rewrite skip_ws_starts' by done.
  by rewrite <- (app_nil_r v) at 1; rewrite consumed_app.
Qed.

Lemma Unmarshal_value {A} (dec : decoder A) zero v : compact_value v -> Unmarshal_into dec zero v = dec zero v.
Proof. apply on_value_compact. Qed.

Lemma codable_round_trip {A} (enc : encoder A) dec zero a : codable enc dec a ->
  exists b, enc a = Ok b /\ b <> [] /\ Unmarshal_into dec zero b = Ok a.
Proof.
  intros (v & He & Hc & Hd). exists v. split_and!; [done|by apply compact_not_nil|]. by rewrite Unmarshal_value.
Qed.

(** ** Panics *)

Definition safe {A} (r : result A) : Prop := is_panic r = false.

Lemma safe_bind {A B} (r : result A) (f : A -> result B) : safe r -> (forall a, safe (f a)) -> safe (res_bind r f).
Proof. destruct r; cbn; auto. Qed.

Lemma safe_no_panic {A} (r : result A) w : safe r -> r <> Panic w.
Proof. by destruct r. Qed.

Lemma safe_dec_string old v : safe (dec_string old v).
Proof. unfold dec_string. by repeat case_match. Qed.

Lemma safe_dec_int old v : safe (dec_int old v).
Proof. unfold dec_int. by repeat case_match. Qed.

Lemma safe_dec_uint64 old v : safe (dec_uint64 old v).
Proof. unfold dec_uint64. by repeat case_match. Qed.

Lemma safe_compaction b : safe (compaction b).
Proof. unfold compaction. by case_match. Qed.

Lemma safe_enc_raw b : safe (enc_raw b).
Proof. unfold enc_raw. case_bool_decide; [done|apply safe_compaction]. Qed.

Lemma safe_dec_ptr {A} zero (dec : decoder A) old v : (forall old v, safe (dec old v)) -> safe (dec_ptr zero dec old v).
Proof. intros Hd. unfold dec_ptr. destruct (is_null v); [done|]. by apply safe_bind. Qed.

Lemma safe_enc_ptr {A} (enc : encoder A) p : (forall a, safe (enc a)) -> safe (enc_ptr enc p).
Proof. intros He. by destruct p; cbn. Qed.

Definition safe_fields {A} (fs : list (field A)) : Prop := Forall (fun f => forall a v, safe (snd f a v)) fs.

Lemma find_field_safe {A} (fs : list (field A)) k set : safe_fields fs -> find_field fs k = Some set ->
  forall a v, safe (set a v).
Proof.
  assert (forall P, safe_fields fs -> lookup_by P fs = Some set -> forall a v, safe (set a v)) as Hl.
  { intros P Hf. induction Hf as [|[k' s] fs Hs Hf IH]; [done|]. cbn. destruct (P k'); [by intros [= <-]|done]. }
  intros Hf. unfold find_field. destruct (lookup_by _ fs) eqn:E; [|by apply Hl].
  intros [= <-]. by eapply Hl.
Qed.

Lemma safe_dec_struct {A} (fs : list (field A)) old v : safe_fields fs -> safe (dec_struct fs old v).
Proof.
  intros Hf. unfold dec_struct. destruct (is_null v); [done|]. destruct (object v) as [ms|]; [|done].
  revert old. induction ms as [|[k x] ms IH]; intros old; [done|]. cbn.
  destruct (find_field fs (unquote k)) as [set|] eqn:E; [|done].
  apply safe_bind; [by eapply find_field_safe|done].
Qed.

Lemma safe_enc_struct fs : Forall (fun f => safe (snd f)) fs -> safe (enc_struct fs).
Proof.
  intros Hf. apply safe_bind; [|done].
  induction Hf as [|[k r] fs Hr Hf IH]; [done|]. cbn. apply safe_bind; [done|]. intros v. by apply safe_bind.
Qed.

Lemma safe_slices {A} zero (dec : decoder A) old v : (forall old v, safe (dec old v)) -> safe (dec_slice zero dec old v).
Proof.
  intros Hd. unfold dec_slice. destruct (is_null v); [done|]. destruct (array v) as [vs|]; [|done].
  revert old. induction vs as [|x vs IH]; intros old; [done|]. cbn. apply safe_bind; [done|]. intros a. by apply safe_bind.
Qed.

Lemma safe_enc_slice {A} (enc : encoder A) l : (forall a, safe (enc a)) -> safe (enc_slice enc l).
Proof.
  intros He. apply safe_bind; [|done]. induction l as [|a l IH]; [done|]. cbn. apply safe_bind; [done|].
  intros v. by apply safe_bind.
Qed.

Lemma safe_on_value {A} (f : bytes -> result A) data : (forall v, safe (f v)) -> safe (on_value f data).
Proof. intros Hf. unfold on_value. by repeat case_match. Qed.

Lemma safe_Unmarshal {A} (dec : decoder A) zero data : (forall old v, safe (dec old v)) ->
  safe (Unmarshal_into dec zero data).
Proof. intros Hd. by apply safe_on_value. Qed.

(** ** What decoding preserves *)

(** A property of values that every field keeps holds after decoding. *)
Lemma dec_struct_keeps {A} (fs : list (field A)) (P : A -> Prop) old v a :
  Forall (fun f => forall a v a', P a -> snd f a v = Ok a' -> P a') fs ->
  P old -> dec_struct fs old v = Ok a -> P a.
Proof.
  intros Hf Ho. unfold dec_struct. destruct (is_null v); [by intros [= <-]|].
  destruct (object v) as [ms|]; [|done]. revert old Ho.
  assert (forall Q set, lookup_by Q fs = Some set -> forall a v a', P a -> set a v = Ok a' -> P a') as Hl.
  { intros Q set. induction Hf as [|[k' s] fs Hs Hf IH]; [done|]. cbn. destruct (Q k'); [by intros [= <-]|done]. }
  induction ms as [|[k x] ms IH]; intros old Ho; [by intros [= <-]|]. cbn.
  destruct (find_field fs (unquote k)) as [set|] eqn:E; [|by apply IH].
  intros (a' & Ha & Hr)%res_bind_ok. apply (IH a'); [|done]. unfold find_field in E.
  destruct (lookup_by (fun k0 => bool_decide (k0 = unquote k)) fs) eqn:E'.
  - injection E as ->. exact (Hl _ _ E' _ _ _ Ho Ha).
  - exact (Hl _ _ E _ _ _ Ho Ha).
Qed.

Lemma Unmarshal_keeps {A} (dec : decoder A) (P : A -> Prop) zero data a :
  (forall old v a, P old -> dec old v = Ok a -> P a) -> P zero -> Unmarshal_into dec zero data = Ok a -> P a.
Proof. intros Hd Hz. unfold Unmarshal_into, on_value. repeat case_match; try done. by apply Hd. Qed.

End JsonCodecFacts.
