(* ===== verification/TimeText.v ===== *)
(** * Dates of the search form

    Models [time.Parse] of the Go library for the one layout the program uses,
    [utils.HtmlDateTimeFormat] = "2006-01-02T15:04": the fields, their ranges,
    and the instant in UTC.  The hour may have one digit, as in Go.  The second part models
    times in RFC 3339, as JSON and XML have them, with what is written being read
    back. *)

From S2P Require Import Prelude Types Text.
From Corelib Require Import Init.Byte.

Module DateTime.
Import Strconv.

(** ** The calendar *)

Definition is_leap (year : Z) : bool :=
  (year mod 4 =? 0) && (negb (year mod 100 =? 0) || (year mod 400 =? 0)).

Definition daysIn (month year : Z) : Z :=
  if (month =? 2) && is_leap year then 29
  else if month =? 2 then 28
  else if (month =? 4) || (month =? 6) || (month =? 9) || (month =? 11) then 30
  else 31.

(** Days before a year and before a month of it, from the year 0. *)
Definition days_before_year (year : Z) : Z :=
  let y := year - 1 in 365 * year + (y / 4 - y / 100 + y / 400 + 1).

Fixpoint days_before_month (n : nat) (month year : Z) : Z :=
  match n with
  | O => 0
  | S n => daysIn month year + days_before_month n (month + 1) year
  end.

Definition days_from_epoch (year month day : Z) : Z :=
  days_before_year year + days_before_month (Z.to_nat (month - 1)) 1 year + (day - 1) -
  days_before_year 1970.

Definition minute : Z := 60 * 10 ^ 9.

Definition Date (year month day hour min : Z) : time :=
  mkTime (((days_from_epoch year month day * 24 + hour) * 60 + min) * minute) 0.

(** ** Parsing *)

Definition ParseError : error := NewError (bz "parsing time").

(** [getnum]: one or two digits, two when [fixed]. *)
Definition getnum (s : bytes) (fixed : bool) : result (Z * bytes) :=
  match s with
  | a :: r =>
      if negb (is_digit a) then Err ParseError
      else match r with
           | b :: r' =>
               if is_digit b then Ok (10 * (b2z a - 48) + (b2z b - 48), r')
               else if fixed then Err ParseError else Ok (b2z a - 48, r)
           | [] => if fixed then Err ParseError else Ok (b2z a - 48, r)
           end
  | [] => Err ParseError
  end.

(** Four digits. *)
Definition getyear (s : bytes) : result (Z * bytes) :=
  if (length s <? 4)%nat || negb (forallb is_digit (take 4 s)) then Err ParseError
  else Ok (digits_value 0 (take 4 s), drop 4 s).

(** A character of the layout. *)
Definition skip (c : byte) (s : bytes) : result bytes :=
  match s with
  | b :: r => if bool_decide (b = c) then Ok r else Err ParseError
  | [] => Err ParseError
  end.

Definition in_range (lo n hi : Z) : result unit :=
  if (n <? lo) || (hi <? n) then Err ParseError else Ok tt.

Definition Parse (value : bytes) : result time :=
  let* (year, s) := getyear value in
  let* s := skip "-"%byte s in
  let* (month, s) := getnum s true in
  let* _ := in_range 1 month 12 in
  let* s := skip "-"%byte s in
  let* (day, s) := getnum s true in
  let* s := skip "T"%byte s in
  let* (hour, s) := getnum s false in
  let* _ := in_range 0 hour 23 in
  let* s := skip ":"%byte s in
  let* (min, s) := getnum s true in
  let* _ := in_range 0 min 59 in
  if negb (bool_decide (s = [])) then Err ParseError
  else
    let* _ := in_range 1 day (daysIn month year) in
    Ok (Date year month day hour min).

(** ** Properties *)

Example parse_epoch : Parse (bz "1970-01-01T00:00") = Ok (mkTime 0 0).
Proof. reflexivity. Qed.
Example parse_leap : Parse (bz "2024-02-29T9:30") = Ok (mkTime (1709199000 * 10 ^ 9) 0).
Proof. reflexivity. Qed.
Example parse_no_leap : Parse (bz "2023-02-29T09:30") = Err ParseError.
Proof. reflexivity. Qed.
Example parse_seconds : Parse (bz "2023-02-28T09:30:00") = Err ParseError.
Proof. reflexivity. Qed.

(** A parsed time is a whole minute in UTC. *)
Lemma Parse_minute s t : Parse s = Ok t -> exists n, instant t = n * minute /\ offset t = 0.
Proof.
  unfold Parse. intros E. repeat (apply res_bind_ok in E as ([? ?] & _ & E) || apply res_bind_ok in E as (? & _ & E)).
  case_match; [done|]. apply res_bind_ok in E as (? & _ & [= <-]). unfold Date. by eexists.
Qed.

Lemma Parse_no_panic s w : Parse s <> Panic w.
Proof.
  unfold Parse, getyear, getnum, skip, in_range. repeat (case_match; cbn [res_bind]; try done).
Qed.

End DateTime.

(** * Times in RFC 3339

    Models how [time.Time] is written and read in JSON: the calendar date of
    an instant ([absDate]), [appendStrictRFC3339] with nanoseconds, and the
    lenient parser behind [UnmarshalJSON], and proves that what is written is
    read back. *)

Module TimeText.
Import Strconv DateTime.

Definition second : Z := 10 ^ 9.

(** ** The calendar date of a day *)

(** The year of a day counted from the first of January of the year 1, and the
    day in the year from 0: cycles of 400, 100, 4 and 1 years. *)
Definition year_of (d : Z) : Z * Z :=
  let n400 := d / 146097 in let d := d mod 146097 in
  let n100 := d / 36524 in let n100 := n100 - n100 / 4 in let d := d - 36524 * n100 in
  let n4 := d / 1461 in let d := d - 1461 * n4 in
  let n1 := d / 365 in let n1 := n1 - n1 / 4 in let d := d - 365 * n1 in
  (1 + 400 * n400 + 100 * n100 + 4 * n4 + n1, d).

(** Days before each month of a year that is not a leap year. *)
Definition daysBefore : list Z := [0; 31; 59; 90; 120; 151; 181; 212; 243; 273; 304; 334; 365].

Definition month_day (leap : bool) (yday : Z) : Z * Z :=
  if leap && (yday =? 59) then (2, 29)
  else
    let day := if leap && (59 <? yday) then yday - 1 else yday in
    let month := day / 31 in
    let end_ := nth (Z.to_nat (month + 1)) daysBefore 0 in
    if end_ <=? day then (month + 2, day - end_ + 1)
    else (month + 1, day - nth (Z.to_nat month) daysBefore 0 + 1).

(** Days from the first of January of the year 1 to the epoch. *)
Definition unixDays : Z := 719162.

Definition civil (days : Z) : Z * Z * Z :=
  let '(year, yday) := year_of (days + unixDays) in
  let '(month, day) := month_day (is_leap year) yday in
  (year, month, day).

(** ** Writing *)

(** [appendInt] with a width. *)
Fixpoint pad (w : nat) (n : Z) : bytes :=
  match w with
  | O => []
  | S w => pad w (n / 10) ++ [digit_char (n mod 10)]
  end.

Fixpoint trim_zeros (s : bytes) : bytes :=
  match s with
  | [] => []
  | c :: r => match trim_zeros r with [] => if bool_decide (c = "0"%byte) then [] else [c] | t => c :: t end
  end.

Definition format_fraction (ns : Z) : bytes :=
  if ns =? 0 then [] else bz "." ++ trim_zeros (pad 9 ns).

Definition format_zone (offset : Z) : bytes :=
  if offset =? 0 then bz "Z"
  else
    let zone := Z.abs offset / 60 in
    (if offset <? 0 then bz "-" else bz "+") ++ pad 2 (zone / 60) ++ bz ":" ++ pad 2 (zone mod 60).

Definition local_seconds (t : time) : Z := instant t / second + offset t.

Definition ErrYear : error := NewError (bz "Time.MarshalJSON: year outside of range [0,9999]").
Definition ErrZone : error := NewError (bz "Time.MarshalJSON: timezone hour outside of range [0,23]").

Definition format_time (t : time) : bytes :=
  let s := local_seconds t in
  let '(year, month, day) := civil (s / 86400) in
  let s := s mod 86400 in
  pad 4 year ++ bz "-" ++ pad 2 month ++ bz "-" ++ pad 2 day ++ bz "T" ++
  pad 2 (s / 3600) ++ bz ":" ++ pad 2 (s / 60 mod 60) ++ bz ":" ++ pad 2 (s mod 60) ++
  format_fraction (instant t mod second) ++ format_zone (offset t).

(** [appendStrictRFC3339]. *)
Definition AppendStrict (t : time) : result bytes :=
  let '(year, _, _) := civil (local_seconds t / 86400) in
  if (year <? 0) || (9999 <? year) then Err ErrYear
  else if 24 <=? Z.abs (offset t) / 3600 then Err ErrZone
  else Ok (format_time t).

Definition MarshalJSON (t : time) : result bytes :=
  let* b := AppendStrict t in Ok ([x22] ++ b ++ [x22]).

(** ** Reading *)

Fixpoint span_digits (s : bytes) : bytes * bytes :=
  match s with
  | c :: r => if is_digit c then let '(ds, rest) := span_digits r in (c :: ds, rest) else ([], s)
  | [] => ([], [])
  end.

(** [parseNanoseconds] of a fraction with the digits [ds]. *)
Definition nanoseconds (ds : bytes) : Z :=
  let ds := take 9 ds in digits_value 0 ds * 10 ^ (9 - zlen ds).

Definition fraction (s : bytes) : Z * bytes :=
  match s with
  | p :: c :: _ =>
      if ((b2z p =? 0x2E) || (b2z p =? 0x2C)) && is_digit c then
        let '(ds, rest) := span_digits (drop 1 s) in (nanoseconds ds, rest)
      else (0, s)
  | _ => (0, s)
  end.

Definition zone (s : bytes) : result (Z * bytes) :=
  match s with
  | c :: r =>
      if b2z c =? 0x5A then Ok (0, r)
      else if (length s <? 6)%nat then Err ParseError
      else
        let* (hr, r) := getnum r true in
        let* r := skip ":"%byte r in
        let* (mm, r) := getnum r true in
        if (24 <? hr) || (60 <? mm) then Err ParseError
        else if b2z c =? 0x2B then Ok ((hr * 60 + mm) * 60, r)
        else if b2z c =? 0x2D then Ok (- ((hr * 60 + mm) * 60), r)
        else Err ParseError
  | [] => Err ParseError
  end.

Definition ParseRFC3339 (value : bytes) : result time :=
  let* (year, s) := getyear value in
  let* s := skip "-"%byte s in
  let* (month, s) := getnum s true in
  let* _ := in_range 1 month 12 in
  let* s := skip "-"%byte s in
  let* (day, s) := getnum s true in
  let* s := skip "T"%byte s in
  let* (hour, s) := getnum s false in
  let* _ := in_range 0 hour 23 in
  let* s := skip ":"%byte s in
  let* (min, s) := getnum s true in
  let* _ := in_range 0 min 59 in
  let* s := skip ":"%byte s in
  let* (sec, s) := getnum s true in
  let* _ := in_range 0 sec 59 in
  let '(ns, s) := fraction s in
  let* (off, s) := zone s in
  if negb (bool_decide (s = [])) then Err ParseError
  else
    let* _ := in_range 1 day (daysIn month year) in
    Ok (mkTime ((days_from_epoch year month day * 86400 + hour * 3600 + min * 60 + sec - off) * second + ns) off).

(** [UnmarshalJSON] works on the text of the literal, escapes included. *)
Definition UnmarshalJSON (old : time) (data : bytes) : result time :=
  if bool_decide (data = bz "null") then Ok old
  else if (length data <? 2)%nat || negb (bool_decide (head data = Some x22)) || negb (bool_decide (nth (length data - 1) data x00 = x22))
  then Err (NewError (bz "Time.UnmarshalJSON: input is not a JSON string"))
  else ParseRFC3339 (take (length data - 2) (drop 1 data)).

Example format_epoch : format_time (mkTime 0 0) = bz "1970-01-01T00:00:00Z".
Proof. reflexivity. Qed.
Example format_offset :
  format_time (mkTime (1709199000 * 10 ^ 9 + 120000000) 19800) = bz "2024-02-29T15:00:00.12+05:30".
Proof. reflexivity. Qed.
Example parse_offset :
  ParseRFC3339 (bz "2024-02-29T15:00:00.12+05:30") = Ok (mkTime (1709199000 * 10 ^ 9 + 120000000) 19800).
Proof. reflexivity. Qed.
Example format_year_zero : format_time (mkTime (-62167219200 * 10 ^ 9) 0) = bz "0000-01-01T00:00:00Z".
Proof. reflexivity. Qed.
(** An offset of a whole day is read, but cannot be written. *)
Example day_offset : ParseRFC3339 (bz "2024-02-29T15:00:00+24:00") = Ok (mkTime (1709132400 * 10 ^ 9) 86400) /\
  AppendStrict (mkTime (1709132400 * 10 ^ 9) 86400) = Err ErrZone.
Proof. split; reflexivity. Qed.

End TimeText.

(** * Times in RFC 3339: what is written is read back *)

Module TimeTextFacts.
Import Strconv DateTime TimeText.

(** ** The calendar *)

(** The cycles of a day: centuries, groups of four years, years, and the day. *)
Lemma cycles d : 0 <= d < 146097 ->
  let b := d / 36524 - d / 36524 / 4 in let d1 := d - 36524 * b in
  let c := d1 / 1461 in let d2 := d1 - 1461 * c in
  let e := d2 / 365 - d2 / 365 / 4 in let k := d2 - 365 * e in
  0 <= b <= 3 /\ 0 <= c <= 24 /\ 0 <= e <= 3 /\ 0 <= k <= 365 /\
  (k = 365 -> e = 3 /\ (c <> 24 \/ b = 3)).
Proof. cbv zeta. intros Hd. Z.div_mod_to_equations. lia. Qed.

Lemma leap_cycle a b c e : 0 <= b <= 3 -> 0 <= c <= 24 -> 0 <= e <= 3 ->
  is_leap (1 + 400 * a + 100 * b + 4 * c + e) = true <-> e = 3 /\ (c <> 24 \/ b = 3).
Proof.
  intros Hb Hc He. unfold is_leap. rewrite andb_true_iff, orb_true_iff, negb_true_iff, !Z.eqb_eq, Z.eqb_neq.
  Z.div_mod_to_equations. lia.
Qed.

Lemma before_cycle a b c e : 0 <= b <= 3 -> 0 <= c <= 24 -> 0 <= e <= 3 ->
  days_before_year (1 + 400 * a + 100 * b + 4 * c + e) = 366 + 146097 * a + 36524 * b + 1461 * c + 365 * e.
Proof. intros Hb Hc He. unfold days_before_year. Z.div_mod_to_equations. lia. Qed.

Lemma year_of_spec d : let '(y, k) := year_of d in
  days_before_year y + k = d + 366 /\ 0 <= k < 365 + (if is_leap y then 1 else 0).
Proof.
  unfold year_of. pose proof (Z.mod_pos_bound d 146097 eq_refl) as Hr.
  pose proof (Z.div_mod d 146097 ltac:(done)) as Hd. pose proof (cycles _ Hr) as Hc. cbv zeta in *.
  set (r := d mod 146097) in *. set (b := r / 36524 - r / 36524 / 4) in *. set (d1 := r - 36524 * b) in *.
  set (c := d1 / 1461) in *. set (d2 := d1 - 1461 * c) in *. set (e := d2 / 365 - d2 / 365 / 4) in *.
  destruct Hc as (Hb & Hcc & He & Hk & Hl). rewrite before_cycle by done.
  pose proof (leap_cycle (d / 146097) b c e Hb Hcc He) as Hleap. split; [unfold d2, d1; lia|].
  destruct (is_leap _).
  - lia.
  - assert (d2 - 365 * e <> 365); [|lia]. intros Hx. apply Hl in Hx. by apply Hleap in Hx.
Qed.

(** The days of a year, by inspection. *)
Definition month_day_ok (leap : bool) (k : Z) : bool :=
  let '(m, d) := month_day leap k in
  let y := if leap then 4 else 1 in
  (1 <=? m) && (m <=? 12) && (1 <=? d) && (d <=? daysIn m y) &&
  (days_before_month (Z.to_nat (m - 1)) 1 y + (d - 1) =? k).

Lemma month_days (leap : bool) k : 0 <= k < 365 + (if leap then 1 else 0) -> month_day_ok leap k = true.
Proof.
  intros Hk. assert (List.In k (seqZ 0 (365 + (if leap then 1 else 0)))) as Hin by (apply list_elem_of_In, elem_of_seqZ; lia).
  revert k Hin Hk. destruct leap;
    (intros k Hin _; revert k Hin; apply List.forallb_forall; vm_compute; reflexivity).
Qed.

Lemma daysIn_leap m y y' : is_leap y = is_leap y' -> daysIn m y = daysIn m y'.
Proof. intros E. unfold daysIn. by rewrite E. Qed.

Lemma before_month_leap n : forall m y y', is_leap y = is_leap y' ->
  days_before_month n m y = days_before_month n m y'.
Proof. induction n as [|n IH]; intros m y y' E; [done|]. cbn. by rewrite (daysIn_leap m y y' E), (IH _ y y' E). Qed.

(** The date of a day is a date, and its day is that day. *)
Lemma civil_spec days : let '(y, m, d) := civil days in
  days_from_epoch y m d = days /\ 1 <= m <= 12 /\ 1 <= d <= daysIn m y.
Proof.
  unfold civil. pose proof (year_of_spec (days + unixDays)) as Hy. destruct (year_of (days + unixDays)) as [y k].
  destruct Hy as [Hy Hk]. pose proof (month_days _ _ Hk) as Hm. unfold month_day_ok in Hm.
  destruct (month_day (is_leap y) k) as [m d].
  assert (is_leap (if is_leap y then 4 else 1) = is_leap y) as El by (by destruct (is_leap y)).
  rewrite (daysIn_leap m _ y El), (before_month_leap _ 1 _ y El) in Hm.
  unfold days_from_epoch. change (days_before_year 1970) with (unixDays + 366). lia.
Qed.

(** Years 0 to 9999. *)
Lemma before_year_mono y y' : y <= y' -> days_before_year y <= days_before_year y'.
Proof. intros H. unfold days_before_year. Z.div_mod_to_equations. lia. Qed.

Lemma civil_year days : let '(y, _, _) := civil days in
  0 <= y <= 9999 <-> -719528 <= days < 2932897.
Proof.
  unfold civil. pose proof (year_of_spec (days + unixDays)) as Hy. destruct (year_of (days + unixDays)) as [y k].
  destruct Hy as [Hy Hk]. destruct (month_day (is_leap y) k) as [m d]. unfold unixDays in Hy.
  assert (days_before_year (y + 1) = days_before_year y + 365 + (if is_leap y then 1 else 0)) as Hn.
  { clear. destruct (is_leap y) eqn:E; unfold is_leap in E; unfold days_before_year; Z.div_mod_to_equations; lia. }
  change (-719528 <= days < 2932897) with (- (days_before_year 1970) <= days < days_before_year 10000 - days_before_year 1970).
  change (days_before_year 1970) with 719528 in *. change (days_before_year 10000) with 3652425.
  split.
  - intros [H0 H1]. pose proof (before_year_mono 0 y H0) as Ha. pose proof (before_year_mono (y + 1) 10000 ltac:(lia)) as Hb.
    change (days_before_year 0) with 0 in Ha. change (days_before_year 10000) with 3652425 in Hb. lia.
  - intros [H0 H1]. split.
    + destruct (Z.le_gt_cases 0 y) as [|Hlt]; [done|]. pose proof (before_year_mono (y + 1) 0 ltac:(lia)) as Ha.
      change (days_before_year 0) with 0 in Ha. lia.
    + destruct (Z.le_gt_cases y 9999) as [|Hgt]; [done|]. pose proof (before_year_mono 10000 y ltac:(lia)) as Ha.
      change (days_before_year 10000) with 3652425 in Ha. lia.
Qed.

(** ** Digits *)

Lemma pad_spec w : forall n, 0 <= n < 10 ^ Z.of_nat w ->
  digits_value 0 (pad w n) = n /\ forallb is_digit (pad w n) = true /\ length (pad w n) = w.
Proof.
  induction w as [|w IH]; intros n Hn; [cbn in *; split_and!; [lia|done|done]|].
  rewrite Nat2Z.inj_succ, Z.pow_succ_r in Hn by lia. cbn [pad].
  pose proof (Z.mod_pos_bound n 10 eq_refl). pose proof (Z.div_mod n 10 ltac:(done)).
  destruct (IH (n / 10)) as (Hv & Hd & Hl).
  { split; [apply Z.div_pos; lia|apply Z.div_lt_upper_bound; lia]. }
  rewrite digits_value_app, forallb_app, length_app, Hv, Hd, Hl.
  cbn [digits_value fold_left forallb length]. rewrite digit_char_b2z, is_digit_char by lia. split_and!; [lia|done|lia].
Qed.

Lemma getnum_pad n b r : 0 <= n < 100 -> getnum (pad 2 n ++ r) b = Ok (n, r).
Proof.
  intros Hn. cbn [pad app getnum]. pose proof (Z.mod_pos_bound n 10 eq_refl).
  pose proof (Z.mod_pos_bound (n / 10) 10 eq_refl). rewrite !is_digit_char, !digit_char_b2z by lia. cbn [negb].
  f_equal. f_equal. Z.div_mod_to_equations. lia.
Qed.

Lemma getyear_pad n r : 0 <= n <= 9999 -> getyear (pad 4 n ++ r) = Ok (n, r).
Proof.
  intros Hn. destruct (pad_spec 4 n) as (Hv & Hd & Hl); [cbn; lia|]. unfold getyear.
  rewrite take_app_length', drop_app_length', Hd, Hv by done.
  rewrite (proj2 (Nat.ltb_ge _ _)); [done|]. rewrite length_app. lia.
Qed.

Lemma skip_here c r : skip c (c :: r) = Ok r.
Proof. unfold skip. by rewrite bool_decide_true. Qed.

Lemma in_range_ok lo n hi : lo <= n <= hi -> in_range lo n hi = Ok tt.
Proof. intros H. unfold in_range. replace (_ || _) with false by lia. done. Qed.

(** ** Fractions *)

Lemma trim_zeros_spec s : exists k, s = trim_zeros s ++ replicate k "0"%byte.
Proof.
  induction s as [|c s (k & IH)]; [by exists 0%nat|]. cbn [trim_zeros]. destruct (trim_zeros s) as [|x t].
  - case_bool_decide as E.
    + exists (S k). cbn in *. by rewrite E, <- IH.
    + exists k. cbn in *. by rewrite <- IH.
  - exists k. cbn in *. by rewrite <- IH.
Qed.

Lemma digits_value_zeros k acc : digits_value acc (replicate k "0"%byte) = acc * 10 ^ Z.of_nat k.
Proof.
  revert acc. induction k as [|k IH]; intros acc; [cbn; lia|]. unfold digits_value in *. cbn [replicate fold_left].
  rewrite IH, Nat2Z.inj_succ, Z.pow_succ_r by lia. change (b2z "0"%byte) with 48. lia.
Qed.

Lemma nanoseconds_trim ns : 0 <= ns < second -> nanoseconds (trim_zeros (pad 9 ns)) = ns /\
  forallb is_digit (trim_zeros (pad 9 ns)) = true /\ (ns <> 0 -> trim_zeros (pad 9 ns) <> []).
Proof.
  intros Hn. destruct (pad_spec 9 ns Hn) as (Hv & Hd & Hl). destruct (trim_zeros_spec (pad 9 ns)) as (k & E).
  set (t := trim_zeros (pad 9 ns)) in *. rewrite E in Hv, Hd, Hl. rewrite length_app, length_replicate in Hl.
  rewrite forallb_app in Hd. apply andb_true_iff in Hd as [Hd _].
  rewrite digits_value_app, digits_value_zeros in Hv. split_and!; [|done|].
  - unfold nanoseconds. rewrite take_ge by lia. unfold zlen. replace (9 - Z.of_nat (length t)) with (Z.of_nat k) by lia.
    done.
  - intros Hne Ht. rewrite Ht in Hv. cbn in Hv. lia.
Qed.

Definition stops (r : bytes) : Prop :=
  match r with c :: _ => is_digit c = false /\ b2z c <> 0x2E /\ b2z c <> 0x2C | [] => True end.

Lemma span_digits_stop ds r : forallb is_digit ds = true -> stops r -> span_digits (ds ++ r) = (ds, r).
Proof.
  intros Hd Hr. induction ds as [|c ds IH]; cbn in *.
  - destruct r as [|c r]; [done|]. cbn. by destruct Hr as [-> _].
  - apply andb_true_iff in Hd as [-> Hd]. by rewrite IH.
Qed.

Lemma fraction_format ns r : 0 <= ns < second -> stops r -> fraction (format_fraction ns ++ r) = (ns, r).
Proof.
  intros Hn Hr. unfold format_fraction. destruct (ns =? 0) eqn:E.
  - apply Z.eqb_eq in E as ->. cbn [app]. destruct r as [|c [|d r]]; [done..|]. cbn. destruct Hr as (_ & H1 & H2).
    by rewrite (proj2 (Z.eqb_neq _ _) H1), (proj2 (Z.eqb_neq _ _) H2).
  - apply Z.eqb_neq in E. destruct (nanoseconds_trim ns Hn) as (Hv & Hd & Hne). specialize (Hne E).
    destruct (trim_zeros (pad 9 ns)) as [|c ds] eqn:Et; [done|]. rewrite <- app_assoc.
    change (bz "." ++ (c :: ds) ++ r) with ("."%byte :: c :: ds ++ r). cbn [fraction drop].
    assert (is_digit c = true) as -> by (cbn in Hd; by apply andb_true_iff in Hd as [? _]).
    change (((b2z "."%byte =? 0x2E) || (b2z "."%byte =? 0x2C)) && true) with true. cbn iota.
    change (c :: ds ++ r) with ((c :: ds) ++ r). rewrite span_digits_stop by done. by rewrite Hv.
Qed.

(** ** Zones *)

Definition zone_ok (off : Z) : Prop := off mod 60 = 0 /\ - 86400 < off < 86400.

Lemma zone_format off : zone_ok off -> zone (format_zone off) = Ok (off, []).
Proof.
  intros [Hm Hb]. unfold format_zone. destruct (off =? 0) eqn:E; [by apply Z.eqb_eq in E as ->|].
  apply Z.eqb_neq in E. set (z := Z.abs off / 60).
  assert (0 <= z < 1440 /\ (off <? 0 = true -> off = - (z * 60)) /\ (off <? 0 = false -> off = z * 60)) as (Hz & Hn & Hp).
  { unfold z. Z.div_mod_to_equations. lia. }
  assert (0 <= z / 60 < 24 /\ 0 <= z mod 60 < 60 /\ (z / 60 * 60 + z mod 60) * 60 = z * 60) as (H1 & H2 & H3).
  { Z.div_mod_to_equations. lia. }
  assert (forall c, b2z c = 0x2B \/ b2z c = 0x2D ->
    zone (c :: pad 2 (z / 60) ++ ":"%byte :: pad 2 (z mod 60)) =
      if b2z c =? 0x2B then Ok (z * 60, []) else Ok (- (z * 60), [])) as Hzone.
  { intros c Hc. unfold zone. rewrite (proj2 (Z.eqb_neq (b2z c) _)) by lia.
    change (length (c :: pad 2 (z / 60) ++ ":"%byte :: pad 2 (z mod 60)) <? 6)%nat with false. cbn iota.
    rewrite getnum_pad by lia. cbn [res_bind]. rewrite skip_here. cbn [res_bind].
    rewrite <- (app_nil_r (pad 2 (z mod 60))), getnum_pad by lia. cbn [res_bind].
    replace (_ || _) with false by lia. rewrite H3. destruct (b2z c =? 0x2B) eqn:Ec; [done|].
    by rewrite (proj2 (Z.eqb_eq _ _)) by lia. }
  destruct (off <? 0).
  - rewrite Hn by done. exact (Hzone "-"%byte (or_intror eq_refl)).
  - rewrite Hp by done. exact (Hzone "+"%byte (or_introl eq_refl)).
Qed.

Lemma format_zone_stops off : stops (format_zone off).
Proof. unfold format_zone. by repeat case_match. Qed.

(** ** Times *)

Lemma skip_mark (c : byte) b r : b = [c] -> skip c (b ++ r) = Ok r.
Proof. intros ->. apply skip_here. Qed.

Ltac parse_step :=
  first [rewrite getnum_pad by lia | rewrite in_range_ok by lia | rewrite skip_mark by reflexivity]; cbn [res_bind].


(** Years 0 to 9999, and an offset that can be written. *)
Definition printable (t : time) : Prop :=
  -719528 <= local_seconds t / 86400 < 2932897 /\ zone_ok (offset t).

Lemma parse_format t : printable t -> ParseRFC3339 (format_time t) = Ok t.
Proof.
  intros [Hy Hz]. unfold format_time. set (s := local_seconds t) in *.
  pose proof (civil_spec (s / 86400)) as Hc. pose proof (civil_year (s / 86400)) as Hcy.
  destruct (civil (s / 86400)) as [[y m] d]. destruct Hc as (Hdays & Hm & Hd). apply Hcy in Hy.
  pose proof (Z.mod_pos_bound s 86400 eq_refl) as Hs. pose proof (Z.div_mod s 86400 ltac:(done)) as Hsd.
  set (r := s mod 86400) in *.
  assert (0 <= r / 3600 <= 23 /\ 0 <= r / 60 mod 60 <= 59 /\ 0 <= r mod 60 <= 59 /\
    r / 3600 * 3600 + r / 60 mod 60 * 60 + r mod 60 = r) as (H1 & H2 & H3 & H4).
  { Z.div_mod_to_equations. lia. }
  assert (daysIn m y <= 31) as H31 by (unfold daysIn; repeat case_match; lia).
  unfold ParseRFC3339. rewrite getyear_pad by lia. cbn [res_bind]. repeat parse_step.
  rewrite fraction_format by (apply format_zone_stops || (apply Z.mod_pos_bound; done)).
  rewrite zone_format by done. cbn [res_bind]. rewrite bool_decide_true by done. cbn [negb].
  cbn [res_bind]. f_equal. destruct t as [i o]. cbn in *. f_equal.
  rewrite Hdays. pose proof (Z.div_mod i second ltac:(done)). unfold s, local_seconds in *. cbn in *. lia.
Qed.

(** What is written is within the bounds. *)
Lemma AppendStrict_inv t b : AppendStrict t = Ok b ->
  b = format_time t /\ -719528 <= local_seconds t / 86400 < 2932897 /\ - 86400 < offset t < 86400.
Proof.
  unfold AppendStrict. pose proof (civil_year (local_seconds t / 86400)) as Hy.
  destruct (civil _) as [[y m] d]. destruct (_ || _) eqn:E1; [done|]. destruct (24 <=? _) eqn:E2; [done|].
  intros [= <-]. split; [done|]. split; [apply Hy; lia|]. apply Z.leb_gt in E2. Z.div_mod_to_equations. lia.
Qed.

Lemma AppendStrict_ok t : printable t -> AppendStrict t = Ok (format_time t).
Proof.
  intros [Hy [_ Hz]]. unfold AppendStrict. pose proof (civil_year (local_seconds t / 86400)) as Hc.
  destruct (civil _) as [[y m] d]. apply Hc in Hy. replace (_ || _) with false by lia.
  replace (24 <=? _) with false; [done|]. symmetry. apply Z.leb_gt. apply Z.div_lt_upper_bound; lia.
Qed.

(** The offsets that are read are whole minutes. *)
Lemma zone_minutes s off r : zone s = Ok (off, r) -> off mod 60 = 0.
Proof.
  unfold zone. destruct s as [|c s]; [done|]. destruct (b2z c =? 0x5A); [by intros [= <- _]|].
  destruct (_ <? 6)%nat; [done|]. intros ([hr r1] & _ & E)%res_bind_ok. apply res_bind_ok in E as (r2 & _ & E).
  apply res_bind_ok in E as ([mm r3] & _ & E). destruct (_ || _); [done|].
  assert (forall x, x * 60 mod 60 = 0) as Hm by (intros; apply Z_mod_mult).
  destruct (b2z c =? 0x2B); [by injection E as <- _|]. destruct (b2z c =? 0x2D); [|done].
  injection E as <- _. rewrite <- Z.mul_opp_l. apply Hm.
Qed.

Lemma parse_minutes s t : ParseRFC3339 s = Ok t -> offset t mod 60 = 0.
Proof.
  unfold ParseRFC3339. intros E.
  do 15 (apply res_bind_ok in E as ([? ?] & _ & E) || apply res_bind_ok in E as (? & _ & E)).
  destruct (fraction _) as [ns s']. apply res_bind_ok in E as ([off r] & Hz & E). destruct (negb _); [done|].
  apply res_bind_ok in E as (? & _ & [= <-]). by apply zone_minutes in Hz.
Qed.

(** ** Characters *)

Definition time_char (c : byte) : bool :=
  is_digit c || existsb (fun b => bool_decide (c = b)) (bz "-T:.+Z").

Lemma pad_chars w n : forallb time_char (pad w n) = true.
Proof.
  revert n. induction w as [|w IH]; intros n; [done|]. cbn [pad]. rewrite forallb_app, IH. cbn.
  pose proof (Z.mod_pos_bound n 10 eq_refl). unfold time_char. by rewrite is_digit_char.
Qed.

Lemma format_chars t : forallb time_char (format_time t) = true.
Proof.
  unfold format_time. destruct (civil _) as [[y m] d]. rewrite !forallb_app, !pad_chars.
  assert (forallb time_char (format_fraction (instant t mod second)) = true) as ->.
  { unfold format_fraction. destruct (_ =? 0); [done|]. rewrite forallb_app.
    pose proof (pad_chars 9 (instant t mod second)) as Hp. destruct (trim_zeros_spec (pad 9 (instant t mod second))) as (k & E).
    rewrite E, forallb_app in Hp. apply andb_true_iff in Hp as [-> _]. done. }
  unfold format_zone. destruct (_ =? 0); [done|]. rewrite !forallb_app, !pad_chars. by destruct (_ <? 0).
Qed.

End TimeTextFacts.
