(* ===== verification/Policy.v ===== *)
(** * Retention policies

    Models [common/pkg/types/offchain/retentionpolicies.go]: which policies are
    well formed and when two policies are equal.  A returned [error] that may
    be [nil] is an option. *)

From S2P Require Import Prelude Types Duration.

Module Policy.

Definition RuleGroupingGlobal : bytes := bz "global".
Definition RuleGroupingPrincipal : bytes := bz "principal".
Definition PolicyTypeTimestamp : bytes := bz "timestamp".
Definition PolicyTypeCount : bytes := bz "count".

Definition NewStoredPolicy (policy : RetentionPolicy) (author : Principal) (appliedAt : time)
  : StoredPolicy :=
  mkStoredPolicy policy author appliedAt.

Definition errf (m : string) : option error := Some (NewError (bz m)).

Definition invalid_grouping (g : bytes) : option error :=
  Some (NewError (bz "invalid rule grouping: " ++ g ++ bz ", must be '" ++ RuleGroupingGlobal ++
                  bz "' or '" ++ RuleGroupingPrincipal ++ bz "'")).

(** The body of the loop over the filters: the error to return, or the new
    value of [hasCountFilter]. *)
Definition Validate_filter (hasCountFilter : bool) (filter : Filter) : option error * bool :=
  let a := f_PolicyAction filter in
  if bool_decide (pa_Type a = PolicyTypeCount) then
    if hasCountFilter then (errf "only one count filter can be defined", hasCountFilter)
    else if pa_Volume a =? 0 then
      (errf "count filter volume must be greater than 0, or filter removed to achieve the same effect", true)
    else if negb (pa_RetentionPeriod a =? 0) then
      (errf "count filter cannot have retention period", true)
    else if negb (bool_decide (pa_RuleGroup a = RuleGroupingGlobal)) &&
            negb (bool_decide (pa_RuleGroup a = RuleGroupingPrincipal)) then
      (invalid_grouping (pa_RuleGroup a), true)
    else (None, true)
  else if bool_decide (pa_Type a = PolicyTypeTimestamp) then
    if pa_RetentionPeriod a =? 0 then
      (errf "timestamp filter retention period must be greater than 0, or filter removed to achieve the same effect",
       hasCountFilter)
    else if negb (bool_decide (pa_RuleGroup a = [])) &&
            negb (bool_decide (pa_RuleGroup a = RuleGroupingGlobal)) then
      (errf "timestamp filter cannot have rule grouping (applyTo)", hasCountFilter)
    else if negb (pa_Volume a =? 0) then
      (errf "timestamp filter cannot have volume", hasCountFilter)
    else (None, hasCountFilter)
  else (Some (NewError (bz "invalid policy type: " ++ pa_Type a)), hasCountFilter).

Fixpoint Validate_loop (hasCountFilter : bool) (filters : list Filter) : option error :=
  match filters with
  | [] => None
  | filter :: rest =>
      match Validate_filter hasCountFilter filter with
      | (Some err, _) => Some err
      | (None, hasCountFilter) => Validate_loop hasCountFilter rest
      end
  end.

Definition Validate (p : RetentionPolicy) : option error :=
  match Filters p with
  | [] => errf "no filters defined"
  | _ => Validate_loop false (Filters p)
  end.

(** ** Equality *)

Definition isEqual {T} `{EqDecision T} (p1 p2 : option T) : bool :=
  match p1, p2 with
  | None, None => true
  | None, Some _ | Some _, None => false
  | Some a, Some b => bool_decide (a = b)
  end.

Definition Match_Equal (m other : Match) : bool :=
  isEqual (m_Channel m) (m_Channel other) && isEqual (m_EventId m) (m_EventId other) &&
  isEqual (m_ProviderGuid m) (m_ProviderGuid other).

Definition Filter_Equal (f other : Filter) : bool :=
  bool_decide (f_Label f = f_Label other) && Match_Equal (f_Match f) (f_Match other) &&
  bool_decide (f_PolicyAction f = f_PolicyAction other).

(** The loop indexes [other.Filters], whose length was compared before. *)
Fixpoint Filters_Equal (fs others : list Filter) : result bool :=
  match fs with
  | [] => Ok true
  | f :: fs =>
      let* o := index others 0 in
      if negb (Filter_Equal f o) then Ok false else Filters_Equal fs (tail others)
  end.

Definition RetentionPolicy_Equal (p other : RetentionPolicy) : result bool :=
  if negb (zlen (Filters p) =? zlen (Filters other)) then Ok false
  else Filters_Equal (Filters p) (Filters other).

Definition StoredPolicy_Equal (p other : StoredPolicy) : result bool :=
  let* same := RetentionPolicy_Equal (spol_Policy p) (spol_Policy other) in
  Ok (same && bool_decide (spol_Author p = spol_Author other) &&
      Time_Equal (spol_AppliedAt p) (spol_AppliedAt other)).

(** ** What [Validate] accepts *)

Definition is_count (f : Filter) : bool := bool_decide (pa_Type (f_PolicyAction f) = PolicyTypeCount).

Definition count_action (a : PolicyAction) : Prop :=
  pa_Type a = PolicyTypeCount /\ pa_Volume a <> 0 /\ pa_RetentionPeriod a = 0 /\
  (pa_RuleGroup a = RuleGroupingGlobal \/ pa_RuleGroup a = RuleGroupingPrincipal).

Definition timestamp_action (a : PolicyAction) : Prop :=
  pa_Type a = PolicyTypeTimestamp /\ pa_RetentionPeriod a <> 0 /\ pa_Volume a = 0 /\
  (pa_RuleGroup a = [] \/ pa_RuleGroup a = RuleGroupingGlobal).

Definition well_formed_filter (f : Filter) : Prop :=
  count_action (f_PolicyAction f) \/ timestamp_action (f_PolicyAction f).

Definition well_formed (p : RetentionPolicy) : Prop :=
  Filters p <> [] /\ Forall well_formed_filter (Filters p) /\
  (length (List.filter is_count (Filters p)) <= 1)%nat.

Lemma type_distinct : PolicyTypeCount <> PolicyTypeTimestamp.
Proof. done. Qed.

(** Simplify projections, keeping the names of the constants. *)
Ltac pcbn := cbn [f_PolicyAction pa_Type pa_RuleGroup pa_RetentionPeriod pa_Volume fst snd negb andb].

Lemma Validate_filter_count seen f :
  is_count f = true ->
  ((Validate_filter seen f).1 = None <-> seen = false /\ well_formed_filter f) /\
  (seen = false -> (Validate_filter seen f).2 = true).
Proof.
  unfold is_count, Validate_filter, well_formed_filter, count_action, timestamp_action.
  destruct f as [lbl mt [ty g per vol]]. pcbn. intros ->%bool_decide_eq_true.
  rewrite bool_decide_true by done.
  destruct seen; [split; [split; [done|by intros []]|done]|].
  destruct (Z.eqb_spec vol 0), (Z.eqb_spec per 0), (bool_decide_reflect (g = RuleGroupingGlobal)),
    (bool_decide_reflect (g = RuleGroupingPrincipal)); pcbn;
    pose proof type_distinct; unfold errf, invalid_grouping; intuition congruence.
Qed.

Lemma Validate_filter_other seen f :
  is_count f = false ->
  ((Validate_filter seen f).1 = None <-> well_formed_filter f) /\ (Validate_filter seen f).2 = seen.
Proof.
  unfold is_count, Validate_filter, well_formed_filter, count_action, timestamp_action.
  destruct f as [lbl mt [ty g per vol]]. pcbn. intros Hc. rewrite Hc. apply bool_decide_eq_false in Hc.
  destruct (bool_decide_reflect (ty = PolicyTypeTimestamp)); pcbn;
    [|split; [split; [done|intros [[]|[]]; done]|done]].
  destruct (Z.eqb_spec vol 0), (Z.eqb_spec per 0), (bool_decide_reflect (g = [])),
    (bool_decide_reflect (g = RuleGroupingGlobal)); pcbn;
    unfold errf; intuition congruence.
Qed.

Lemma Validate_loop_spec seen fs :
  Validate_loop seen fs = None <->
  Forall well_formed_filter fs /\
  (length (List.filter is_count fs) + (if seen then 1 else 0) <= (if seen then 1 else 1))%nat.
Proof.
  revert seen. induction fs as [|f fs IH]; intros seen; cbn [Validate_loop List.filter].
  { split; [|done]. intros _. split; [constructor|]. destruct seen; cbn; lia. }
  rewrite List.Forall_cons_iff. destruct (Validate_filter seen f) as [e seen'] eqn:E.
  destruct (is_count f) eqn:Ec.
  - destruct (Validate_filter_count seen f Ec) as [H1 H2]. rewrite E in H1, H2. cbn in *.
    destruct e as [e|].
    + split; [done|]. intros [[Hf _] Hl]. destruct seen; cbn in Hl; [lia|].
      discriminate (proj2 H1 (conj eq_refl Hf)).
    + destruct (proj1 H1 eq_refl) as [-> Hf]. rewrite (H2 eq_refl), IH. cbn.
      split; [intros [? ?]; split; [done|lia]|intros [[_ ?] ?]; split; [done|lia]].
  - destruct (Validate_filter_other seen f Ec) as [H1 H2]. rewrite E in H1, H2. cbn in *. subst seen'.
    destruct e as [e|]; [split; [done|intros [[Hf _] _]; discriminate (proj2 H1 Hf)]|].
    rewrite IH. pose proof (proj1 H1 eq_refl). tauto.
Qed.

Lemma Validate_wf p : Validate p = None <-> well_formed p.
Proof.
  unfold Validate, well_formed. destruct (Filters p) as [|f fs]; [split; [done|by intros [? _]]|].
  rewrite Validate_loop_spec. cbn [Nat.add]. rewrite Nat.add_0_r.
  split; [intros [? ?]; by split_and!|intros (_ & ? & ?); by split].
Qed.

(** [Validate] accepts exactly the well-formed policies: at least one
    filter; every filter a count filter with a volume, no period and a known
    grouping, or a timestamp filter with a period, no volume and no grouping
    other than the global one; and at most one count filter in all. *)
Theorem Validate_accepts_well_formed p : Validate p = None <-> well_formed p.
Proof. apply Validate_wf. Qed.

(** [Validate] does not bound the period from below: a text the parser
    accepts may overflow to a negative period, and the policy that has it as
    the period of a timestamp filter is valid. *)
Theorem overflowing_period_is_valid :
  exists text d, Duration.parseDuration text = Ok d /\ d < 0 /\
    Validate (mkRetentionPolicy
      [mkFilter [] (mkMatch None None None) (mkPolicyAction PolicyTypeTimestamp [] d 0)]) = None.
Proof. exists (bz "15251w"), (15251 * 7 * 24 * Duration.Hour - 2 ^ 64). by vm_compute. Qed.

Lemma isEqual_spec {T} `{EqDecision T} (a b : option T) : isEqual a b = true <-> a = b.
Proof.
  destruct a, b; cbn; [|done|done|done]. rewrite bool_decide_eq_true.
  split; [by intros ->|by intros [= ->]].
Qed.

Lemma Filter_Equal_spec f g : Filter_Equal f g = true <-> f = g.
Proof.
  unfold Filter_Equal, Match_Equal. rewrite !andb_true_iff, !bool_decide_eq_true, !isEqual_spec.
  destruct f as [? [] ?], g as [? [] ?]; cbn. split; [|by intros [= -> -> -> -> ->]].
  intros [[-> [[-> ->] ->]] ->]. done.
Qed.

Lemma Filters_Equal_spec fs gs :
  length fs = length gs -> exists b, Filters_Equal fs gs = Ok b /\ (b = true <-> fs = gs).
Proof.
  revert gs. induction fs as [|f fs IH]; intros [|g gs] Hl; try done; [by exists true|].
  injection Hl as Hl. cbn [Filters_Equal tail]. change (index (g :: gs) 0) with (Ok g). cbn [res_bind].
  destruct (Filter_Equal f g) eqn:E; cbn [negb].
  - apply Filter_Equal_spec in E as ->. destruct (IH gs Hl) as (b & -> & Hb).
    exists b. split; [done|]. rewrite Hb. split; [by intros ->|by intros [= ->]].
  - exists false. split; [done|]. split; [done|]. intros [= -> ->].
    by rewrite (proj2 (Filter_Equal_spec g g) eq_refl) in E.
Qed.

Lemma StoredPolicy_Equal_eq p q :
  StoredPolicy_Equal p q = Ok (bool_decide (
    spol_Policy p = spol_Policy q /\ spol_Author p = spol_Author q /\
    instant (spol_AppliedAt p) = instant (spol_AppliedAt q))).
Proof.
  destruct p as [[fs] a t], q as [[gs] b u]. unfold StoredPolicy_Equal, RetentionPolicy_Equal. cbn.
  destruct (Z.eqb_spec (zlen fs) (zlen gs)) as [Hl|Hl]; cbn [negb].
  - unfold zlen in Hl. destruct (Filters_Equal_spec fs gs ltac:(lia)) as (c & -> & Hc). cbn. f_equal.
    apply eq_iff_eq_true. unfold Time_Equal.
    rewrite !andb_true_iff, !bool_decide_eq_true, Z.eqb_eq, Hc.
    split; [by intros [[-> ->] ->]|by intros ([= ->] & -> & ->)].
  - cbn. f_equal. symmetry. apply bool_decide_false. by intros ([= ->] & _).
Qed.

(** Comparing two stored policies never runs out of bounds, and the answer
    is [true] exactly when policies and authors are the same and the times of
    application denote the same instant. *)
Theorem StoredPolicy_Equal_decides p q :
  StoredPolicy_Equal p q = Ok (bool_decide (
    spol_Policy p = spol_Policy q /\ spol_Author p = spol_Author q /\
    instant (spol_AppliedAt p) = instant (spol_AppliedAt q))).
Proof. apply StoredPolicy_Equal_eq. Qed.

End Policy.
