(* ===== verification/Sha256.v ===== *)
(** * SHA-256

    The hash function of [crypto/sha256], of which the sources use the digest
    of a byte sequence ([utils.Sha256Sum], event identifiers, event data
    hashes).  The definition follows FIPS 180-4 on 32-bit words kept in [Z]. *)

From S2P Require Import Prelude.

Module Sha256.

(** The round constants are the first thirty-two bits of the fractional parts of
    the cube roots of the first sixty-four primes, the initial state those of
    the square roots of the first eight. *)
Definition is_prime (n : Z) : bool :=
  forallb (fun d => negb (n mod d =? 0)) (seqZ 2 (Z.sqrt n - 1)).

Definition primes : list Z := List.filter is_prime (seqZ 2 310).

(** The integer cube root below [2 ^ bits], bit by bit. *)
Fixpoint cbrt (bits : nat) (root n : Z) : Z :=
  match bits with
  | O => root
  | S k => let r := root + 2 ^ Z.of_nat k in cbrt k (if r * r * r <=? n then r else root) n
  end.

Definition K : list Z :=
  Eval vm_compute in ((fun p => u32 (cbrt 36 0 (p * 2 ^ 96))) <$> primes).

Definition H0 : list Z :=
  Eval vm_compute in ((fun p => u32 (Z.sqrt (p * 2 ^ 64))) <$> take 8 primes).

Example sixty_four_constants : length K = 64%nat.
Proof. reflexivity. Qed.

Definition add32 (a b : Z) : Z := u32 (a + b).
Definition rotr (n x : Z) : Z := Z.lor (Z.shiftr x n) (u32 (Z.shiftl x (32 - n))).
Definition lnot32 (x : Z) : Z := 2 ^ 32 - 1 - x.
Definition Ch (x y z : Z) : Z := Z.lxor (Z.land x y) (Z.land (lnot32 x) z).
Definition Maj (x y z : Z) : Z := Z.lxor (Z.lxor (Z.land x y) (Z.land x z)) (Z.land y z).
Definition Sigma0 (x : Z) : Z := Z.lxor (Z.lxor (rotr 2 x) (rotr 13 x)) (rotr 22 x).
Definition Sigma1 (x : Z) : Z := Z.lxor (Z.lxor (rotr 6 x) (rotr 11 x)) (rotr 25 x).
Definition sigma0 (x : Z) : Z := Z.lxor (Z.lxor (rotr 7 x) (rotr 18 x)) (Z.shiftr x 3).
Definition sigma1 (x : Z) : Z := Z.lxor (Z.lxor (rotr 17 x) (rotr 19 x)) (Z.shiftr x 10).

(** Big-endian words. *)
Definition be_word (l : bytes) : Z := le_decode (rev l).
Definition be_bytes (n : nat) (z : Z) : bytes := rev (le_encode n z).

Fixpoint words (fuel : nat) (l : bytes) : list Z :=
  match fuel with
  | O => []
  | S f => match l with [] => [] | _ => be_word (take 4 l) :: words f (drop 4 l) end
  end.

Definition pad (msg : bytes) : bytes :=
  msg ++ [z2b 0x80] ++ repeat (z2b 0) (Z.to_nat ((55 - zlen msg) mod 64)) ++
  be_bytes 8 (8 * zlen msg).

(** The message schedule, newest word first. *)
Fixpoint schedule (n : nat) (ws : list Z) : list Z :=
  match n with
  | O => ws
  | S n =>
      let w i := nth i ws 0 in
      schedule n (add32 (add32 (sigma1 (w 1%nat)) (w 6%nat)) (add32 (sigma0 (w 14%nat)) (w 15%nat)) :: ws)
  end.

Definition round (st : list Z) (kw : Z * Z) : list Z :=
  match st with
  | [a; b; c; d; e; f; g; h] =>
      let t1 := add32 (add32 (add32 h (Sigma1 e)) (add32 (Ch e f g) kw.1)) kw.2 in
      let t2 := add32 (Sigma0 a) (Maj a b c) in
      [add32 t1 t2; a; b; c; add32 d t1; e; f; g]
  | _ => st
  end.

Definition compress (st : list Z) (block : list Z) : list Z :=
  let ws := rev (schedule 48 (rev block)) in
  zip_with add32 st (fold_left round (zip K ws) st).

Fixpoint blocks (fuel : nat) (ws : list Z) (st : list Z) : list Z :=
  match fuel with
  | O => st
  | S f => match ws with [] => st | _ => blocks f (drop 16 ws) (compress st (take 16 ws)) end
  end.

Definition Sum256 (msg : bytes) : bytes :=
  let p := pad msg in
  let ws := words (length p) p in
  concat (be_bytes 4 <$> blocks (length ws) ws H0).

Example abc_digest :
  Sum256 (bz "abc") = concat (be_bytes 4 <$>
    [0xba7816bf; 0x8f01cfea; 0x414140de; 0x5dae2223; 0xb00361a3; 0x96177a9c; 0xb410ff61; 0xf20015ad]).
Proof. vm_compute. reflexivity. Qed.

Example two_block_digest :
  Sum256 (bz "abcdbcdecdefdefgefghfghighijhijkijkljklmklmnlmnomnopnopq") = concat (be_bytes 4 <$>
    [0x248d6a61; 0xd20638b8; 0xe5c02693; 0x0c3e6039; 0xa33ce459; 0x64ff2167; 0xf6ecedd4; 0x19db06c1]).
Proof. vm_compute. reflexivity. Qed.

(** A digest has thirty-two bytes. *)

Lemma round_length st kw : length st = 8%nat -> length (round st kw) = 8%nat.
Proof. by destruct st as [|? [|? [|? [|? [|? [|? [|? [|? [|]]]]]]]]]. Qed.

Lemma compress_length st b : length st = 8%nat -> length (compress st b) = 8%nat.
Proof.
  intros H. unfold compress. rewrite length_zip_with, H.
  enough (forall l s, length s = 8%nat -> length (fold_left round l s) = 8%nat) as -> by done.
  induction l as [|kw l IH]; intros s Hs; cbn; [done|]. by apply IH, round_length.
Qed.

Lemma blocks_length fuel ws st : length st = 8%nat -> length (blocks fuel ws st) = 8%nat.
Proof.
  revert ws st. induction fuel as [|f IH]; intros ws st H; cbn [blocks]; [done|].
  destruct ws; [done|]. by apply IH, compress_length.
Qed.

Lemma Sum256_length msg : length (Sum256 msg) = 32%nat.
Proof.
  unfold Sum256. set (l := blocks _ _ _).
  assert (Hl : length l = 8%nat) by (by apply blocks_length). clearbody l.
  assert (Hc : forall l, length (concat (be_bytes 4 <$> l)) = (4 * length l)%nat).
  { clear. induction l as [|w l IH]; [done|]. rewrite fmap_cons. cbn [concat length].
    rewrite length_app, IH. unfold be_bytes. rewrite length_rev, length_le_encode. lia. }
  rewrite Hc, Hl. done.
Qed.

(** Nothing is assumed about the strength of the function; where a claim depends on
    it, it names the inputs that must not collide. *)
Arguments Sum256 : simpl never.
#[global] Opaque Sum256.

End Sha256.
