(* ===== verification/Platform.v ===== *)
(** * Interfaces to the libraries of the on-chain program

    What the node uses of code outside the repository, as type classes: the
    versioned Merkle tree of [cosmos/iavl], the key-value database of
    [cometbft-db], [crypto/ed25519], the ICS-23 proofs, and the JSON codecs of
    the message and record types.  Each operation class comes with a class of
    the documented laws the code relies on; the reference instances at the end
    satisfy all of them. *)

From S2P Require Import Prelude Types Text Sha256 Duration.

(** ** The versioned Merkle tree ([iavl.MutableTree]) *)

Class TreeOps (T P : Type) : Type := {
  tree_Get : T -> bytes -> result (option bytes);
  tree_Has : T -> bytes -> result bool;
  tree_GetWithIndex : T -> bytes -> result (Z * option bytes);
  tree_GetProof : T -> bytes -> result P;
  tree_Size : T -> Z;
  tree_Version : T -> Z;
  tree_VersionExists : T -> Z -> bool;
  tree_Hash : T -> result bytes; (* of the last saved version; nil if none *)
  tree_Set : bytes -> bytes -> M T bool;
  tree_SaveVersion : M T (bytes * Z);
  tree_Load : M T Z;
  tree_LoadVersion : Z -> M T Z;
  tree_Rollback : T -> T
}.

(** The literal text of the error for proofs over an empty tree. *)
Definition nil_root_error : error := NewError (bz "cannot generate the proof with nil root").

(** The working contents and those of the last saved version. *)
Class TreeLaws (T P : Type) `{TreeOps T P} : Type := {
  working : T -> gmap bytes bytes;
  saved : T -> gmap bytes bytes;
  law_Get t k : tree_Get t k = Ok (working t !! k);
  law_Has t k : tree_Has t k = Ok (bool_decide (is_Some (working t !! k)));
  law_GetWithIndex t k : exists i, tree_GetWithIndex t k = Ok (i, working t !! k);
  law_GetProof_empty t k : working t = ∅ -> tree_GetProof t k = Err nil_root_error;
  law_GetProof t k : working t <> ∅ -> exists p, tree_GetProof t k = Ok p;
  law_Size t : tree_Size t = Z.of_nat (size (working t));
  law_Version t : 0 <= tree_Version t;
  law_Hash t : exists h, tree_Hash t = Ok h;
  law_Set t k v : v <> [] -> exists t' b, tree_Set k v t = (t', Ok b) /\
    working t' = <[k := v]> (working t) /\ saved t' = saved t /\
    tree_Version t' = tree_Version t /\ tree_Hash t' = tree_Hash t;
  law_SaveVersion t : exists t' h, tree_SaveVersion t = (t', Ok (h, tree_Version t + 1)) /\
    working t' = working t /\ saved t' = working t /\
    tree_Version t' = tree_Version t + 1 /\ tree_Hash t' = Ok h;
  law_Load t : exists t', tree_Load t = (t', Ok (tree_Version t)) /\
    working t' = saved t /\ saved t' = saved t /\
    tree_Version t' = tree_Version t /\ tree_Hash t' = tree_Hash t;
  law_LoadVersion t : working t = saved t ->
    exists t', tree_LoadVersion (tree_Version t) t = (t', Ok (tree_Version t)) /\
    working t' = working t /\ saved t' = saved t /\
    tree_Version t' = tree_Version t /\ tree_Hash t' = tree_Hash t
}.

(** ** The key-value database ([dbm.DB]) *)

Class DbOps (D : Type) : Type := {
  db_Get : D -> bytes -> result (option bytes);
  db_Set : bytes -> bytes -> M D unit
}.

Class DbLaws (D : Type) `{DbOps D} : Type := {
  db_contents : D -> gmap bytes bytes;
  law_db_Get d k : db_Get d k = Ok (db_contents d !! k);
  law_db_Set d k v : exists d', db_Set k v d = (d', Ok tt) /\
    db_contents d' = <[k := v]> (db_contents d)
}.

(** ** Ed25519 signatures *)

Class Ed25519 : Type := {
  ed_key : bytes -> bool;               (* a private key, as [GenerateKey] returns it *)
  ed_public : bytes -> bytes;           (* the public half of a private key *)
  ed_sign : bytes -> bytes -> bytes;
  ed_verify : bytes -> bytes -> bytes -> bool
}.

Definition PublicKeySize : Z := 32.
Definition PrivateKeySize : Z := 64.

(** [ed25519.Verify] panics on a key of the wrong length. *)
Definition ed25519_Verify `{Ed25519} (publicKey message sig : bytes) : result bool :=
  if negb (zlen publicKey =? PublicKeySize) then Panic (bz "ed25519: bad public key length")
  else Ok (ed_verify publicKey message sig).

(** So does [ed25519.Sign]. *)
Definition ed25519_Sign `{Ed25519} (privateKey message : bytes) : result bytes :=
  if negb (zlen privateKey =? PrivateKeySize) then Panic (bz "ed25519: bad private key length")
  else Ok (ed_sign privateKey message).

Class Ed25519Laws `{Ed25519} : Prop := {
  law_key_length sk : ed_key sk = true -> zlen sk = PrivateKeySize;
  law_public_length sk : ed_key sk = true -> zlen (ed_public sk) = PublicKeySize;
  law_verify_sign sk m : ed_key sk = true -> ed_verify (ed_public sk) m (ed_sign sk m) = true
}.

Lemma Sign_key `{Ed25519Laws} sk m : ed_key sk = true -> ed25519_Sign sk m = Ok (ed_sign sk m).
Proof. intros Hk. unfold ed25519_Sign. by rewrite (law_key_length _ Hk). Qed.

(** ** JSON codecs *)

Class Json (A : Type) : Type := {
  Marshal : A -> result bytes;
  Unmarshal : bytes -> result A;
  Marshal_no_panic a w : Marshal a <> Panic w;
  Unmarshal_no_panic b w : Unmarshal b <> Panic w
}.

(** The values whose encoding decodes to themselves: strings must be UTF-8
    (the encoder replaces anything else), times must lie in the years the
    format can write. *)
Class Representable (A : Type) : Type := representable : A -> Prop.

Class JsonLaws (A : Type) `{Json A, Representable A} : Prop := {
  law_round_trip a : representable a ->
    exists b, Marshal a = Ok b /\ b <> [] /\ Unmarshal b = Ok a
}.

(** What is known of every decoded value: strings that come out of the decoder
    are UTF-8, numbers and times are in range. *)
Class WellDecoded (A : Type) : Type := well_decoded : A -> Prop.

Class JsonDecoded (A : Type) `{Json A, WellDecoded A} : Prop := {
  law_decoded b a : Unmarshal b = Ok a -> well_decoded a
}.

(** Raw messages are re-encoded without insignificant white space, so only
    compact ones keep their bytes; what the encoder writes is compact. *)
Class RawJson : Type := compact : bytes -> Prop.

Class JsonCompact (A : Type) `{Json A, RawJson} : Prop := {
  law_compact a b : Marshal a = Ok b -> compact b
}.

Definition utf8 (s : bytes) : Prop := Utf8.Valid s = true.
Definition opt_all {A} (P : A -> Prop) (o : option A) : Prop :=
  match o with Some a => P a | None => True end.

(** Years 0 to 9999 of the time's own location. *)
Definition time_ok (t : time) : Prop :=
  -62167219200 * 10 ^ 9 <= instant t + offset t * 10 ^ 9 < 253402300800 * 10 ^ 9 /\
  offset t mod 60 = 0 /\ - 86400 < offset t < 86400.

Definition uuid_ok (u : bytes) : Prop := length u = 16%nat.

#[global] Instance rep_IdentityData : Representable IdentityData := fun i => utf8 (id_Role i).
#[global] Instance rep_PayloadSeed : Representable PayloadSeed := fun p => utf8 (seed_Principal p).
#[global] Instance rep_PayloadRegister : Representable PayloadRegister :=
  fun p => utf8 (reg_Principal p) /\ utf8 (reg_Role p).

Definition provider_ok (p : Provider) : Prop :=
  opt_all utf8 (prov_Name p) /\ opt_all uuid_ok (prov_Guid p) /\
  opt_all utf8 (prov_EventSourceName p).

Definition system_ok (s : System) : Prop :=
  provider_ok (sys_Provider s) /\ in_s 64 (sys_EventId s) /\ time_ok (sys_SystemTime s) /\
  in_s 64 (sys_EventRecordId s) /\ opt_all uuid_ok (sys_ActivityId s) /\
  opt_all (in_s 64) (sys_ProcessId s) /\ opt_all (in_s 64) (sys_ThreadId s) /\
  utf8 (sys_Channel s) /\ utf8 (sys_Computer s).

#[global] Instance rep_Event : Representable Event := fun e => system_ok (ev_System e).
#[global] Instance rep_ScrubbedEvent : Representable ScrubbedEvent :=
  fun e => utf8 (OffChainHash e) /\ representable (se_Event e).
#[global] Instance rep_Metadata : Representable Metadata :=
  fun m => time_ok (ReceivedTime m) /\ utf8 (md_Principal m).
#[global] Instance rep_EventWithMetadata : Representable EventWithMetadata :=
  fun e => representable (em_ScrubbedEvent e) /\ representable (em_Metadata e).
#[global] Instance rep_CreateRequest : Representable CreateRequest :=
  fun r => representable (cr_Event r) /\ uuid_ok (cr_Nonce r).
#[global] Instance rep_CreateResponse : Representable CreateResponse :=
  fun r => representable (cresp_Metadata r).
#[global] Instance rep_EventCountResponse : Representable EventCountResponse :=
  fun r => in_u 64 (ec_Count r).

#[global] Instance dec_PayloadSeed : WellDecoded PayloadSeed := representable.
#[global] Instance dec_PayloadRegister : WellDecoded PayloadRegister := representable.

(** Any time in RFC 3339 is decoded, with an offset of whole minutes; offsets of
    a day or more are accepted, though such a time cannot be written. *)
Definition system_decoded (s : System) : Prop :=
  offset (sys_SystemTime s) mod 60 = 0 /\ (time_ok (sys_SystemTime s) -> system_ok s).
#[global] Instance dec_CreateRequest : WellDecoded CreateRequest :=
  fun r => utf8 (OffChainHash (cr_Event r)) /\ system_decoded (ev_System (se_Event (cr_Event r))) /\ uuid_ok (cr_Nonce r).

(** ** Requests *)

Definition request_strings (p : SignedPayload) : Prop :=
  utf8 (p_Type (sp_Payload p)) /\ utf8 (sp_Principal p) /\ utf8 (sp_Signature p).

#[global] Instance dec_SignedPayload : WellDecoded SignedPayload := request_strings.
#[global] Instance rep_SignedPayload `{RawJson} : Representable SignedPayload :=
  fun p => request_strings p /\ compact (p_Data (sp_Payload p)).
#[global] Instance rep_UnsignedPayload `{RawJson} : Representable UnsignedPayload :=
  fun p => utf8 (p_Type (up_Payload p)) /\ compact (p_Data (up_Payload p)).
#[global] Instance rep_MuxedRequest `{RawJson} : Representable MuxedRequest :=
  fun r => utf8 (mr_App r) /\ compact (mr_Data r).

(** ** Policies *)

Definition match_ok (m : Match) : Prop :=
  opt_all utf8 (m_Channel m) /\ opt_all (in_s 64) (m_EventId m) /\ opt_all utf8 (m_ProviderGuid m).

(** What decoding guarantees of a filter, and what a filter needs in order to
    be read back: its period must survive being printed. *)
Definition filter_decoded (f : Filter) : Prop :=
  utf8 (f_Label f) /\ match_ok (f_Match f) /\
  utf8 (pa_Type (f_PolicyAction f)) /\ utf8 (pa_RuleGroup (f_PolicyAction f)) /\
  in_s 64 (pa_RetentionPeriod (f_PolicyAction f)) /\ in_u 64 (pa_Volume (f_PolicyAction f)).

Definition filter_ok (f : Filter) : Prop :=
  filter_decoded f /\ Duration.survives (pa_RetentionPeriod (f_PolicyAction f)).

#[global] Instance rep_RetentionPolicy : Representable RetentionPolicy :=
  fun p => Forall filter_ok (Filters p).
#[global] Instance rep_StoredPolicy : Representable StoredPolicy :=
  fun p => representable (spol_Policy p) /\ utf8 (spol_Author p) /\ time_ok (spol_AppliedAt p).
#[global] Instance dec_SetPolicyRequest : WellDecoded SetPolicyRequest :=
  fun r => Forall filter_decoded (Filters (spr_Policy r)) /\ uuid_ok (spr_Nonce r).

(** ** ICS-23 proofs *)

(** The variants of [ics23.CommitmentProof] the validator distinguishes. *)
Inductive proof_kind : Type :=
| ProofExist (value : bytes)
| ProofNonexist
| ProofOther.

Class Ics23 (P : Type) : Type := {
  proof_variant : P -> proof_kind;
  exist_Verify : P -> bytes -> bytes -> bytes -> bool;  (* root, key, value *)
  nonexist_Verify : P -> bytes -> bytes -> bool          (* root, key *)
}.

Record TreeProof (P : Type) : Type := mkTreeProof {
  tp_AppHash : bytes;
  tp_Proof : P
}.
Arguments mkTreeProof {P}.
Arguments tp_AppHash {P}.
Arguments tp_Proof {P}.

(** A proof a tree gives for one of its keys verifies against the hash of the
    tree, provided the working contents are the saved ones, and is written and
    read back unchanged. *)
Class ProofLaws (T P : Type) `{TreeLaws T P, Ics23 P, Json (TreeProof P)} : Prop := {
  law_proof_verifies t k p h :
    working t = saved t -> tree_GetProof t k = Ok p -> tree_Hash t = Ok h ->
    match working t !! k with
    | Some v => proof_variant p = ProofExist v /\ exist_Verify p h k v = true
    | None => proof_variant p = ProofNonexist /\ nonexist_Verify p h k = true
    end;
  law_proof_json t k p h :
    tree_GetProof t k = Ok p ->
    exists b, Marshal (mkTreeProof h p) = Ok b /\ Unmarshal b = Ok (mkTreeProof h p)
}.

(** ** The persisted state of the multiplexer *)

Record StateJson : Type := mkStateJson {
  sj_Size : Z;
  sj_Height : Z;
  sj_AppHashes : gmap bytes bytes
}.

#[global] Instance rep_StateJson : Representable StateJson :=
  fun s => in_s 64 (sj_Size s) /\ in_s 64 (sj_Height s) /\
           map_Forall (fun k _ => utf8 k) (sj_AppHashes s).

(** ** All of it together *)

Class Platform : Type := {
  Tree : Type;
  CommitmentProof : Type;
  DB : Type;
  pf_tree :: TreeOps Tree CommitmentProof;
  pf_ics23 :: Ics23 CommitmentProof;
  pf_db :: DbOps DB;
  pf_ed25519 :: Ed25519;
  pf_raw :: RawJson;
  (* [hashstructure.Hash] of the policy pointer *)
  hashstructure_Hash : option StoredPolicy -> result Z;
  pf_MuxedRequest :: Json MuxedRequest;
  pf_SignedPayload :: Json SignedPayload;
  pf_UnsignedPayload :: Json UnsignedPayload;
  pf_PayloadSeed :: Json PayloadSeed;
  pf_PayloadRegister :: Json PayloadRegister;
  pf_IdentityData :: Json IdentityData;
  pf_Event :: Json Event;
  pf_CreateRequest :: Json CreateRequest;
  pf_CreateResponse :: Json CreateResponse;
  pf_EventCountResponse :: Json EventCountResponse;
  pf_EventWithMetadata :: Json EventWithMetadata;
  pf_SetPolicyRequest :: Json SetPolicyRequest;
  pf_StoredPolicy :: Json StoredPolicy;
  pf_StateJson :: Json StateJson;
  pf_TreeProof :: Json (TreeProof CommitmentProof)
}.

Class PlatformLaws (P : Platform) : Type := {
  pl_tree :: TreeLaws Tree CommitmentProof;
  pl_proof :: ProofLaws Tree CommitmentProof;
  pl_db :: DbLaws DB;
  pl_ed25519 :: Ed25519Laws;
  pl_IdentityData :: JsonLaws IdentityData;
  pl_Event :: JsonLaws Event;
  pl_CreateResponse :: JsonLaws CreateResponse;
  pl_EventCountResponse :: JsonLaws EventCountResponse;
  pl_EventWithMetadata :: JsonLaws EventWithMetadata;
  pl_StoredPolicy :: JsonLaws StoredPolicy;
  pl_StateJson :: JsonLaws StateJson;
  pl_MuxedRequest :: JsonLaws MuxedRequest;
  pl_SignedPayload :: JsonLaws SignedPayload;
  pl_UnsignedPayload :: JsonLaws UnsignedPayload;
  pl_dec_SignedPayload :: JsonDecoded SignedPayload;
  pl_dec_PayloadSeed :: JsonDecoded PayloadSeed;
  pl_dec_PayloadRegister :: JsonDecoded PayloadRegister;
  pl_dec_CreateRequest :: JsonDecoded CreateRequest;
  pl_dec_SetPolicyRequest :: JsonDecoded SetPolicyRequest;
  (* only a time that can be read again is written *)
  law_event_time (e : Event) b : Marshal e = Ok b -> offset (sys_SystemTime (ev_System e)) mod 60 = 0 ->
    time_ok (sys_SystemTime (ev_System e));
  (* hashing a policy succeeds, with an unsigned 64-bit value *)
  law_hashstructure p : exists h, hashstructure_Hash p = Ok h /\ in_u 64 h;
  (* a policy is always written; it is read back by decoding, among others,
     every period with the decoder of durations *)
  law_policy_marshals p : time_ok (spol_AppliedAt p) -> exists b, Marshal p = Ok b /\ b <> [];
  law_policy_periods (p : StoredPolicy) b : Forall filter_decoded (Filters (spol_Policy p)) ->
    Marshal p = Ok b -> is_ok (Unmarshal (A := StoredPolicy) b) = true ->
    Forall (fun f => is_ok (Duration.UnmarshalJSON
      (Duration.MarshalJSON (pa_RetentionPeriod (f_PolicyAction f)))) = true) (Filters (spol_Policy p));
  pl_compact_SignedPayload :: JsonCompact SignedPayload;
  pl_compact_UnsignedPayload :: JsonCompact UnsignedPayload
}.
