(* ===== verification/Bson.v ===== *)
(** * Events as MongoDB documents

    Models how [common/pkg/types/events] writes events to BSON and reads them
    back: the field names of the struct tags, and the custom marshallers of
    [guid.go], [txhash.go] and [types.go].  The textual form of a UUID is that
    of [google/uuid], a parameter. *)

From S2P Require Import Prelude Types Text.
From Corelib Require Import Init.Byte.

(** ** BSON values *)

Inductive bson : Type :=
| BNull
| BInt (z : Z)
| BStr (s : bytes)
| BDate (ms : Z)            (* milliseconds since the Unix epoch *)
| BObjectId (z : Z)
| BArr (l : list bson)
| BDoc (fields : list (bytes * bson)).

(** [bson.M{k: v}]. *)
Definition single (k : bytes) (v : bson) : bson := BDoc [(k, v)].

(** ** UUIDs ([github.com/google/uuid]) *)

Class UuidText : Type := {
  uuid_String : bytes -> bytes;
  uuid_Parse : bytes -> result bytes
}.

(** A UUID is printed with 36 characters, and parsed from them; whatever is
    parsed has sixteen bytes. *)
Class UuidLaws `{UuidText} : Prop := {
  law_uuid_length u : length u = 16%nat -> length (uuid_String u) = 36%nat;
  law_uuid_parse u : length u = 16%nat -> uuid_Parse (uuid_String u) = Ok u;
  (* hexadecimal digits and hyphens *)
  law_uuid_chars u : forallb (fun c => Hex.lower_hex_digit c || bool_decide (c = "-"%byte)) (uuid_String u) = true;
  law_uuid_parsed s u : uuid_Parse s = Ok u -> length u = 16%nat;
  law_uuid_safe s w : uuid_Parse s <> Panic w
}.

Definition uuid_Nil : bytes := replicate 16 x00.

(** ** [Guid] *)
Module Guid.
Section Guid.
Context `{UuidText}.

Definition braced (g : bytes) : bytes := bz "{" ++ uuid_String g ++ bz "}".

Definition MarshalJSON (g : bytes) : result bytes := Ok ([x22] ++ braced g ++ [x22]).

Definition invalid_length : error := NewError (bz "invalid GUID length").

(** [Ok None] leaves the receiver as it is. *)
Definition UnmarshalJSON (data : bytes) : result (option bytes) :=
  if bool_decide (data = bz "null") then Ok None
  else if negb (zlen data =? 40) then Err invalid_length
  else let* u := uuid_Parse (take 36 (drop 2 data)) in Ok (Some u).

Definition MarshalBSONValue (g : bytes) : bson := BStr (braced g).

Definition UnmarshalBSONValue (v : bson) : result (option bytes) :=
  match v with
  | BNull => Ok None
  | BStr s =>
      if negb (zlen s =? 38) then Err invalid_length
      else let* u := uuid_Parse (take 36 (drop 1 s)) in Ok (Some u)
  | _ => Err (NewError (bz "cannot decode into a string type"))
  end.

End Guid.

Section Laws.
Context `{UuidLaws}.

Lemma braced_length g : length g = 16%nat -> length (braced g) = 38%nat.
Proof. intros Hg. unfold braced. rewrite !length_app, (law_uuid_length g Hg). done. Qed.

Lemma guid_bson_round_trip g : length g = 16%nat -> UnmarshalBSONValue (MarshalBSONValue g) = Ok (Some g).
Proof.
  intros Hg. unfold UnmarshalBSONValue, MarshalBSONValue, zlen. rewrite braced_length by done.
  cbn [negb Z.eqb]. unfold braced. cbn [app bz]. change (drop 1 (bz "{" ++ ?x)) with x.
  rewrite take_app_length' by (by rewrite law_uuid_length). by rewrite law_uuid_parse.
Qed.

Lemma guid_json_round_trip g : length g = 16%nat ->
  exists b, MarshalJSON g = Ok b /\ UnmarshalJSON b = Ok (Some g).
Proof.
  intros Hg. eexists. split; [done|]. unfold UnmarshalJSON.
  rewrite bool_decide_false by done. unfold zlen. rewrite !length_app, braced_length by done.
  cbn [negb]. unfold braced. change (drop 2 ([x22] ++ (bz "{" ++ ?x) ++ ?y)) with (x ++ y).
  rewrite <- app_assoc, take_app_length' by (by rewrite law_uuid_length). by rewrite law_uuid_parse.
Qed.

End Laws.
End Guid.

(** ** [TxHash] and [EventHash]: hexadecimal strings *)
Module TxHash.

Definition MarshalJSON (t : bytes) : result bytes := Ok ([x22] ++ Hex.EncodeToString t ++ [x22]).

Definition UnmarshalJSON (data : bytes) : result bytes :=
  if zlen data <? 2 then Err (NewError (bz "invalid TxHash - length less than 2"))
  else
    let* s := slice_cap data [] 1 (zlen data - 1) in
    Hex.DecodeString s.

Definition MarshalBSONValue (t : bytes) : bson := BStr (Hex.EncodeToString t).

Definition UnmarshalBSONValue (v : bson) : result bytes :=
  match v with
  | BStr s => Hex.DecodeString s
  | _ => Err (NewError (bz "cannot decode into a string type"))
  end.

(** [UnmarshalJSON] drops the first and the last byte, whatever they are. *)
Lemma UnmarshalJSON_trims t a b : UnmarshalJSON ([a] ++ Hex.EncodeToString t ++ [b]) = Ok t.
Proof.
  unfold UnmarshalJSON. set (h := Hex.EncodeToString t).
  assert (zlen ([a] ++ h ++ [b]) = 2 + zlen h) as -> by (rewrite !zlen_app, !zlen_cons, !zlen_nil; lia).
  pose proof (zlen_nonneg h). rewrite (proj2 (Z.ltb_ge _ _)) by lia.
  rewrite (slice_cap_ok [a] h [b]) by (rewrite !zlen_cons, !zlen_nil; lia). apply Hex.decode_encode.
Qed.

Lemma txhash_json_round_trip t : exists b, MarshalJSON t = Ok b /\ UnmarshalJSON b = Ok t.
Proof. eexists. split; [done|]. apply UnmarshalJSON_trims. Qed.

End TxHash.

(** ** Events *)
Module EventDoc.
Section Codec.
Context `{UuidText}.

Definition opt_doc {A} (f : A -> bson) (o : option A) : bson :=
  match o with Some a => f a | None => BNull end.

(** A [time.Time] is stored in milliseconds. *)
Definition to_ms (t : time) : Z := instant t / 10 ^ 6.
Definition of_ms (ms : Z) : time := mkTime (ms * 10 ^ 6) 0.
Definition time_doc (t : time) : bson := BDate (to_ms t).

Definition provider_doc (p : Provider) : bson :=
  BDoc [(bz "name", opt_doc BStr (prov_Name p));
        (bz "guid", opt_doc Guid.MarshalBSONValue (prov_Guid p));
        (bz "event_source_name", opt_doc BStr (prov_EventSourceName p))].

Definition system_doc (s : System) : bson :=
  BDoc [(bz "provider", provider_doc (sys_Provider s));
        (bz "event_id", BInt (sys_EventId s));
        (bz "time_created", single (bz "system_time") (time_doc (sys_SystemTime s)));
        (bz "event_record_id", BInt (sys_EventRecordId s));
        (bz "correlation", single (bz "activity_id") (opt_doc Guid.MarshalBSONValue (sys_ActivityId s)));
        (bz "execution", BDoc [(bz "process_id", opt_doc BInt (sys_ProcessId s));
                               (bz "thread_id", opt_doc BInt (sys_ThreadId s))]);
        (bz "channel", BStr (sys_Channel s));
        (bz "computer", BStr (sys_Computer s))].

Definition data_doc (d : EvData) : bson :=
  BDoc [(bz "name", opt_doc BStr (data_Name d)); (bz "value", opt_doc BStr (data_Value d))].

(** The embedded [Event] has no tag, so it is stored under its own name. *)
Definition event_with_data_doc (e : EventWithData) : bson :=
  BDoc [(bz "event", single (bz "system") (system_doc (ev_System (ed_Event e))));
        (bz "event_data", BArr (data_doc <$> (ed_EventData e : list EvData)))].

Definition metadata_doc (m : Metadata) : bson :=
  BDoc [(bz "event_id", TxHash.MarshalBSONValue (EventId m));
        (bz "received_time", time_doc (ReceivedTime m));
        (bz "principal", BStr (md_Principal m))].

Definition event_fields (e : StoredEvent) : list (bytes * bson) :=
  [(bz "event", event_with_data_doc (st_EventWithData e));
   (bz "metadata", metadata_doc (st_Metadata e));
   (bz "tx_hash", TxHash.MarshalBSONValue (st_TxHash e))].

Definition event_doc (e : StoredEvent) : bson := BDoc (event_fields e).

(** The document as it is stored, with the identifier the driver adds. *)
Definition stored_doc (oid : Z) (e : StoredEvent) : bson :=
  BDoc ((bz "_id", BObjectId oid) :: event_fields e).

(** *** Decoding *)

Definition type_error {A} : result A := Err (NewError (bz "cannot decode BSON value into field")).

(** The fields of a document; a field that is missing keeps its zero value. *)
Definition doc_fields (v : bson) : result (list (bytes * bson)) :=
  match v with BDoc fs => Ok fs | _ => type_error end.

Fixpoint lookup_field (k : bytes) (fs : list (bytes * bson)) : option bson :=
  match fs with
  | [] => None
  | (k', v) :: rest => if bool_decide (k' = k) then Some v else lookup_field k rest
  end.

Definition field {A} (fs : list (bytes * bson)) (k : bytes) (zero : A) (dec : bson -> result A) : result A :=
  match lookup_field k fs with Some v => dec v | None => Ok zero end.

Definition dec_str (v : bson) : result bytes := match v with BStr s => Ok s | _ => type_error end.
Definition dec_int (v : bson) : result Z := match v with BInt z => Ok z | _ => type_error end.
Definition dec_time (v : bson) : result time := match v with BDate ms => Ok (of_ms ms) | _ => type_error end.
Definition dec_opt {A} (dec : bson -> result A) (v : bson) : result (option A) :=
  match v with BNull => Ok None | _ => let* a := dec v in Ok (Some a) end.

(** A [*Guid] field: for null the driver allocates a zero GUID. *)
Definition dec_guid (v : bson) : result (option bytes) :=
  let* g := Guid.UnmarshalBSONValue v in Ok (Some (default uuid_Nil g)).

Definition non_empty (o : option bytes) : option bytes :=
  match o with Some [] => None | _ => o end.
Definition non_nil (o : option bytes) : option bytes :=
  match o with Some g => if bool_decide (g = uuid_Nil) then None else Some g | None => None end.

(** [Provider.UnmarshalBSON] and [Correlation.UnmarshalBSON]: empty names and
    zero GUIDs become nil. *)
Definition dec_provider (v : bson) : result Provider :=
  let* fs := doc_fields v in
  let* name := field fs (bz "name") None (dec_opt dec_str) in
  let* guid := field fs (bz "guid") None dec_guid in
  let* source := field fs (bz "event_source_name") None (dec_opt dec_str) in
  Ok (mkProvider (non_empty name) (non_nil guid) (non_empty source)).

Definition dec_correlation (v : bson) : result (option bytes) :=
  let* fs := doc_fields v in
  let* activity := field fs (bz "activity_id") None dec_guid in
  Ok (non_nil activity).

Definition zero_time : time := mkTime (- 62135596800 * 10 ^ 9) 0.
Definition zero_provider : Provider := mkProvider None None None.
Definition zero_system : System := mkSystem zero_provider 0 zero_time 0 None None None [] [].

Definition dec_system (v : bson) : result System :=
  let* fs := doc_fields v in
  let* provider := field fs (bz "provider") zero_provider dec_provider in
  let* event_id := field fs (bz "event_id") 0 dec_int in
  let* created := field fs (bz "time_created") zero_time
    (fun v => let* fs := doc_fields v in field fs (bz "system_time") zero_time dec_time) in
  let* record := field fs (bz "event_record_id") 0 dec_int in
  let* activity := field fs (bz "correlation") None dec_correlation in
  let* (pid, tid) := field fs (bz "execution") (None, None)
    (fun v => let* fs := doc_fields v in
      let* pid := field fs (bz "process_id") None (dec_opt dec_int) in
      let* tid := field fs (bz "thread_id") None (dec_opt dec_int) in Ok (pid, tid)) in
  let* channel := field fs (bz "channel") [] dec_str in
  let* computer := field fs (bz "computer") [] dec_str in
  Ok (mkSystem provider event_id created record activity pid tid channel computer).

Definition dec_data (v : bson) : result EvData :=
  let* fs := doc_fields v in
  let* name := field fs (bz "name") None (dec_opt dec_str) in
  let* value := field fs (bz "value") None (dec_opt dec_str) in
  Ok (mkEvData name value).

Fixpoint dec_list {A} (dec : bson -> result A) (l : list bson) : result (list A) :=
  match l with
  | [] => Ok []
  | v :: rest => let* a := dec v in let* r := dec_list dec rest in Ok (a :: r)
  end.

Definition dec_array {A} (dec : bson -> result A) (v : bson) : result (list A) :=
  match v with BNull => Ok [] | BArr l => dec_list dec l | _ => type_error end.

Definition dec_event_with_data (v : bson) : result EventWithData :=
  let* fs := doc_fields v in
  let* system := field fs (bz "event") zero_system
    (fun v => let* fs := doc_fields v in field fs (bz "system") zero_system dec_system) in
  let* data := field fs (bz "event_data") [] (dec_array dec_data) in
  Ok (mkEventWithData (mkEvent system) data).

Definition zero_metadata : Metadata := mkMetadata [] zero_time [].

Definition dec_metadata (v : bson) : result Metadata :=
  let* fs := doc_fields v in
  let* id := field fs (bz "event_id") [] TxHash.UnmarshalBSONValue in
  let* received := field fs (bz "received_time") zero_time dec_time in
  let* principal := field fs (bz "principal") [] dec_str in
  Ok (mkMetadata id received principal).

Definition dec_event (v : bson) : result StoredEvent :=
  let* fs := doc_fields v in
  let* event := field fs (bz "event") (mkEventWithData (mkEvent zero_system) []) dec_event_with_data in
  let* metadata := field fs (bz "metadata") zero_metadata dec_metadata in
  let* tx := field fs (bz "tx_hash") [] TxHash.UnmarshalBSONValue in
  Ok (mkStoredEvent event metadata tx).

(** *** What is read back *)

Definition stored_time (t : time) : time := of_ms (to_ms t).
Definition stored_provider (p : Provider) : Provider :=
  mkProvider (non_empty (prov_Name p)) (non_nil (prov_Guid p)) (non_empty (prov_EventSourceName p)).
Definition stored_system (s : System) : System :=
  mkSystem (stored_provider (sys_Provider s)) (sys_EventId s) (stored_time (sys_SystemTime s))
    (sys_EventRecordId s) (non_nil (sys_ActivityId s)) (sys_ProcessId s) (sys_ThreadId s)
    (sys_Channel s) (sys_Computer s).
Definition stored_form (e : StoredEvent) : StoredEvent :=
  mkStoredEvent
    (mkEventWithData (mkEvent (stored_system (ev_System (ed_Event (st_EventWithData e)))))
       (ed_EventData (st_EventWithData e)))
    (mkMetadata (EventId (st_Metadata e)) (stored_time (ReceivedTime (st_Metadata e)))
       (md_Principal (st_Metadata e)))
    (st_TxHash e).

(** The GUIDs of an event are sixteen bytes. *)
Definition guid_ok (o : option bytes) : Prop := forall g, o = Some g -> length g = 16%nat.
Definition guids_ok (e : StoredEvent) : Prop :=
  let s := ev_System (ed_Event (st_EventWithData e)) in
  guid_ok (prov_Guid (sys_Provider s)) /\ guid_ok (sys_ActivityId s).

End Codec.

Section Laws.
Context `{UuidLaws}.

Lemma field_here {A} k v fs (zero : A) dec : field ((k, v) :: fs) k zero dec = dec v.
Proof. unfold field. cbn. by rewrite bool_decide_true. Qed.
Lemma field_next {A} k k' v fs (zero : A) dec : k' <> k -> field ((k', v) :: fs) k zero dec = field fs k zero dec.
Proof. intros Hk. unfold field. cbn. by rewrite bool_decide_false. Qed.

Lemma dec_opt_str o : dec_opt dec_str (opt_doc BStr o) = Ok o.
Proof. by destruct o. Qed.
Lemma dec_opt_int o : dec_opt dec_int (opt_doc BInt o) = Ok o.
Proof. by destruct o. Qed.

Ltac read_fields :=
  cbn [doc_fields res_bind];
  repeat (first [rewrite field_here | rewrite dec_opt_str | rewrite dec_opt_int | rewrite field_next by (vm_compute; congruence)];
          cbn [doc_fields res_bind]).

Lemma dec_guid_doc o : guid_ok o ->
  exists g, dec_guid (opt_doc Guid.MarshalBSONValue o) = Ok g /\ non_nil g = non_nil o.
Proof.
  intros Ho. unfold dec_guid. destruct o as [g|]; cbn [opt_doc].
  - rewrite Guid.guid_bson_round_trip by auto. cbn. by eexists.
  - cbn. by eexists.
Qed.

Lemma dec_data_doc d : dec_data (data_doc d) = Ok d.
Proof. destruct d as [n v]. unfold dec_data, data_doc. by read_fields. Qed.

Lemma dec_data_list d : dec_list dec_data (data_doc <$> (d : list EvData)) = Ok d.
Proof.
  induction d as [|x d IH]; [done|]. cbn [fmap list_fmap dec_list].
  rewrite dec_data_doc. cbn [res_bind]. change (list_fmap _ _ data_doc d) with (data_doc <$> d). by rewrite IH.
Qed.

Lemma dec_provider_doc p : guid_ok (prov_Guid p) -> dec_provider (provider_doc p) = Ok (stored_provider p).
Proof.
  intros Hg. destruct (dec_guid_doc _ Hg) as (g & Eg & Hg').
  unfold dec_provider, provider_doc, stored_provider. read_fields.
  rewrite Eg. read_fields. by rewrite Hg'.
Qed.

Lemma dec_system_doc s : guid_ok (prov_Guid (sys_Provider s)) -> guid_ok (sys_ActivityId s) ->
  dec_system (system_doc s) = Ok (stored_system s).
Proof.
  intros Hg Ha. destruct (dec_guid_doc _ Ha) as (a & Ea & Ha').
  unfold dec_system, system_doc, dec_correlation, single. read_fields.
  rewrite dec_provider_doc by done. read_fields. rewrite Ea. read_fields.
  unfold stored_system. by rewrite Ha'.
Qed.

Lemma dec_metadata_doc m : dec_metadata (metadata_doc m) =
  Ok (mkMetadata (EventId m) (stored_time (ReceivedTime m)) (md_Principal m)).
Proof.
  unfold dec_metadata, metadata_doc, TxHash.MarshalBSONValue, TxHash.UnmarshalBSONValue. read_fields.
  rewrite Hex.decode_encode. by read_fields.
Qed.

Lemma dec_stored_doc oid e : guids_ok e -> dec_event (stored_doc oid e) = Ok (stored_form e).
Proof.
  intros [Hg Ha]. destruct e as [[[s] d] m tx]. unfold dec_event, stored_doc, event_fields. read_fields.
  unfold dec_event_with_data, event_with_data_doc, single. read_fields.
  rewrite dec_system_doc by done. read_fields. cbn [dec_array]. rewrite dec_data_list. read_fields.
  rewrite dec_metadata_doc. read_fields. cbn [TxHash.UnmarshalBSONValue TxHash.MarshalBSONValue].
  by rewrite Hex.decode_encode.
Qed.

(** C37. An event that is written to the database and read back keeps its
    identifier, principal, transaction and data; times lose everything below a
    millisecond and their location, and empty names and zero GUIDs become nil. *)
Theorem event_document_round_trip oid e : guids_ok e -> dec_event (stored_doc oid e) = Ok (stored_form e).
Proof. apply dec_stored_doc. Qed.

End Laws.
End EventDoc.
