(* ===== verification/JsonTypes.v ===== *)
(** * The JSON form of the program's types

    Models the struct tags and the custom [MarshalJSON] and [UnmarshalJSON] of
    [common/pkg/types], [common/pkg/proof] and the state of the multiplexer,
    over the model of [encoding/json].  UUIDs are printed and parsed by
    [google/uuid], a parameter. *)

From S2P Require Import Prelude Types Text Duration JsonText JsonScan JsonCompact JsonCodec JsonCodecFacts TimeText Platform Bson.
From Corelib Require Import Init.Byte.

Module JsonTypes.
Import JsonText JsonScan JsonCodec.

(** A field that is decoded in place. *)
Definition set_field {A B} (get : A -> B) (put : B -> A -> A) (dec : decoder B) : A -> bytes -> result A :=
  fun a v => let* b := dec (get a) v in Ok (put b a).

(** A codec as [json.Marshal] and [json.Unmarshal] use it for a type with its own
    methods. *)
Definition dec_custom {A} (UnmarshalJSON : bytes -> result A) : decoder A := fun _ v => UnmarshalJSON v.

(** ** Identities ([identity/data.go], [identity/rpc.go]) *)

Module Identity.

(** The struct both directions go through: the key is in hexadecimal. *)
Record auxIdentity : Type := mkAuxIdentity { aux_PublicKey : bytes; aux_Role : bytes }.

Definition IdentityData_MarshalJSON (i : IdentityData) : result bytes :=
  enc_struct [(bz "public_key", enc_string (Hex.EncodeToString (PublicKey i))); (bz "role", enc_string (id_Role i))].

Definition IdentityData_UnmarshalJSON (data : bytes) : result IdentityData :=
  let* aux := Unmarshal_into (dec_struct
    [(bz "public_key", set_field aux_PublicKey (fun k a => mkAuxIdentity k (aux_Role a)) dec_string);
     (bz "role", set_field aux_Role (fun r a => mkAuxIdentity (aux_PublicKey a) r) dec_string)]) (mkAuxIdentity [] []) data in
  let* publicKey := Hex.DecodeString (aux_PublicKey aux) in
  Ok (mkIdentityData publicKey (aux_Role aux)).

Record auxSeed : Type := mkAuxSeed { as_Principal : bytes; as_Key : bytes }.

Definition PayloadSeed_MarshalJSON (p : PayloadSeed) : result bytes :=
  enc_struct [(bz "principal", enc_string (seed_Principal p)); (bz "key", enc_string (Hex.EncodeToString (seed_Key p)))].

Definition PayloadSeed_UnmarshalJSON (data : bytes) : result PayloadSeed :=
  let* aux := Unmarshal_into (dec_struct
    [(bz "principal", set_field as_Principal (fun p a => mkAuxSeed p (as_Key a)) dec_string);
     (bz "key", set_field as_Key (fun k a => mkAuxSeed (as_Principal a) k) dec_string)]) (mkAuxSeed [] []) data in
  let* key := Hex.DecodeString (as_Key aux) in
  Ok (mkPayloadSeed (as_Principal aux) key).

Record auxRegister : Type := mkAuxRegister { ar_Principal : bytes; ar_Role : bytes; ar_Key : bytes }.

(** [nonce] is the [uuid.New()] of the call. *)
Definition PayloadRegister_MarshalJSON `{UuidText} (nonce : bytes) (p : PayloadRegister) : result bytes :=
  enc_struct [(bz "principal", enc_string (reg_Principal p)); (bz "role", enc_string (reg_Role p));
    (bz "public_key", enc_string (Hex.EncodeToString (reg_Key p))); (bz "nonce", enc_string (uuid_String nonce))].

Definition PayloadRegister_UnmarshalJSON (data : bytes) : result PayloadRegister :=
  let* aux := Unmarshal_into (dec_struct
    [(bz "principal", set_field ar_Principal (fun p a => mkAuxRegister p (ar_Role a) (ar_Key a)) dec_string);
     (bz "role", set_field ar_Role (fun r a => mkAuxRegister (ar_Principal a) r (ar_Key a)) dec_string);
     (bz "public_key", set_field ar_Key (fun k a => mkAuxRegister (ar_Principal a) (ar_Role a) k) dec_string)])
    (mkAuxRegister [] [] []) data in
  let* key := Hex.DecodeString (ar_Key aux) in
  Ok (mkPayloadRegister (ar_Principal aux) (ar_Role aux) key).

End Identity.

(** ** Requests ([rpc/payload.go], [rpc/rpc.go]) *)

Module Requests.

Definition enc_Payload : encoder Payload := fun p =>
  enc_struct [(bz "type", enc_string (p_Type p)); (bz "data", enc_raw (p_Data p))].
Definition dec_Payload : decoder Payload := dec_struct
  [(bz "type", set_field p_Type (fun t p => mkPayload t (p_Data p)) dec_string);
   (bz "data", set_field p_Data (fun d p => mkPayload (p_Type p) d) dec_raw)].

(** The embedded struct has a tag and is a member of its own. *)
Definition enc_UnsignedPayload : encoder UnsignedPayload := fun p =>
  enc_struct [(bz "payload", enc_Payload (up_Payload p))].
Definition dec_UnsignedPayload : decoder UnsignedPayload := dec_struct
  [(bz "payload", set_field up_Payload (fun x _ => mkUnsignedPayload x) dec_Payload)].

Definition enc_SignedPayload : encoder SignedPayload := fun p =>
  enc_struct [(bz "payload", enc_Payload (sp_Payload p)); (bz "principal", enc_string (sp_Principal p));
    (bz "signature", enc_string (sp_Signature p))].
Definition dec_SignedPayload : decoder SignedPayload := dec_struct
  [(bz "payload", set_field sp_Payload (fun x p => mkSignedPayload x (sp_Principal p) (sp_Signature p)) dec_Payload);
   (bz "principal", set_field sp_Principal (fun x p => mkSignedPayload (sp_Payload p) x (sp_Signature p)) dec_string);
   (bz "signature", set_field sp_Signature (fun x p => mkSignedPayload (sp_Payload p) (sp_Principal p) x) dec_string)].

Definition enc_MuxedRequest : encoder MuxedRequest := fun r =>
  enc_struct [(bz "app", enc_string (mr_App r)); (bz "data", enc_raw (mr_Data r))].
Definition dec_MuxedRequest : decoder MuxedRequest := dec_struct
  [(bz "app", set_field mr_App (fun x r => mkMuxedRequest x (mr_Data r)) dec_string);
   (bz "data", set_field mr_Data (fun x r => mkMuxedRequest (mr_App r) x) dec_raw)].

Definition zero_SignedPayload : SignedPayload := mkSignedPayload (mkPayload [] []) [] [].

End Requests.

(** ** Events ([events/types.go], [events/rpc.go]) *)

Module Events.
Section Events.
Context `{UuidText}.

Definition enc_time : encoder time := enc_marshaler TimeText.MarshalJSON.
Definition dec_time : decoder time := TimeText.UnmarshalJSON.

(** The zero [time.Time]: the first of January of the year 1, UTC. *)
Definition zero_time : time := mkTime (-62135596800 * 10 ^ 9) 0.

Definition enc_Guid : encoder bytes := enc_marshaler Guid.MarshalJSON.
Definition dec_Guid : decoder bytes := fun old v =>
  let* g := Guid.UnmarshalJSON v in Ok (default old g).

Definition enc_hash : encoder bytes := enc_marshaler TxHash.MarshalJSON.
Definition dec_hash : decoder bytes := dec_custom TxHash.UnmarshalJSON.

(** A [uuid.UUID] is text. *)
Definition enc_uuid : encoder bytes := fun u => enc_string (uuid_String u).
Definition dec_uuid : decoder bytes := dec_text uuid_Parse.

Definition enc_Provider : encoder Provider := fun p =>
  enc_struct [(bz "name", enc_ptr enc_string (prov_Name p)); (bz "guid", enc_ptr enc_Guid (prov_Guid p));
    (bz "event_source_name", enc_ptr enc_string (prov_EventSourceName p))].
Definition dec_Provider : decoder Provider := dec_struct
  [(bz "name", set_field prov_Name (fun x p => mkProvider x (prov_Guid p) (prov_EventSourceName p)) (dec_ptr [] dec_string));
   (bz "guid", set_field prov_Guid (fun x p => mkProvider (prov_Name p) x (prov_EventSourceName p)) (dec_ptr uuid_Nil dec_Guid));
   (bz "event_source_name", set_field prov_EventSourceName (fun x p => mkProvider (prov_Name p) (prov_Guid p) x) (dec_ptr [] dec_string))].

Definition enc_System : encoder System := fun s =>
  enc_struct [(bz "provider", enc_Provider (sys_Provider s));
    (bz "event_id", enc_int (sys_EventId s));
    (bz "time_created", enc_struct [(bz "system_time", enc_time (sys_SystemTime s))]);
    (bz "event_record_id", enc_int (sys_EventRecordId s));
    (bz "correlation", enc_struct [(bz "activity_id", enc_ptr enc_Guid (sys_ActivityId s))]);
    (bz "execution", enc_struct [(bz "process_id", enc_ptr enc_int (sys_ProcessId s));
                                 (bz "thread_id", enc_ptr enc_int (sys_ThreadId s))]);
    (bz "channel", enc_string (sys_Channel s));
    (bz "computer", enc_string (sys_Computer s))].

Definition put_Provider x s := mkSystem x (sys_EventId s) (sys_SystemTime s) (sys_EventRecordId s) (sys_ActivityId s)
  (sys_ProcessId s) (sys_ThreadId s) (sys_Channel s) (sys_Computer s).
Definition put_EventId x s := mkSystem (sys_Provider s) x (sys_SystemTime s) (sys_EventRecordId s) (sys_ActivityId s)
  (sys_ProcessId s) (sys_ThreadId s) (sys_Channel s) (sys_Computer s).
Definition put_SystemTime x s := mkSystem (sys_Provider s) (sys_EventId s) x (sys_EventRecordId s) (sys_ActivityId s)
  (sys_ProcessId s) (sys_ThreadId s) (sys_Channel s) (sys_Computer s).
Definition put_EventRecordId x s := mkSystem (sys_Provider s) (sys_EventId s) (sys_SystemTime s) x (sys_ActivityId s)
  (sys_ProcessId s) (sys_ThreadId s) (sys_Channel s) (sys_Computer s).
Definition put_ActivityId x s := mkSystem (sys_Provider s) (sys_EventId s) (sys_SystemTime s) (sys_EventRecordId s) x
  (sys_ProcessId s) (sys_ThreadId s) (sys_Channel s) (sys_Computer s).
Definition put_ProcessId x s := mkSystem (sys_Provider s) (sys_EventId s) (sys_SystemTime s) (sys_EventRecordId s) (sys_ActivityId s)
  x (sys_ThreadId s) (sys_Channel s) (sys_Computer s).
Definition put_ThreadId x s := mkSystem (sys_Provider s) (sys_EventId s) (sys_SystemTime s) (sys_EventRecordId s) (sys_ActivityId s)
  (sys_ProcessId s) x (sys_Channel s) (sys_Computer s).
Definition put_Channel x s := mkSystem (sys_Provider s) (sys_EventId s) (sys_SystemTime s) (sys_EventRecordId s) (sys_ActivityId s)
  (sys_ProcessId s) (sys_ThreadId s) x (sys_Computer s).
Definition put_Computer x s := mkSystem (sys_Provider s) (sys_EventId s) (sys_SystemTime s) (sys_EventRecordId s) (sys_ActivityId s)
  (sys_ProcessId s) (sys_ThreadId s) (sys_Channel s) x.

(** The structs [TimeCreated], [Correlation] and [Execution] are decoded into
    the fields of [System] that stand for theirs. *)
Definition dec_System : decoder System := dec_struct
  [(bz "provider", set_field sys_Provider put_Provider dec_Provider);
   (bz "event_id", set_field sys_EventId put_EventId dec_int);
   (bz "time_created", dec_struct [(bz "system_time", set_field sys_SystemTime put_SystemTime dec_time)]);
   (bz "event_record_id", set_field sys_EventRecordId put_EventRecordId dec_int);
   (bz "correlation", dec_struct [(bz "activity_id", set_field sys_ActivityId put_ActivityId (dec_ptr uuid_Nil dec_Guid))]);
   (bz "execution", dec_struct
      [(bz "process_id", set_field sys_ProcessId put_ProcessId (dec_ptr 0 dec_int));
       (bz "thread_id", set_field sys_ThreadId put_ThreadId (dec_ptr 0 dec_int))]);
   (bz "channel", set_field sys_Channel put_Channel dec_string);
   (bz "computer", set_field sys_Computer put_Computer dec_string)].

Definition enc_Event : encoder Event := fun e => enc_struct [(bz "system", enc_System (ev_System e))].
Definition dec_Event : decoder Event := dec_struct
  [(bz "system", set_field ev_System (fun x _ => mkEvent x) dec_System)].

Definition fields_ScrubbedEvent (e : ScrubbedEvent) : list (bytes * result bytes) :=
  [(bz "offchain_hash", enc_string (OffChainHash e)); (bz "event", enc_Event (se_Event e))].
Definition enc_ScrubbedEvent : encoder ScrubbedEvent := fun e => enc_struct (fields_ScrubbedEvent e).
Definition dec_ScrubbedEvent : decoder ScrubbedEvent := dec_struct
  [(bz "offchain_hash", set_field OffChainHash (fun x e => mkScrubbedEvent x (se_Event e)) dec_string);
   (bz "event", set_field se_Event (fun x e => mkScrubbedEvent (OffChainHash e) x) dec_Event)].

Definition enc_Metadata : encoder Metadata := fun m =>
  enc_struct [(bz "event_id", enc_hash (EventId m)); (bz "received_time", enc_time (ReceivedTime m));
    (bz "principal", enc_string (md_Principal m))].
Definition dec_Metadata : decoder Metadata := dec_struct
  [(bz "event_id", set_field EventId (fun x m => mkMetadata x (ReceivedTime m) (md_Principal m)) dec_hash);
   (bz "received_time", set_field ReceivedTime (fun x m => mkMetadata (EventId m) x (md_Principal m)) dec_time);
   (bz "principal", set_field md_Principal (fun x m => mkMetadata (EventId m) (ReceivedTime m) x) dec_string)].

(** The embedded [ScrubbedEvent] has no tag: its fields are fields of the event. *)
Definition enc_EventWithMetadata : encoder EventWithMetadata := fun e =>
  enc_struct (fields_ScrubbedEvent (em_ScrubbedEvent e) ++ [(bz "metadata", enc_Metadata (em_Metadata e))]).
Definition dec_EventWithMetadata : decoder EventWithMetadata := dec_struct
  [(bz "offchain_hash", set_field (fun e => OffChainHash (em_ScrubbedEvent e))
      (fun x e => mkEventWithMetadata (mkScrubbedEvent x (se_Event (em_ScrubbedEvent e))) (em_Metadata e)) dec_string);
   (bz "event", set_field (fun e => se_Event (em_ScrubbedEvent e))
      (fun x e => mkEventWithMetadata (mkScrubbedEvent (OffChainHash (em_ScrubbedEvent e)) x) (em_Metadata e)) dec_Event);
   (bz "metadata", set_field em_Metadata (fun x e => mkEventWithMetadata (em_ScrubbedEvent e) x) dec_Metadata)].

Definition enc_CreateRequest : encoder CreateRequest := fun r =>
  enc_struct [(bz "event", enc_ScrubbedEvent (cr_Event r)); (bz "nonce", enc_uuid (cr_Nonce r))].
Definition dec_CreateRequest : decoder CreateRequest := dec_struct
  [(bz "event", set_field cr_Event (fun x r => mkCreateRequest x (cr_Nonce r)) dec_ScrubbedEvent);
   (bz "nonce", set_field cr_Nonce (fun x r => mkCreateRequest (cr_Event r) x) dec_uuid)].

Definition enc_CreateResponse : encoder CreateResponse := fun r =>
  enc_struct [(bz "metadata", enc_Metadata (cresp_Metadata r))].
Definition dec_CreateResponse : decoder CreateResponse := dec_struct
  [(bz "metadata", set_field cresp_Metadata (fun x _ => mkCreateResponse x) dec_Metadata)].

Definition enc_EventCountResponse : encoder EventCountResponse := fun r => enc_struct [(bz "count", enc_uint (ec_Count r))].
Definition dec_EventCountResponse : decoder EventCountResponse := dec_struct
  [(bz "count", set_field ec_Count (fun x _ => mkEventCountResponse x) dec_uint64)].

Definition zero_System : System := mkSystem (mkProvider None None None) 0 zero_time 0 None None None [] [].
Definition zero_ScrubbedEvent : ScrubbedEvent := mkScrubbedEvent [] (mkEvent zero_System).
Definition zero_Metadata : Metadata := mkMetadata [] zero_time [].

End Events.
End Events.

(** ** Retention policies ([offchain/retentionpolicies.go], [retention/rpc.go]) *)

Module Policies.
Section Policies.
Context `{UuidText}.
Import Events.

Definition enc_duration : encoder Z := enc_marshaler (fun d => Ok (Duration.MarshalJSON d)).
Definition dec_duration : decoder Z := dec_custom Duration.UnmarshalJSON.

Definition enc_Match : encoder Match := fun m =>
  enc_struct [(bz "channel", enc_ptr enc_string (m_Channel m)); (bz "event_id", enc_ptr enc_int (m_EventId m));
    (bz "provider", enc_ptr enc_string (m_ProviderGuid m))].
Definition dec_Match : decoder Match := dec_struct
  [(bz "channel", set_field m_Channel (fun x m => mkMatch x (m_EventId m) (m_ProviderGuid m)) (dec_ptr [] dec_string));
   (bz "event_id", set_field m_EventId (fun x m => mkMatch (m_Channel m) x (m_ProviderGuid m)) (dec_ptr 0 dec_int));
   (bz "provider", set_field m_ProviderGuid (fun x m => mkMatch (m_Channel m) (m_EventId m) x) (dec_ptr [] dec_string))].

Definition enc_PolicyAction : encoder PolicyAction := fun a =>
  enc_struct [(bz "type", enc_string (pa_Type a)); (bz "rule_group", enc_string (pa_RuleGroup a));
    (bz "retention_period", enc_duration (pa_RetentionPeriod a)); (bz "volume", enc_uint (pa_Volume a))].
Definition dec_PolicyAction : decoder PolicyAction := dec_struct
  [(bz "type", set_field pa_Type (fun x a => mkPolicyAction x (pa_RuleGroup a) (pa_RetentionPeriod a) (pa_Volume a)) dec_string);
   (bz "rule_group", set_field pa_RuleGroup (fun x a => mkPolicyAction (pa_Type a) x (pa_RetentionPeriod a) (pa_Volume a)) dec_string);
   (bz "retention_period", set_field pa_RetentionPeriod (fun x a => mkPolicyAction (pa_Type a) (pa_RuleGroup a) x (pa_Volume a)) dec_duration);
   (bz "volume", set_field pa_Volume (fun x a => mkPolicyAction (pa_Type a) (pa_RuleGroup a) (pa_RetentionPeriod a) x) dec_uint64)].

Definition enc_Filter : encoder Filter := fun f =>
  enc_struct [(bz "label", enc_string (f_Label f)); (bz "match", enc_Match (f_Match f)); (bz "policy", enc_PolicyAction (f_PolicyAction f))].
Definition dec_Filter : decoder Filter := dec_struct
  [(bz "label", set_field f_Label (fun x f => mkFilter x (f_Match f) (f_PolicyAction f)) dec_string);
   (bz "match", set_field f_Match (fun x f => mkFilter (f_Label f) x (f_PolicyAction f)) dec_Match);
   (bz "policy", set_field f_PolicyAction (fun x f => mkFilter (f_Label f) (f_Match f) x) dec_PolicyAction)].

Definition zero_Filter : Filter := mkFilter [] (mkMatch None None None) (mkPolicyAction [] [] 0 0).

Definition enc_RetentionPolicy : encoder RetentionPolicy := fun p =>
  enc_struct [(bz "filters", enc_slice enc_Filter (Filters p))].
Definition dec_RetentionPolicy : decoder RetentionPolicy := dec_struct
  [(bz "filters", set_field Filters (fun x _ => mkRetentionPolicy x) (dec_slice zero_Filter dec_Filter))].

Definition enc_StoredPolicy : encoder StoredPolicy := fun p =>
  enc_struct [(bz "policy", enc_RetentionPolicy (spol_Policy p)); (bz "author", enc_string (spol_Author p));
    (bz "applied_at", enc_time (spol_AppliedAt p))].
Definition dec_StoredPolicy : decoder StoredPolicy := dec_struct
  [(bz "policy", set_field spol_Policy (fun x p => mkStoredPolicy x (spol_Author p) (spol_AppliedAt p)) dec_RetentionPolicy);
   (bz "author", set_field spol_Author (fun x p => mkStoredPolicy (spol_Policy p) x (spol_AppliedAt p)) dec_string);
   (bz "applied_at", set_field spol_AppliedAt (fun x p => mkStoredPolicy (spol_Policy p) (spol_Author p) x) dec_time)].

Definition enc_SetPolicyRequest : encoder SetPolicyRequest := fun r =>
  enc_struct [(bz "policy", enc_RetentionPolicy (spr_Policy r)); (bz "nonce", enc_uuid (spr_Nonce r))].
Definition dec_SetPolicyRequest : decoder SetPolicyRequest := dec_struct
  [(bz "policy", set_field spr_Policy (fun x r => mkSetPolicyRequest x (spr_Nonce r)) dec_RetentionPolicy);
   (bz "nonce", set_field spr_Nonce (fun x r => mkSetPolicyRequest (spr_Policy r) x) dec_uuid)].

End Policies.
End Policies.

(** ** Proofs ([common/pkg/proof/tree_proof.go]) *)

(** The Protobuf form of an ICS-23 proof. *)
Class ProofBytes (P : Type) : Type := {
  proof_Marshal : P -> result bytes;
  proof_Unmarshal : bytes -> result P
}.

Class ProofBytesLaws (P : Type) `{ProofBytes P} : Prop := {
  law_proof_bytes p : exists b, proof_Marshal p = Ok b /\ proof_Unmarshal b = Ok p;
  law_proof_Marshal_safe p w : proof_Marshal p <> Panic w;
  law_proof_Unmarshal_safe b w : proof_Unmarshal b <> Panic w
}.

Module Proofs.
Section Proofs.
Context {P : Type} `{ProofBytes P}.

Definition TreeProof_MarshalJSON (t : TreeProof P) : result bytes :=
  let* proofMarshalled := proof_Marshal (tp_Proof t) in
  enc_struct [(bz "app_hash", enc_bytes (tp_AppHash t)); (bz "proof", enc_bytes proofMarshalled)].

Record rawProof : Type := mkRawProof { raw_AppHash : bytes; raw_Proof : bytes }.

Definition TreeProof_UnmarshalJSON (b : bytes) : result (TreeProof P) :=
  let* raw := Unmarshal_into (dec_struct
    [(bz "app_hash", set_field raw_AppHash (fun x r => mkRawProof x (raw_Proof r)) dec_bytes);
     (bz "proof", set_field raw_Proof (fun x r => mkRawProof (raw_AppHash r) x) dec_bytes)]) (mkRawProof [] []) b in
  let* proof := proof_Unmarshal (raw_Proof raw) in
  Ok (mkTreeProof (raw_AppHash raw) proof).

End Proofs.
End Proofs.

(** ** Maps with string keys *)

Module Maps.
Section Maps.
Context {V : Type} (enc : encoder V) (zero : V) (dec : decoder V).

(** A map is written in the order of its keys. *)
Definition enc_map (m : gmap bytes V) : result bytes :=
  enc_struct ((fun '(k, v) => (k, enc v)) <$> merge_sort (fun a b => bytes_le a.1 b.1) (map_to_list m)).

(** Members are added to the map there is. *)
Fixpoint dec_entries (m : gmap bytes V) (ms : list (bytes * bytes)) : result (gmap bytes V) :=
  match ms with
  | [] => Ok m
  | (k, v) :: ms => let* b := dec zero v in dec_entries (<[unquote k := b]> m) ms
  end.

Definition dec_map : decoder (gmap bytes V) := fun old v =>
  if is_null v then Ok ∅
  else match object v with Some ms => dec_entries old ms | None => Err UnmarshalTypeError end.

End Maps.
End Maps.

(** ** The state of the multiplexer ([multiplexer/state.go]) *)

Module State.

Definition enc_hashes : encoder (gmap bytes bytes) := Maps.enc_map enc_bytes.
Definition dec_hashes : decoder (gmap bytes bytes) := Maps.dec_map [] dec_bytes.

Definition enc_State : encoder StateJson := fun s =>
  enc_struct [(bz "size", enc_int (sj_Size s)); (bz "height", enc_int (sj_Height s)); (bz "app_hash", enc_hashes (sj_AppHashes s))].
Definition dec_State : decoder StateJson := dec_struct
  [(bz "size", set_field sj_Size (fun x s => mkStateJson x (sj_Height s) (sj_AppHashes s)) dec_int);
   (bz "height", set_field sj_Height (fun x s => mkStateJson (sj_Size s) x (sj_AppHashes s)) dec_int);
   (bz "app_hash", set_field sj_AppHashes (fun x s => mkStateJson (sj_Size s) (sj_Height s) x) dec_hashes)].

End State.

End JsonTypes.
