(* ===== verification/JsonTypesFacts.v ===== *)
(** * Round trips of the JSON forms

    Every type of the chain is read back from what is written for it, provided
    its strings are UTF-8 and its times can be written; and decoding yields
    only such strings and numbers in range.  These are the laws that [Platform]
    demands of the codecs. *)

From S2P Require Import Prelude Types Text Duration JsonText JsonScan JsonCompact JsonCodec JsonCodecFacts TimeText Platform Bson JsonTypes.
From Corelib Require Import Init.Byte.

Module JsonTypesFacts.
Import JsonText JsonScan JsonScanFacts JsonCompact JsonCodec JsonCodecFacts JsonTypes.

(** ** Texts without escapes *)

Definition plain_char (c : byte) : bool :=
  (0x20 <=? b2z c) && negb (special c) && negb (isc 0x22 c) && negb (isc 0x5C c) && negb (isc 0xE2 c).

Lemma plain_sealed p : forallb plain_char p = true -> sealed p.
Proof.
  induction p as [|c p IH]; [intros _; apply sealed_nil|]. cbn [forallb].
  intros [Hc Hp]%andb_true_iff. unfold plain_char in Hc. rewrite !andb_true_iff, !negb_true_iff, Z.leb_le in Hc.
  destruct Hc as ((((H1 & H2) & H3) & H4) & H5).
  apply sealed_plain; try done; [|by apply IH]. by rewrite H5.
Qed.

Definition literal (p : bytes) : bytes := [x22] ++ p ++ [x22].

(** What a [MarshalJSON] writes in quotes is kept. *)
Lemma plain_literal {A} (m : A -> result bytes) a p : forallb plain_char p = true -> m a = Ok (literal p) ->
  enc_marshaler m a = Ok (literal p) /\ compact_value (literal p) /\ is_null (literal p) = false.
Proof.
  intros Hp Hm. pose proof (compact_string p (plain_sealed p Hp)) as Hc.
  split_and!; [|done|by apply bool_decide_eq_false]. unfold enc_marshaler. rewrite Hm. cbn [res_bind].
  by apply compact_fixed.
Qed.

Lemma forallb_weaken {A} (P Q : A -> bool) l : (forall a, P a = true -> Q a = true) ->
  forallb P l = true -> forallb Q l = true.
Proof. rewrite !List.forallb_forall. auto. Qed.

Lemma literal_middle p : take (length (literal p) - 2) (drop 1 (literal p)) = p.
Proof.
  unfold literal. change (drop 1 ([x22] ++ p ++ [x22])) with (p ++ [x22]). rewrite !length_app. cbn [length].
  replace (1 + (length p + 1) - 2)%nat with (length p) by lia. apply take_app_length.
Qed.

(** ** Times *)

Lemma time_char_plain c : TimeTextFacts.time_char c = true -> plain_char c = true.
Proof.
  unfold TimeTextFacts.time_char. intros [Hd|He]%orb_true_iff.
  - unfold plain_char, special, isc, Strconv.is_digit in *. lia.
  - cbn in He. rewrite !orb_true_iff in He.
    repeat destruct He as [He|He]; try (apply bool_decide_eq_true in He as ->; done). done.
Qed.

Lemma time_ok_printable t : time_ok t <-> TimeTextFacts.printable t.
Proof.
  unfold time_ok, TimeTextFacts.printable, TimeTextFacts.zone_ok, TimeText.local_seconds, TimeText.second.
  change (10 ^ 9) with 1000000000. Z.div_mod_to_equations. lia.
Qed.

Lemma codes_time t : time_ok t -> exists v, codes Events.enc_time Events.dec_time t v /\ is_null v = false.
Proof.
  intros Ht%time_ok_printable. exists (literal (TimeText.format_time t)).
  destruct (plain_literal TimeText.MarshalJSON t (TimeText.format_time t)) as (He & Hc & Hn).
  { exact (forallb_weaken _ _ _ time_char_plain (TimeTextFacts.format_chars t)). }
  { unfold TimeText.MarshalJSON. by rewrite TimeTextFacts.AppendStrict_ok. }
  split; [|done]. split_and!; [done|done|]. intros old. unfold Events.dec_time, TimeText.UnmarshalJSON.
  unfold is_null, null in Hn. rewrite Hn, literal_middle.
  replace (length (literal (TimeText.format_time t)) <? 2)%nat with false
    by (symmetry; apply Nat.ltb_ge; unfold literal; rewrite !length_app; cbn; lia).
  change (head (literal (TimeText.format_time t))) with (Some x22). rewrite bool_decide_true by done.
  assert (nth (length (literal (TimeText.format_time t)) - 1) (literal (TimeText.format_time t)) x00 = x22) as ->.
  { unfold literal. rewrite app_assoc, length_app. cbn [length]. rewrite Nat.add_sub. apply nth_middle. }
  rewrite bool_decide_true by done. cbn [orb negb]. by apply TimeTextFacts.parse_format.
Qed.

Lemma dec_time_minutes old v t : offset old mod 60 = 0 -> Events.dec_time old v = Ok t -> offset t mod 60 = 0.
Proof.
  intros Ho. unfold Events.dec_time, TimeText.UnmarshalJSON. case_bool_decide; [by intros [= <-]|].
  destruct (_ || _ || _); [done|]. apply TimeTextFacts.parse_minutes.
Qed.

Lemma enc_time_ok t v : Events.enc_time t = Ok v -> offset t mod 60 = 0 -> time_ok t.
Proof.
  unfold Events.enc_time, enc_marshaler, TimeText.MarshalJSON. intros (b & (b' & Ha & _)%res_bind_ok & _)%res_bind_ok Hm.
  apply TimeTextFacts.AppendStrict_inv in Ha as (_ & Hy & Ho). by apply time_ok_printable.
Qed.

(** ** Hashes, UUIDs and durations *)

Lemma hex_digit_plain c : Hex.lower_hex_digit c = true -> plain_char c = true.
Proof. unfold Hex.lower_hex_digit, plain_char, special, isc. lia. Qed.

Lemma plain_hex b : forallb plain_char (Hex.EncodeToString b) = true.
Proof. exact (forallb_weaken _ _ _ hex_digit_plain (Hex.encode_lower b)). Qed.

Lemma plain_valid p : forallb (fun c => b2z c <? 0x80) p = true -> Utf8.Valid p = true.
Proof. induction p as [|c p IH]; [done|]. cbn. intros [-> Hp]%andb_true_iff. auto. Qed.

Lemma hex_valid b : Utf8.Valid (Hex.EncodeToString b) = true.
Proof.
  apply plain_valid. refine (forallb_weaken _ _ _ _ (Hex.encode_lower b)). intros c. unfold Hex.lower_hex_digit. lia.
Qed.

Lemma codes_hash h : exists v, codes Events.enc_hash Events.dec_hash h v /\ is_null v = false.
Proof.
  exists (literal (Hex.EncodeToString h)).
  destruct (plain_literal TxHash.MarshalJSON h _ (plain_hex h) eq_refl) as (He & Hc & Hn).
  split; [|done]. split_and!; [done|done|]. intros old. apply TxHash.UnmarshalJSON_trims.
Qed.

Section Uuid.
Context `{UuidLaws}.

Lemma uuid_char_plain c : Hex.lower_hex_digit c || bool_decide (c = "-"%byte) = true -> plain_char c = true /\ b2z c <? 0x80 = true.
Proof.
  intros [Hc|Hc]%orb_true_iff.
  - split; [by apply hex_digit_plain|]. unfold Hex.lower_hex_digit in Hc. lia.
  - by apply bool_decide_eq_true in Hc as ->.
Qed.

Lemma codes_Guid g : uuid_ok g -> exists v, codes Events.enc_Guid Events.dec_Guid g v /\ is_null v = false.
Proof.
  intros Hg. exists (literal (Guid.braced g)).
  destruct (plain_literal Guid.MarshalJSON g (Guid.braced g)) as (He & Hc & Hn); [|done|].
  { unfold Guid.braced. rewrite !forallb_app. rewrite (forallb_weaken _ _ _ (fun c Hc => proj1 (uuid_char_plain c Hc)) (law_uuid_chars g)). done. }
  split; [|done]. split_and!; [done|done|]. intros old. unfold Events.dec_Guid.
  destruct (Guid.guid_json_round_trip g Hg) as (b & Hb & Hu).
  change (Guid.MarshalJSON g) with (Ok (literal (Guid.braced g))) in Hb.
  assert (literal (Guid.braced g) = b) as -> by congruence. by rewrite Hu.
Qed.

Lemma dec_Guid_ok old v g : uuid_ok old -> Events.dec_Guid old v = Ok g -> uuid_ok g.
Proof.
  intros Ho. unfold Events.dec_Guid, Guid.UnmarshalJSON. case_bool_decide; [by intros [= <-]|].
  destruct (negb _); [done|]. intros (o & (u & Hu & [= <-])%res_bind_ok & [= <-])%res_bind_ok.
  by eapply law_uuid_parsed.
Qed.

Lemma codes_uuid u : uuid_ok u -> codes Events.enc_uuid Events.dec_uuid u (quote (uuid_String u)).
Proof.
  intros Hu. split_and!; [done|apply quote_compact|]. intros old. unfold Events.dec_uuid, dec_text.
  rewrite string_text_quote, unquote_quote_body; [by apply law_uuid_parse|].
  apply plain_valid. exact (forallb_weaken _ _ _ (fun c Hc => proj2 (uuid_char_plain c Hc)) (law_uuid_chars u)).
Qed.

Lemma dec_uuid_ok old v u : uuid_ok old -> Events.dec_uuid old v = Ok u -> uuid_ok u.
Proof.
  intros Ho. unfold Events.dec_uuid, dec_text. destruct (string_text v); [apply law_uuid_parsed|].
  destruct (is_null v); [by intros [= <-]|done].
Qed.

End Uuid.

(** ** Structs *)

Lemma dec_named_cons {A} (fs : list (field A)) k v kvs set a a' r :
  find_field fs k = Some set -> set a v = Ok a' -> dec_named fs a' kvs = r -> dec_named fs a ((k, v) :: kvs) = r.
Proof. intros Hf Hs Hr. cbn. by rewrite Hf, Hs. Qed.

Lemma dec_named_skip {A} (fs : list (field A)) k v kvs a r :
  find_field fs k = None -> dec_named fs a kvs = r -> dec_named fs a ((k, v) :: kvs) = r.
Proof. intros Hf Hr. cbn. by rewrite Hf. Qed.

Lemma set_field_ok {A B} (get : A -> B) put (dec : decoder B) a v b :
  (forall old, dec old v = Ok b) -> set_field get put dec a v = Ok (put b a).
Proof. intros Hd. unfold set_field. by rewrite Hd. Qed.

(** Collect what is written for each field, then write and read the struct. *)
Ltac field H := let v := fresh "v" in let E := fresh "E" in let C := fresh "C" in let D := fresh "D" in
  destruct H as (v & E & C & D).

Ltac each := repeat (apply List.Forall_cons; [first [assumption | reflexivity]|]); apply List.Forall_nil.

Ltac read_field :=
  first
  [ eapply dec_named_cons; [reflexivity | |];
    [first [ apply set_field_ok; eassumption
           | rewrite dec_struct_object by each; repeat read_field; reflexivity ]|]
  | eapply dec_named_skip; [reflexivity|] ].

Ltac write_fields := unfold enc_struct; try unfold Events.fields_ScrubbedEvent; cbn [enc_fields app];
  repeat match goal with E : _ = Ok _ |- _ => rewrite E; cbn [res_bind] end; reflexivity.

Tactic Notation "struct" reference(enc) constr(a) constr(kvs) :=
  exists (render_object (named <$> kvs)); apply codes_struct;
  [unfold enc; write_fields | each | each
  | intros old; repeat read_field; first [by destruct a | by destruct a as [[] ?]]].

Lemma codable_string s : utf8 s -> codable enc_string dec_string s.
Proof. intros Hs. eexists. by apply codes_string. Qed.

Lemma codable_opt_string p : opt_all utf8 p -> codable (enc_ptr enc_string) (dec_ptr [] dec_string) p.
Proof.
  intros Hp. apply codable_ptr. intros a ->. exists (quote a). split; [by apply codes_string|apply quote_not_null].
Qed.

Lemma codable_int n : in_s 64 n -> codable enc_int dec_int n.
Proof. intros Hn. eexists. by apply codes_int. Qed.

Lemma codable_opt_int p : opt_all (in_s 64) p -> codable (enc_ptr enc_int) (dec_ptr 0 dec_int) p.
Proof.
  intros Hp. apply codable_ptr. intros a ->. eexists. split; [by apply codes_int|apply int_not_null].
Qed.

Lemma codable_uint n : in_u 64 n -> codable enc_uint dec_uint64 n.
Proof. intros Hn. eexists. by apply codes_uint. Qed.

(** *** Requests *)

Definition raw_ok (b : bytes) : Prop := compact_value b.

Lemma codable_raw b : raw_ok b -> codable enc_raw dec_raw b.
Proof. intros Hb. exists b. apply codes_raw; [by apply compact_not_nil|done]. Qed.

Lemma codable_Payload p : utf8 (p_Type p) -> raw_ok (p_Data p) -> codable Requests.enc_Payload Requests.dec_Payload p.
Proof.
  intros Ht Hd. field (codable_string _ Ht). field (codable_raw _ Hd).
  struct Requests.enc_Payload p [(bz "type", v); (bz "data", v0)].
Qed.

Lemma codable_UnsignedPayload p : utf8 (p_Type (up_Payload p)) -> raw_ok (p_Data (up_Payload p)) ->
  codable Requests.enc_UnsignedPayload Requests.dec_UnsignedPayload p.
Proof.
  intros Ht Hd. field (codable_Payload _ Ht Hd). struct Requests.enc_UnsignedPayload p [(bz "payload", v)].
Qed.

Lemma codable_SignedPayload p : request_strings p -> raw_ok (p_Data (sp_Payload p)) ->
  codable Requests.enc_SignedPayload Requests.dec_SignedPayload p.
Proof.
  intros (Ht & Hp & Hs) Hd. field (codable_Payload _ Ht Hd). field (codable_string _ Hp). field (codable_string _ Hs).
  struct Requests.enc_SignedPayload p [(bz "payload", v); (bz "principal", v0); (bz "signature", v1)].
Qed.

Lemma codable_MuxedRequest r : utf8 (mr_App r) -> raw_ok (mr_Data r) ->
  codable Requests.enc_MuxedRequest Requests.dec_MuxedRequest r.
Proof.
  intros Ha Hd. field (codable_string _ Ha). field (codable_raw _ Hd).
  struct Requests.enc_MuxedRequest r [(bz "app", v); (bz "data", v0)].
Qed.

(** *** Identities *)

(** A type whose methods go through another struct. *)
Lemma custom_round_trip {A B} (m : A -> result bytes) (u : bytes -> result A) (enc : encoder B) (fs : list (field B))
    (zero b : B) (finish : B -> result A) a :
  m a = enc b -> (forall data, u data = let* x := Unmarshal_into (dec_struct fs) zero data in finish x) ->
  codable enc (dec_struct fs) b -> finish b = Ok a -> codable (enc_marshaler m) (dec_custom u) a.
Proof.
  intros Hm Hu (v & He & Hc & Hd) Hf. exists v. split_and!; [|done|].
  - unfold enc_marshaler. rewrite Hm, He. by apply compact_fixed.
  - intros old. unfold dec_custom. by rewrite Hu, Unmarshal_value, Hd.
Qed.

Lemma codable_IdentityData i : utf8 (id_Role i) ->
  codable (enc_marshaler Identity.IdentityData_MarshalJSON) (dec_custom Identity.IdentityData_UnmarshalJSON) i.
Proof.
  intros Hr. set (enc := fun a => enc_struct [(bz "public_key", enc_string (Identity.aux_PublicKey a));
    (bz "role", enc_string (Identity.aux_Role a))]).
  eapply (custom_round_trip _ _ enc) with (b := Identity.mkAuxIdentity (Hex.EncodeToString (PublicKey i)) (id_Role i));
    [done|done| |].
  - set (b := Identity.mkAuxIdentity _ _). field (codable_string (Identity.aux_PublicKey b) (hex_valid _)).
    field (codable_string (Identity.aux_Role b) Hr). struct enc b [(bz "public_key", v); (bz "role", v0)].
  - cbn. rewrite Hex.decode_encode. by destruct i.
Qed.

Lemma codable_PayloadSeed p : utf8 (seed_Principal p) ->
  codable (enc_marshaler Identity.PayloadSeed_MarshalJSON) (dec_custom Identity.PayloadSeed_UnmarshalJSON) p.
Proof.
  intros Hp. set (enc := fun a => enc_struct [(bz "principal", enc_string (Identity.as_Principal a));
    (bz "key", enc_string (Identity.as_Key a))]).
  eapply (custom_round_trip _ _ enc) with (b := Identity.mkAuxSeed (seed_Principal p) (Hex.EncodeToString (seed_Key p)));
    [done|done| |].
  - set (b := Identity.mkAuxSeed _ _). field (codable_string (Identity.as_Principal b) Hp).
    field (codable_string (Identity.as_Key b) (hex_valid _)). struct enc b [(bz "principal", v); (bz "key", v0)].
  - cbn. rewrite Hex.decode_encode. by destruct p.
Qed.

Lemma uuid_text_valid `{UuidLaws} u : Utf8.Valid (uuid_String u) = true.
Proof.
  apply plain_valid. exact (forallb_weaken _ _ _ (fun c Hc => proj2 (uuid_char_plain c Hc)) (law_uuid_chars u)).
Qed.

(** The nonce is written, and ignored when it is read. *)
Lemma codable_PayloadRegister `{UuidLaws} nonce p : utf8 (reg_Principal p) -> utf8 (reg_Role p) ->
  codable (enc_marshaler (Identity.PayloadRegister_MarshalJSON nonce)) (dec_custom Identity.PayloadRegister_UnmarshalJSON) p.
Proof.
  intros Hp Hr. set (enc := fun a => enc_struct [(bz "principal", enc_string (Identity.ar_Principal a));
    (bz "role", enc_string (Identity.ar_Role a)); (bz "public_key", enc_string (Identity.ar_Key a));
    (bz "nonce", enc_string (uuid_String nonce))]).
  eapply (custom_round_trip _ _ enc)
    with (b := Identity.mkAuxRegister (reg_Principal p) (reg_Role p) (Hex.EncodeToString (reg_Key p))); [done|done| |].
  - set (b := Identity.mkAuxRegister _ _ _). field (codable_string (Identity.ar_Principal b) Hp).
    field (codable_string (Identity.ar_Role b) Hr). field (codable_string (Identity.ar_Key b) (hex_valid _)).
    field (codable_string (uuid_String nonce) (uuid_text_valid _)).
    struct enc b [(bz "principal", v); (bz "role", v0); (bz "public_key", v1); (bz "nonce", v2)].
  - cbn. rewrite Hex.decode_encode. by destruct p.
Qed.

(** *** Events *)

Section Events.
Context `{UuidLaws}.

Lemma codable_time t : time_ok t -> codable Events.enc_time Events.dec_time t.
Proof. intros Ht. destruct (codes_time t Ht) as (v & Hv & _). by exists v. Qed.

Lemma codable_hash h : codable Events.enc_hash Events.dec_hash h.
Proof. destruct (codes_hash h) as (v & Hv & _). by exists v. Qed.

Lemma codable_opt_Guid p : opt_all uuid_ok p -> codable (enc_ptr Events.enc_Guid) (dec_ptr uuid_Nil Events.dec_Guid) p.
Proof. intros Hp. apply codable_ptr. intros g ->. by apply codes_Guid. Qed.

Lemma codable_uuid u : uuid_ok u -> codable Events.enc_uuid Events.dec_uuid u.
Proof. intros Hu. eexists. by apply codes_uuid. Qed.

Lemma codable_Provider p : provider_ok p -> codable Events.enc_Provider Events.dec_Provider p.
Proof.
  intros (Hn & Hg & Hs). field (codable_opt_string _ Hn). field (codable_opt_Guid _ Hg). field (codable_opt_string _ Hs).
  struct Events.enc_Provider p [(bz "name", v); (bz "guid", v0); (bz "event_source_name", v1)].
Qed.

Lemma codable_System s : system_ok s -> codable Events.enc_System Events.dec_System s.
Proof.
  intros (Hp & He & Ht & Hr & Ha & Hpid & Htid & Hch & Hco).
  field (codable_Provider _ Hp). field (codable_int _ He). field (codable_time _ Ht). field (codable_int _ Hr).
  field (codable_opt_Guid _ Ha). field (codable_opt_int _ Hpid). field (codable_opt_int _ Htid).
  field (codable_string _ Hch). field (codable_string _ Hco).
  assert (compact_value (render_object (named <$> [(bz "system_time", v1)]))) by (apply struct_compact; each).
  assert (compact_value (render_object (named <$> [(bz "activity_id", v3)]))) by (apply struct_compact; each).
  assert (compact_value (render_object (named <$> [(bz "process_id", v4); (bz "thread_id", v5)]))) by (apply struct_compact; each).
  struct Events.enc_System s [(bz "provider", v); (bz "event_id", v0);
    (bz "time_created", render_object (named <$> [(bz "system_time", v1)])); (bz "event_record_id", v2);
    (bz "correlation", render_object (named <$> [(bz "activity_id", v3)]));
    (bz "execution", render_object (named <$> [(bz "process_id", v4); (bz "thread_id", v5)]));
    (bz "channel", v6); (bz "computer", v7)].
Qed.

Lemma codable_Event e : system_ok (ev_System e) -> codable Events.enc_Event Events.dec_Event e.
Proof. intros He. field (codable_System _ He). struct Events.enc_Event e [(bz "system", v)]. Qed.

Lemma codable_ScrubbedEvent e : representable e -> codable Events.enc_ScrubbedEvent Events.dec_ScrubbedEvent e.
Proof.
  intros [Ho He]. field (codable_string _ Ho). field (codable_Event _ He).
  struct Events.enc_ScrubbedEvent e [(bz "offchain_hash", v); (bz "event", v0)].
Qed.

Lemma codable_Metadata m : representable m -> codable Events.enc_Metadata Events.dec_Metadata m.
Proof.
  intros [Ht Hp]. field (codable_hash (EventId m)). field (codable_time _ Ht). field (codable_string _ Hp).
  struct Events.enc_Metadata m [(bz "event_id", v); (bz "received_time", v0); (bz "principal", v1)].
Qed.

Lemma codable_EventWithMetadata e : representable e ->
  codable Events.enc_EventWithMetadata Events.dec_EventWithMetadata e.
Proof.
  intros [[Ho He] Hm]. field (codable_string _ Ho). field (codable_Event _ He). field (codable_Metadata _ Hm).
  struct Events.enc_EventWithMetadata e [(bz "offchain_hash", v); (bz "event", v0); (bz "metadata", v1)].
Qed.

Lemma codable_CreateRequest r : representable r -> codable Events.enc_CreateRequest Events.dec_CreateRequest r.
Proof.
  intros [He Hn]. field (codable_ScrubbedEvent _ He). field (codable_uuid _ Hn).
  struct Events.enc_CreateRequest r [(bz "event", v); (bz "nonce", v0)].
Qed.

Lemma codable_CreateResponse r : representable r -> codable Events.enc_CreateResponse Events.dec_CreateResponse r.
Proof. intros Hr. field (codable_Metadata _ Hr). struct Events.enc_CreateResponse r [(bz "metadata", v)]. Qed.

Lemma codable_EventCountResponse r : representable r ->
  codable Events.enc_EventCountResponse Events.dec_EventCountResponse r.
Proof. intros Hr. field (codable_uint _ Hr). struct Events.enc_EventCountResponse r [(bz "count", v)]. Qed.

End Events.

(** *** The state of the multiplexer *)

Section Maps.
Context {V : Type} (enc : encoder V) (zero : V) (dec : decoder V) (text : V -> bytes).

Definition entry (kv : bytes * V) : bytes * bytes := (fst kv, text (snd kv)).
Definition entry_ok (kv : bytes * V) : Prop := utf8 (fst kv) /\ codes enc dec (snd kv) (text (snd kv)).

Definition sorted_entries (m : gmap bytes V) : list (bytes * V) :=
  merge_sort (fun a b : bytes * V => bytes_le a.1 b.1) (map_to_list m).

Lemma dec_entries_named (kvs : list (bytes * V)) : forall m : gmap bytes V,
  NoDup kvs.*1 -> Forall entry_ok kvs ->
  Maps.dec_entries zero dec m (named <$> (entry <$> kvs)) = Ok (list_to_map kvs ∪ m).
Proof.
  induction kvs as [|[k b] kvs IH]; intros m Hnd Hf; [by rewrite list_to_map_nil, (left_id_L ∅ (∪))|].
  inversion Hf as [|? ? [Hk (_ & _ & Hd)] Hf']; subst. cbn [fmap list_fmap fst] in Hnd. inversion Hnd as [|? ? Hni Hnd']; subst.
  change (named <$> (entry <$> (k, b) :: kvs)) with ((quote_body k, text b) :: (named <$> (entry <$> kvs))).
  cbn [Maps.dec_entries]. cbn [snd] in Hd. rewrite Hd. cbn [res_bind].
  rewrite unquote_quote_body by exact Hk. rewrite IH by done. f_equal. cbn [list_to_map foldr uncurry fst snd].
  change (foldr _ ∅ kvs) with (list_to_map (M := gmap bytes V) kvs).
  rewrite <- insert_union_l. symmetry. apply insert_union_r. by apply not_elem_of_list_to_map_1.
Qed.

Lemma enc_map_ok m : Forall entry_ok (sorted_entries m) ->
  Maps.enc_map enc m = Ok (render_object (named <$> (entry <$> sorted_entries m))).
Proof.
  unfold Maps.enc_map, enc_struct. fold (sorted_entries m). generalize (sorted_entries m) as l.
  intros l Hl. assert (enc_fields ((fun '(k, v) => (k, enc v)) <$> l) = Ok (named <$> (entry <$> l))) as ->; [|done].
  induction Hl as [|[k b] l [_ (He & _)] _ IH]; [done|]. cbn in *. rewrite He. cbn. by rewrite IH.
Qed.

Lemma compact_entries m : Forall entry_ok (sorted_entries m) ->
  Forall (fun kv => compact_value (snd kv)) (entry <$> sorted_entries m).
Proof. intros Hl. apply Forall_fmap. eapply List.Forall_impl; [|exact Hl]. by intros kv (_ & _ & Hc & _). Qed.

Lemma dec_map_ok m : Forall entry_ok (sorted_entries m) ->
  Maps.dec_map zero dec ∅ (render_object (named <$> (entry <$> sorted_entries m))) = Ok m.
Proof.
  intros Hm. unfold Maps.dec_map. rewrite object_not_null, object_render.
  2:{ apply Forall_fmap. eapply List.Forall_impl; [|by apply compact_entries]. intros kv [Hv _]. split; [apply quote_inner|done]. }
  assert (sorted_entries m ≡ₚ map_to_list m) as Hp by apply merge_sort_Permutation.
  rewrite dec_entries_named; [|rewrite Hp; apply NoDup_fst_map_to_list|done].
  rewrite (right_id_L ∅ (∪)). f_equal. rewrite <- (list_to_map_to_list m) at 2. apply list_to_map_proper; [|done].
  rewrite Hp. apply NoDup_fst_map_to_list.
Qed.

(** The entries of a map are those of its list. *)
Lemma entries_ok m : map_Forall (fun k v => utf8 k /\ codes enc dec v (text v)) m -> Forall entry_ok (sorted_entries m).
Proof.
  intros Hm. assert (sorted_entries m ≡ₚ map_to_list m) as Hp by apply merge_sort_Permutation. rewrite Hp.
  apply List.Forall_forall. intros [k b] Hin. apply list_elem_of_In, elem_of_map_to_list in Hin. by apply (Hm k b).
Qed.

End Maps.

Definition hash_text (b : bytes) : bytes := quote (Base64.EncodeToString b).

Lemma State_round_trip s : representable s ->
  exists b, State.enc_State s = Ok b /\ b <> [] /\ Unmarshal_into State.dec_State (mkStateJson 0 0 ∅) b = Ok s.
Proof.
  intros (Hs & Hh & Hm). field (codable_int _ Hs). field (codable_int _ Hh).
  assert (Forall (entry_ok enc_bytes dec_bytes hash_text) (sorted_entries (sj_AppHashes s))) as Hok
    by (apply entries_ok; intros k b Hb; split; [by apply (Hm k b)|apply codes_bytes]).
  pose proof (enc_map_ok _ _ _ _ Hok) as E1. pose proof (struct_compact _ (compact_entries _ _ _ _ Hok)) as C1.
  pose proof (dec_map_ok _ [] _ _ _ Hok) as D1.
  set (v1 := render_object (named <$> (entry hash_text <$> sorted_entries (sj_AppHashes s)))) in *.
  set (kvs := [(bz "size", v); (bz "height", v0); (bz "app_hash", v1)]).
  assert (compact_value (render_object (named <$> kvs))) as Hc by (apply struct_compact; each).
  exists (render_object (named <$> kvs)). split_and!; [unfold State.enc_State, State.enc_hashes; write_fields|by apply compact_not_nil|].
  rewrite Unmarshal_value by done. unfold State.dec_State. rewrite dec_struct_object by each.
  repeat read_field. eapply dec_named_cons; [reflexivity| |].
  - unfold set_field, State.dec_hashes. cbn [sj_AppHashes]. by rewrite D1.
  - by destruct s.
Qed.

(** *** Durations *)

Lemma digit_plain c : Strconv.is_digit c = true -> plain_char c = true.
Proof. unfold Strconv.is_digit, plain_char, special, isc. lia. Qed.

Lemma plain_uint n : 0 <= n -> forallb plain_char (Strconv.FormatUint n) = true.
Proof.
  intros Hn. destruct (Strconv.FormatUint_spec n Hn) as (_ & Hd & _). exact (forallb_weaken _ _ _ digit_plain Hd).
Qed.

Lemma plain_frac prec : forall v print acc, 0 <= v -> forallb plain_char acc = true ->
  let '(_, v', acc') := Duration.fmtFrac_loop prec v print acc in 0 <= v' /\ forallb plain_char acc' = true.
Proof.
  induction prec as [|prec IH]; intros v print acc Hv Ha; [done|]. cbn [Duration.fmtFrac_loop]. cbv zeta.
  pose proof (Z.mod_pos_bound v 10 eq_refl). apply IH; [apply Z.div_pos; lia|].
  destruct (_ || _); [|done]. cbn [forallb]. rewrite Ha, digit_plain; [done|]. by apply Strconv.is_digit_char.
Qed.

Lemma plain_fmtFrac v prec : 0 <= v ->
  let '(v', frac) := Duration.fmtFrac v prec in 0 <= v' /\ forallb plain_char frac = true.
Proof.
  intros Hv. unfold Duration.fmtFrac. pose proof (plain_frac prec v false [] Hv eq_refl) as Hp.
  destruct (Duration.fmtFrac_loop prec v false []) as [[print v'] acc]. destruct Hp as [Hv' Ha]. split; [done|].
  destruct print; [|done]. cbn [forallb]. by rewrite Ha.
Qed.

Lemma plain_format u : 0 <= u -> forallb plain_char (Duration.format u) = true.
Proof.
  intros Hu. unfold Duration.format. destruct (u <? Duration.Second).
  - destruct (u =? 0); [done|].
    destruct (if u <? Duration.Microsecond then _ else _) as [prec suffix] eqn:E.
    assert (forallb plain_char suffix = true) as Hs
      by (destruct (u <? Duration.Microsecond); [|destruct (u <? Duration.Millisecond)]; by injection E as <- <-).
    pose proof (plain_fmtFrac u prec Hu) as Hf. destruct (Duration.fmtFrac u prec) as [v frac]. destruct Hf as [Hv Hf].
    by rewrite !forallb_app, plain_uint, Hf, Hs.
  - pose proof (plain_fmtFrac u 9 Hu) as Hf. destruct (Duration.fmtFrac u 9) as [secs frac]. destruct Hf as [Hv Hf].
    pose proof (Z.mod_pos_bound secs 60 eq_refl). pose proof (Z.mod_pos_bound (secs / 60) 60 eq_refl).
    destruct (0 <? secs / 60); [destruct (0 <? secs / 60 / 60) eqn:Eh|];
      rewrite !forallb_app, !plain_uint, Hf by lia; done.
Qed.

Lemma plain_duration d : forallb plain_char (Duration.String d) = true.
Proof.
  unfold Duration.String. destruct (d <? 0) eqn:E; [|apply plain_format; lia].
  cbn [forallb]. rewrite plain_format by lia. done.
Qed.

(** A duration is written as it prints, and read by parsing that. *)
Lemma duration_written d : Policies.enc_duration d = Ok (Duration.MarshalJSON d) /\ compact_value (Duration.MarshalJSON d).
Proof.
  destruct (plain_literal (fun d => Ok (Duration.MarshalJSON d)) d _ (plain_duration d) eq_refl) as (He & Hc & _). done.
Qed.

Lemma codable_duration d : in_s 64 d -> Duration.survives d -> codable Policies.enc_duration Policies.dec_duration d.
Proof.
  intros Hd Hs. exists (Duration.MarshalJSON d). destruct (duration_written d) as [He Hc]. split_and!; [done|done|].
  intros old. unfold Policies.dec_duration, dec_custom.
  by rewrite Duration.UnmarshalJSON_MarshalJSON, Duration.String_survives.
Qed.

Lemma add_group_range d g u n : in_s 64 d -> Duration.add_group d g u = Ok n -> in_s 64 n.
Proof.
  intros Hd. unfold Duration.add_group. case_bool_decide; [by intros [= <-]|].
  intros (m & _ & [= <-])%res_bind_ok. by apply swrap_bound.
Qed.

Lemma parseDuration_range s d : Duration.parseDuration s = Ok d -> in_s 64 d.
Proof.
  unfold Duration.parseDuration. case_bool_decide; [by intros [= <-]|].
  destruct (Duration.match_groups _ s) as [l|]; [|done].
  do 8 (destruct l as [|? l]; [try done|]); [|done]. intros E.
  repeat (apply res_bind_ok in E as (? & ?%add_group_range & E); [|done]). by eapply add_group_range.
Qed.

(** *** Policies *)

Section Policies.
Context `{UuidLaws}.

Lemma codable_Match m : match_ok m -> codable Policies.enc_Match Policies.dec_Match m.
Proof.
  intros (Hc & He & Hp). field (codable_opt_string _ Hc). field (codable_opt_int _ He). field (codable_opt_string _ Hp).
  struct Policies.enc_Match m [(bz "channel", v); (bz "event_id", v0); (bz "provider", v1)].
Qed.

Lemma codable_Filter f : filter_ok f -> codable Policies.enc_Filter Policies.dec_Filter f.
Proof.
  intros [(Hl & Hm & Ht & Hg & Hp & Hv) Hs].
  assert (codable Policies.enc_PolicyAction Policies.dec_PolicyAction (f_PolicyAction f)) as Ha.
  { field (codable_string _ Ht). field (codable_string _ Hg). field (codable_duration _ Hp Hs). field (codable_uint _ Hv).
    struct Policies.enc_PolicyAction (f_PolicyAction f)
      [(bz "type", v); (bz "rule_group", v0); (bz "retention_period", v1); (bz "volume", v2)]. }
  field (codable_string _ Hl). field (codable_Match _ Hm). field Ha.
  struct Policies.enc_Filter f [(bz "label", v); (bz "match", v0); (bz "policy", v1)].
Qed.

Lemma codable_RetentionPolicy p : representable p -> codable Policies.enc_RetentionPolicy Policies.dec_RetentionPolicy p.
Proof.
  intros Hp. assert (Forall (codable Policies.enc_Filter Policies.dec_Filter) (Filters p)) as Hf
    by (eapply List.Forall_impl; [apply codable_Filter|exact Hp]).
  field (codable_slice Policies.zero_Filter _ _ _ Hf). struct Policies.enc_RetentionPolicy p [(bz "filters", v)].
Qed.

Lemma codable_StoredPolicy p : representable p -> codable Policies.enc_StoredPolicy Policies.dec_StoredPolicy p.
Proof.
  intros (Hp & Ha & Ht). field (codable_RetentionPolicy _ Hp). field (codable_string _ Ha). field (codable_time _ Ht).
  struct Policies.enc_StoredPolicy p [(bz "policy", v); (bz "author", v0); (bz "applied_at", v1)].
Qed.

End Policies.

End JsonTypesFacts.
