(* ===== verification/JsonDecoded.v ===== *)
(** * What decoding JSON guarantees

    The decoders never panic, and whatever text they accept, the strings they
    return are UTF-8, the integers in range, the identifiers sixteen bytes and
    the offsets of times whole minutes. *)

From S2P Require Import Prelude Types Text Duration TimeText JsonText JsonScan JsonCompact JsonCodec JsonCodecFacts Platform Bson JsonTypes JsonTypesFacts.
From Corelib Require Import Init.Byte.

Module JsonDecoded.
Import JsonText JsonScan JsonCodec JsonCodecFacts JsonTypes JsonTypesFacts.

(** ** Panics *)

Lemma safe_set_field {A B} (get : A -> B) put dec a v :
  (forall old v, safe (dec old v)) -> safe (set_field get put dec a v).
Proof. intros Hd. by apply safe_bind. Qed.

Lemma safe_quanta n : forall s, (length s <= n)%nat -> safe (Base64.decode_quanta s).
Proof.
  induction n as [|n IH]; intros s Hn; [destruct s; [done|cbn in Hn; lia]|]. destruct s as [|a [|b [|c [|d s]]]]; try done.
  cbn [Base64.decode_quanta]. cbn in Hn. repeat (case_match; try done); apply safe_bind; try done; apply IH; lia.
Qed.

Lemma safe_Base64 s : safe (Base64.DecodeString s).
Proof. unfold Base64.DecodeString. by eapply safe_quanta. Qed.

Lemma safe_Hex s : safe (Hex.DecodeString s).
Proof. unfold safe. destruct (Hex.DecodeString s) eqn:E; try done. by apply Hex.decode_no_panic in E. Qed.

Lemma safe_uint8s vs : safe (dec_uint8s vs).
Proof.
  induction vs as [|v vs IH]; [done|]. cbn. apply safe_bind; [apply safe_dec_uint64|]. intros n.
  destruct (_ <? _); [done|]. by apply safe_bind.
Qed.

Lemma safe_dec_bytes old v : safe (dec_bytes old v).
Proof.
  unfold dec_bytes. destruct (string_text v); [apply safe_Base64|]. destruct (is_null v); [done|].
  destruct (array v); [apply safe_uint8s|done].
Qed.

Lemma safe_getnum s fixed : safe (DateTime.getnum s fixed).
Proof. unfold DateTime.getnum. by repeat case_match. Qed.

Lemma safe_dec_time old v : safe (Events.dec_time old v).
Proof.
  unfold Events.dec_time, TimeText.UnmarshalJSON. case_bool_decide; [done|]. destruct (_ || _ || _); [done|].
  unfold TimeText.ParseRFC3339, TimeText.zone, DateTime.getyear, DateTime.skip, DateTime.in_range.
  repeat first [ apply safe_bind; [try apply safe_getnum|intros] | case_match | done ].
Qed.

Lemma safe_dec_hash old v : safe (Events.dec_hash old v).
Proof.
  unfold Events.dec_hash, dec_custom, TxHash.UnmarshalJSON. destruct (_ <? _) eqn:E; [done|].
  unfold slice_cap. change (zlen (@nil byte)) with 0. apply Z.ltb_ge in E. replace (_ && _ && _) with true by lia.
  cbn [res_bind]. apply safe_Hex.
Qed.

Lemma safe_add_group d g u : safe (Duration.add_group d g u).
Proof.
  unfold Duration.add_group. case_bool_decide; [done|]. apply safe_bind; [|done].
  unfold Strconv.Atoi, Strconv.ParseInt. by repeat case_match.
Qed.

Lemma safe_dec_duration old v : safe (Policies.dec_duration old v).
Proof.
  unfold Policies.dec_duration, dec_custom, Duration.UnmarshalJSON. destruct (zlen v <? 2) eqn:E; [done|].
  apply Z.ltb_ge in E. assert (forall i, 0 <= i < zlen v -> safe (index v i)) as Hi.
  { intros i Hi. unfold index. rewrite (proj2 (Z.leb_le _ _)) by lia.
    destruct (lookup_lt_is_Some_2 v (Z.to_nat i)) as [x ->]; [unfold zlen in Hi; lia|done]. }
  apply safe_bind; [apply Hi; lia|]. intros c. destruct (negb _); [done|].
  apply safe_bind; [apply Hi; lia|]. intros d. destruct (negb _); [done|].
  unfold slice_cap. change (zlen (@nil byte)) with 0. replace (_ && _ && _) with true by lia. cbn [res_bind].
  unfold Duration.parseDuration. case_bool_decide; [done|]. repeat (case_match; try done).
  repeat (apply safe_bind; [apply safe_add_group|intros]). apply safe_add_group.
Qed.

Create HintDb json_safe.
#[export] Hint Resolve safe_dec_string safe_dec_int safe_dec_uint64 safe_dec_bytes safe_dec_time safe_dec_hash
  safe_dec_duration safe_enc_raw safe_compaction : json_safe.

Ltac safe_fields :=
  apply safe_dec_struct; unfold JsonCodecFacts.safe_fields;
  repeat (apply List.Forall_cons; [intros ? ?; cbn [snd]|]); try apply List.Forall_nil;
  try (apply safe_set_field; intros ? ?); try safe_fields; auto with json_safe.

Lemma safe_raw old v : safe (dec_raw old v).
Proof. done. Qed.
#[export] Hint Resolve safe_raw : json_safe.

Lemma safe_Payload old v : safe (Requests.dec_Payload old v).
Proof. safe_fields. Qed.
#[export] Hint Resolve safe_Payload : json_safe.

Lemma safe_UnsignedPayload old v : safe (Requests.dec_UnsignedPayload old v).
Proof. safe_fields. Qed.
Lemma safe_SignedPayload old v : safe (Requests.dec_SignedPayload old v).
Proof. safe_fields. Qed.
Lemma safe_MuxedRequest old v : safe (Requests.dec_MuxedRequest old v).
Proof. safe_fields. Qed.

Ltac safe_custom := apply safe_bind; [apply safe_Unmarshal; intros ? ?; safe_fields|];
  intros ?; apply safe_bind; [apply safe_Hex|done].

Lemma safe_IdentityData v : safe (Identity.IdentityData_UnmarshalJSON v).
Proof. safe_custom. Qed.
Lemma safe_PayloadSeed v : safe (Identity.PayloadSeed_UnmarshalJSON v).
Proof. safe_custom. Qed.
Lemma safe_PayloadRegister v : safe (Identity.PayloadRegister_UnmarshalJSON v).
Proof. safe_custom. Qed.

Lemma safe_entries {V} (zero : V) dec ms : (forall old v, safe (dec old v)) -> forall m, safe (Maps.dec_entries zero dec m ms).
Proof. intros Hd. induction ms as [|[k v] ms IH]; intros m; [done|]. cbn. by apply safe_bind. Qed.

Lemma safe_map {V} (zero : V) dec old v : (forall old v, safe (dec old v)) -> safe (Maps.dec_map zero dec old v).
Proof. intros Hd. unfold Maps.dec_map. destruct (is_null _); [done|]. destruct (object _); [by apply safe_entries|done]. Qed.

Lemma safe_State old v : safe (State.dec_State old v).
Proof. safe_fields. apply safe_map, safe_dec_bytes. Qed.

Lemma safe_TreeProof {P} `{ProofBytesLaws P} v : safe (Proofs.TreeProof_UnmarshalJSON v).
Proof.
  apply safe_bind; [apply safe_Unmarshal; intros ? ?; safe_fields|]. intros r. apply safe_bind; [|done].
  unfold safe. destruct (proof_Unmarshal _) eqn:E; try done. by apply law_proof_Unmarshal_safe in E.
Qed.

Section Uuid.
Context `{UuidLaws}.

Lemma safe_parse s : safe (uuid_Parse s).
Proof. unfold safe. destruct (uuid_Parse s) eqn:E; try done. by apply law_uuid_safe in E. Qed.

Lemma safe_Guid old v : safe (Events.dec_Guid old v).
Proof.
  apply safe_bind; [|done]. unfold Guid.UnmarshalJSON. case_bool_decide; [done|]. destruct (negb _); [done|].
  apply safe_bind; [apply safe_parse|done].
Qed.

Lemma safe_uuid old v : safe (Events.dec_uuid old v).
Proof. unfold Events.dec_uuid, dec_text. destruct (string_text v); [apply safe_parse|]. by destruct (is_null v). Qed.

Lemma safe_opt_string old v : safe (dec_ptr [] dec_string old v).
Proof. apply safe_dec_ptr. auto with json_safe. Qed.
Lemma safe_opt_int old v : safe (dec_ptr 0 dec_int old v).
Proof. apply safe_dec_ptr. auto with json_safe. Qed.
Lemma safe_opt_Guid old v : safe (dec_ptr uuid_Nil Events.dec_Guid old v).
Proof. apply safe_dec_ptr, safe_Guid. Qed.

#[local] Hint Resolve safe_Guid safe_uuid safe_opt_string safe_opt_int safe_opt_Guid : json_safe.

Lemma safe_Provider old v : safe (Events.dec_Provider old v).
Proof. safe_fields. Qed.
#[local] Hint Resolve safe_Provider : json_safe.

Lemma safe_System old v : safe (Events.dec_System old v).
Proof. safe_fields. Qed.
#[local] Hint Resolve safe_System : json_safe.

Lemma safe_Event old v : safe (Events.dec_Event old v).
Proof. safe_fields. Qed.
#[local] Hint Resolve safe_Event : json_safe.

Lemma safe_ScrubbedEvent old v : safe (Events.dec_ScrubbedEvent old v).
Proof. safe_fields. Qed.
Lemma safe_Metadata old v : safe (Events.dec_Metadata old v).
Proof. safe_fields. Qed.
#[local] Hint Resolve safe_ScrubbedEvent safe_Metadata : json_safe.

Lemma safe_EventWithMetadata old v : safe (Events.dec_EventWithMetadata old v).
Proof. safe_fields. Qed.
Lemma safe_CreateRequest old v : safe (Events.dec_CreateRequest old v).
Proof. safe_fields. Qed.
Lemma safe_CreateResponse old v : safe (Events.dec_CreateResponse old v).
Proof. safe_fields. Qed.
Lemma safe_EventCountResponse old v : safe (Events.dec_EventCountResponse old v).
Proof. safe_fields. Qed.

Lemma safe_Match old v : safe (Policies.dec_Match old v).
Proof. safe_fields. Qed.
Lemma safe_PolicyAction old v : safe (Policies.dec_PolicyAction old v).
Proof. safe_fields. Qed.
#[local] Hint Resolve safe_Match safe_PolicyAction : json_safe.

Lemma safe_Filter old v : safe (Policies.dec_Filter old v).
Proof. safe_fields. Qed.

Lemma safe_filters old v : safe (dec_slice Policies.zero_Filter Policies.dec_Filter old v).
Proof. apply safe_slices, safe_Filter. Qed.
#[local] Hint Resolve safe_filters : json_safe.

Lemma safe_RetentionPolicy old v : safe (Policies.dec_RetentionPolicy old v).
Proof. safe_fields. Qed.
#[local] Hint Resolve safe_RetentionPolicy : json_safe.

Lemma safe_StoredPolicy old v : safe (Policies.dec_StoredPolicy old v).
Proof. safe_fields. Qed.
Lemma safe_SetPolicyRequest old v : safe (Policies.dec_SetPolicyRequest old v).
Proof. safe_fields. Qed.

End Uuid.

(** ** Values *)

(** A field keeps a property if putting a decoded value does. *)
Lemma set_field_keeps {A B} (P : A -> Prop) (Q : B -> Prop) (get : A -> B) put dec a v a' :
  (forall a, P a -> Q (get a)) -> (forall a b, P a -> Q b -> P (put b a)) ->
  (forall old v b, Q old -> dec old v = Ok b -> Q b) ->
  P a -> set_field get put dec a v = Ok a' -> P a'.
Proof. intros Hg Hp Hd Ha (b & Hb & [= <-])%res_bind_ok. apply Hp; [done|]. eapply Hd; [by apply Hg|done]. Qed.

(** What is decoded behind a pointer. *)
Lemma dec_ptr_keeps {A} (Q : A -> Prop) zero (dec : decoder A) old v p :
  Q zero -> (forall old v a, Q old -> dec old v = Ok a -> Q a) ->
  opt_all Q old -> dec_ptr zero dec old v = Ok p -> opt_all Q p.
Proof.
  intros Hz Hd Ho. unfold dec_ptr. destruct (is_null v); [by intros [= <-]|].
  intros (a & Ha & [= <-])%res_bind_ok. cbn. eapply Hd; [|done]. by destruct old.
Qed.

Lemma dec_slice_keeps {A} (Q : A -> Prop) zero (dec : decoder A) old v l :
  Q zero -> (forall old v a, Q old -> dec old v = Ok a -> Q a) ->
  Forall Q old -> dec_slice zero dec old v = Ok l -> Forall Q l.
Proof.
  intros Hz Hd. unfold dec_slice. destruct (is_null v); [intros _ [= <-]; constructor|].
  destruct (array v) as [vs|]; [|done]. revert old l. induction vs as [|x vs IH]; intros old l Ho; [intros [= <-]; constructor|].
  cbn. intros (a & Ha & (l' & Hl & [= <-])%res_bind_ok)%res_bind_ok. constructor.
  - eapply Hd; [|done]. destruct Ho; [done|done].
  - eapply IH; [|done]. destruct Ho; [constructor|done].
Qed.

(** A field of a struct with the property [P], whose values have the property
    [Q] by the lemma [d]. *)
Ltac keep P Q d := intros ? ? ?; cbn [snd]; apply (set_field_keeps P Q);
  [unfold P; cbn; tauto | unfold P; cbn; tauto | exact d].
Ltac fields := repeat apply List.Forall_cons; [..|apply List.Forall_nil].

Definition typed (p : Payload) : Prop := utf8 (p_Type p).

Lemma dec_raw_any old v b : True -> dec_raw old v = Ok b -> True.
Proof. done. Qed.

Lemma Payload_decoded old v p : typed old -> Requests.dec_Payload old v = Ok p -> typed p.
Proof.
  apply dec_struct_keeps. fields.
  - keep typed utf8 dec_string_valid.
  - keep typed (fun _ : bytes => True) dec_raw_any.
Qed.

Lemma SignedPayload_decoded old v p : request_strings old -> Requests.dec_SignedPayload old v = Ok p -> request_strings p.
Proof.
  apply dec_struct_keeps. fields.
  - keep request_strings typed Payload_decoded.
  - keep request_strings utf8 dec_string_valid.
  - keep request_strings utf8 dec_string_valid.
Qed.

Definition seed_strings (a : Identity.auxSeed) : Prop := utf8 (Identity.as_Principal a) /\ utf8 (Identity.as_Key a).

Lemma PayloadSeed_decoded v p : Identity.PayloadSeed_UnmarshalJSON v = Ok p -> representable p.
Proof.
  intros (a & Ha & (k & _ & [= <-])%res_bind_ok)%res_bind_ok.
  apply (Unmarshal_keeps _ seed_strings) in Ha; [apply Ha| |done].
  intros old x b. apply dec_struct_keeps. fields.
  - keep seed_strings utf8 dec_string_valid.
  - keep seed_strings utf8 dec_string_valid.
Qed.

Definition identity_strings (a : Identity.auxIdentity) : Prop :=
  utf8 (Identity.aux_PublicKey a) /\ utf8 (Identity.aux_Role a).

Lemma IdentityData_decoded v d : Identity.IdentityData_UnmarshalJSON v = Ok d -> utf8 (id_Role d).
Proof.
  intros (a & Ha & (k & _ & [= <-])%res_bind_ok)%res_bind_ok.
  apply (Unmarshal_keeps _ identity_strings) in Ha; [apply Ha| |done].
  intros old x b. apply dec_struct_keeps. fields; keep identity_strings utf8 dec_string_valid.
Qed.

Definition register_strings (a : Identity.auxRegister) : Prop :=
  utf8 (Identity.ar_Principal a) /\ utf8 (Identity.ar_Role a) /\ utf8 (Identity.ar_Key a).

Lemma PayloadRegister_decoded v p : Identity.PayloadRegister_UnmarshalJSON v = Ok p -> representable p.
Proof.
  intros (a & Ha & (k & _ & [= <-])%res_bind_ok)%res_bind_ok.
  apply (Unmarshal_keeps _ register_strings) in Ha; [split; apply Ha| |done].
  intros old x b. apply dec_struct_keeps. fields.
  - keep register_strings utf8 dec_string_valid.
  - keep register_strings utf8 dec_string_valid.
  - keep register_strings utf8 dec_string_valid.
Qed.

Lemma dec_opt_string old v p : opt_all utf8 old -> dec_ptr [] dec_string old v = Ok p -> opt_all utf8 p.
Proof. apply dec_ptr_keeps; [done|apply dec_string_valid]. Qed.

Lemma opt_int_decoded old v p : opt_all (in_s 64) old -> dec_ptr 0 dec_int old v = Ok p -> opt_all (in_s 64) p.
Proof. apply dec_ptr_keeps; [done|apply dec_int_range]. Qed.

Lemma dec_duration_range old v d : in_s 64 old -> Policies.dec_duration old v = Ok d -> in_s 64 d.
Proof.
  intros _. unfold Policies.dec_duration, dec_custom, Duration.UnmarshalJSON. destruct (_ <? _); [done|].
  intros (c & _ & E)%res_bind_ok. destruct (negb _); [done|]. apply res_bind_ok in E as (d' & _ & E).
  destruct (negb _); [done|]. apply res_bind_ok in E as (b & _ & E). by apply parseDuration_range in E.
Qed.

Section Uuid.
Context `{UuidLaws}.

Lemma dec_opt_Guid old v p : opt_all uuid_ok old -> dec_ptr uuid_Nil Events.dec_Guid old v = Ok p -> opt_all uuid_ok p.
Proof. apply dec_ptr_keeps; [done|apply dec_Guid_ok]. Qed.

Lemma Provider_decoded old v p : provider_ok old -> Events.dec_Provider old v = Ok p -> provider_ok p.
Proof.
  apply dec_struct_keeps. fields.
  - keep provider_ok (opt_all utf8) dec_opt_string.
  - keep provider_ok (opt_all uuid_ok) dec_opt_Guid.
  - keep provider_ok (opt_all utf8) dec_opt_string.
Qed.

Definition minutes (t : time) : Prop := offset t mod 60 = 0.

Definition system_fields (s : System) : Prop :=
  provider_ok (sys_Provider s) /\ in_s 64 (sys_EventId s) /\ minutes (sys_SystemTime s) /\
  in_s 64 (sys_EventRecordId s) /\ opt_all uuid_ok (sys_ActivityId s) /\
  opt_all (in_s 64) (sys_ProcessId s) /\ opt_all (in_s 64) (sys_ThreadId s) /\
  utf8 (sys_Channel s) /\ utf8 (sys_Computer s).

Lemma System_decoded old v s : system_fields old -> Events.dec_System old v = Ok s -> system_fields s.
Proof.
  apply dec_struct_keeps. fields.
  - keep system_fields provider_ok Provider_decoded.
  - keep system_fields (in_s 64) dec_int_range.
  - intros a x a'. apply dec_struct_keeps. fields. keep system_fields minutes dec_time_minutes.
  - keep system_fields (in_s 64) dec_int_range.
  - intros a x a'. apply dec_struct_keeps. fields. keep system_fields (opt_all uuid_ok) dec_opt_Guid.
  - intros a x a'. apply dec_struct_keeps. fields; keep system_fields (opt_all (in_s 64)) opt_int_decoded.
  - keep system_fields utf8 dec_string_valid.
  - keep system_fields utf8 dec_string_valid.
Qed.

Definition event_fields (e : Event) : Prop := system_fields (ev_System e).
Definition scrubbed_fields (e : ScrubbedEvent) : Prop := utf8 (OffChainHash e) /\ event_fields (se_Event e).
Definition create_fields (r : CreateRequest) : Prop := scrubbed_fields (cr_Event r) /\ uuid_ok (cr_Nonce r).

Lemma Event_decoded old v e : event_fields old -> Events.dec_Event old v = Ok e -> event_fields e.
Proof. apply dec_struct_keeps. fields. keep event_fields system_fields System_decoded. Qed.

Lemma ScrubbedEvent_decoded old v e : scrubbed_fields old -> Events.dec_ScrubbedEvent old v = Ok e -> scrubbed_fields e.
Proof.
  apply dec_struct_keeps. fields.
  - keep scrubbed_fields utf8 dec_string_valid.
  - keep scrubbed_fields event_fields Event_decoded.
Qed.

Lemma CreateRequest_decoded old v r : create_fields old -> Events.dec_CreateRequest old v = Ok r -> create_fields r.
Proof.
  apply dec_struct_keeps. fields.
  - keep create_fields scrubbed_fields ScrubbedEvent_decoded.
  - keep create_fields uuid_ok dec_uuid_ok.
Qed.

Lemma create_fields_decoded r : create_fields r -> well_decoded r.
Proof.
  intros [[Ho (Hp & He & Ht & Hr & Ha & Hpid & Htid & Hch & Hco)] Hn]. split; [done|]. split; [|done].
  split; [exact Ht|]. intros Htime. by split_and!.
Qed.

Lemma Match_decoded old v m : match_ok old -> Policies.dec_Match old v = Ok m -> match_ok m.
Proof.
  apply dec_struct_keeps. fields.
  - keep match_ok (opt_all utf8) dec_opt_string.
  - keep match_ok (opt_all (in_s 64)) opt_int_decoded.
  - keep match_ok (opt_all utf8) dec_opt_string.
Qed.

Definition action_fields (a : PolicyAction) : Prop :=
  utf8 (pa_Type a) /\ utf8 (pa_RuleGroup a) /\ in_s 64 (pa_RetentionPeriod a) /\ in_u 64 (pa_Volume a).

Lemma PolicyAction_decoded old v a : action_fields old -> Policies.dec_PolicyAction old v = Ok a -> action_fields a.
Proof.
  apply dec_struct_keeps. fields.
  - keep action_fields utf8 dec_string_valid.
  - keep action_fields utf8 dec_string_valid.
  - keep action_fields (in_s 64) dec_duration_range.
  - keep action_fields (in_u 64) dec_uint64_range.
Qed.

Definition filter_fields (f : Filter) : Prop := utf8 (f_Label f) /\ match_ok (f_Match f) /\ action_fields (f_PolicyAction f).

Lemma Filter_decoded old v f : filter_fields old -> Policies.dec_Filter old v = Ok f -> filter_fields f.
Proof.
  apply dec_struct_keeps. fields.
  - keep filter_fields utf8 dec_string_valid.
  - keep filter_fields match_ok Match_decoded.
  - keep filter_fields action_fields PolicyAction_decoded.
Qed.

Lemma zero_filter_fields : filter_fields Policies.zero_Filter.
Proof. by repeat split. Qed.

Lemma filters_decoded old v l : Forall filter_fields old ->
  dec_slice Policies.zero_Filter Policies.dec_Filter old v = Ok l -> Forall filter_fields l.
Proof. apply dec_slice_keeps; [apply zero_filter_fields|apply Filter_decoded]. Qed.

Definition policy_fields (p : RetentionPolicy) : Prop := Forall filter_fields (Filters p).

Lemma RetentionPolicy_decoded old v p : policy_fields old -> Policies.dec_RetentionPolicy old v = Ok p -> policy_fields p.
Proof. apply dec_struct_keeps. fields. keep policy_fields (Forall filter_fields) filters_decoded. Qed.

Definition set_policy_fields (r : SetPolicyRequest) : Prop := policy_fields (spr_Policy r) /\ uuid_ok (spr_Nonce r).

Lemma SetPolicyRequest_decoded old v r : set_policy_fields old -> Policies.dec_SetPolicyRequest old v = Ok r -> set_policy_fields r.
Proof.
  apply dec_struct_keeps. fields.
  - keep set_policy_fields policy_fields RetentionPolicy_decoded.
  - keep set_policy_fields uuid_ok dec_uuid_ok.
Qed.

End Uuid.

End JsonDecoded.
