(* ===== verification/EventXml.v ===== *)
(** * Reading XML

    The part of [encoding/xml] that [xml.Unmarshal] uses: elements with
    attributes, character data with its entities, CDATA sections, comments and
    processing instructions, in strict mode.  Names are ASCII; directives
    ([<!DOCTYPE>]) are refused.  An element keeps the text between its tags, for
    fields with [,innerxml].  The second part models the XML of events and their GUIDs
    (events/types.go, guid.go) over it, and the third shows that reading never
    panics. *)

From S2P Require Import Prelude Types Text JsonText JsonScan Bson TimeText JsonTypes JsonCodec JsonCodecFacts JsonDecoded.
From Corelib Require Import Init.Byte.

Module Xml.
Import JsonText JsonScan.

Inductive node : Type :=
| Chars (s : bytes)
| Elem (e : element)
with element : Type :=
| mkElement (name : bytes) (attrs : list (bytes * bytes)) (inner : bytes) (content : list node).

Definition el_name (e : element) : bytes := let 'mkElement n _ _ _ := e in n.
Definition el_attrs (e : element) : list (bytes * bytes) := let 'mkElement _ a _ _ := e in a.
Definition el_inner (e : element) : bytes := let 'mkElement _ _ i _ := e in i.
Definition el_content (e : element) : list node := let 'mkElement _ _ _ c := e in c.

Definition SyntaxError {A} (msg : string) : result A := Err (NewError (bz "XML syntax error: " ++ bz msg)).

(** ** Pieces of text *)

Definition starts (p s : bytes) : bool := bool_decide (take (length p) s = p).

(** What precedes and what follows the first occurrence of [p]. *)
Fixpoint cut (p s : bytes) : option (bytes * bytes) :=
  if starts p s then Some ([], drop (length p) s)
  else match s with
       | [] => None
       | c :: r => match cut p r with Some (a, b) => Some (c :: a, b) | None => None end
       end.

Fixpoint span (p : byte -> bool) (s : bytes) : bytes * bytes :=
  match s with
  | c :: r => if p c then let '(a, b) := span p r in (c :: a, b) else ([], s)
  | [] => ([], [])
  end.

Definition is_space (c : byte) : bool := isc 32 c || isc 9 c || isc 10 c || isc 13 c.
Definition skip_space (s : bytes) : bytes := snd (span is_space s).

Definition is_letter (c : byte) : bool := (65 <=? b2z c) && (b2z c <=? 90) || (97 <=? b2z c) && (b2z c <=? 122).
Definition name_start (c : byte) : bool := is_letter c || isc 0x5F c || isc 0x3A c.
Definition name_byte (c : byte) : bool := name_start c || Strconv.is_digit c || isc 0x2E c || isc 0x2D c.

(** A name as it is written. *)
Definition read_name (s : bytes) : result (bytes * bytes) :=
  let '(n, r) := span name_byte s in
  match n with
  | c :: _ => if name_start c then Ok (n, r) else SyntaxError "invalid XML name"
  | [] => SyntaxError "expected name"
  end.

(** The local part of a name. *)
Definition local_name (n : bytes) : result bytes :=
  match cut (bz ":") n with
  | Some (space, local) =>
      match cut (bz ":") local with
      | Some _ => SyntaxError "expected element name after <"
      | None => Ok (if bool_decide (space = []) || bool_decide (local = []) then n else local)
      end
  | None => Ok n
  end.

(** ** Character data *)

Definition hex_digits (s : bytes) : option Z :=
  fold_left (fun acc c => match acc, Hex.value c with Some n, Some d => Some (16 * n + d) | _, _ => None end) s (Some 0).

(** The character of an entity. *)
Definition entity (name : bytes) : option bytes :=
  if bool_decide (name = bz "lt") then Some (bz "<")
  else if bool_decide (name = bz "gt") then Some (bz ">")
  else if bool_decide (name = bz "amp") then Some (bz "&")
  else if bool_decide (name = bz "apos") then Some (bz "'")
  else if bool_decide (name = bz "quot") then Some [x22]
  else
    let rune (n : Z) := if (n <=? 0x10FFFF) then Some (encode_rune n) else None in
    match name with
    | "#"%byte :: "x"%byte :: ds => if bool_decide (ds = []) then None else match hex_digits ds with Some n => rune n | None => None end
    | "#"%byte :: ds => if bool_decide (ds = []) || negb (forallb Strconv.is_digit ds) then None else rune (Strconv.digits_value 0 ds)
    | _ => None
    end.

(** Entities are replaced, outside of CDATA sections, and line ends become
    newlines. *)
Fixpoint unescape (entities : bool) (fuel : nat) (s : bytes) : result bytes :=
  match fuel, s with
  | S fuel, c :: r =>
      if entities && isc 0x26 c then
        match cut (bz ";") r with
        | Some (name, r) =>
            match entity name with
            | Some text => let* rest := unescape entities fuel r in Ok (text ++ rest)
            | None => SyntaxError "invalid character entity"
            end
        | None => SyntaxError "invalid character entity"
        end
      else if isc 13 c then
        let* rest := unescape entities fuel (if starts [z2b 10] r then drop 1 r else r) in Ok (z2b 10 :: rest)
      else let* rest := unescape entities fuel r in Ok (c :: rest)
  | _, _ => Ok []
  end.

Definition in_range (c : byte) : bool := (32 <=? b2z c) || isc 9 c || isc 10 c || isc 13 c.

(** U+FFFE and U+FFFF. *)
Definition noncharacter (s : bytes) : bool :=
  bool_decide (is_Some (cut [xef; xbf; xbe] s)) || bool_decide (is_Some (cut [xef; xbf; xbf] s)).

Definition chars (entities : bool) (s : bytes) : result bytes :=
  let* out := unescape entities (length s) s in
  if negb (Utf8.Valid out) then SyntaxError "invalid UTF-8"
  else if negb (forallb in_range out) || noncharacter out then SyntaxError "illegal character code"
  else Ok out.
Definition text : bytes -> result bytes := chars true.

(** ** Elements *)

Fixpoint read_attrs (fuel : nat) (s : bytes) : result (list (bytes * bytes) * bytes) :=
  match fuel with
  | O => SyntaxError "unexpected EOF"
  | S fuel =>
      let s := skip_space s in
      if starts (bz ">") s || starts (bz "/>") s then Ok ([], s)
      else
        let* (n, r) := read_name s in
        let* n := local_name n in
        match skip_space r with
        | "="%byte :: r =>
            match skip_space r with
            | q :: r =>
                if isc 0x22 q || isc 0x27 q then
                  match cut [q] r with
                  | Some (v, r) =>
                      if bool_decide (is_Some (cut (bz "<") v)) then SyntaxError "unescaped < inside quoted string"
                      else
                        let* v := text v in
                        let* (l, r) := read_attrs fuel r in
                        Ok ((n, v) :: l, r)
                  | None => SyntaxError "unexpected EOF"
                  end
                else SyntaxError "unquoted or missing attribute value in element"
            | [] => SyntaxError "unexpected EOF"
            end
        | _ => SyntaxError "attribute name without = in element"
        end
  end.

(** Comments and processing instructions: what follows them. *)
Definition skip_markup (s : bytes) : option (result bytes) :=
  if starts (bz "<!--") s then
    Some (match cut (bz "--") (drop 4 s) with
          | Some (_, r) => if starts (bz ">") r then Ok (drop 1 r) else SyntaxError "invalid sequence -- not allowed in comments"
          | None => SyntaxError "unexpected EOF"
          end)
  else if starts (bz "<?") s then
    Some (match cut (bz "?>") s with Some (_, r) => Ok r | None => SyntaxError "unexpected EOF" end)
  else None.

(** The content up to the next end tag; an element after its [<]. *)
Fixpoint read_content (fuel : nat) (s : bytes) : result (list node * bytes) :=
  match fuel with
  | O => SyntaxError "unexpected EOF"
  | S fuel =>
      if starts (bz "</") s then Ok ([], s)
      else if bool_decide (s = []) then SyntaxError "unexpected EOF"
      else match skip_markup s with
           | Some r => let* r := r in read_content fuel r
           | None =>
               if starts (bz "<![CDATA[") s then
                 match cut (bz "]]>") (drop 9 s) with
                 | Some (t, r) =>
                     let* t := chars false t in
                     let* (l, r) := read_content fuel r in
                     Ok (Chars t :: l, r)
                 | None => SyntaxError "unexpected EOF in CDATA section"
                 end
               else if starts (bz "<") s then
                 let* (e, r) := read_element fuel (drop 1 s) in
                 let* (l, r) := read_content fuel r in
                 Ok (Elem e :: l, r)
               else
                 let '(t, r) := span (fun c => negb (isc 0x3C c)) s in
                 if bool_decide (is_Some (cut (bz "]]>") t)) then SyntaxError "unescaped ]]> not in CDATA section"
                 else
                   let* t := text t in
                   let* (l, r) := read_content fuel r in
                   Ok (Chars t :: l, r)
           end
  end
with read_element (fuel : nat) (s : bytes) : result (element * bytes) :=
  match fuel with
  | O => SyntaxError "unexpected EOF"
  | S fuel =>
      let* (n, r) := read_name s in
      let* name := local_name n in
      let* (attrs, r) := read_attrs fuel r in
      if starts (bz "/>") r then Ok (mkElement name attrs [] [], drop 2 r)
      else
        let s := drop 1 r in
        let* (l, r) := read_content fuel s in
        let* (n', r') := read_name (drop 2 r) in
        if negb (bool_decide (n' = n)) then SyntaxError "element closed by another one"
        else match skip_space r' with
             | ">"%byte :: rest => Ok (mkElement name attrs (take (length s - length r) s) l, rest)
             | _ => SyntaxError "invalid characters between </ and >"
             end
  end.

(** The first element of a document; what follows it is not read. *)
Fixpoint first_element (fuel : nat) (s : bytes) : result element :=
  match fuel with
  | O => Err (Sentinel (bz "EOF"))
  | S fuel =>
      match skip_markup s with
      | Some r => let* r := r in first_element fuel r
      | None =>
          match s with
          | [] => Err (Sentinel (bz "EOF"))
          | c :: r =>
              if isc 0x3C c then let* (e, _) := read_element fuel r in Ok e
              else let '(t, r) := span (fun c => negb (isc 0x3C c)) s in
                   let* _ := text t in first_element fuel r
          end
      end
  end.

(** Every step consumes a character or descends into an element that was opened
    with one. *)
Definition root (data : bytes) : result element := first_element (S (2 * length data)) data.

End Xml.

(** * Events in XML

    Models how an event of the Windows event log is read: the [xml] tags of
    [common/pkg/types/events/types.go], [Data.UnmarshalXML], and the XML codecs
    of [Guid] ([guid.go]), with the rules of [encoding/xml] for attributes,
    elements and pointers. *)

(** ** Decoding into structs ([encoding/xml]) *)
Module XmlCodec.
Import Xml.

(** [strings.TrimSpace]: the characters that are spaces. *)
Definition spaces : list bytes :=
  ((fun z => [z2b z]) <$> [9; 10; 11; 12; 13; 32]) ++ [[xc2; x85]; [xc2; xa0]; [xe1; x9a; x80]; [xe2; x80; xa8]; [xe2; x80; xa9];
    [xe2; x80; xaf]; [xe2; x81; x9f]; [xe3; x80; x80]] ++ ((fun z => [xe2; x80; z2b (0x80 + z)]) <$> seqZ 0 11).

Fixpoint trim_with (ps : list bytes) (fuel : nat) (s : bytes) : bytes :=
  match fuel with
  | O => s
  | S fuel => match List.find (fun p => starts p s) ps with
              | Some p => trim_with ps fuel (drop (length p) s)
              | None => s
              end
  end.

Definition TrimSpace (s : bytes) : bytes :=
  let s := trim_with spaces (length s) s in
  rev (trim_with ((fun p => rev p) <$> spaces) (length s) (rev s)).

(** [copyValue] for an integer: an empty text is zero. *)
Definition copy_int (s : bytes) : result Z := if bool_decide (s = []) then Ok 0 else Strconv.ParseInt (TrimSpace s).

Definition attr_field (A : Type) : Type := bytes * (A -> bytes -> result A).
Definition child_field (A : Type) : Type := bytes * (A -> element -> result A).

Definition find_field {B} (fs : list (bytes * B)) (n : bytes) : option B :=
  snd <$> List.find (fun f => bool_decide (fst f = n)) fs.

(** Attributes and elements without a field are left out. *)
Fixpoint dec_attrs {A} (fs : list (attr_field A)) (attrs : list (bytes * bytes)) (a : A) : result A :=
  match attrs with
  | [] => Ok a
  | (n, v) :: attrs =>
      let* a := match find_field fs n with Some f => f a v | None => Ok a end in
      dec_attrs fs attrs a
  end.

Fixpoint dec_children {A} (fs : list (child_field A)) (content : list node) (a : A) : result A :=
  match content with
  | [] => Ok a
  | Chars _ :: content => dec_children fs content a
  | Elem e :: content =>
      let* a := match find_field fs (el_name e) with Some f => f a e | None => Ok a end in
      dec_children fs content a
  end.

Definition dec_struct {A} (fs : list (attr_field A)) (cs : list (child_field A)) (a : A) (e : element) : result A :=
  let* a := dec_attrs fs (el_attrs e) a in dec_children cs (el_content e) a.

(** The character data of an element, without that of the elements in it. *)
Definition chardata (e : element) : bytes :=
  concat ((fun n => match n with Chars s => s | Elem _ => [] end) <$> el_content e).

End XmlCodec.

(** ** [Guid] *)
Module GuidXml.
Section Guid.
Context `{UuidText}.
Import Xml XmlCodec.

Definition MarshalXML (name g : bytes) : element :=
  mkElement name [] (Guid.braced g) [Chars (Guid.braced g)].

Definition MarshalXMLAttr (name g : bytes) : bytes * bytes := (name, Guid.braced g).

(** [old] is the receiver. *)
Definition UnmarshalXML (old : bytes) (e : element) : result bytes :=
  let raw := chardata e in
  if bool_decide (raw = []) then Ok old else uuid_Parse raw.

Definition UnmarshalXMLAttr (old : bytes) (value : bytes) : result bytes :=
  if bool_decide (value = []) then Ok old else uuid_Parse value.

End Guid.
End GuidXml.

(** ** Events *)
Module EventXml.
Import Xml XmlCodec JsonTypes.

Section Decode.
Context `{UuidText}.

(** [Data.UnmarshalXML]. *)
Definition dec_Data (e : element) : result EvData :=
  let* name := dec_attrs [(bz "Name", fun _ v => Ok v)] (el_attrs e) [] in
  let value := el_inner e in
  Ok (mkEvData (if bool_decide (name = []) then None else Some name) (if bool_decide (value = []) then None else Some value)).

Definition attr_string (s : bytes) : result (option bytes) := Ok (Some s).
Definition attr_int (s : bytes) : result (option Z) := let* n := copy_int s in Ok (Some n).
(** The pointer is allocated before the attribute is looked at. *)
Definition attr_guid (old : option bytes) (s : bytes) : result (option bytes) :=
  let* g := GuidXml.UnmarshalXMLAttr (default uuid_Nil old) s in Ok (Some g).

Definition dec_Provider : Provider -> element -> result Provider := dec_struct
  [(bz "Name", fun p s => let* x := attr_string s in Ok (mkProvider x (prov_Guid p) (prov_EventSourceName p)));
   (bz "Guid", fun p s => let* x := attr_guid (prov_Guid p) s in Ok (mkProvider (prov_Name p) x (prov_EventSourceName p)));
   (bz "EventSourceName", fun p s => let* x := attr_string s in Ok (mkProvider (prov_Name p) (prov_Guid p) x))] [].

(** The structs [TimeCreated], [Correlation] and [Execution] are fields of
    [System] in the model. *)
Definition fields_System : list (child_field System) :=
  [(bz "Provider", fun s e => let* p := dec_Provider (sys_Provider s) e in Ok (Events.put_Provider p s));
   (bz "EventID", fun s e => let* n := copy_int (chardata e) in Ok (Events.put_EventId n s));
   (bz "TimeCreated", dec_struct [(bz "SystemTime", fun s v => let* t := TimeText.ParseRFC3339 v in Ok (Events.put_SystemTime t s))] []);
   (bz "EventRecordID", fun s e => let* n := copy_int (chardata e) in Ok (Events.put_EventRecordId n s));
   (bz "Correlation", dec_struct [(bz "ActivityID", fun s v => let* g := attr_guid (sys_ActivityId s) v in Ok (Events.put_ActivityId g s))] []);
   (bz "Execution", dec_struct
      [(bz "ProcessID", fun s v => let* n := attr_int v in Ok (Events.put_ProcessId n s));
       (bz "ThreadID", fun s v => let* n := attr_int v in Ok (Events.put_ThreadId n s))] []);
   (bz "Channel", fun s e => Ok (Events.put_Channel (chardata e) s));
   (bz "Computer", fun s e => Ok (Events.put_Computer (chardata e) s))].
Definition dec_System : System -> element -> result System := dec_struct [] fields_System.

(** [EventData>Data]: every element [Data] appends an entry. *)
Definition fields_EventData : list (child_field EventData) :=
  [(bz "Data", fun d x => let* x := dec_Data x in Ok (d ++ [x]))].
Definition dec_EventData (d : EventData) (e : element) : result EventData := dec_children fields_EventData (el_content e) d.

Definition fields_EventWithData : list (child_field EventWithData) :=
  [(bz "System", fun e x => let* s := dec_System (ev_System (ed_Event e)) x in Ok (mkEventWithData (mkEvent s) (ed_EventData e)));
   (bz "EventData", fun e x => let* d := dec_EventData (ed_EventData e) x in Ok (mkEventWithData (ed_Event e) d))].
Definition dec_EventWithData : EventWithData -> element -> result EventWithData := dec_struct [] fields_EventWithData.

Definition zero_EventWithData : EventWithData := mkEventWithData (mkEvent Events.zero_System) [].

(** [xml.Unmarshal] into an [EventWithData]. *)
Definition Unmarshal (data : bytes) : result EventWithData :=
  let* e := root data in dec_EventWithData zero_EventWithData e.

End Decode.

(** ** Properties *)

(** [uuid.Parse] accepts the form with braces. *)
Class UuidBraced `{UuidText} : Prop := {
  law_uuid_braced u : length u = 16%nat -> uuid_Parse (Guid.braced u) = Ok u
}.

Section Facts.
Context `{UuidText} `{!UuidBraced}.

(** A GUID is read back from an attribute and from an element. *)
Lemma guid_attr_round_trip name g old : length g = 16%nat ->
  GuidXml.UnmarshalXMLAttr old (GuidXml.MarshalXMLAttr name g).2 = Ok g.
Proof. apply law_uuid_braced. Qed.

Lemma guid_element_round_trip name g old : length g = 16%nat ->
  GuidXml.UnmarshalXML old (GuidXml.MarshalXML name g) = Ok g.
Proof. intros Hg. unfold GuidXml.UnmarshalXML. cbn. rewrite app_nil_r. by apply law_uuid_braced. Qed.

(** Elements that the event does not have are left out. *)
Definition known {A} (fs : list (child_field A)) (n : node) : bool :=
  match n with Chars _ => false | Elem e => bool_decide (is_Some (find_field fs (el_name e))) end.

Lemma unknown_ignored {A} (fs : list (child_field A)) content : forall a,
  dec_children fs content a = dec_children fs (filter (fun n => known fs n = true) content) a.
Proof.
  induction content as [|n content IH]; intros a; [done|]. rewrite filter_cons. destruct n as [s|e]; cbn [known dec_children].
  - by rewrite decide_False.
  - destruct (find_field fs (el_name e)) as [f|] eqn:E.
    + rewrite decide_True by (by apply bool_decide_true). cbn [dec_children]. rewrite E. destruct (f a e); cbn; [apply IH|done|done].
    + rewrite decide_False by (rewrite bool_decide_false; [done|by intros []]). cbn. apply IH.
Qed.

(** *** The document of an event *)

(** The values of an attribute; a well-formed element has at most one. *)
Definition values (name : string) (x : element) : list bytes :=
  omap (fun a => if decide (fst a = bz name) then Some (snd a) else None) (el_attrs x).

(** The text of a number, with or without spaces around it. *)
Definition number_text (v : bytes) (n : Z) : Prop := TrimSpace v = Strconv.FormatInt n.

Definition shows_number (name : string) (n : Z) (x : element) : Prop := el_name x = bz name /\ number_text (chardata x) n.
Definition shows_text (name : string) (s : bytes) (x : element) : Prop := el_name x = bz name /\ chardata x = s.

Definition shows_Provider (p : Provider) (x : element) : Prop := el_name x = bz "Provider" /\
  values "Name" x = option_list (prov_Name p) /\ values "Guid" x = option_list (Guid.braced <$> prov_Guid p) /\
  values "EventSourceName" x = option_list (prov_EventSourceName p).

(** Any text of the time will do. *)
Definition shows_TimeCreated (t : time) (x : element) : Prop := el_name x = bz "TimeCreated" /\
  exists v, values "SystemTime" x = [v] /\ TimeText.ParseRFC3339 v = Ok t.

Definition shows_Correlation (g : option bytes) (x : element) : Prop := el_name x = bz "Correlation" /\
  values "ActivityID" x = option_list (Guid.braced <$> g).

Definition shows_Execution (pid tid : option Z) (x : element) : Prop := el_name x = bz "Execution" /\
  Forall2 number_text (values "ProcessID" x) (option_list pid) /\ Forall2 number_text (values "ThreadID" x) (option_list tid).

Definition shows_Data (d : EvData) (x : element) : Prop := el_name x = bz "Data" /\
  values "Name" x = option_list (data_Name d) /\ el_inner x = default [] (data_Value d).

(** The elements of [System] that the event has, in the order of the log. *)
Definition shows_System (s : System) (content : list node) : Prop := exists p id t rec corr exec ch comp,
  filter (fun n => known fields_System n = true) content =
    [Elem p; Elem id; Elem t; Elem rec; Elem corr; Elem exec; Elem ch; Elem comp] /\
  shows_Provider (sys_Provider s) p /\ shows_number "EventID" (sys_EventId s) id /\
  shows_TimeCreated (sys_SystemTime s) t /\ shows_number "EventRecordID" (sys_EventRecordId s) rec /\
  shows_Correlation (sys_ActivityId s) corr /\ shows_Execution (sys_ProcessId s) (sys_ThreadId s) exec /\
  shows_text "Channel" (sys_Channel s) ch /\ shows_text "Computer" (sys_Computer s) comp.

(** An element of the event log that shows an event: the elements of the event
    in their order, with other elements and spaces between them and within
    them, and their attributes in any order, among others. *)
Definition shows (e : EventWithData) (x : element) : Prop := exists sys data ds,
  filter (fun n => known fields_EventWithData n = true) (el_content x) = [Elem sys; Elem data] /\
  el_name sys = bz "System" /\ el_name data = bz "EventData" /\
  shows_System (ev_System (ed_Event e)) (el_content sys) /\
  filter (fun n => known fields_EventData n = true) (el_content data) = Elem <$> ds /\
  Forall2 shows_Data (ed_EventData e) ds.

(** What can be written in XML: an entry without a value is written as one with
    the empty value. *)
Definition not_empty (o : option bytes) : Prop := o <> Some [].
Definition int_ok (o : option Z) : Prop := match o with Some n => in_s 64 n | None => True end.
Definition xml_ok (e : EventWithData) : Prop :=
  let s := ev_System (ed_Event e) in
  EventDoc.guid_ok (prov_Guid (sys_Provider s)) /\ EventDoc.guid_ok (sys_ActivityId s) /\
  in_s 64 (sys_EventId s) /\ in_s 64 (sys_EventRecordId s) /\ int_ok (sys_ProcessId s) /\ int_ok (sys_ThreadId s) /\
  Forall (fun d => not_empty (data_Name d) /\ not_empty (data_Value d)) (ed_EventData e).

(** *** Numbers *)

Definition number_char (c : byte) : bool := Strconv.is_digit c || bool_decide (c = "-"%byte).

Lemma number_no_space c r (ps : list bytes) : ps = spaces \/ ps = (fun p => rev p) <$> spaces -> number_char c = true ->
  List.find (fun p => starts p (c :: r)) ps = None.
Proof.
  intros Hps Hc. assert (forallb (fun p => match p with [] => false | d :: _ => negb (bool_decide (d = c)) end) ps = true) as Hall.
  { destruct Hps as [->| ->]; revert Hc; clear; by destruct c; vm_compute. }
  destruct (List.find _ ps) as [p|] eqn:E; [|done]. apply List.find_some in E as [Hin Hs].
  rewrite List.forallb_forall in Hall. specialize (Hall p Hin). unfold starts in Hs. apply bool_decide_eq_true in Hs.
  destruct p as [|d p]; [done|]. injection Hs as -> _. by rewrite bool_decide_true in Hall.
Qed.

Lemma trim_number (ps : list bytes) fuel c r : ps = spaces \/ ps = (fun p => rev p) <$> spaces -> number_char c = true ->
  trim_with ps fuel (c :: r) = c :: r.
Proof. intros Hps Hc. destruct fuel; [done|]. cbn [trim_with]. by rewrite number_no_space. Qed.

Lemma TrimSpace_number s : s <> [] -> forallb number_char s = true -> TrimSpace s = s.
Proof.
  intros Hne Hall. unfold TrimSpace. destruct s as [|c r]; [done|].
  rewrite trim_number; [|by left|by apply andb_true_iff in Hall as [? _]].
  destruct (rev (c :: r)) as [|d q] eqn:E; [apply (f_equal (@rev byte)) in E; by rewrite rev_involutive in E|].
  rewrite trim_number; [by rewrite <- E, rev_involutive|by right|].
  rewrite List.forallb_forall in Hall. apply Hall, in_rev. rewrite E. by left.
Qed.

Lemma FormatInt_number n : Strconv.FormatInt n <> [] /\ forallb number_char (Strconv.FormatInt n) = true.
Proof.
  assert (forall m, 0 <= m -> Strconv.FormatUint m <> [] /\ forallb number_char (Strconv.FormatUint m) = true) as Hu.
  { intros m Hm. destruct (Strconv.FormatUint_spec m Hm) as (_ & Hd & Hne). split; [done|].
    rewrite List.forallb_forall in Hd |- *. intros c Hc. unfold number_char. by rewrite (Hd c Hc). }
  unfold Strconv.FormatInt. destruct (n <? 0) eqn:E; [|apply Hu; lia].
  destruct (Hu (- n) ltac:(lia)) as [_ Hd]. split; [done|]. exact Hd.
Qed.

(** A number as it is printed is such a text. *)
Lemma number_text_FormatInt n : number_text (Strconv.FormatInt n) n.
Proof. apply TrimSpace_number; apply FormatInt_number. Qed.

Lemma copy_int_number v n : in_s 64 n -> number_text v n -> copy_int v = Ok n.
Proof.
  intros Hn Hv. unfold copy_int. rewrite bool_decide_false.
  - rewrite Hv. by apply Strconv.ParseInt_FormatInt.
  - intros ->. by apply (proj1 (FormatInt_number n)).
Qed.

(** *** Reading *)

Lemma find_here {B} n (f : B) fs : find_field ((n, f) :: fs) n = Some f.
Proof. unfold find_field. cbn. by rewrite bool_decide_true. Qed.
Lemma find_next {B} n n' (f : B) fs : n' <> n -> find_field ((n', f) :: fs) n = find_field fs n.
Proof. intros Hn. unfold find_field. cbn. by rewrite bool_decide_false. Qed.

(** Steps of [dec_attrs] and [dec_children] over literal names. *)
Ltac read_step := cbn [dec_attrs dec_children el_name el_attrs el_content res_bind app];
  repeat (rewrite find_next by (let E := fresh in intros E; discriminate E)); rewrite ?find_here; cbn [res_bind].

(** *** Attributes in any order

    What is left of the attributes says what is left to be set of a field. *)
Definition unset {B} (name : string) (attrs : list (bytes * bytes)) (reads : bytes -> B -> Prop) (now final : B) : Prop :=
  let vs := omap (fun a => if decide (fst a = bz name) then Some (snd a) else None) attrs in
  (vs = [] /\ now = final) \/ exists v, vs = [v] /\ reads v final.

Lemma unset_here {B} name v attrs reads (now final : B) : unset name ((bz name, v) :: attrs) reads now final ->
  reads v final /\ unset name attrs reads final final.
Proof.
  unfold unset. cbn [omap list_omap fst snd]. rewrite decide_True by done. cbn. intros [[? _]|(w & E & Hr)]; [done|].
  injection E as -> E. split; [done|]. by left.
Qed.

Lemma unset_other {B} name n v attrs reads (now final : B) : n <> bz name -> unset name ((n, v) :: attrs) reads now final ->
  unset name attrs reads now final.
Proof. unfold unset. cbn [omap list_omap fst snd]. intros Hn. by rewrite decide_False. Qed.

Lemma unset_none {B} name reads (now final : B) : unset name [] reads now final -> now = final.
Proof. intros [[_ E]|(v & E & _)]; done. Qed.

(** A field that was not set before. *)
Lemma unset_option {B} name x (f : B -> bytes) (reads : bytes -> option B -> Prop) (o : option B) :
  values name x = option_list (f <$> o) -> (forall b, o = Some b -> reads (f b) o) -> unset name (el_attrs x) reads None o.
Proof.
  intros E Hr. unfold unset. unfold values in E. cbv zeta. rewrite E.
  destruct o as [b|]; cbn; [right; exists (f b); by split; [|apply Hr]|by left].
Qed.

Lemma dec_attrs_unset {A} (fs : list (attr_field A)) (Unset : list (bytes * bytes) -> A -> Prop) (final : A) :
  (forall a, Unset [] a -> a = final) ->
  (forall n v attrs a, Unset ((n, v) :: attrs) a ->
    exists a', match find_field fs n with Some f => f a v | None => Ok a end = Ok a' /\ Unset attrs a') ->
  forall attrs a, Unset attrs a -> dec_attrs fs attrs a = Ok final.
Proof.
  intros Hend Hstep. induction attrs as [|[n v] attrs IH]; intros a Ha; [by rewrite (Hend a Ha)|].
  destruct (Hstep n v attrs a Ha) as (a' & E & Ha'). cbn [dec_attrs]. rewrite E. by apply IH.
Qed.

Ltac unknown_attr := unfold find_field; cbn [List.find fst]; rewrite ?bool_decide_false by congruence.

(** Structs without elements: what they contain is left out. *)
Lemma dec_no_children {A} content (a : A) : dec_children [] content a = Ok a.
Proof. induction content as [|[s|e] content IH]; [done|exact IH|exact IH]. Qed.

Lemma one_attr {A B} name (set : B -> A -> A) (get : A -> B) (parse : A -> bytes -> result B) (reads : bytes -> B -> Prop) x a b :
  (forall a b, get (set b a) = b) -> (forall a b b', set b (set b' a) = set b a) -> set (get a) a = a ->
  (forall a v b, reads v b -> parse a v = Ok b) -> unset name (el_attrs x) reads (get a) b ->
  dec_struct [(bz name, fun a v => let* b := parse a v in Ok (set b a))] [] a x = Ok (set b a).
Proof.
  intros Hget Hset Hsame Hparse Hu. unfold dec_struct.
  rewrite (dec_attrs_unset _ (fun attrs a' => unset name attrs reads (get a') b /\ a' = set (get a') a) (set b a)); [apply dec_no_children|..].
  - intros a' [Hn E]. by rewrite E, (unset_none _ _ _ _ Hn).
  - intros n v attrs a' [Hn Ha']. destruct (decide (n = bz name)) as [->|Hne].
    + apply unset_here in Hn as [Hr Hn]. rewrite find_here, (Hparse a' v b Hr). cbn. eexists. split; [done|].
      rewrite Hget. split; [done|]. by rewrite Ha', Hset.
    + apply unset_other in Hn; [|done]. unknown_attr. cbn. by exists a'.
  - by split.
Qed.

Lemma xml_data_read d x : shows_Data d x -> not_empty (data_Name d) -> not_empty (data_Value d) -> dec_Data x = Ok d.
Proof.
  intros (_ & Hn & Hv) Hne Hve. destruct d as [n v]. unfold not_empty in *. cbn [data_Name data_Value] in *. unfold dec_Data.
  assert (dec_attrs [(bz "Name", fun _ v => Ok v)] (el_attrs x) [] = Ok (default [] n)) as ->.
  { apply (dec_attrs_unset _ (fun attrs a => unset "Name" attrs eq a (default [] n))).
    - intros a. apply unset_none.
    - intros m w attrs a Hu. destruct (decide (m = bz "Name")) as [->|Hm].
      + apply unset_here in Hu as [-> Hu]. rewrite find_here. by eexists.
      + apply unset_other in Hu; [|done]. unknown_attr. by exists a.
    - unfold unset. unfold values in Hn. cbv zeta. rewrite Hn. destruct n as [n|]; cbn; [right; by exists n|by left]. }
  cbn [res_bind]. rewrite Hv. assert (forall o : option bytes, o <> Some [] -> (if bool_decide (default [] o = []) then None else Some (default [] o)) = o) as Ho.
  { intros [y|] Hx; cbn; [|done]. rewrite bool_decide_false; [done|]. by intros ->. }
  by rewrite !Ho.
Qed.

Lemma xml_data_list_read l ds : Forall2 shows_Data l ds -> Forall (fun d => not_empty (data_Name d) /\ not_empty (data_Value d)) l -> forall acc,
  dec_children fields_EventData (Elem <$> ds) acc = Ok (acc ++ l).
Proof.
  induction 1 as [|d x l ds Hx _ IH]; intros Hne acc; [by rewrite app_nil_r|]. apply Forall_cons_1 in Hne as [[Hn Hv] Hne].
  cbn [fmap list_fmap dec_children]. rewrite (proj1 Hx). unfold fields_EventData at 1. rewrite find_here, (xml_data_read d x) by done.
  cbn [res_bind]. rewrite IH by done. by rewrite <- app_assoc.
Qed.

Lemma attr_guid_braced old u : length u = 16%nat -> attr_guid old (Guid.braced u) = Ok (Some u).
Proof. intros Hu. unfold attr_guid, GuidXml.UnmarshalXMLAttr. rewrite bool_decide_false by done. by rewrite law_uuid_braced. Qed.

Definition reads_guid (v : bytes) (o : option bytes) : Prop := exists u, length u = 16%nat /\ v = Guid.braced u /\ o = Some u.

Lemma reads_guid_ok old v o : reads_guid v o -> attr_guid old v = Ok o.
Proof. intros (u & Hu & -> & ->). by apply attr_guid_braced. Qed.

Lemma unset_guid name x g : EventDoc.guid_ok g -> values name x = option_list (Guid.braced <$> g) ->
  unset name (el_attrs x) reads_guid None g.
Proof. intros Hg E. eapply unset_option; [exact E|]. intros u ->. exists u. split_and!; [by apply Hg|done|done]. Qed.

Lemma xml_provider_read p x : EventDoc.guid_ok (prov_Guid p) -> shows_Provider p x -> dec_Provider (mkProvider None None None) x = Ok p.
Proof.
  intros Hg (_ & H1 & H2 & H3). unfold dec_Provider, dec_struct.
  set (text v (o : option bytes) := o = Some v).
  rewrite (dec_attrs_unset _ (fun attrs q => unset "Name" attrs text (prov_Name q) (prov_Name p) /\
    unset "Guid" attrs reads_guid (prov_Guid q) (prov_Guid p) /\
    unset "EventSourceName" attrs text (prov_EventSourceName q) (prov_EventSourceName p)) p); [apply dec_no_children|..].
  - intros [n g es] (En%unset_none & Eg%unset_none & Es%unset_none). destruct p. cbn in *. congruence.
  - intros n v attrs q (Hn & Hu & Hs).
    destruct (decide (n = bz "Name")) as [->|Hn1].
    { apply unset_here in Hn as [Er Hn]. apply unset_other in Hu; [|done]. apply unset_other in Hs; [|done].
      rewrite find_here. unfold attr_string. cbn [res_bind]. eexists. split; [done|]. cbn. by rewrite <- Er. }
    destruct (decide (n = bz "Guid")) as [->|Hn2].
    { apply unset_here in Hu as [Er Hu]. apply unset_other in Hn; [|done]. apply unset_other in Hs; [|done].
      read_step. rewrite (reads_guid_ok _ _ _ Er). cbn. eexists. split; [done|]. by cbn. }
    destruct (decide (n = bz "EventSourceName")) as [->|Hn3].
    { apply unset_here in Hs as [Er Hs]. apply unset_other in Hn; [|done]. apply unset_other in Hu; [|done].
      read_step. unfold attr_string. cbn [res_bind]. eexists. split; [done|]. cbn. by rewrite <- Er. }
    apply unset_other in Hn, Hu, Hs; [|done..]. unknown_attr. cbn. by exists q.
  - cbn. split_and!; [|by apply unset_guid|]; eapply (unset_option _ _ id); by (rewrite option_fmap_id || intros b ->).
Qed.

Lemma unset_number name x o : int_ok o -> Forall2 number_text (values name x) (option_list o) ->
  unset name (el_attrs x) (fun v o => attr_int v = Ok o) None o.
Proof.
  intros Ho Hv. unfold unset, values in *. destruct o as [n|]; cbn in *; inversion Hv as [|v ? vs ? Hn Hvs]; subst; [|by left].
  inversion Hvs; subst. right. exists v. split; [done|]. unfold attr_int. by rewrite (copy_int_number v n).
Qed.

Lemma xml_execution_read s pid tid x : int_ok pid -> int_ok tid -> shows_Execution pid tid x ->
  sys_ProcessId s = None -> sys_ThreadId s = None ->
  dec_struct [(bz "ProcessID", fun s v => let* n := attr_int v in Ok (Events.put_ProcessId n s));
    (bz "ThreadID", fun s v => let* n := attr_int v in Ok (Events.put_ThreadId n s))] [] s x =
  Ok (Events.put_ThreadId tid (Events.put_ProcessId pid s)).
Proof.
  intros Hp Ht (_ & H1 & H2) Es1 Es2. unfold dec_struct.
  set (ints v (o : option Z) := attr_int v = Ok o).
  rewrite (dec_attrs_unset _ (fun attrs t => unset "ProcessID" attrs ints (sys_ProcessId t) pid /\
    unset "ThreadID" attrs ints (sys_ThreadId t) tid /\
    t = Events.put_ThreadId (sys_ThreadId t) (Events.put_ProcessId (sys_ProcessId t) s))
    (Events.put_ThreadId tid (Events.put_ProcessId pid s))); [apply dec_no_children|..].
  - intros t (E1%unset_none & E2%unset_none & E). by rewrite E, E1, E2.
  - intros n v attrs t (Hn1 & Hn2 & E). destruct (decide (n = bz "ProcessID")) as [->|Hne1].
    { apply unset_here in Hn1 as [Er Hn1]. apply unset_other in Hn2; [|done]. rewrite find_here, Er. cbn. eexists. split; [done|].
      split_and!; [done|done|]. by rewrite E. }
    destruct (decide (n = bz "ThreadID")) as [->|Hne2].
    { apply unset_here in Hn2 as [Er Hn2]. apply unset_other in Hn1; [|done]. read_step. rewrite Er. cbn. eexists. split; [done|].
      split_and!; [done|done|]. by rewrite E. }
    apply unset_other in Hn1, Hn2; [|done..]. unknown_attr. cbn. by exists t.
  - rewrite Es1, Es2. split_and!; [by apply unset_number..|]. destruct s. cbn in *. by subst.
Qed.

Lemma xml_system_read s content : shows_System s content ->
  EventDoc.guid_ok (prov_Guid (sys_Provider s)) -> EventDoc.guid_ok (sys_ActivityId s) ->
  in_s 64 (sys_EventId s) -> in_s 64 (sys_EventRecordId s) -> int_ok (sys_ProcessId s) -> int_ok (sys_ThreadId s) ->
  dec_children fields_System content Events.zero_System = Ok s.
Proof.
  intros (xp & xid & xt & xrec & xcorr & xexec & xch & xcomp & Hx & Hsp & (Nid & Hsid) & Hst & (Nrec & Hsrec) & Hsc & Hse & (Nch & Hsch) & (Ncomp & Hscomp))
    Hg Ha Hid Hrec Hp Ht. rewrite (unknown_ignored fields_System), Hx. clear Hx.
  pose proof (proj1 Hsp) as Np. pose proof (proj1 Hst) as Nt. pose proof (proj1 Hsc) as Nc. pose proof (proj1 Hse) as Ne.
  destruct s as [p id t rec act pid tid ch comp]. cbn [sys_Provider sys_EventId sys_SystemTime
    sys_EventRecordId sys_ActivityId sys_ProcessId sys_ThreadId sys_Channel sys_Computer] in *.
  unfold fields_System. cbn [dec_children]. rewrite Np, Nid, Nt, Nrec, Nc, Ne, Nch, Ncomp. read_step.
  rewrite (xml_provider_read p) by done. read_step. rewrite (copy_int_number _ id) by done. read_step.
  destruct Hst as (_ & v & Ev & Et).
  rewrite (one_attr "SystemTime" Events.put_SystemTime sys_SystemTime (fun _ => TimeText.ParseRFC3339) (fun v t => TimeText.ParseRFC3339 v = Ok t) _ _ t);
    [|done..|right; by exists v]. read_step.
  rewrite (copy_int_number _ rec) by done. read_step.
  rewrite (one_attr "ActivityID" Events.put_ActivityId sys_ActivityId (fun s => attr_guid (sys_ActivityId s)) reads_guid _ _ act);
    [|done..|intros; by apply reads_guid_ok|apply unset_guid; [done|by apply Hsc]]. read_step.
  rewrite (xml_execution_read _ pid tid) by done. read_step. rewrite Hsch. read_step. by rewrite Hscomp.
Qed.

Lemma dec_no_attrs {A} attrs (a : A) : dec_attrs [] attrs a = Ok a.
Proof. induction attrs as [|[n v] attrs IH]; [done|]. exact IH. Qed.

(** C35. An event of the log is read as it is shown: the elements of the event,
    in the order of the log, with any other elements between and within them,
    their attributes in any order among any others, numbers with or without
    spaces around them, and the time in any text that denotes it. *)
Theorem event_read e x : shows e x -> xml_ok e -> dec_EventWithData zero_EventWithData x = Ok e.
Proof.
  intros (sys & data & ds & Hx & Hns & Hnd & Hsys & Hdata & Hds) (Hg & Ha & Hid & Hrec & Hp & Ht & Hd).
  unfold dec_EventWithData, dec_struct. rewrite dec_no_attrs. cbn [res_bind]. rewrite unknown_ignored, Hx.
  unfold fields_EventWithData. cbn [dec_children]. rewrite Hns, Hnd. read_step.
  unfold dec_System, dec_struct. rewrite dec_no_attrs. cbn [res_bind].
  change (ev_System (ed_Event zero_EventWithData)) with Events.zero_System. rewrite (xml_system_read _ _ Hsys) by done. read_step.
  unfold dec_EventData. rewrite (unknown_ignored fields_EventData), Hdata, (xml_data_list_read _ _ Hds) by done.
  cbn. by destruct e as [[s] d].
Qed.

End Facts.
End EventXml.

(** * Reading XML does not panic

    Whatever a file holds, reading an event from it ends with the event or an
    error. *)

Module XmlSafe.
Import JsonCodecFacts Xml XmlCodec EventXml.

Create HintDb xml_safe.

(** Branches of a definition, and the steps of a sequence. *)
Ltac safely := repeat first
  [ done
  | apply safe_bind; [|intros]
  | match goal with
    | |- safe (if ?b then _ else _) => destruct b
    | |- safe (match ?x with _ => _ end) => destruct x
    | |- safe (let '(_, _) := ?x in _) => destruct x
    end
  | solve [eauto with xml_safe] ].

Lemma safe_unescape entities fuel : forall s, safe (unescape entities fuel s).
Proof. induction fuel as [|fuel IH]; intros [|c r]; cbn [unescape]; safely. Qed.
#[export] Hint Resolve safe_unescape : xml_safe.

Lemma safe_chars entities s : safe (chars entities s).
Proof. unfold chars. safely. Qed.
Lemma safe_text s : safe (text s).
Proof. apply safe_chars. Qed.
Lemma safe_read_name s : safe (read_name s).
Proof. unfold read_name. safely. Qed.
Lemma safe_local_name s : safe (local_name s).
Proof. unfold local_name. safely. Qed.
#[export] Hint Resolve safe_chars safe_text safe_read_name safe_local_name : xml_safe.

Lemma safe_read_attrs fuel : forall s, safe (read_attrs fuel s).
Proof. induction fuel as [|fuel IH]; intros s; cbn [read_attrs]; safely. Qed.
#[export] Hint Resolve safe_read_attrs : xml_safe.

Lemma safe_skip s r : skip_markup s = Some r -> safe r.
Proof. unfold skip_markup. repeat case_match; by intros [= <-]. Qed.

Lemma safe_read fuel : (forall s, safe (read_content fuel s)) /\ forall s, safe (read_element fuel s).
Proof.
  induction fuel as [|fuel [IHc IHe]]; [done|]. split; intros s; cbn [read_content read_element].
  - destruct (starts _ s); [done|]. destruct (bool_decide _); [done|].
    destruct (skip_markup s) as [r|] eqn:E; [apply safe_skip in E; safely|]. safely.
  - safely.
Qed.

Lemma safe_first fuel : forall s, safe (first_element fuel s).
Proof.
  induction fuel as [|fuel IH]; intros s; [done|]. cbn [first_element].
  destruct (skip_markup s) as [r|] eqn:E; [apply safe_skip in E; safely|]. destruct (safe_read fuel) as [_ He]. safely.
Qed.

(** ** Structs *)

Lemma found {B} (fs : list (bytes * B)) n f : find_field fs n = Some f -> exists n', List.In (n', f) fs.
Proof.
  unfold find_field. destruct (List.find (fun g => bool_decide (fst g = n)) fs) as [[n' f']|] eqn:E; [|done].
  apply List.find_some in E as [Hin _]. intros [= <-]. by exists n'.
Qed.

Lemma safe_dec_attrs {A} (fs : list (attr_field A)) : Forall (fun f => forall a v, safe (snd f a v)) fs ->
  forall attrs a, safe (dec_attrs fs attrs a).
Proof.
  intros Hfs. induction attrs as [|[n v] attrs IH]; intros a; [done|]. cbn [dec_attrs]. apply safe_bind; [|intros; apply IH].
  destruct (find_field fs n) as [f|] eqn:E; [|done]. apply found in E as [n' Hin].
  exact (proj1 (List.Forall_forall _ _) Hfs (n', f) Hin a v).
Qed.

Lemma safe_dec_children {A} (fs : list (child_field A)) : Forall (fun f => forall a e, safe (snd f a e)) fs ->
  forall content a, safe (dec_children fs content a).
Proof.
  intros Hfs. induction content as [|[s|e] content IH]; intros a; [done|apply IH|]. cbn [dec_children].
  apply safe_bind; [|intros; apply IH]. destruct (find_field fs (el_name e)) as [f|] eqn:E; [|done].
  apply found in E as [n' Hin]. exact (proj1 (List.Forall_forall _ _) Hfs (n', f) Hin a e).
Qed.

Lemma safe_xml_struct {A} (fs : list (attr_field A)) (cs : list (child_field A)) a e :
  Forall (fun f => forall a v, safe (snd f a v)) fs -> Forall (fun f => forall a e, safe (snd f a e)) cs -> safe (dec_struct fs cs a e).
Proof. intros Hf Hc. apply safe_bind; [by apply safe_dec_attrs|]. intros. by apply safe_dec_children. Qed.

Section Events.
Context `{UuidLaws}.

Lemma safe_ParseInt s : safe (Strconv.ParseInt s).
Proof. unfold Strconv.ParseInt. destruct s as [|c r]; safely. Qed.
Lemma safe_ParseRFC3339 s : safe (TimeText.ParseRFC3339 s).
Proof.
  unfold TimeText.ParseRFC3339, TimeText.zone, DateTime.getyear, DateTime.skip, DateTime.in_range.
  repeat first [ apply safe_bind; [try apply JsonDecoded.safe_getnum|intros] | case_match | done ].
Qed.
Lemma safe_copy_int s : safe (copy_int s).
Proof. unfold copy_int. destruct (bool_decide _); [done|apply safe_ParseInt]. Qed.
Lemma safe_attr_int s : safe (attr_int s).
Proof. apply safe_bind; [apply safe_copy_int|done]. Qed.
Lemma safe_attr_guid old s : safe (attr_guid old s).
Proof. apply safe_bind; [|done]. unfold GuidXml.UnmarshalXMLAttr. destruct (bool_decide _); [done|apply JsonDecoded.safe_parse]. Qed.

Lemma safe_dec_System s e : safe (dec_System s e).
Proof.
  apply safe_xml_struct; [done|]. repeat (apply List.Forall_cons; [intros; cbn [snd]|]); [..|apply List.Forall_nil]; try done;
    try (apply safe_bind; [apply safe_copy_int|done]).
  - apply safe_bind; [|done]. apply safe_xml_struct; [|done]. repeat (apply List.Forall_cons; [intros; cbn [snd]|]); try done.
    apply safe_bind; [apply safe_attr_guid|done].
  - apply safe_xml_struct; [|done]. apply List.Forall_cons; [|done]. intros. cbn [snd]. apply safe_bind; [|done]. apply safe_ParseRFC3339.
  - apply safe_xml_struct; [|done]. apply List.Forall_cons; [|done]. intros. cbn [snd]. apply safe_bind; [apply safe_attr_guid|done].
  - apply safe_xml_struct; [|done]. repeat (apply List.Forall_cons; [intros; cbn [snd]|]); try done; (apply safe_bind; [apply safe_attr_int|done]).
Qed.

(** Reading an event from a file does not panic. *)
Lemma safe_event_xml data : safe (Unmarshal data).
Proof.
  apply safe_bind; [apply safe_first|]. intros x. apply safe_xml_struct; [done|].
  repeat (apply List.Forall_cons; [intros; cbn [snd]|]); [..|apply List.Forall_nil]; (apply safe_bind; [|done]).
  - apply safe_dec_System.
  - apply safe_dec_children. apply List.Forall_cons; [|done]. intros. cbn [snd]. apply safe_bind; [|done].
    apply safe_bind; [|done]. apply safe_dec_attrs. by apply List.Forall_cons.
Qed.

End Events.
End XmlSafe.
