(* ===== verification/JsonPlatform.v ===== *)
(** * The platform with the JSON codecs of the program

    Puts the codecs in the place of the [Json] interface the chain is proved
    against, and discharges every law about JSON: what remains assumed of the
    platform are the Merkle tree, the database, signatures, the textual form of
    UUIDs, the Protobuf form of proofs and the hash of policies. *)

From S2P Require Import Prelude Types Text Duration JsonText JsonScan JsonCompact JsonCodec JsonCodecFacts TimeText Platform Bson JsonTypes JsonTypesFacts JsonDecoded.
From Corelib Require Import Init.Byte.

Module JsonPlatform.
Import JsonText JsonScan JsonScanFacts JsonCompact JsonCodec JsonCodecFacts JsonTypes JsonTypesFacts JsonDecoded.

(** ** What writing a struct says of its fields *)

Lemma enc_fields_ok fs : (Forall (fun f => exists v, snd f = Ok v) fs) <-> exists kvs, enc_fields fs = Ok kvs.
Proof.
  split.
  - induction 1 as [|[k r] fs [v Hv] _ [kvs IH]]; [by exists []|]. cbn in *. rewrite Hv. cbn. rewrite IH. by eexists.
  - induction fs as [|[k r] fs IH]; intros [kvs E]; [constructor|]. cbn in E.
    apply res_bind_ok in E as (v & Hv & (rest & Hr & _)%res_bind_ok). constructor; [by exists v|eauto].
Qed.

Lemma enc_struct_ok fs : Forall (fun f => exists v, snd f = Ok v) fs -> exists b, enc_struct fs = Ok b.
Proof. intros [kvs E]%enc_fields_ok. unfold enc_struct. rewrite E. by eexists. Qed.

Lemma enc_struct_inv fs b : enc_struct fs = Ok b -> Forall (fun f => exists v, snd f = Ok v) fs.
Proof. intros (kvs & E & _)%res_bind_ok. apply enc_fields_ok. by exists kvs. Qed.

Definition writes_compact (r : result bytes) : Prop := forall v, r = Ok v -> compact_value v.

Lemma enc_struct_compact fs : Forall (fun f => writes_compact (snd f)) fs -> writes_compact (enc_struct fs).
Proof.
  intros Hf v (kvs & E & [= <-])%res_bind_ok. apply compact_object.
  revert kvs E. induction Hf as [|[k r] fs Hr Hf IH]; intros kvs E; [injection E as <-; constructor|].
  cbn in E. apply res_bind_ok in E as (v & Hv & (rest & Hrest & [= <-])%res_bind_ok).
  constructor; [|by apply IH]. split; [apply sealed_quote|by apply Hr].
Qed.

Lemma string_writes_compact s : writes_compact (enc_string s).
Proof. intros v [= <-]. apply quote_compact. Qed.

Lemma marshaler_compact {A} (m : A -> result bytes) a : writes_compact (enc_marshaler m a).
Proof. intros v (b & _ & Hc)%res_bind_ok. by apply compaction_compact in Hc. Qed.

Lemma int_compact n : writes_compact (enc_int n).
Proof.
  intros v [= <-]. unfold Strconv.FormatInt. destruct (n <? 0) eqn:E.
  - apply (codes_number true), FormatUint_canonical. lia.
  - apply (codes_number false), FormatUint_canonical. lia.
Qed.

Lemma ptr_compact {A} (enc : encoder A) o : (forall a, writes_compact (enc a)) -> writes_compact (enc_ptr enc o).
Proof. intros He. destruct o as [a|]; [apply He|]. intros v [= <-]. apply compact_null. Qed.

Create HintDb json_compact.
#[export] Hint Resolve string_writes_compact marshaler_compact int_compact ptr_compact enc_raw_compact : json_compact.

(** Every field of a struct of structs writes a compact value. *)
Ltac compact_struct := apply enc_struct_compact; fields; cbn [snd]; try (apply ptr_compact; intros ?); try compact_struct; auto with json_compact.

Lemma Payload_compact p : writes_compact (Requests.enc_Payload p).
Proof. apply enc_struct_compact. fields; [apply string_writes_compact|exact (enc_raw_compact _)]. Qed.

(** ** Policies *)

Lemma dec_named_inv {A} (fs : list (field A)) k v kvs set a r :
  find_field fs k = Some set -> dec_named fs a ((k, v) :: kvs) = Ok r ->
  exists a', set a v = Ok a' /\ dec_named fs a' kvs = Ok r.
Proof. intros Hf. cbn. rewrite Hf. by intros (a' & ? & ?)%res_bind_ok; exists a'. Qed.

Lemma set_field_inv {A B} (get : A -> B) put dec a v a' :
  set_field get put dec a v = Ok a' -> exists b, dec (get a) v = Ok b.
Proof. intros (b & Hb & _)%res_bind_ok. by exists b. Qed.

(** The text of a filter can be read only if its period can. *)
Lemma filter_text f : filter_decoded f -> exists v, Policies.enc_Filter f = Ok v /\ compact_value v /\
  forall old r, Policies.dec_Filter old v = Ok r ->
    is_ok (Duration.UnmarshalJSON (Duration.MarshalJSON (pa_RetentionPeriod (f_PolicyAction f)))) = true.
Proof.
  intros (Hl & Hm & Ht & Hg & Hp & Hv). set (a := f_PolicyAction f) in *.
  field (codable_string _ Ht). field (codable_string _ Hg). field (codable_uint _ Hv).
  destruct (duration_written (pa_RetentionPeriod a)) as [Ed Cd]. set (w := Duration.MarshalJSON (pa_RetentionPeriod a)) in *.
  set (kas := [(bz "type", v); (bz "rule_group", v0); (bz "retention_period", w); (bz "volume", v1)]).
  assert (Policies.enc_PolicyAction a = Ok (render_object (named <$> kas))) as Ea
    by (unfold Policies.enc_PolicyAction; write_fields).
  assert (compact_value (render_object (named <$> kas))) as Ca by (apply struct_compact; each).
  assert (forall old r, Policies.dec_PolicyAction old (render_object (named <$> kas)) = Ok r ->
    is_ok (Duration.UnmarshalJSON w) = true) as Da.
  { intros old r. unfold Policies.dec_PolicyAction. rewrite dec_struct_object by each. intros Hr.
    eapply dec_named_inv in Hr as (a1 & _ & Hr); [|reflexivity]. eapply dec_named_inv in Hr as (a2 & _ & Hr); [|reflexivity].
    eapply dec_named_inv in Hr as (a3 & Hs & _); [|reflexivity]. apply set_field_inv in Hs as (d & Hd).
    unfold Policies.dec_duration, dec_custom in Hd. by rewrite Hd. }
  field (codable_string _ Hl). field (codable_Match _ Hm).
  set (x := render_object (named <$> kas)) in *. clearbody x.
  set (kfs := [(bz "label", v2); (bz "match", v3); (bz "policy", x)]).
  exists (render_object (named <$> kfs)). split_and!; [unfold Policies.enc_Filter; fold a; write_fields|apply struct_compact; each|].
  intros old r. unfold Policies.dec_Filter. rewrite dec_struct_object by each. intros Hr.
  eapply dec_named_inv in Hr as (a1 & _ & Hr); [|reflexivity]. eapply dec_named_inv in Hr as (a2 & _ & Hr); [|reflexivity].
  eapply dec_named_inv in Hr as (a3 & Hs & _); [|reflexivity]. apply set_field_inv in Hs as (d & Hd). by eapply Da.
Qed.

Definition readable_period (f : Filter) : Prop :=
  is_ok (Duration.UnmarshalJSON (Duration.MarshalJSON (pa_RetentionPeriod (f_PolicyAction f)))) = true.

Lemma filters_text l : Forall filter_decoded l -> exists vs, enc_list Policies.enc_Filter l = Ok vs /\
  Forall compact_value vs /\
  forall old r, dec_elements Policies.zero_Filter Policies.dec_Filter old vs = Ok r -> Forall readable_period l.
Proof.
  induction 1 as [|f l Hf _ (vs & E & C & D)]; [by exists []|].
  destruct (filter_text f Hf) as (v & Ev & Cv & Dv). exists (v :: vs). cbn. rewrite Ev. cbn. rewrite E.
  split_and!; [done|by constructor|]. intros old r (a & Ha & (l' & Hl & _)%res_bind_ok)%res_bind_ok.
  constructor; [by eapply Dv|by eapply D].
Qed.

Lemma policy_periods p b : Forall filter_decoded (Filters (spol_Policy p)) -> Policies.enc_StoredPolicy p = Ok b ->
  compact_value b /\ forall r, Policies.dec_StoredPolicy (mkStoredPolicy (mkRetentionPolicy []) [] Events.zero_time) b = Ok r ->
  Forall readable_period (Filters (spol_Policy p)).
Proof.
  intros Hf Hb. destruct (filters_text _ Hf) as (vs & E & C & D).
  pose proof (enc_struct_inv _ _ Hb) as Hi. inversion Hi as [|? ? _ Hi1]; subst. inversion Hi1 as [|? ? _ Hi2]; subst.
  inversion Hi2 as [|? ? [w Ew] _]; subst. cbn in Ew.
  assert (enc_slice Policies.enc_Filter (Filters (spol_Policy p)) = Ok (render_array vs)) as Es
    by (unfold enc_slice; by rewrite E).
  pose proof (compact_array _ C) as Ca. set (kps := [(bz "filters", render_array vs)]).
  assert (Policies.enc_RetentionPolicy (spol_Policy p) = Ok (render_object (named <$> kps))) as Ep
    by (unfold Policies.enc_RetentionPolicy; write_fields).
  assert (compact_value (render_object (named <$> kps))) as Cp by (apply struct_compact; each).
  pose proof (marshaler_compact _ _ _ Ew) as Cw. pose proof (quote_compact (spol_Author p)) as Cq.
  set (kvs := [(bz "policy", render_object (named <$> kps)); (bz "author", quote (spol_Author p)); (bz "applied_at", w)]).
  assert (b = render_object (named <$> kvs)) as ->.
  { unfold Policies.enc_StoredPolicy in Hb. unfold enc_struct in Hb. cbn [enc_fields] in Hb.
    rewrite Ep, Ew in Hb. cbn [res_bind enc_string] in Hb. by injection Hb as <-. }
  split; [apply struct_compact; each|]. intros r.
  unfold Policies.dec_StoredPolicy. rewrite dec_struct_object by each. intros Hr.
  eapply dec_named_inv in Hr as (a1 & Hs & _); [|reflexivity]. apply set_field_inv in Hs as (q & Hq).
  unfold Policies.dec_RetentionPolicy in Hq. rewrite dec_struct_object in Hq by each.
  eapply dec_named_inv in Hq as (a2 & Hs & _); [|reflexivity]. apply set_field_inv in Hs as (l & Hl).
  unfold dec_slice in Hl. replace (is_null (render_array vs)) with false in Hl by (symmetry; by apply bool_decide_eq_false).
  rewrite array_render in Hl by (eapply List.Forall_impl; [|exact C]; by intros v []). by eapply D.
Qed.

(** ** Encoders do not panic *)

Lemma safe_enc_string s : safe (enc_string s).
Proof. done. Qed.
Lemma safe_enc_int n : safe (enc_int n).
Proof. done. Qed.
Lemma safe_enc_uint n : safe (enc_uint n).
Proof. done. Qed.
Lemma safe_enc_bytes b : safe (enc_bytes b).
Proof. done. Qed.

Lemma safe_marshaler {A} (m : A -> result bytes) a : safe (m a) -> safe (enc_marshaler m a).
Proof. intros Hm. apply safe_bind; [done|]. apply safe_compaction. Qed.

Lemma safe_enc_time t : safe (Events.enc_time t).
Proof.
  apply safe_marshaler. unfold TimeText.MarshalJSON, TimeText.AppendStrict. destruct (TimeText.civil _) as [[y m] d].
  by repeat case_match.
Qed.

Lemma safe_enc_hash h : safe (Events.enc_hash h).
Proof. by apply safe_marshaler. Qed.

Lemma safe_enc_duration d : safe (Policies.enc_duration d).
Proof. by apply safe_marshaler. Qed.

#[export] Hint Resolve safe_enc_string safe_enc_int safe_enc_uint safe_enc_bytes safe_enc_time safe_enc_hash
  safe_enc_duration safe_enc_raw : json_safe.

Ltac safe_struct := apply safe_enc_struct; fields; cbn [snd]; try (apply safe_enc_ptr; intros ?); try safe_struct; auto with json_safe.

Lemma safe_enc_Payload p : safe (Requests.enc_Payload p).
Proof. safe_struct. Qed.
Lemma safe_enc_map {V} (enc : encoder V) m : (forall v, safe (enc v)) -> safe (Maps.enc_map enc m).
Proof. intros He. apply safe_enc_struct, Forall_fmap, List.Forall_forall. intros [k v] _. apply He. Qed.
Lemma safe_enc_hashes m : safe (State.enc_hashes m).
Proof. by apply safe_enc_map. Qed.
#[export] Hint Resolve safe_enc_Payload safe_enc_hashes : json_safe.

(** ** Instances *)

Definition json {A} (enc : encoder A) (dec : decoder A) (zero : A)
  (He : forall a, safe (enc a)) (Hd : forall old v, safe (dec old v)) : Json A := {|
  Marshal := enc;
  Unmarshal := Unmarshal_into dec zero;
  Marshal_no_panic a w := safe_no_panic _ w (He a);
  Unmarshal_no_panic b w := safe_no_panic _ w (safe_Unmarshal dec zero b Hd)
|}.

Lemma json_laws {A} (enc : encoder A) dec zero He Hd (rep : A -> Prop) :
  (forall a, rep a -> codable enc dec a) -> @JsonLaws A (json enc dec zero He Hd) rep.
Proof. intros Hr. constructor. intros a Ha. by apply codable_round_trip, Hr. Qed.

#[export] Instance compact_raw : RawJson := compact_value.

(** ** Identities *)

(** An identity can always be written, and is read back exactly when its role is
    text: the key, of any size, survives in hexadecimal. *)
Theorem identity_json_round_trip d : exists b,
  enc_marshaler Identity.IdentityData_MarshalJSON d = Ok b /\
  (Unmarshal_into (dec_custom Identity.IdentityData_UnmarshalJSON) (mkIdentityData [] []) b = Ok d <-> utf8 (id_Role d)).
Proof.
  assert (exists b, Identity.IdentityData_MarshalJSON d = Ok b) as [b Hb] by (apply enc_struct_ok; fields; by eexists).
  assert (compact_value b) as Hc.
  { revert Hb. apply enc_struct_compact. fields; apply string_writes_compact. }
  exists b. split; [unfold enc_marshaler; rewrite Hb; by apply compact_fixed|]. split.
  - rewrite Unmarshal_value by done. apply IdentityData_decoded.
  - intros Hr. destruct (codable_IdentityData d Hr) as (v & Hv & Hcv & Hd). unfold enc_marshaler in Hv. rewrite Hb in Hv. cbn in Hv.
    rewrite compact_fixed in Hv by done. injection Hv as <-. by rewrite Unmarshal_value.
Qed.

Section Instances.
Context `{UuidLaws} {P : Type} `{ProofBytesLaws P}.
(* the nonce of a registration *)
Context (nonce : bytes).

Lemma safe_enc_Guid g : safe (Events.enc_Guid g).
Proof. by apply safe_marshaler. Qed.
Lemma safe_enc_uuid u : safe (Events.enc_uuid u).
Proof. done. Qed.
#[local] Hint Resolve safe_enc_Guid safe_enc_uuid : json_safe.

Lemma safe_enc_Provider p : safe (Events.enc_Provider p).
Proof. safe_struct. Qed.
#[local] Hint Resolve safe_enc_Provider : json_safe.
Lemma safe_enc_System s : safe (Events.enc_System s).
Proof. safe_struct. Qed.
#[local] Hint Resolve safe_enc_System : json_safe.
Lemma safe_enc_Event e : safe (Events.enc_Event e).
Proof. safe_struct. Qed.
#[local] Hint Resolve safe_enc_Event : json_safe.
Lemma safe_enc_ScrubbedEvent e : safe (Events.enc_ScrubbedEvent e).
Proof. safe_struct. Qed.
Lemma safe_enc_Metadata m : safe (Events.enc_Metadata m).
Proof. safe_struct. Qed.
#[local] Hint Resolve safe_enc_ScrubbedEvent safe_enc_Metadata : json_safe.
Lemma safe_enc_EventWithMetadata e : safe (Events.enc_EventWithMetadata e).
Proof. apply safe_enc_struct. cbn [Events.fields_ScrubbedEvent app]. fields; cbn [snd]; auto with json_safe. Qed.
Lemma safe_enc_CreateRequest r : safe (Events.enc_CreateRequest r).
Proof. safe_struct. Qed.
Lemma safe_enc_CreateResponse r : safe (Events.enc_CreateResponse r).
Proof. safe_struct. Qed.
Lemma safe_enc_EventCountResponse r : safe (Events.enc_EventCountResponse r).
Proof. safe_struct. Qed.

Lemma safe_enc_Match m : safe (Policies.enc_Match m).
Proof. safe_struct. Qed.
Lemma safe_enc_PolicyAction a : safe (Policies.enc_PolicyAction a).
Proof. safe_struct. Qed.
#[local] Hint Resolve safe_enc_Match safe_enc_PolicyAction : json_safe.
Lemma safe_enc_Filter f : safe (Policies.enc_Filter f).
Proof. safe_struct. Qed.
Lemma safe_enc_filters l : safe (enc_slice Policies.enc_Filter l).
Proof. apply safe_enc_slice, safe_enc_Filter. Qed.
#[local] Hint Resolve safe_enc_filters : json_safe.
Lemma safe_enc_RetentionPolicy p : safe (Policies.enc_RetentionPolicy p).
Proof. safe_struct. Qed.
#[local] Hint Resolve safe_enc_RetentionPolicy : json_safe.
Lemma safe_enc_StoredPolicy p : safe (Policies.enc_StoredPolicy p).
Proof. safe_struct. Qed.
Lemma safe_enc_SetPolicyRequest r : safe (Policies.enc_SetPolicyRequest r).
Proof. safe_struct. Qed.

Lemma safe_enc_UnsignedPayload p : safe (Requests.enc_UnsignedPayload p).
Proof. safe_struct. Qed.
Lemma safe_enc_SignedPayload p : safe (Requests.enc_SignedPayload p).
Proof. safe_struct. Qed.
Lemma safe_enc_MuxedRequest r : safe (Requests.enc_MuxedRequest r).
Proof. safe_struct. Qed.
Lemma safe_enc_State s : safe (State.enc_State s).
Proof. safe_struct. Qed.
Lemma safe_enc_IdentityData i : safe (enc_marshaler Identity.IdentityData_MarshalJSON i).
Proof. apply safe_marshaler. safe_struct. Qed.
Lemma safe_enc_PayloadSeed p : safe (enc_marshaler Identity.PayloadSeed_MarshalJSON p).
Proof. apply safe_marshaler. safe_struct. Qed.
Lemma safe_enc_PayloadRegister p : safe (enc_marshaler (Identity.PayloadRegister_MarshalJSON nonce) p).
Proof. apply safe_marshaler. safe_struct. Qed.
Lemma safe_enc_TreeProof (t : TreeProof P) : safe (enc_marshaler Proofs.TreeProof_MarshalJSON t).
Proof.
  apply safe_marshaler. apply safe_bind; [|intros b; safe_struct].
  unfold safe. destruct (proof_Marshal _) eqn:E; try done. by apply law_proof_Marshal_safe in E.
Qed.

#[export] Instance json_MuxedRequest : Json MuxedRequest :=
  json Requests.enc_MuxedRequest Requests.dec_MuxedRequest (mkMuxedRequest [] []) safe_enc_MuxedRequest safe_MuxedRequest.
#[export] Instance json_SignedPayload : Json SignedPayload :=
  json Requests.enc_SignedPayload Requests.dec_SignedPayload Requests.zero_SignedPayload safe_enc_SignedPayload safe_SignedPayload.
#[export] Instance json_UnsignedPayload : Json UnsignedPayload :=
  json Requests.enc_UnsignedPayload Requests.dec_UnsignedPayload (mkUnsignedPayload (mkPayload [] []))
    safe_enc_UnsignedPayload safe_UnsignedPayload.
#[export] Instance json_IdentityData : Json IdentityData :=
  json _ (dec_custom Identity.IdentityData_UnmarshalJSON) (mkIdentityData [] []) safe_enc_IdentityData (fun _ => safe_IdentityData).
#[export] Instance json_PayloadSeed : Json PayloadSeed :=
  json _ (dec_custom Identity.PayloadSeed_UnmarshalJSON) (mkPayloadSeed [] []) safe_enc_PayloadSeed (fun _ => safe_PayloadSeed).
#[export] Instance json_PayloadRegister : Json PayloadRegister :=
  json _ (dec_custom Identity.PayloadRegister_UnmarshalJSON) (mkPayloadRegister [] [] []) safe_enc_PayloadRegister
    (fun _ => safe_PayloadRegister).
#[export] Instance json_Event : Json Event :=
  json Events.enc_Event Events.dec_Event (mkEvent Events.zero_System) safe_enc_Event safe_Event.
#[export] Instance json_CreateRequest : Json CreateRequest :=
  json Events.enc_CreateRequest Events.dec_CreateRequest (mkCreateRequest Events.zero_ScrubbedEvent uuid_Nil)
    safe_enc_CreateRequest safe_CreateRequest.
#[export] Instance json_CreateResponse : Json CreateResponse :=
  json Events.enc_CreateResponse Events.dec_CreateResponse (mkCreateResponse Events.zero_Metadata)
    safe_enc_CreateResponse safe_CreateResponse.
#[export] Instance json_EventCountResponse : Json EventCountResponse :=
  json Events.enc_EventCountResponse Events.dec_EventCountResponse (mkEventCountResponse 0)
    safe_enc_EventCountResponse safe_EventCountResponse.
#[export] Instance json_EventWithMetadata : Json EventWithMetadata :=
  json Events.enc_EventWithMetadata Events.dec_EventWithMetadata (mkEventWithMetadata Events.zero_ScrubbedEvent Events.zero_Metadata)
    safe_enc_EventWithMetadata safe_EventWithMetadata.
#[export] Instance json_SetPolicyRequest : Json SetPolicyRequest :=
  json Policies.enc_SetPolicyRequest Policies.dec_SetPolicyRequest (mkSetPolicyRequest (mkRetentionPolicy []) uuid_Nil)
    safe_enc_SetPolicyRequest safe_SetPolicyRequest.
#[export] Instance json_StoredPolicy : Json StoredPolicy :=
  json Policies.enc_StoredPolicy Policies.dec_StoredPolicy (mkStoredPolicy (mkRetentionPolicy []) [] Events.zero_time)
    safe_enc_StoredPolicy safe_StoredPolicy.
#[export] Instance json_StateJson : Json StateJson :=
  json State.enc_State State.dec_State (mkStateJson 0 0 ∅) safe_enc_State safe_State.
#[export] Instance json_TreeProof : Json (TreeProof P) := {|
  Marshal := enc_marshaler Proofs.TreeProof_MarshalJSON;
  Unmarshal := on_value Proofs.TreeProof_UnmarshalJSON;
  Marshal_no_panic t w := safe_no_panic _ w (safe_enc_TreeProof t);
  Unmarshal_no_panic b w := safe_no_panic _ w (safe_on_value _ b safe_TreeProof)
|}.

(** *** Laws *)

#[export] Instance laws_MuxedRequest : JsonLaws MuxedRequest.
Proof. apply json_laws. intros r [Ha Hd]. by apply codable_MuxedRequest. Qed.
#[export] Instance laws_SignedPayload : JsonLaws SignedPayload.
Proof. apply json_laws. intros p [Hs Hd]. by apply codable_SignedPayload. Qed.
#[export] Instance laws_UnsignedPayload : JsonLaws UnsignedPayload.
Proof. apply json_laws. intros p [Hs Hd]. by apply codable_UnsignedPayload. Qed.
#[export] Instance laws_IdentityData : JsonLaws IdentityData.
Proof. apply json_laws. intros i Hi. by apply codable_IdentityData. Qed.
#[export] Instance laws_Event : JsonLaws Event.
Proof. apply json_laws. intros e He. by apply codable_Event. Qed.
#[export] Instance laws_CreateResponse : JsonLaws CreateResponse.
Proof. apply json_laws, codable_CreateResponse. Qed.
#[export] Instance laws_EventCountResponse : JsonLaws EventCountResponse.
Proof. apply json_laws, codable_EventCountResponse. Qed.
#[export] Instance laws_EventWithMetadata : JsonLaws EventWithMetadata.
Proof. apply json_laws, codable_EventWithMetadata. Qed.
#[export] Instance laws_StoredPolicy : JsonLaws StoredPolicy.
Proof. apply json_laws, codable_StoredPolicy. Qed.
#[export] Instance laws_StateJson : JsonLaws StateJson.
Proof. constructor. apply State_round_trip. Qed.

#[export] Instance laws_PayloadSeed : JsonLaws PayloadSeed.
Proof. apply json_laws. intros p Hp. by apply codable_PayloadSeed. Qed.
#[export] Instance laws_PayloadRegister : JsonLaws PayloadRegister.
Proof. apply json_laws. intros p [Hp Hr]. by apply codable_PayloadRegister. Qed.
#[export] Instance laws_CreateRequest : JsonLaws CreateRequest.
Proof. apply json_laws, codable_CreateRequest. Qed.

#[export] Instance decoded_SignedPayload : JsonDecoded SignedPayload.
Proof. constructor. intros b p. apply Unmarshal_keeps; [apply SignedPayload_decoded|done]. Qed.
#[export] Instance decoded_PayloadSeed : JsonDecoded PayloadSeed.
Proof. constructor. intros b p. apply (Unmarshal_keeps _ (fun p => representable p)); [|done]. intros old v q _. apply PayloadSeed_decoded. Qed.
#[export] Instance decoded_PayloadRegister : JsonDecoded PayloadRegister.
Proof. constructor. intros b p. apply (Unmarshal_keeps _ (fun p => representable p)); [|done]. intros old v q _. apply PayloadRegister_decoded. Qed.
#[export] Instance decoded_CreateRequest : JsonDecoded CreateRequest.
Proof.
  constructor. intros b r Hr. apply create_fields_decoded. revert Hr.
  apply Unmarshal_keeps; [apply CreateRequest_decoded|by repeat split].
Qed.
#[export] Instance decoded_SetPolicyRequest : JsonDecoded SetPolicyRequest.
Proof.
  constructor. intros b r Hr. apply (Unmarshal_keeps _ set_policy_fields) in Hr; [|apply SetPolicyRequest_decoded|by split; [constructor|]].
  destruct Hr as [Hf Hn]. split; [|done]. eapply List.Forall_impl; [|exact Hf].
  intros f (Hl & Hm & Ht & Hg & Hp & Hv). by split_and!.
Qed.

#[export] Instance compact_SignedPayload : JsonCompact SignedPayload.
Proof.
  constructor. intros p b. apply enc_struct_compact. fields; [apply Payload_compact|apply string_writes_compact..].
Qed.
#[export] Instance compact_UnsignedPayload : JsonCompact UnsignedPayload.
Proof. constructor. intros p b. apply enc_struct_compact. fields. apply Payload_compact. Qed.

(** A request without data is written, and read, as one with the data [null]. *)
Lemma routed_json app : utf8 app ->
  exists b d, Marshal (mkMuxedRequest app []) = Ok b /\ Unmarshal b = Ok (mkMuxedRequest app d).
Proof.
  intros Ha. destruct (law_round_trip (mkMuxedRequest app null)) as (b & Hm & _ & Hu).
  { split; [exact Ha|]. exact compact_null. }
  by exists b, null.
Qed.

#[export] Instance compact_PayloadRegister : JsonCompact PayloadRegister.
Proof. constructor. intros p b. apply marshaler_compact. Qed.

Lemma ScrubbedEvent_compact e : writes_compact (Events.enc_ScrubbedEvent e).
Proof. compact_struct; apply marshaler_compact. Qed.
#[export] Instance compact_CreateRequest : JsonCompact CreateRequest.
Proof. constructor. intros r b. apply enc_struct_compact. fields; [apply ScrubbedEvent_compact|apply string_writes_compact]. Qed.

Lemma event_time (e : Event) b : Marshal e = Ok b -> offset (sys_SystemTime (ev_System e)) mod 60 = 0 ->
  time_ok (sys_SystemTime (ev_System e)).
Proof.
  intros Hm. apply enc_struct_inv in Hm. inversion Hm as [|? ? [s Hs] _]; subst. cbn in Hs.
  apply enc_struct_inv in Hs. do 2 (inversion Hs as [|? ? _ Hs']; subst; clear Hs; rename Hs' into Hs).
  inversion Hs as [|? ? [t Ht] _]; subst. cbn [snd] in Ht. apply enc_struct_inv in Ht.
  inversion Ht as [|? ? [v Hv] _]; subst. exact (enc_time_ok _ _ Hv).
Qed.

(** C34. A creation request that can be decoded, and whose event can be hashed, is
    well typed: it is text in UTF-8, numbers of 64 bits, UUIDs of sixteen bytes
    and a printable time.  Written again it reads as the same request, whatever
    the text it came from. *)
Theorem create_request_typed (b : bytes) (r : CreateRequest) eb :
  Unmarshal b = Ok r -> Marshal (se_Event (cr_Event r)) = Ok eb ->
  representable r /\ exists b', Marshal r = Ok b' /\ Unmarshal b' = Ok r.
Proof.
  intros Hu Hm. destruct (law_decoded b r Hu) as (Ho & (Hmin & Hok) & Hn).
  assert (representable r) as Hr by (split; [split; [done|]|done]; exact (Hok (event_time _ _ Hm Hmin))).
  split; [done|]. destruct (law_round_trip r Hr) as (b' & ? & _ & ?). by exists b'.
Qed.

Lemma policy_marshals (p : StoredPolicy) : time_ok (spol_AppliedAt p) -> exists b, Marshal p = Ok b /\ b <> [].
Proof.
  intros Ht. destruct (codes_time _ Ht) as (v & (Ev & _ & _) & _).
  assert (forall f, exists v, Policies.enc_Filter f = Ok v) as Hf.
  { intros f. apply enc_struct_ok. fields; cbn [snd]; [by eexists| |].
    - apply enc_struct_ok. destruct (f_Match f) as [[] [] []]; fields; by eexists.
    - apply enc_struct_ok. fields; cbn [snd]; try by eexists. by destruct (duration_written (pa_RetentionPeriod (f_PolicyAction f))); eexists. }
  assert (exists v, enc_slice Policies.enc_Filter (Filters (spol_Policy p)) = Ok v) as [vs Hvs].
  { unfold enc_slice. assert (exists l, enc_list Policies.enc_Filter (Filters (spol_Policy p)) = Ok l) as [l ->]; [|by eexists].
    induction (Filters (spol_Policy p)) as [|f l [vs IH]]; [by eexists|]. cbn. destruct (Hf f) as [w ->]. cbn. rewrite IH. by eexists. }
  destruct (enc_struct_ok [(bz "policy", Policies.enc_RetentionPolicy (spol_Policy p)); (bz "author", enc_string (spol_Author p));
    (bz "applied_at", Events.enc_time (spol_AppliedAt p))]) as [b Hb].
  { fields; cbn [snd]; [|by eexists|by eexists]. apply enc_struct_ok. fields. by exists vs. }
  exists b. split; [exact Hb|]. apply res_bind_ok in Hb as (kvs & _ & [= <-]). done.
Qed.

Lemma codable_bytes b : codable enc_bytes dec_bytes b.
Proof. eexists. apply codes_bytes. Qed.

Lemma proof_json h (p : P) : exists b, Marshal (mkTreeProof h p) = Ok b /\ Unmarshal b = Ok (mkTreeProof h p).
Proof.
  destruct (law_proof_bytes p) as (pb & Hm & Hu).
  set (enc := fun a => enc_struct [(bz "app_hash", enc_bytes (Proofs.raw_AppHash a)); (bz "proof", enc_bytes (Proofs.raw_Proof a))]).
  set (r := Proofs.mkRawProof h pb).
  assert (codable (enc_marshaler Proofs.TreeProof_MarshalJSON) (dec_custom Proofs.TreeProof_UnmarshalJSON) (mkTreeProof h p))
    as (v & He & Hc & Hd).
  { eapply (custom_round_trip _ _ enc) with (b := r).
    - unfold Proofs.TreeProof_MarshalJSON. cbn [tp_Proof]. by rewrite Hm.
    - done.
    - field (codable_bytes (Proofs.raw_AppHash r)). field (codable_bytes (Proofs.raw_Proof r)).
      struct enc r [(bz "app_hash", v); (bz "proof", v0)].
    - cbn. by rewrite Hu. }
  exists v. split; [done|]. unfold Unmarshal. cbn. rewrite on_value_compact by done. exact (Hd (mkTreeProof h p)).
Qed.

End Instances.

(** ** The platform *)

Section Assembly.
Context `{UL : UuidLaws} {T P D : Type} `{TL : TreeLaws T P} `{Ics23 P} `{PL : ProofBytesLaws P}
  `{DL : DbLaws D} `{EL : Ed25519Laws}.
Context (nonce : bytes) (policy_hash : option StoredPolicy -> result Z).

Definition json_platform : Platform := {|
  Tree := T; CommitmentProof := P; DB := D;
  hashstructure_Hash := policy_hash;
  pf_PayloadRegister := json_PayloadRegister nonce
|}.

(** What is assumed of the libraries beside their own laws: proofs of a tree
    verify, and policies can be hashed. *)
Hypothesis proofs_verify : forall t k p h,
  working t = saved t -> tree_GetProof t k = Ok p -> tree_Hash t = Ok h ->
  match working t !! k with
  | Some v => proof_variant p = ProofExist v /\ exist_Verify p h k v = true
  | None => proof_variant p = ProofNonexist /\ nonexist_Verify p h k = true
  end.
Hypothesis policies_hash : forall p, exists h, policy_hash p = Ok h /\ in_u 64 h.

Lemma json_proof_laws : ProofLaws T P.
Proof. split; [exact proofs_verify|]. intros t k p h _. apply proof_json. Qed.

#[export] Instance json_platform_laws : PlatformLaws json_platform.
Proof.
  refine (Build_PlatformLaws json_platform TL json_proof_laws DL EL
    laws_IdentityData laws_Event laws_CreateResponse laws_EventCountResponse laws_EventWithMetadata laws_StoredPolicy
    laws_StateJson laws_MuxedRequest laws_SignedPayload laws_UnsignedPayload
    decoded_SignedPayload decoded_PayloadSeed (decoded_PayloadRegister nonce) decoded_CreateRequest decoded_SetPolicyRequest
    event_time policies_hash policy_marshals _ compact_SignedPayload compact_UnsignedPayload).
  intros p b Hf Hm Hu. destruct (policy_periods p b Hf Hm) as [Hc Hp].
  unfold Unmarshal in Hu. cbn in Hu. rewrite Unmarshal_value in Hu by done.
  destruct (Policies.dec_StoredPolicy _ b) as [r| |] eqn:E; [|done..]. exact (Hp r eq_refl).
Defined.

End Assembly.

End JsonPlatform.
