(* ===== verification/UuidReference.v ===== *)
(** * The textual form of UUIDs, for the witnesses

    Eight, four, four, four and twelve hexadecimal digits, as [google/uuid]
    prints them. *)

From S2P Require Import Prelude Text Bson.
From Corelib Require Import Init.Byte.

(** The form with braces is read too. *)
Definition unbraced (s : bytes) : bytes :=
  match s with
  | "{"%byte :: r => if bool_decide (length s = 38%nat /\ drop 36 r = bz "}") then take 36 r else s
  | _ => s
  end.

Definition parse_plain (s : bytes) : result bytes :=
  if bool_decide (length s = 36%nat)
  then Hex.DecodeString (take 8 s ++ take 4 (drop 9 s) ++ take 4 (drop 14 s) ++ take 4 (drop 19 s) ++ drop 24 s)
  else Err (NewError (bz "invalid UUID length")).

#[global] Instance ref_uuid : UuidText := {|
  uuid_String u := let h := Hex.EncodeToString u in
    take 8 h ++ bz "-" ++ take 4 (drop 8 h) ++ bz "-" ++ take 4 (drop 12 h) ++ bz "-" ++
    take 4 (drop 16 h) ++ bz "-" ++ drop 20 h;
  uuid_Parse s := parse_plain (unbraced s)
|}.

Lemma unbraced_plain s : length s = 36%nat -> unbraced s = s.
Proof. intros Hl. unfold unbraced. destruct s as [|c r]; [done|]. destruct c; try done. rewrite bool_decide_false; [done|]. intros [Hl' _]. lia. Qed.

Lemma uuid_String_length u : length u = 16%nat -> length (uuid_String u) = 36%nat.
Proof.
  intros Hu. pose proof (Hex.length_encode u) as Hl. rewrite Hu in Hl.
  cbn [uuid_String ref_uuid]. by rewrite !length_app, !length_take, !length_drop, Hl.
Qed.

Lemma parse_String u : length u = 16%nat -> parse_plain (uuid_String u) = Ok u.
Proof.
  intros Hu. unfold parse_plain. rewrite bool_decide_true by (by apply uuid_String_length).
  pose proof (Hex.length_encode u) as Hl. rewrite Hu in Hl. cbn [uuid_String ref_uuid].
  rewrite <- (Hex.decode_encode u). f_equal. revert Hl. generalize (Hex.EncodeToString u). intros h Hl.
  do 32 (destruct h as [|? h]; [done|]). by destruct h.
Qed.

Lemma hex_decode_length s : forall out, Hex.DecodeString s = Ok out -> length s = (2 * length out)%nat.
Proof.
  assert (forall n s out, (length s <= n)%nat -> Hex.DecodeString s = Ok out -> length s = (2 * length out)%nat) as Hn.
  { induction n as [|n IH]; intros [|a [|b r]] out Hl E; cbn in *; try lia; try (by injection E as <-); try (by destruct (Hex.value a)).
    destruct (Hex.value a), (Hex.value b); try done. apply res_bind_ok in E as (rest & E & [= <-]).
    rewrite (IH r rest ltac:(lia) E). cbn. lia. }
  intros out. by apply (Hn (length s)).
Qed.

#[global] Instance ref_uuid_laws : UuidLaws.
Proof.
  split.
  - apply uuid_String_length.
  - intros u Hu. cbn [uuid_Parse ref_uuid]. rewrite unbraced_plain by (by apply uuid_String_length). by apply parse_String.
  - intros u. cbn [uuid_String ref_uuid]. pose proof (Hex.encode_lower u) as Hh. rewrite List.forallb_forall in Hh.
    rewrite !forallb_app. change (forallb _ (bz "-")) with true.
    assert (forall l, (forall c, List.In c l -> List.In c (Hex.EncodeToString u)) ->
      forallb (fun c => Hex.lower_hex_digit c || bool_decide (c = "-"%byte)) l = true) as Hf.
    { intros l Hl. apply List.forallb_forall. intros c Hc. by rewrite (Hh c (Hl c Hc)). }
    assert (forall n (l : bytes) c, List.In c (take n l) -> List.In c l) as Ht.
    { intros n l c Hc. rewrite <- (take_drop n l). apply List.in_or_app. by left. }
    assert (forall n (l : bytes) c, List.In c (drop n l) -> List.In c l) as Hd.
    { intros n l c Hc. rewrite <- (take_drop n l). apply List.in_or_app. by right. }
    rewrite !Hf; [done|..]; eauto.
  - intros s u. cbn [uuid_Parse ref_uuid]. generalize (unbraced s). intros s'. unfold parse_plain.
    case_bool_decide as Hl; [|done]. intros E%hex_decode_length.
    rewrite !length_app, !length_take, !length_drop, Hl in E. cbn in E. lia.
  - intros s w. cbn [uuid_Parse ref_uuid]. unfold parse_plain. case_bool_decide; [apply Hex.decode_no_panic|done].
Qed.

Lemma braced_parse u : length u = 16%nat -> uuid_Parse (Guid.braced u) = Ok u.
Proof.
  intros Hu. pose proof (uuid_String_length u Hu) as Hl. unfold Guid.braced. change (bz "{" ++ ?x) with ("{"%byte :: x).
  cbn [uuid_Parse ref_uuid unbraced]. rewrite bool_decide_true.
  - rewrite take_app_le, take_ge by lia. by apply parse_String.
  - split; [cbn [length]; rewrite length_app, Hl; done|]. by rewrite drop_app_length'.
Qed.
