(* ===== verification/JsonWitness.v ===== *)
(** * JSON texts

    A creation request as another client might write it: white space, fields in
    another order and in upper case, escapes, unknown fields and a time with a
    fraction and an offset.  Below, an event of the event log in XML. *)

From S2P Require Import Prelude Types Text JsonCodec Platform Bson UuidReference JsonTypes JsonPlatform EventXml TimeText.

Module JsonWitness.
Import JsonCodec JsonTypes JsonPlatform.

(** JSON written with single quotes. *)
Definition js (s : string) : bytes := (fun b => if bool_decide ([b] = bz "'") then z2b 34 else b) <$> bz s.

Definition request_text : bytes := js
  "{ 'NONCE' : '01020304-0506-0708-090a-0b0c0d0e0f10', 'comment' : [1, {'a': null}],
     'event' : {'offchain_hash':'00ff', 'event':{'system':{'provider':{'name':'Sec\u0075rity','guid':null},
       'event_id':4624,'time_created':{'system_time':'2024-02-29T23:59:59.5+01:00'},'event_record_id':17,
       'execution':{'process_id':4},'channel':'Security','computer':'HOST-1'}}}}".

Definition request : CreateRequest :=
  mkCreateRequest
    (mkScrubbedEvent (bz "00ff") (mkEvent
      (mkSystem (mkProvider (Some (bz "Security")) None None) 4624 (mkTime 1709247599500000000 3600) 17 None (Some 4) None
        (bz "Security") (bz "HOST-1"))))
    (z2b <$> [1; 2; 3; 4; 5; 6; 7; 8; 9; 10; 11; 12; 13; 14; 15; 16]).

Lemma request_decodes : Unmarshal request_text = Ok request.
Proof. vm_compute. reflexivity. Qed.

Definition event_text : bytes := match Marshal (se_Event (cr_Event request)) with Ok b => b | _ => [] end.
Lemma event_encodes : Marshal (se_Event (cr_Event request)) = Ok event_text.
Proof. vm_compute. reflexivity. Qed.

Lemma create_request_typed_witness : representable request /\ exists b, Marshal request = Ok b /\ Unmarshal b = Ok request.
Proof. exact (create_request_typed request_text request event_text request_decodes event_encodes). Defined.

End JsonWitness.

(** * An event of the event log

    The document of [types_test.go], with the elements that are not part of an
    event, and a document with entities and a comment. *)

Module XmlWitness.
Import Xml EventXml.

#[global] Instance ref_braced : UuidBraced := {| law_uuid_braced := braced_parse |}.

Definition TestXml : bytes := JsonWitness.js "
<Event xmlns='http://schemas.microsoft.com/win/2004/08/events/event'>
  <System>
    <Provider Name='Test-Provider' Guid='{69884110-5b41-41cc-93c7-02ce8e8882f6}' EventSourceName='Name2' /> 
    <EventID>5379</EventID> 
    <Version>0</Version> 
    <Level>0</Level> 
    <Task>12743445</Task> 
    <Opcode>0</Opcode> 
    <Keywords>0x8020000000000000</Keywords> 
    <TimeCreated SystemTime='1970-01-01T00:00:00.00000000Z' /> 
    <EventRecordID>12743445</EventRecordID> 
    <Correlation ActivityID='{d4c3abe3-54f8-4467-9b26-b8da06ae52b1}' /> 
    <Execution ProcessID='1234' ThreadID='12005' /> 
    <Channel>Security</Channel> 
    <Computer>laptop</Computer> 
    <Security />
  </System>
  <EventData>
    <Data Name='SubjectUserName'>user</Data> 
    <Data Name='SubjectDomainName'>laptop</Data> 
  </EventData>
</Event>".

Definition guid (s : string) : bytes := match uuid_Parse (bz s) with Ok u => u | _ => [] end.

Definition TestEvent : EventWithData :=
  mkEventWithData (mkEvent (mkSystem
      (mkProvider (Some (bz "Test-Provider")) (Some (guid "69884110-5b41-41cc-93c7-02ce8e8882f6")) (Some (bz "Name2")))
      5379 (mkTime 0 0) 12743445 (Some (guid "d4c3abe3-54f8-4467-9b26-b8da06ae52b1")) (Some 1234) (Some 12005)
      (bz "Security") (bz "laptop")))
    [mkEvData (Some (bz "SubjectUserName")) (Some (bz "user")); mkEvData (Some (bz "SubjectDomainName")) (Some (bz "laptop"))].

Example TestUnmarshalXml : Unmarshal TestXml = Ok TestEvent.
Proof. vm_compute. reflexivity. Qed.

(** Entities are replaced in attributes and in text, and not in the values of the
    data, which are kept as they are written. *)
Example entities : (let* e := Unmarshal (JsonWitness.js "<?xml version='1.0'?><!-- an event --><e:Event><System><Computer>a&amp;<![CDATA[<b>]]>&#x41;</Computer></System>
<EventData><Data Name='&lt;n&gt;'>1 &lt; 2 <b/></Data><Data/></EventData></e:Event> rest") in
  Ok (sys_Computer (ev_System (ed_Event e)), ed_EventData e)) =
  Ok (bz "a&<b>A", [mkEvData (Some (bz "<n>")) (Some (bz "1 &lt; 2 <b/>")); mkEvData None None]).
Proof. vm_compute. reflexivity. Qed.

(** An empty GUID is read as the zero GUID, not as none. *)
Example empty_guid : (let* e := Unmarshal (bz "<E><System><Provider Guid=''/></System></E>") in
  Ok (prov_Guid (sys_Provider (ev_System (ed_Event e))))) = Ok (Some uuid_Nil).
Proof. vm_compute. reflexivity. Qed.

Example unclosed : is_ok (Unmarshal (bz "<E><System></E></System>")) = false.
Proof. vm_compute. reflexivity. Qed.

(** The same event as another program might write it: other attributes, in
    another order, spaces around a number, and another text of the time. *)
Definition OtherXml : bytes := JsonWitness.js "
<Event><System version='1'><Provider EventSourceName='Name2' Kind='x' Guid='{69884110-5b41-41cc-93c7-02ce8e8882f6}' Name='Test-Provider'>?</Provider>
<EventID Qualifiers='16384'> 5379 </EventID><TimeCreated RawTime='1' SystemTime='1970-01-01T01:00:00+01:00'/>
<EventRecordID>12743445</EventRecordID><Correlation RelatedActivityID='2' ActivityID='{d4c3abe3-54f8-4467-9b26-b8da06ae52b1}'/>
<Execution ThreadID='12005' ProcessorID='1' ProcessID='1234'/><Channel>Security</Channel><Computer>laptop</Computer></System>
<EventData Name='z'><Data Type='string' Name='SubjectUserName'>user</Data><Binary/><Data Name='SubjectDomainName'>laptop</Data></EventData></Event>".

Example OtherXml_read : (let* e := Unmarshal OtherXml in Ok (ed_EventData e, sys_ProcessId (ev_System (ed_Event e)),
    sys_SystemTime (ev_System (ed_Event e)))) = Ok (ed_EventData TestEvent, Some 1234, mkTime 0 3600).
Proof. vm_compute. reflexivity. Qed.

(** The elements the reader finds show the event. *)
Ltac show_event :=
  eexists _, _, [_; _]; split; [vm_compute; reflexivity|]; split; [reflexivity|]; split; [reflexivity|]; split;
    [|split; [vm_compute; reflexivity|]; apply Forall2_cons; [|apply Forall2_cons; [|by apply Forall2_nil]];
      (split; [|split]; vm_compute; reflexivity)];
  eexists _, _, _, _, _, _, _, _; split; [vm_compute; reflexivity|];
  split; [split; [|split; [|split]]; vm_compute; reflexivity|]; split; [split; vm_compute; reflexivity|];
  split; [split; [vm_compute; reflexivity|]; eexists; split; [vm_compute; reflexivity|]; vm_compute; reflexivity|]; split; [split; vm_compute; reflexivity|];
  split; [split; vm_compute; reflexivity|]; split; [split; [vm_compute; reflexivity|];
    split; vm_compute; apply Forall2_cons; [reflexivity|by apply Forall2_nil|reflexivity|by apply Forall2_nil]|];
  split; (split; vm_compute; reflexivity).

(** The document of the test, and the other one with the time in its zone. *)
Definition OtherEvent : EventWithData := mkEventWithData (mkEvent (JsonTypes.Events.put_SystemTime (mkTime 0 3600) (ev_System (ed_Event TestEvent)))) (ed_EventData TestEvent).

Lemma TestEvent_ok : xml_ok TestEvent.
Proof.
  unfold xml_ok. cbn. split; [by intros g [= <-]|]. split; [by intros g [= <-]|].
  split; [done|]. split; [done|]. split; [done|]. split; [done|]. repeat constructor; discriminate.
Qed.
Lemma OtherEvent_ok : xml_ok OtherEvent.
Proof. exact TestEvent_ok. Qed.

Lemma event_read_witness :
  (exists x, root TestXml = Ok x /\ dec_EventWithData zero_EventWithData x = Ok TestEvent) /\
  (exists x, root OtherXml = Ok x /\ dec_EventWithData zero_EventWithData x = Ok OtherEvent).
Proof.
  assert (exists x, root TestXml = Ok x /\ shows TestEvent x) as (x & Hr & Hs) by (eexists; split; [vm_compute; reflexivity|show_event]).
  assert (exists y, root OtherXml = Ok y /\ shows OtherEvent y) as (y & Hr' & Hs') by (eexists; split; [vm_compute; reflexivity|show_event]).
  pose proof TestEvent_ok as Hx. pose proof OtherEvent_ok as Hy.
  split; [exists x|exists y]; (split; [assumption|]); [exact (event_read TestEvent x Hs Hx)|exact (event_read OtherEvent y Hs' Hy)].
Defined.

End XmlWitness.
