(* ===== verification/Abci.v ===== *)
(** * The application interface

    Models [wineventchain/pkg/multiplexer/app.go] and the fields the node uses
    of the ABCI messages of CometBFT: requests, responses, the error responses
    of the applications and the interface a multiplexed application
    implements.  The interface is a record of functions over the state [W]
    they share through pointers; a commit function is the closure an
    application leaves for [Commit], which mutates that state and may fail. *)

From S2P Require Import Prelude Types Text Platform.

(** ** ABCI messages *)

Record EventAttribute : Type := mkEventAttribute {
  attr_Key : bytes;
  attr_Value : bytes;
  attr_Index : bool
}.

Record AbciEvent : Type := mkAbciEvent {
  ae_Type : bytes;
  ae_Attributes : list EventAttribute
}.

Record ExecTxResult : Type := mkExecTxResult {
  tx_Code : Z;
  tx_Data : bytes;
  tx_Log : bytes;
  tx_Events : list AbciEvent;
  tx_Codespace : bytes
}.

Record ResponseCheckTx : Type := mkResponseCheckTx {
  ct_Code : Z;
  ct_Log : bytes;
  ct_Codespace : bytes
}.

Record ProofOp : Type := mkProofOp {
  po_Type : bytes;
  po_Key : bytes;
  po_Data : bytes
}.

(** [*crypto.ProofOps]: a nil pointer or the list of operations. *)
Abbreviation ProofOpsPtr := (option (list ProofOp)).

Record ResponseQuery : Type := mkResponseQuery {
  q_Code : Z;
  q_Log : bytes;
  q_Index : Z;
  q_Key : bytes;
  q_Value : bytes;
  q_ProofOps : ProofOpsPtr;
  q_Height : Z;
  q_Codespace : bytes
}.

Record RequestQuery : Type := mkRequestQuery {
  rq_Data : bytes;
  rq_Path : bytes;
  rq_Height : Z;
  rq_Prove : bool
}.

Record Misbehavior : Type := mkMisbehavior {
  mb_DuplicateVote : bool; (* Type == DUPLICATE_VOTE *)
  mb_Address : bytes;
  mb_Power : Z
}.

Record RequestFinalizeBlock : Type := mkRequestFinalizeBlock {
  fb_Txs : list bytes;
  fb_Misbehavior : list Misbehavior;
  fb_Height : Z;
  fb_Time : time
}.

(** ** Error responses *)

Record ErrorResponse : Type := mkErrorResponse {
  er_Code : Z;
  er_Codespace : bytes;
  er_Log : bytes
}.

Definition NewErrorResponse (code : Z) (codespace : bytes) (err : option error) : ErrorResponse :=
  mkErrorResponse code codespace (match err with Some e => Error e | None => [] end).

(** [fmt.Sprintf("[%s %d] %s", e.Codespace, e.Code, e.Log)]. *)
Definition ErrorResponse_Error (e : ErrorResponse) : bytes :=
  bz "[" ++ er_Codespace e ++ bz " " ++ Strconv.FormatUint (er_Code e) ++ bz "] " ++ er_Log e.

Record FinalizeBlockResponse (W : Type) : Type := mkFinalizeBlockResponse {
  TxResult : ExecTxResult;
  AppHash : bytes;
  CommitFunc : option (M W unit)
}.
Arguments mkFinalizeBlockResponse {W}.
Arguments TxResult {W}.
Arguments AppHash {W}.
Arguments CommitFunc {W}.

Definition IntoFinalizeBlockResponse {W} (e : ErrorResponse) : FinalizeBlockResponse W :=
  mkFinalizeBlockResponse (mkExecTxResult (er_Code e) [] (er_Log e) [] (er_Codespace e)) [] None.

Definition IntoCheckTxResponse (e : ErrorResponse) : ResponseCheckTx :=
  mkResponseCheckTx (er_Code e) (er_Log e) [].

Definition IntoQueryResponse (e : ErrorResponse) : ResponseQuery :=
  mkResponseQuery (er_Code e) (er_Log e) 0 [] [] None 0 (er_Codespace e).

(** ** The interface of a multiplexed application *)

(** What [Info] reports: an error response, or the version, if any, and the
    hash in hexadecimal, with the policy flag of the retention application. *)
Inductive AppInfo : Type :=
| InfoError (e : ErrorResponse)
| InfoVersion (version : Z) (app_hash : bytes)
| InfoPolicy (app_hash : bytes) (is_set : bool).

Record MultiplexedApp (W : Type) : Type := mkMultiplexedApp {
  app_Name : bytes;
  app_Info : W -> AppInfo;
  app_InitChain : W -> result bytes;
  app_CheckTx : W -> bytes -> result ResponseCheckTx;
  app_FinalizeBlock : RequestFinalizeBlock -> bytes -> M W (FinalizeBlockResponse W);
  app_Query : W -> RequestQuery -> result ResponseQuery
}.
Arguments app_Name {W}.
Arguments app_Info {W}.
Arguments app_InitChain {W}.
Arguments app_CheckTx {W}.
Arguments app_FinalizeBlock {W}.
Arguments app_Query {W}.
Arguments mkMultiplexedApp {W}.

(** An application that lives in a component of a larger state. *)
Definition lift_response {W S} (get : W -> S) (put : S -> W -> W)
    (r : FinalizeBlockResponse S) : FinalizeBlockResponse W :=
  mkFinalizeBlockResponse (TxResult r) (AppHash r) (m_zoom get put <$> CommitFunc r).

Definition lift_finalize {W S} (get : W -> S) (put : S -> W -> W)
    (c : M S (FinalizeBlockResponse S)) : M W (FinalizeBlockResponse W) :=
  do r <- m_zoom get put c ;; m_ret (lift_response get put r).

(** ** [internal/utils] *)

Definition Contains {T} `{EqDecision T} (slice : list T) (item : T) : bool :=
  existsb (fun i => bool_decide (i = item)) slice.

Definition Max (a b : Z) : Z := if b <? a then a else b.

Definition utils_Event (eventName : bytes) (attributes : list EventAttribute) : AbciEvent :=
  mkAbciEvent eventName attributes.

Lemma Contains_spec {T} `{EqDecision T} (slice : list T) item :
  Contains slice item = true <-> item ∈ slice.
Proof.
  unfold Contains. rewrite existsb_exists, list_elem_of_In. split.
  - intros (x & Hx & ->%bool_decide_eq_true). done.
  - intros Hx. exists item. by rewrite bool_decide_true.
Qed.
