(* ===== verification/Rpc.v ===== *)
(** * Signed requests

    Models [common/pkg/types/rpc]: wrapping and signing a payload, validating
    its signature, and the request builder the clients use. *)

From S2P Require Import Prelude Types Text Platform.

Module Rpc.

Section Rpc.
Context `{P : Platform}.

Definition wrap {D} `{Json D} (payloadType : RequestType) (payload : D) : result Payload :=
  let* marshalled := Marshal payload in
  Ok (mkPayload payloadType marshalled).

Definition unsigned (payload : Payload) : UnsignedPayload := mkUnsignedPayload payload.

(** The signature covers the data of the payload, not its type. *)
Definition sign (payload : Payload) (signer : Principal) (signerKey : bytes) : result SignedPayload :=
  let* signature := ed25519_Sign signerKey (p_Data payload) in
  Ok (mkSignedPayload payload signer (Hex.EncodeToString signature)).

Definition ValidateSignature (p : SignedPayload) (publicKey : bytes) : result bool :=
  let* signature := Hex.DecodeString (sp_Signature p) in
  ed25519_Verify publicKey (p_Data (sp_Payload p)) signature.

(** ** The builder *)

Record Builder (D : Type) : Type := mkBuilder {
  b_requestType : RequestType;
  b_data : option D;
  b_signed : bool;
  b_principal : Principal;
  b_key : bytes;
  b_app : bytes
}.
Arguments mkBuilder {D}.
Arguments b_requestType {D}.
Arguments b_data {D}.
Arguments b_signed {D}.
Arguments b_principal {D}.
Arguments b_key {D}.
Arguments b_app {D}.

Definition NewBuilder {D} : Builder D := mkBuilder [] None false [] [] [].

Definition b_Data {D} (requestType : RequestType) (data : D) (b : Builder D) : Builder D :=
  mkBuilder requestType (Some data) (b_signed b) (b_principal b) (b_key b) (b_app b).

Definition b_App {D} (app : bytes) (b : Builder D) : Builder D :=
  mkBuilder (b_requestType b) (b_data b) (b_signed b) (b_principal b) (b_key b) app.

Definition b_Signed {D} (principal : Principal) (key : bytes) (b : Builder D) : Builder D :=
  mkBuilder (b_requestType b) (b_data b) true principal key (b_app b).

Definition b_Unsigned {D} (b : Builder D) : Builder D :=
  mkBuilder (b_requestType b) (b_data b) false (b_principal b) (b_key b) (b_app b).

Definition no_data : error := NewError (bz "Data was not called on builder").

Definition buildSigned {D} `{Json D} (b : Builder D) : result SignedPayload :=
  match b_data b with
  | None => Err no_data
  | Some data =>
      if bool_decide (b_requestType b = []) then Err no_data
      else
        let* wrapped := wrap (b_requestType b) data in
        sign wrapped (b_principal b) (b_key b)
  end.

Definition buildUnsigned {D} `{Json D} (b : Builder D) : result UnsignedPayload :=
  match b_data b with
  | None => Err no_data
  | Some data =>
      if bool_decide (b_requestType b = []) then Err no_data
      else
        let* wrapped := wrap (b_requestType b) data in
        Ok (unsigned wrapped)
  end.

Definition Build {D} `{Json D} (b : Builder D) : result MuxedRequest :=
  let* inner :=
    (if b_signed b then let* payload := buildSigned b in Marshal payload
     else let* payload := buildUnsigned b in Marshal payload) in
  Ok (mkMuxedRequest (b_app b) inner).

Definition b_Marshal {D} `{Json D} (b : Builder D) : result bytes :=
  let* payload := Build b in Marshal payload.

(** ** Signatures *)

(** What one signs with a key pair, validates with it. *)
Lemma sign_validates `{!Ed25519Laws} payload signer sk : ed_key sk = true ->
  exists p, sign payload signer sk = Ok p /\ sp_Payload p = payload /\ sp_Principal p = signer /\
    (exists s, sp_Signature p = Hex.EncodeToString s) /\ ValidateSignature p (ed_public sk) = Ok true.
Proof.
  intros Hk. unfold ValidateSignature, sign, ed25519_Verify. rewrite Sign_key by done. eexists. split; [reflexivity|]. cbn.
  rewrite Hex.decode_encode. cbn. rewrite law_public_length, Z.eqb_refl by done. cbn.
  rewrite law_verify_sign by done. eauto.
Qed.

(** A key of another length than Ed25519's makes validation panic, whatever
    well-formed signature is presented. *)
Lemma ValidateSignature_panics p pk sig :
  Hex.DecodeString (sp_Signature p) = Ok sig ->
  zlen pk <> PublicKeySize -> is_panic (ValidateSignature p pk) = true.
Proof.
  intros Hs Hl. unfold ValidateSignature, ed25519_Verify. rewrite Hs. cbn.
  by rewrite (proj2 (Z.eqb_neq _ _) Hl).
Qed.

(** The request type is not covered: a payload of another type with the same
    data has the same verdict. *)
Lemma ValidateSignature_ignores_type p ty pk :
  ValidateSignature (mkSignedPayload (mkPayload ty (p_Data (sp_Payload p))) (sp_Principal p) (sp_Signature p)) pk
  = ValidateSignature p pk.
Proof. done. Qed.

Lemma hex_utf8 s : utf8 (Hex.EncodeToString s).
Proof.
  unfold utf8. pose proof (Hex.encode_lower s) as Hl. induction (Hex.EncodeToString s) as [|c r IH]; [done|].
  cbn in *. apply andb_true_iff in Hl as [Hc Hr]. rewrite (proj2 (Z.ltb_lt _ _)); [auto|].
  unfold Hex.lower_hex_digit in Hc. lia.
Qed.

End Rpc.

(** The laws the round trip needs are those of the platform. *)
Section RoundTrip.
Context `{L : PlatformLaws}.

Lemma signed_request_round_trip_lemma {D} `{Json D, !JsonCompact D} (ty : RequestType) (d : D)
    app principal sk data : ed_key sk = true ->
  ty <> [] -> utf8 ty -> utf8 app -> utf8 principal -> Marshal d = Ok data ->
  exists tx inner p,
    b_Marshal (b_App app (b_Signed principal sk (b_Data ty d NewBuilder))) = Ok tx /\
    Unmarshal tx = Ok (mkMuxedRequest app inner) /\ Unmarshal inner = Ok p /\
    sp_Payload p = mkPayload ty data /\ sp_Principal p = principal /\
    ValidateSignature p (ed_public sk) = Ok true.
Proof.
  intros Hk Hty Hu Ha Hp Hd. pose proof (law_compact _ _ Hd) as Hc.
  destruct (sign_validates (mkPayload ty data) principal sk Hk) as (p & Hs & Hpay & Hpr & [sg Hsig] & Hval).
  assert (Hrep : representable p).
  { destruct p as [pl pr s]. cbn in *. subst. split; [split_and!; [done|done|apply hex_utf8]|done]. }
  destruct (law_round_trip p Hrep) as (inner & Hm & _ & Hu').
  assert (Hrep' : representable (mkMuxedRequest app inner)) by (split; [done|exact (law_compact _ _ Hm)]).
  destruct (law_round_trip _ Hrep') as (tx & Hm' & _ & Hu'').
  exists tx, inner, p. split_and!; [|done..].
  unfold b_Marshal, Build, buildSigned, wrap. cbn. rewrite bool_decide_false by done.
  rewrite Hd. cbn. rewrite Hs. cbn. rewrite Hm. cbn. done.
Qed.

(** A request assembled by the builder with a principal and its key is
    decoded by the node to the same application, type, data and principal, and
    its signature validates under the public key. *)
Theorem signed_request_round_trip {D} `{Json D, !JsonCompact D} (ty : RequestType) (d : D)
    app principal sk data : ed_key sk = true ->
  ty <> [] -> utf8 ty -> utf8 app -> utf8 principal -> Marshal d = Ok data ->
  exists tx inner p,
    b_Marshal (b_App app (b_Signed principal sk (b_Data ty d NewBuilder))) = Ok tx /\
    Unmarshal tx = Ok (mkMuxedRequest app inner) /\ Unmarshal inner = Ok p /\
    sp_Payload p = mkPayload ty data /\ sp_Principal p = principal /\
    ValidateSignature p (ed_public sk) = Ok true.
Proof. apply signed_request_round_trip_lemma. Qed.

End RoundTrip.

End Rpc.
