(* ===== verification/MerkleProof.v ===== *)
(** * Merkle proofs of query answers

    Models [common/pkg/proof]: building the proof operation for a key of a
    tree, the height it is given for, and the client-side validation. *)

From S2P Require Import Prelude Types Platform Abci.

Module MerkleProof.

Section Ops.
Context `{P : Platform}.

Definition TypeIAVL : bytes := bz "ics23:iavl".

Definition ErrMissingProof : error := Sentinel (bz "missing proof").
Definition ErrInvalidProof : error := Sentinel (bz "invalid proof").
Definition ErrTreeUninitialized : error :=
  Sentinel (bz "uninitialized merkle tree: cannot generate proof for empty tree").

Record ItemWithProof (T : Type) : Type := mkItemWithProof {
  ip_Item : option T;
  ip_Index : Z;
  ip_Height : Z;
  ip_ProofOp : ProofOp
}.
Arguments mkItemWithProof {T}.
Arguments ip_Item {T}.
Arguments ip_Index {T}.
Arguments ip_Height {T}.
Arguments ip_ProofOp {T}.

Definition ProofOps (proofOp : ProofOp) : ProofOpsPtr := Some [proofOp].

Definition item_ProofOps {T} (i : ItemWithProof T) : ProofOpsPtr := ProofOps (ip_ProofOp i).

Definition GetProofHeight (tree : Tree) : Z :=
  let latest := tree_Version tree in
  if tree_VersionExists tree (latest - 1) then latest - 1 else latest.

Definition ProofOpForTree (tree : Tree) (key : bytes) : result ProofOp :=
  let* hash := tree_Hash tree in
  match tree_GetProof tree key with
  | Ok proof =>
      let* marshalled := Marshal (mkTreeProof hash proof) in
      Ok (mkProofOp TypeIAVL key marshalled)
  | Err err =>
      if bool_decide (Error err = bz "cannot generate the proof with nil root")
      then Err ErrTreeUninitialized
      else Err err
  | Panic w => Panic w
  end.

Definition Validate (proof : ProofOp) : result bool :=
  let* treeProof := Unmarshal (po_Data proof) in
  match proof_variant (tp_Proof treeProof) with
  | ProofExist value =>
      Ok (exist_Verify (tp_Proof treeProof) (tp_AppHash treeProof) (po_Key proof) value)
  | ProofNonexist =>
      Ok (nonexist_Verify (tp_Proof treeProof) (tp_AppHash treeProof) (po_Key proof))
  | ProofOther => Err (NewError (bz "unsupported proof type"))
  end.

Definition ValidateProofOps (proofOps : ProofOpsPtr) : result unit :=
  match proofOps with
  | Some (op :: _) =>
      let* valid := Validate op in
      if negb valid then Err ErrInvalidProof else Ok tt
  | _ => Err ErrMissingProof
  end.

End Ops.
Arguments mkItemWithProof {T}.
Arguments ip_Item {T}.
Arguments ip_Index {T}.
Arguments ip_Height {T}.
Arguments ip_ProofOp {T}.

Section Laws.
Context `{L : PlatformLaws}.

(** A proof for an empty tree is refused with the sentinel clients look for. *)
Lemma ProofOpForTree_empty t k :
  working t = ∅ -> ProofOpForTree t k = Err ErrTreeUninitialized.
Proof.
  intros He. unfold ProofOpForTree. destruct (law_Hash t) as [h ->]. cbn.
  by rewrite (law_GetProof_empty _ _ He).
Qed.

Lemma ProofOpForTree_ok t k :
  working t <> ∅ -> working t = saved t ->
  exists op, ProofOpForTree t k = Ok op /\ po_Key op = k /\ Validate op = Ok true.
Proof.
  intros Hne Hc. unfold ProofOpForTree. destruct (law_Hash t) as [h Hh]. rewrite Hh. cbn.
  destruct (law_GetProof t k Hne) as [p Hp]. rewrite Hp.
  destruct (law_proof_json t k p h Hp) as (b & Hm & Hu). rewrite Hm. cbn.
  eexists. split_and!; [done|done|]. unfold Validate. cbn. rewrite Hu. cbn.
  pose proof (law_proof_verifies t k p h Hc Hp Hh) as Hv.
  destruct (working t !! k); destruct Hv as [-> ->]; done.
Qed.

(** Every answer about a non-empty tree, for a present or an absent key,
    carries proof operations that the client-side validation accepts. *)
Theorem own_proofs_validate (t : Tree) (k : bytes) :
  working t <> ∅ -> working t = saved t ->
  exists op, ProofOpForTree t k = Ok op /\ ValidateProofOps (ProofOps op) = Ok tt.
Proof.
  intros Hne Hc. destruct (ProofOpForTree_ok t k Hne Hc) as (op & Hop & _ & Hv).
  exists op. split; [done|]. cbn. by rewrite Hv.
Qed.

End Laws.

End MerkleProof.
