(* ===== verification/IdentityApp.v ===== *)
(** * The identity application

    Models [wineventchain/pkg/identity]: the Merkle repository of principals
    and the application that seeds the chain with an administrator and lets
    administrators register further principals.  The repository is a pointer
    shared with the other applications; its state is the tree.  Mutexes and
    logging are not modelled (calls are sequential). *)

From S2P Require Import Prelude Types Text Platform Abci MerkleProof Rpc.

(** ** The repository ([merkle_repository.go]) *)
Module IdentityRepo.

Section Repo.
Context `{P : Platform}.

Definition metaPrefix : bytes := bz "meta/".
Definition principalPrefix : bytes := bz "principal/".
Definition seededKey : bytes := metaPrefix ++ bz "seeded".
Definition principalKey (p : Principal) : bytes := principalPrefix ++ p.

Definition ErrNotFound : error := Sentinel (bz "identity not found").

Definition LoadLatest : M Tree Z := tree_Load.
Definition LoadVersion (version : Z) : M Tree unit :=
  do _ <- tree_LoadVersion version ;; m_ret tt.
Definition Rollback : M Tree unit := m_modify tree_Rollback.
Definition Hash (r : Tree) : result bytes := tree_Hash r.
Definition Save : M Tree (bytes * Z) := tree_SaveVersion.

Definition Get (r : Tree) (principal : Principal) : result IdentityData :=
  let* bs := tree_Get r (principalKey principal) in
  match bs with
  | None => Err ErrNotFound
  | Some bs => Unmarshal bs
  end.

Definition GetWithProof (r : Tree) (principal : Principal) : result (MerkleProof.ItemWithProof IdentityData) :=
  let key := principalKey principal in
  let* (index, bs) := tree_GetWithIndex r key in
  let* proofOp := MerkleProof.ProofOpForTree r key in
  match bs with
  | None => Ok (MerkleProof.mkItemWithProof None index (MerkleProof.GetProofHeight r) proofOp)
  | Some bs =>
      let* data := Unmarshal bs in
      Ok (MerkleProof.mkItemWithProof (Some data) index (MerkleProof.GetProofHeight r) proofOp)
  end.

Definition Has (r : Tree) (principal : Principal) : result bool :=
  tree_Has r (principalKey principal).

Definition Store (principal : Principal) (data : IdentityData) : M Tree unit :=
  do marshalled <- m_lift (fun _ => Marshal data) ;;
  do _ <- tree_Set (principalKey principal) marshalled ;;
  m_ret tt.

Definition IsSeeded (r : Tree) : result bool := tree_Has r seededKey.

Definition SetSeeded : M Tree unit :=
  do _ <- tree_Set seededKey (bz "true") ;; m_ret tt.

End Repo.

End IdentityRepo.

(** ** The application ([app.go]) *)
Module IdentityApp.
Import IdentityRepo.

Section App.
Context `{P : Platform}.

Record txState : Type := mkTxState {
  seeded : bool;
  registering : list Principal
}.

Definition defaultTxState : txState := mkTxState false [].

Record IdentityApp : Type := mkIdentityApp {
  Repository : Tree;
  versionNumber : Z;
  ia_txState : txState
}.

Definition NewIdentityApp (tree : Tree) : result IdentityApp :=
  match tree_Load tree with
  | (tree, Ok versionNumber) => Ok (mkIdentityApp tree versionNumber defaultTxState)
  | (_, Err e) => Err e
  | (_, Panic w) => Panic w
  end.

Definition Name : bytes := bz "identity".

Definition Info (app : IdentityApp) : AppInfo :=
  match Hash (Repository app) with
  | Ok appHash => InfoVersion (versionNumber app) (Hex.EncodeToString appHash)
  | Err err => InfoError (NewErrorResponse MuxCode.CodeUnknownError MuxCode.Codespace (Some err))
  | Panic _ => InfoVersion (versionNumber app) []
  end.

(** A failure is fatal: the process exits. *)
Definition InitChain (app : IdentityApp) : result bytes :=
  match Hash (Repository app) with
  | Ok appHash => Ok appHash
  | Err err => Panic (Error err)
  | Panic w => Panic w
  end.

Definition encodingError (e : error) : ErrorResponse :=
  NewErrorResponse MuxCode.CodeEncodingError MuxCode.Codespace (Some e).
Definition unknownError (e : error) : ErrorResponse :=
  NewErrorResponse MuxCode.CodeUnknownError MuxCode.Codespace (Some e).
Definition identityError (code : Z) (m : string) : ErrorResponse :=
  NewErrorResponse code IdentityCode.Codespace (Some (NewError (bz m))).

(** A sum: an error response, or the requester's data; a panic of the
    signature check is a panic of the call. *)
Definition extractIdentityData (r : Tree) (payload : SignedPayload)
  : result (ErrorResponse + IdentityData) :=
  match Get r (sp_Principal payload) with
  | Err err => Ok (inl (unknownError err))
  | Panic w => Panic w
  | Ok requester =>
      match Rpc.ValidateSignature payload (PublicKey requester) with
      | Err err => Ok (inl (unknownError err))
      | Panic w => Panic w
      | Ok false => Ok (inl (NewErrorResponse IdentityCode.CodeInvalidSignature IdentityCode.Codespace None))
      | Ok true => Ok (inr requester)
      end
  end.

(** [var requester types.IdentityData], filled in unless this is a seed. *)
Definition zeroIdentity : IdentityData := mkIdentityData [] [].

Definition requesterOf (r : Tree) (payload : SignedPayload) : result (ErrorResponse + IdentityData) :=
  if negb (bool_decide (p_Type (sp_Payload payload) = RequestTypeSeed))
  then extractIdentityData r payload
  else Ok (inr zeroIdentity).

Definition checkOk : ResponseCheckTx :=
  mkResponseCheckTx IdentityCode.CodeOk [] IdentityCode.Codespace.

Definition alreadySeededError : ErrorResponse :=
  identityError IdentityCode.CodeAlreadySeeded "identity app is already seeded".
Definition unauthorizedError : ErrorResponse :=
  identityError IdentityCode.CodeUnauthorized
    "only principals with the administrator role can register new principals".
Definition existsError : ErrorResponse :=
  identityError IdentityCode.CodePrincipalAlreadyExists "principal already exists".
Definition unknownTypeError : ErrorResponse :=
  NewErrorResponse IdentityCode.CodeUnknownRequestType IdentityCode.Codespace None.

Definition CheckTx (app : IdentityApp) (data : bytes) : result ResponseCheckTx :=
  let fail e := Ok (IntoCheckTxResponse e) in
  match Unmarshal (A := SignedPayload) data with
  | Panic w => Panic w
  | Err err => fail (encodingError err)
  | Ok payload =>
      let* who := requesterOf (Repository app) payload in
      match who with
      | inl err => fail err
      | inr requester =>
          let ty := p_Type (sp_Payload payload) in
          if bool_decide (ty = RequestTypeSeed) then
            match Unmarshal (A := PayloadSeed) (p_Data (sp_Payload payload)) with
            | Panic w => Panic w
            | Err err => fail (encodingError err)
            | Ok seedData =>
                match IsSeeded (Repository app) with
                | Panic w => Panic w
                | Err err => fail (unknownError err)
                | Ok alreadySeeded =>
                    if alreadySeeded || seeded (ia_txState app) then fail alreadySeededError
                    else Ok checkOk
                end
            end
          else if bool_decide (ty = RequestTypeRegister) then
            if negb (bool_decide (id_Role requester = RoleAdmin)) then fail unauthorizedError
            else
              match Unmarshal (A := PayloadRegister) (p_Data (sp_Payload payload)) with
              | Panic w => Panic w
              | Err err => fail (encodingError err)
              | Ok registerData =>
                  match Has (Repository app) (reg_Principal registerData) with
                  | Panic w => Panic w
                  | Err err => fail (unknownError err)
                  | Ok ex =>
                      if ex || Contains (registering (ia_txState app)) (reg_Principal registerData)
                      then fail existsError
                      else Ok checkOk
                  end
              end
          else fail unknownTypeError
      end
  end.

(** Writes to the fields of the application. *)
Definition set_repo (r : Tree) (app : IdentityApp) : IdentityApp :=
  mkIdentityApp r (versionNumber app) (ia_txState app).
Definition set_version (v : Z) (app : IdentityApp) : IdentityApp :=
  mkIdentityApp (Repository app) v (ia_txState app).
Definition set_tx (tx : txState) (app : IdentityApp) : IdentityApp :=
  mkIdentityApp (Repository app) (versionNumber app) tx.
Definition on_repo {A} (c : M Tree A) : M IdentityApp A := m_zoom Repository set_repo c.

Definition commitSeed (seedData : PayloadSeed) (identityData : IdentityData) : M IdentityApp unit :=
  do _ <- m_modify (set_tx defaultTxState) ;;
  do _ <- on_repo (Store (seed_Principal seedData) identityData) ;;
  do _ <- on_repo SetSeeded ;;
  do (_, v) <- on_repo Save ;;
  m_modify (set_version v).

Definition commitRegister (registerData : PayloadRegister) (identityData : IdentityData)
  : M IdentityApp unit :=
  do _ <- m_modify (set_tx defaultTxState) ;;
  do _ <- on_repo (Store (reg_Principal registerData) identityData) ;;
  do (_, v) <- on_repo Save ;;
  m_modify (set_version v).

Definition reply (r : FinalizeBlockResponse IdentityApp)
  : M IdentityApp (FinalizeBlockResponse IdentityApp) := m_ret r.
Definition fail (e : ErrorResponse) : M IdentityApp (FinalizeBlockResponse IdentityApp) :=
  m_ret (IntoFinalizeBlockResponse e).

(** The end of both successful branches: the hash of the last saved version,
    and the response with its commit function. *)
Definition respond (commit : M IdentityApp unit) : M IdentityApp (FinalizeBlockResponse IdentityApp) :=
  fun app =>
  match Hash (Repository app) with
  | Panic w => (app, Panic w)
  | Err err => fail (unknownError err) app
  | Ok appHash =>
      reply (mkFinalizeBlockResponse (mkExecTxResult IdentityCode.CodeOk [] [] [] []) appHash (Some commit)) app
  end.

Definition finalizeSeed (payload : SignedPayload)
  : M IdentityApp (FinalizeBlockResponse IdentityApp) := fun app =>
  match Unmarshal (A := PayloadSeed) (p_Data (sp_Payload payload)) with
  | Panic w => (app, Panic w)
  | Err err => fail (encodingError err) app
  | Ok seedData =>
      match IsSeeded (Repository app) with
      | Panic w => (app, Panic w)
      | Err err => fail (unknownError err) app
      | Ok alreadySeeded =>
          if alreadySeeded || seeded (ia_txState app) then fail alreadySeededError app
          else
            let identityData := mkIdentityData (seed_Key seedData) RoleAdmin in
            let tx := mkTxState true (registering (ia_txState app) ++ [seed_Principal seedData]) in
            respond (commitSeed seedData identityData) (set_tx tx app)
      end
  end.

Definition finalizeRegister (payload : SignedPayload) (requester : IdentityData)
  : M IdentityApp (FinalizeBlockResponse IdentityApp) := fun app =>
  if negb (bool_decide (id_Role requester = RoleAdmin)) then fail unauthorizedError app
  else
    match Unmarshal (A := PayloadRegister) (p_Data (sp_Payload payload)) with
    | Panic w => (app, Panic w)
    | Err err => fail (encodingError err) app
    | Ok registerData =>
        let identityData := mkIdentityData (reg_Key registerData) (reg_Role registerData) in
        match Has (Repository app) (reg_Principal registerData) with
        | Panic w => (app, Panic w)
        | Err err => fail (unknownError err) app
        | Ok ex =>
            if ex || Contains (registering (ia_txState app)) (reg_Principal registerData)
            then fail existsError app
            else
              let tx := mkTxState (seeded (ia_txState app))
                          (registering (ia_txState app) ++ [reg_Principal registerData]) in
              respond (commitRegister registerData identityData) (set_tx tx app)
        end
    end.

Definition FinalizeBlock (req : RequestFinalizeBlock) (data : bytes)
  : M IdentityApp (FinalizeBlockResponse IdentityApp) := fun app =>
  match Unmarshal (A := SignedPayload) data with
  | Panic w => (app, Panic w)
  | Err err => fail (encodingError err) app
  | Ok payload =>
      match requesterOf (Repository app) payload with
      | Panic w => (app, Panic w)
      | Err err => (app, Err err)
      | Ok (inl err) => fail err app
      | Ok (inr requester) =>
          let ty := p_Type (sp_Payload payload) in
          if bool_decide (ty = RequestTypeSeed) then finalizeSeed payload app
          else if bool_decide (ty = RequestTypeRegister) then finalizeRegister payload requester app
          else fail unknownTypeError app
      end
  end.

Definition trimSlash (path : bytes) : bytes :=
  match path with
  | c :: r => if bool_decide ([c] = bz "/") then r else path
  | [] => []
  end.

Definition Query (app : IdentityApp) (req : RequestQuery) : result ResponseQuery :=
  let principal := trimSlash (rq_Path req) in
  match GetWithProof (Repository app) principal with
  | Panic w => Panic w
  | Err err =>
      if errors_Is err MerkleProof.ErrTreeUninitialized
      then Ok (IntoQueryResponse (NewErrorResponse IdentityCode.CodeTreeUninitialized IdentityCode.Codespace (Some err)))
      else Ok (IntoQueryResponse (NewErrorResponse IdentityCode.CodeUnknownError IdentityCode.Codespace (Some err)))
  | Ok item =>
      match MerkleProof.ip_Item item with
      | None => Ok (mkResponseQuery IdentityCode.CodeNotFound (bz "item not found") (MerkleProof.ip_Index item)
                      principal [] (MerkleProof.item_ProofOps item) (MerkleProof.ip_Height item) IdentityCode.Codespace)
      | Some data =>
          let* marshalled := Marshal data in
          Ok (mkResponseQuery IdentityCode.CodeOk [] (MerkleProof.ip_Index item) principal marshalled
                (MerkleProof.item_ProofOps item) (MerkleProof.ip_Height item) IdentityCode.Codespace)
      end
  end.

End App.

(** ** Abstract specification

    What the application promises: a map from principals to identities, a flag
    telling whether the chain was seeded, and the set of changes a request may
    cause. *)

Record IdState : Type := mkIdState {
  ids : gmap Principal IdentityData;
  is_seeded : bool
}.

Inductive change : Type :=
| AddSeed (p : Principal) (d : IdentityData)
| AddIdentity (p : Principal) (d : IdentityData).

Definition ch_principal (c : change) : Principal :=
  match c with AddSeed p _ | AddIdentity p _ => p end.
Definition ch_data (c : change) : IdentityData :=
  match c with AddSeed _ d | AddIdentity _ d => d end.

Definition apply_change (c : change) (s : IdState) : IdState :=
  match c with
  | AddSeed p d => mkIdState (<[p := d]> (ids s)) true
  | AddIdentity p d => mkIdState (<[p := d]> (ids s)) (is_seeded s)
  end.

(** The requests of the same block that were accepted before. *)
Definition pend (c : change) (tx : txState) : txState :=
  match c with
  | AddSeed p _ => mkTxState true (registering tx ++ [p])
  | AddIdentity p _ => mkTxState (seeded tx) (registering tx ++ [p])
  end.

Section Spec.
Context `{P : Platform}.

(** The signer is registered and its signature over the data validates. *)
Definition signed_by (s : IdState) (payload : SignedPayload) (d : IdentityData) : Prop :=
  ids s !! sp_Principal payload = Some d /\
  Rpc.ValidateSignature payload (PublicKey d) = Ok true.

Inductive accepted (s : IdState) (tx : txState) (data : bytes) : change -> Prop :=
| accept_seed payload seedData :
    Unmarshal data = Ok payload -> p_Type (sp_Payload payload) = RequestTypeSeed ->
    Unmarshal (p_Data (sp_Payload payload)) = Ok seedData ->
    is_seeded s = false -> seeded tx = false ->
    accepted s tx data (AddSeed (seed_Principal seedData) (mkIdentityData (seed_Key seedData) RoleAdmin))
| accept_register payload requester registerData :
    Unmarshal data = Ok payload -> p_Type (sp_Payload payload) = RequestTypeRegister ->
    signed_by s payload requester -> IsAdmin requester = true ->
    Unmarshal (p_Data (sp_Payload payload)) = Ok registerData ->
    ids s !! reg_Principal registerData = None -> reg_Principal registerData ∉ registering tx ->
    accepted s tx data
      (AddIdentity (reg_Principal registerData)
         (mkIdentityData (reg_Key registerData) (reg_Role registerData))).

(** The request carries a signature in hexadecimal of a principal whose
    registered key does not have the size of an Ed25519 key. *)
Definition bad_signer (s : IdState) (payload : SignedPayload) : Prop :=
  exists d sig, ids s !! sp_Principal payload = Some d /\
    Hex.DecodeString (sp_Signature payload) = Ok sig /\ zlen (PublicKey d) <> PublicKeySize.

Definition bad_key_request (s : IdState) (data : bytes) : Prop :=
  exists payload, Unmarshal data = Ok payload /\ bad_signer s payload.

(** Requests to the identity application other than a seed are signed. *)
Definition bad_identity_request (s : IdState) (data : bytes) : Prop :=
  exists payload, Unmarshal data = Ok payload /\
    p_Type (sp_Payload payload) <> RequestTypeSeed /\ bad_signer s payload.

Definition commit_of (c : change) : M IdentityApp unit :=
  match c with
  | AddSeed p d => commitSeed (mkPayloadSeed p (PublicKey d)) d
  | AddIdentity p d => commitRegister (mkPayloadRegister p (id_Role d) (PublicKey d)) d
  end.

End Spec.

Lemma principalKey_inj p q : principalKey p = principalKey q -> p = q.
Proof. apply app_inv_head. Qed.

Lemma principalKey_seeded p : principalKey p <> seededKey.
Proof. done. Qed.

Section Refinement.
Context `{L : PlatformLaws}.

(** The contents of the tree, and the tree itself, represent an abstract
    state; between blocks the working contents are the saved ones. *)
Record map_repr (w : gmap bytes bytes) (s : IdState) : Prop := {
  repr_ids p : match ids s !! p with
               | Some d => exists b, w !! principalKey p = Some b /\ Unmarshal b = Ok d
               | None => w !! principalKey p = None
               end;
  repr_seeded : is_Some (w !! seededKey) <-> is_seeded s = true
}.

Definition repr (t : Tree) (s : IdState) : Prop :=
  working t = saved t /\ map_repr (working t) s.

Lemma repr_Get t s p : repr t s ->
  Get t p = match ids s !! p with Some d => Ok d | None => Err ErrNotFound end.
Proof.
  intros [_ H]. unfold Get. rewrite law_Get. cbn [res_bind]. pose proof (repr_ids _ _ H p) as Hp.
  destruct (ids s !! p); [destruct Hp as (b & -> & Hb); done|by rewrite Hp].
Qed.

Lemma repr_Has t s p : repr t s -> Has t p = Ok (bool_decide (is_Some (ids s !! p))).
Proof.
  intros [_ H]. unfold Has. rewrite law_Has. f_equal. apply bool_decide_ext.
  pose proof (repr_ids _ _ H p) as Hp.
  destruct (ids s !! p); [destruct Hp as (b & -> & _)|rewrite Hp]; done.
Qed.

Lemma repr_IsSeeded t s : repr t s -> IsSeeded t = Ok (is_seeded s).
Proof.
  intros [_ H]. unfold IsSeeded. rewrite law_Has. f_equal. apply eq_iff_eq_true.
  rewrite bool_decide_eq_true. apply (repr_seeded _ _ H).
Qed.

(** [extractIdentityData] in terms of the abstract state. *)
Lemma extract_spec t s payload : repr t s ->
  match extractIdentityData t payload with
  | Ok (inr d) => signed_by s payload d
  | Ok (inl e) => er_Code e <> 0 /\ (forall d, ~ signed_by s payload d)
  | Panic _ => bad_signer s payload
  | Err _ => False
  end.
Proof.
  intros H. unfold extractIdentityData. rewrite (repr_Get _ _ _ H). unfold signed_by, bad_signer.
  destruct (ids s !! sp_Principal payload) as [d|]; [|split; [done|by intros d [? _]]].
  unfold Rpc.ValidateSignature, ed25519_Verify.
  destruct (Hex.DecodeString _) as [sig|e|w] eqn:Es; cbn [res_bind];
    [|split; [done|by intros ? [[= <-] ?]]|].
  - destruct (Z.eqb_spec (zlen (PublicKey d)) PublicKeySize) as [Hk|]; cbn [negb]; [|by exists d, sig].
    destruct (ed_verify _ _ _) eqn:Ev; [by rewrite (proj2 (Z.eqb_eq _ _) Hk), Ev|].
    split; [done|]. intros d' [[= <-] Hv]. rewrite (proj2 (Z.eqb_eq _ _) Hk), Ev in Hv. done.
  - destruct (Hex.decode_no_panic _ _ Es).
Qed.

Lemma validate_bad_signer s payload : bad_signer s payload ->
  exists d w, ids s !! sp_Principal payload = Some d /\
    Rpc.ValidateSignature payload (PublicKey d) = Panic w.
Proof.
  intros (d & sig & Hd & Hs & Hl). exists d.
  pose proof (Rpc.ValidateSignature_panics payload (PublicKey d) sig Hs Hl) as Hp.
  destruct (Rpc.ValidateSignature _ _) as [| |w]; try done. by exists w.
Qed.

Lemma extract_panics t s payload : repr t s -> bad_signer s payload ->
  exists w, extractIdentityData t payload = Panic w.
Proof.
  intros H Hb. destruct (validate_bad_signer s payload Hb) as (d & w & Hd & Hv).
  unfold extractIdentityData. rewrite (repr_Get _ _ _ H), Hd, Hv. by exists w.
Qed.

Lemma accepted_payload s tx data c payload :
  Unmarshal data = Ok payload -> accepted s tx data c ->
  (p_Type (sp_Payload payload) = RequestTypeSeed /\ is_seeded s = false /\ seeded tx = false /\
     (exists sd, Unmarshal (p_Data (sp_Payload payload)) = Ok sd /\
      c = AddSeed (seed_Principal sd) (mkIdentityData (seed_Key sd) RoleAdmin))) \/
  (p_Type (sp_Payload payload) = RequestTypeRegister /\
     (exists d rd, signed_by s payload d /\ IsAdmin d = true /\
      Unmarshal (p_Data (sp_Payload payload)) = Ok rd /\ ids s !! reg_Principal rd = None /\
      (reg_Principal rd ∉ registering tx) /\
      c = AddIdentity (reg_Principal rd) (mkIdentityData (reg_Key rd) (reg_Role rd)))).
Proof.
  intros Hp Hacc. destruct Hacc as [p sd Hu|p d rd Hu]; rewrite Hp in Hu; injection Hu as <-.
  - left. split_and!; try done. by exists sd.
  - right. split; [done|]. by exists d, rd.
Qed.

(** The verdict on one request: what the application does with it. *)
Definition verdict (s : IdState) (app : IdentityApp) (data : bytes)
    (out : IdentityApp * result (FinalizeBlockResponse IdentityApp)) : Prop :=
  match out with
  | (app', Ok r) =>
      match CommitFunc r with
      | Some c => exists ch, accepted s (ia_txState app) data ch /\ c = commit_of ch /\
          app' = set_tx (pend ch (ia_txState app)) app /\ tx_Code (TxResult r) = IdentityCode.CodeOk /\
          tree_Hash (Repository app) = Ok (AppHash r)
      | None => app' = app /\ tx_Code (TxResult r) <> 0 /\ AppHash r = [] /\
          (forall ch, ~ accepted s (ia_txState app) data ch)
      end
  | (app', Panic _) => app' = app /\ bad_identity_request s data
  | (_, Err _) => False
  end.

Lemma identity_verdict_fail s app data e :
  er_Code e <> 0 -> (forall ch, ~ accepted s (ia_txState app) data ch) ->
  verdict s app data (fail e app).
Proof. intros. cbn. done. Qed.

Lemma verdict_respond s app data ch :
  accepted s (ia_txState app) data ch ->
  verdict s app data (respond (commit_of ch) (set_tx (pend ch (ia_txState app)) app)).
Proof.
  intros Ha. unfold respond, Hash. cbn [Repository set_tx].
  destruct (law_Hash (Repository app)) as [h Hh]. rewrite Hh. cbn. by exists ch.
Qed.

Lemma finalizeSeed_verdict s app data payload :
  repr (Repository app) s -> Unmarshal data = Ok payload ->
  p_Type (sp_Payload payload) = RequestTypeSeed ->
  verdict s app data (finalizeSeed payload app).
Proof.
  intros H Hp Hty. unfold finalizeSeed.
  assert (Hr : p_Type (sp_Payload payload) <> RequestTypeRegister) by (by rewrite Hty).
  destruct (Unmarshal (p_Data (sp_Payload payload))) as [sd|e|w] eqn:Ed; [| |by destruct (Unmarshal_no_panic _ _ Ed)].
  - rewrite (repr_IsSeeded _ _ H). destruct (is_seeded s || seeded (ia_txState app)) eqn:E.
    + apply identity_verdict_fail; [done|]. intros ch Ha.
      destruct (accepted_payload _ _ _ _ _ Hp Ha) as [(_ & H1 & H2 & _)|[? _]]; [|done].
      by rewrite H1, H2 in E.
    + apply orb_false_iff in E as [E1 E2].
      apply (verdict_respond s app data
               (AddSeed (seed_Principal sd) (mkIdentityData (seed_Key sd) RoleAdmin))).
      by eapply accept_seed.
  - apply identity_verdict_fail; [done|]. intros ch Ha.
    destruct (accepted_payload _ _ _ _ _ Hp Ha) as [(_ & _ & _ & sd & ? & _)|[? _]]; [congruence|done].
Qed.

Lemma finalizeRegister_verdict s app data payload d :
  repr (Repository app) s -> Unmarshal data = Ok payload ->
  p_Type (sp_Payload payload) = RequestTypeRegister -> signed_by s payload d ->
  verdict s app data (finalizeRegister payload d app).
Proof.
  intros H Hp Hty Hs. unfold finalizeRegister.
  assert (Hr : p_Type (sp_Payload payload) <> RequestTypeSeed) by (by rewrite Hty).
  assert (Hinv : forall ch, accepted s (ia_txState app) data ch ->
    IsAdmin d = true /\ exists rd, Unmarshal (p_Data (sp_Payload payload)) = Ok rd /\
      ids s !! reg_Principal rd = None /\ reg_Principal rd ∉ registering (ia_txState app)).
  { intros ch Ha. destruct (accepted_payload _ _ _ _ _ Hp Ha) as [[? _]|(_ & d' & rd & [Hd _] & ? & Hu & ? & ? & _)]; [done|].
    destruct Hs as [Hd' _]. rewrite Hd in Hd'. injection Hd' as <-. split; [done|]. by exists rd. }
  unfold IsAdmin in Hinv. destruct (bool_decide (id_Role d = RoleAdmin)) eqn:Ea; cbn [negb].
  2:{ apply identity_verdict_fail; [done|]. intros ch Ha. by destruct (Hinv ch Ha). }
  destruct (Unmarshal (p_Data (sp_Payload payload))) as [rd|e|w] eqn:Ed;
    [| |by destruct (Unmarshal_no_panic _ _ Ed)].
  2:{ apply identity_verdict_fail; [done|]. intros ch Ha. by destruct (Hinv ch Ha) as (_ & rd & ? & _). }
  rewrite (repr_Has _ _ _ H).
  destruct (bool_decide_reflect (is_Some (ids s !! reg_Principal rd))) as [Hin|Hin]; cbn [orb].
  { apply identity_verdict_fail; [done|]. intros ch Ha. destruct (Hinv ch Ha) as (_ & rd' & [= <-] & Hn & _).
    rewrite Hn in Hin. by destruct Hin. }
  destruct (Contains _ _) eqn:Ec.
  { apply Contains_spec in Ec. apply identity_verdict_fail; [done|]. intros ch Ha.
    by destruct (Hinv ch Ha) as (_ & rd' & [= <-] & _ & ?). }
  apply (verdict_respond s app data
           (AddIdentity (reg_Principal rd) (mkIdentityData (reg_Key rd) (reg_Role rd)))).
  eapply accept_register; eauto; [by apply eq_None_not_Some|].
  intros Hc%Contains_spec. by rewrite Ec in Hc.
Qed.

(** One transaction: accepted exactly as specified, rejected without effect, or
    a crash on a key of the wrong size. *)
Lemma identity_FinalizeBlock_verdict s app req data :
  repr (Repository app) s -> verdict s app data (FinalizeBlock req data app).
Proof.
  intros H. unfold FinalizeBlock.
  destruct (Unmarshal data) as [payload|e|w] eqn:Ep; [| |by destruct (Unmarshal_no_panic _ _ Ep)].
  2:{ apply identity_verdict_fail; [done|]. intros ch Ha. destruct Ha; congruence. }
  unfold requesterOf. destruct (bool_decide_reflect (p_Type (sp_Payload payload) = RequestTypeSeed)) as [Hs|Hs];
    cbn [negb].
  { by apply finalizeSeed_verdict. }
  pose proof (extract_spec (Repository app) s payload H) as Hx.
  destruct (extractIdentityData _ _) as [[e|d]|e|w]; [|..|done|].
  - destruct Hx as [Hc Hn]. apply identity_verdict_fail; [done|]. intros ch Ha.
    destruct (accepted_payload _ _ _ _ _ Ep Ha) as [[? _]|(_ & d & _ & ? & _)]; [done|by apply (Hn d)].
  - destruct (bool_decide_reflect (p_Type (sp_Payload payload) = RequestTypeRegister)) as [Hr|Hr].
    + by apply finalizeRegister_verdict.
    + apply identity_verdict_fail; [done|]. intros ch Ha.
      destruct (accepted_payload _ _ _ _ _ Ep Ha) as [[? _]|[? _]]; done.
  - split; [done|]. by exists payload.
Qed.

(** The application panics exactly on the requests with an unusable key. *)
Lemma identity_FinalizeBlock_panics_iff s app req data :
  repr (Repository app) s ->
  is_panic (FinalizeBlock req data app).2 = true <-> bad_identity_request s data.
Proof.
  intros H. split.
  - intros Hp. pose proof (identity_FinalizeBlock_verdict s app req data H) as Hv.
    destruct (FinalizeBlock req data app) as [app' [r|e|w]]; try done. by destruct Hv.
  - intros (payload & Hu & Hty & Hb). unfold FinalizeBlock. rewrite Hu.
    unfold requesterOf. rewrite bool_decide_false by done. cbn [negb].
    by destruct (extract_panics _ _ _ H Hb) as [w ->].
Qed.

(** *** Committing *)

Lemma map_repr_add w s p d b :
  map_repr w s -> Unmarshal b = Ok d ->
  map_repr (<[principalKey p := b]> w) (mkIdState (<[p := d]> (ids s)) (is_seeded s)).
Proof.
  intros H Hb. split.
  - intros q. cbn. destruct (decide (p = q)) as [<-|Hne].
    + rewrite lookup_insert_eq. exists b. by rewrite lookup_insert_eq.
    + rewrite lookup_insert_ne by done.
      rewrite lookup_insert_ne by (intros ?%principalKey_inj; done). apply (repr_ids _ _ H).
  - cbn. rewrite lookup_insert_ne by apply principalKey_seeded. apply (repr_seeded _ _ H).
Qed.

Lemma map_repr_seed w s v :
  map_repr w s -> map_repr (<[seededKey := v]> w) (mkIdState (ids s) true).
Proof.
  intros H. split.
  - intros q. cbn. rewrite lookup_insert_ne by (apply not_eq_sym, principalKey_seeded).
    apply (repr_ids _ _ H).
  - cbn. rewrite lookup_insert_eq. done.
Qed.

Lemma Store_spec t p d s :
  representable d -> map_repr (working t) s ->
  exists t', Store p d t = (t', Ok tt) /\ tree_Version t' = tree_Version t /\
    map_repr (working t') (mkIdState (<[p := d]> (ids s)) (is_seeded s)).
Proof.
  intros Hr H. destruct (law_round_trip d Hr) as (b & Hm & Hne & Hu).
  destruct (law_Set t (principalKey p) b Hne) as (t' & x & Hs & Hw & _ & Hv & _).
  exists t'. split_and!; [|done|].
  - unfold Store, m_bind, m_lift. by rewrite Hm, Hs.
  - rewrite Hw. by apply map_repr_add.
Qed.

Lemma SetSeeded_spec t s :
  map_repr (working t) s ->
  exists t', SetSeeded t = (t', Ok tt) /\ tree_Version t' = tree_Version t /\
    map_repr (working t') (mkIdState (ids s) true).
Proof.
  intros H. destruct (law_Set t seededKey (bz "true") ltac:(done)) as (t' & x & Hs & Hw & _ & Hv & _).
  exists t'. split_and!; [|done|].
  - unfold SetSeeded, m_bind. by rewrite Hs.
  - rewrite Hw. by apply map_repr_seed.
Qed.

(** The state of the application at rest, between two blocks. *)
Record at_rest (app : IdentityApp) (s : IdState) : Prop := {
  rest_repr : repr (Repository app) s;
  rest_version : versionNumber app = tree_Version (Repository app);
  rest_tx : ia_txState app = defaultTxState
}.

Lemma save_at_rest t s app :
  map_repr (working t) s -> Repository app = t -> ia_txState app = defaultTxState ->
  exists app', (do (_, v) <- on_repo Save ;; m_modify (set_version v)) app = (app', Ok tt) /\
    at_rest app' s.
Proof.
  intros H Ht Htx. destruct (law_SaveVersion t) as (t' & h & Hs & Hw & Hsv & Hv & _).
  eexists. unfold m_bind, on_repo, m_zoom, Save, m_modify. rewrite Ht, Hs. split; [done|].
  split; cbn; [|done|done]. split; [by rewrite Hw, Hsv|by rewrite Hw].
Qed.

(** The commit function of an accepted request performs its change. *)
Lemma identity_commit_spec s app ch :
  repr (Repository app) s -> representable (ch_data ch) ->
  exists app', commit_of ch app = (app', Ok tt) /\ at_rest app' (apply_change ch s).
Proof.
  intros [Hc H] Hd. destruct ch as [p d|p d]; cbn [ch_data] in Hd; cbn [commit_of apply_change].
  - unfold commitSeed. cbn [seed_Principal].
    destruct (Store_spec (Repository app) p d s Hd H) as (t1 & H1 & _ & Hr1).
    destruct (SetSeeded_spec t1 _ Hr1) as (t2 & H2 & _ & Hr2).
    unfold m_bind at 1, m_modify at 1. unfold m_bind at 1, on_repo at 1, m_zoom.
    cbn [Repository set_tx]. rewrite H1.
    unfold m_bind at 1, on_repo at 1, m_zoom. cbn [Repository set_repo]. rewrite H2.
    by apply (save_at_rest t2).
  - unfold commitRegister. cbn [reg_Principal].
    destruct (Store_spec (Repository app) p d s Hd H) as (t1 & H1 & _ & Hr1).
    unfold m_bind at 1, m_modify at 1. unfold m_bind at 1, on_repo at 1, m_zoom.
    cbn [Repository set_tx]. rewrite H1. by apply (save_at_rest t1).
Qed.

(** Accepted changes can be written: roles that arrive are UTF-8. *)
Lemma identity_accepted_representable s tx data ch :
  accepted s tx data ch -> representable (ch_data ch).
Proof.
  destruct 1 as [|p d rd ? ? ? ? Hu]; [done|]. cbn. by destruct (law_decoded _ _ Hu).
Qed.

(** An administrator exists as soon as anybody does. *)
Definition id_wf (s : IdState) : Prop := is_seeded s = false -> ids s = ∅.

Lemma accepted_wf s tx data ch :
  id_wf s -> accepted s tx data ch -> id_wf (apply_change ch s).
Proof.
  intros Hwf Ha. destruct Ha as [|p d rd ? ? [Hs _]]; unfold id_wf; cbn; [done|].
  intros Hf. rewrite (Hwf Hf) in Hs. done.
Qed.

(** An accepted change never touches a principal that is already there. *)
Lemma accepted_fresh s tx data ch :
  id_wf s -> accepted s tx data ch ->
  ids s !! ch_principal ch = None.
Proof.
  intros Hwf Ha. destruct Ha as [p sd ? ? ? Hs|]; [|done]. cbn. by rewrite (Hwf Hs).
Qed.

(** *** The interface promised to the other callers *)

Lemma CheckTx_code app req data :
  res_map ct_Code (CheckTx app data) =
  res_map (fun r => tx_Code (TxResult r)) (FinalizeBlock req data app).2.
Proof.
  unfold CheckTx, FinalizeBlock.
  destruct (Unmarshal data) as [payload|e|w]; [|done|done].
  destruct (requesterOf _ _) as [[e|d]|e|w]; cbn [res_bind]; [done| |done|done].
  destruct (law_Hash (Repository app)) as [h Hh].
  destruct (bool_decide (_ = RequestTypeSeed)).
  - unfold finalizeSeed. destruct (Unmarshal _) as [sd|e|w]; [|done|done].
    destruct (IsSeeded _) as [b|e|w]; [|done|done].
    destruct (b || _); [done|]. unfold respond, Hash. cbn [Repository set_tx]. by rewrite Hh.
  - destruct (bool_decide (_ = RequestTypeRegister)); [|done]. unfold finalizeRegister.
    destruct (bool_decide (id_Role d = RoleAdmin)); cbn [negb]; [|done].
    destruct (Unmarshal _) as [rd|e|w]; [|done|done].
    destruct (Has _ _) as [b|e|w]; [|done|done].
    destruct (b || _); [done|]. unfold respond, Hash. cbn [Repository set_tx]. by rewrite Hh.
Qed.

(** [CheckTx] answers every request with the code [FinalizeBlock] would give
    it in the same state, and panics exactly when it would. *)
Theorem identity_CheckTx_agrees app req data :
  res_map ct_Code (CheckTx app data) =
  res_map (fun r => tx_Code (TxResult r)) (FinalizeBlock req data app).2.
Proof. apply CheckTx_code. Qed.

(** What a query for a principal answers. *)
Definition query_answer (s : IdState) (p : Principal) (r : ResponseQuery) : Prop :=
  q_Key r = p /\ MerkleProof.ValidateProofOps (q_ProofOps r) = Ok tt /\
  q_Codespace r = IdentityCode.Codespace /\
  match ids s !! p with
  | Some d => q_Code r = IdentityCode.CodeOk /\ Unmarshal (q_Value r) = Ok d
  | None => q_Code r = IdentityCode.CodeNotFound /\ q_Value r = []
  end.

Definition query_path (p : Principal) : bytes := bz "/" ++ p.

Lemma Query_principal app s p req :
  repr (Repository app) s -> (forall d, ids s !! p = Some d -> representable d) ->
  rq_Path req = query_path p ->
  exists r, Query app req = Ok r /\
    (if decide (working (Repository app) = ∅)
     then q_Code r = IdentityCode.CodeTreeUninitialized
     else query_answer s p r).
Proof.
  intros [Hc H] Hrep Hpath. unfold Query. rewrite Hpath. change (trimSlash (query_path p)) with p.
  unfold GetWithProof. destruct (law_GetWithIndex (Repository app) (principalKey p)) as [ix ->].
  cbn [res_bind]. destruct (decide (working (Repository app) = ∅)) as [He|Hne].
  { rewrite MerkleProof.ProofOpForTree_empty by done. by eexists. }
  destruct (MerkleProof.ProofOpForTree_ok (Repository app) (principalKey p) Hne Hc) as (op & -> & _ & Hv).
  cbn [res_bind]. pose proof (repr_ids _ _ H p) as Hp. unfold query_answer.
  destruct (ids s !! p) as [d|] eqn:Ed.
  - destruct Hp as (b & -> & Hb). rewrite Hb. cbn [res_bind MerkleProof.ip_Item].
    destruct (law_round_trip d (Hrep d eq_refl)) as (b' & -> & _ & Hu). cbn [res_bind].
    eexists. split; [done|]. cbn. by rewrite Hv.
  - rewrite Hp. eexists. split; [done|]. cbn. by rewrite Hv.
Qed.

(** Querying a principal over a non-empty tree answers with its current
    data, or with not-found, and in both cases with a proof that the client-side
    validation accepts; over an empty tree the answer is the dedicated code. *)
Theorem identity_query_spec app s p req :
  repr (Repository app) s -> (forall d, ids s !! p = Some d -> representable d) ->
  rq_Path req = query_path p ->
  exists r, Query app req = Ok r /\
    (if decide (working (Repository app) = ∅)
     then q_Code r = IdentityCode.CodeTreeUninitialized
     else query_answer s p r).
Proof. apply Query_principal. Qed.

End Refinement.

End IdentityApp.
