(* ===== verification/EventsApp.v ===== *)
(** * The events application

    Models [wineventchain/pkg/events] and the hashing of
    [common/pkg/types/events]: the Merkle repository of events, the identifier
    of an event, and the application that lets registered principals record
    events.  The identity repository it reads is the one of the identity
    application. *)

From S2P Require Import Prelude Types Text Sha256 Platform Abci MerkleProof Rpc IdentityApp.

(** ** Event identifiers and data hashes *)
Module EventHash.

Section Hash.
Context `{P : Platform}.

(** What [NewEventHash] feeds to the digest. *)
Definition event_preimage (blockHeight : Z) (principal : Principal) (eventBytes : bytes) : bytes :=
  le_encode 8 blockHeight ++ principal ++ eventBytes.

Definition NewEventHash (blockHeight : Z) (principal : Principal) (event : Event) : result EventHash :=
  let* eventBytes := Marshal event in
  Ok (Sha256.Sum256 (event_preimage blockHeight principal eventBytes)).

End Hash.

Definition opt_bytes (o : option bytes) : bytes := match o with Some b => b | None => [] end.

(** [EventData.Hash]: names and values are fed to the digest one after the
    other, without separators. *)
Definition data_preimage (d : EventData) : bytes :=
  concat ((fun x => opt_bytes (data_Name x) ++ opt_bytes (data_Value x)) <$> d).

Definition EventData_Hash (d : EventData) : bytes := Sha256.Sum256 (data_preimage d).

Lemma NewEventHash_length `{P : Platform} h p e id :
  NewEventHash h p e = Ok id -> length id = 32%nat.
Proof.
  unfold NewEventHash. destruct (Marshal e); cbn [res_bind]; [|done|done].
  intros H. injection H as <-. apply Sha256.Sum256_length.
Qed.

(** Events recorded at different heights have different preimages. *)
Lemma event_preimage_height h h' p p' b b' :
  in_u 64 h -> in_u 64 h' -> event_preimage h p b = event_preimage h' p' b' -> h = h'.
Proof.
  intros Hh Hh' H. unfold event_preimage in H.
  apply (f_equal (take 8)) in H.
  rewrite !take_app_length' in H by (symmetry; apply length_le_encode).
  rewrite <- (le_decode_encode_u 8 h), <- (le_decode_encode_u 8 h') by done. by rewrite H.
Qed.

(** The hash that ties off-chain event data to the chain does not determine
    the data: moving bytes between the name and the value of an entry, or
    between entries, keeps it.  No collision of SHA-256 is involved. *)
Theorem event_data_hash_ambiguous :
  exists d d' : EventData, d <> d' /\ data_preimage d = data_preimage d' /\
    EventData_Hash d = EventData_Hash d'.
Proof.
  exists [mkEvData (Some (bz "User")) (Some (bz "alice"))],
         [mkEvData (Some (bz "Us")) (Some (bz "er")); mkEvData None (Some (bz "alice"))].
  split; [done|]. split; [reflexivity|]. unfold EventData_Hash. f_equal.
Qed.

End EventHash.

(** ** The repository ([merkle_repository.go]) *)
Module EventsRepo.

Section Repo.
Context `{P : Platform}.

Definition ErrNotFound : error := Sentinel (bz "event not found").

Definition LoadLatest : M Tree Z := tree_Load.
Definition LoadVersion (version : Z) : M Tree unit :=
  do _ <- tree_LoadVersion version ;; m_ret tt.
Definition Rollback : M Tree unit := m_modify tree_Rollback.
Definition Hash (r : Tree) : result bytes := tree_Hash r.
Definition Save : M Tree (bytes * Z) := tree_SaveVersion.

Definition GetByEventId (r : Tree) (id : EventHash) : result EventWithMetadata :=
  let* bs := tree_Get r id in
  match bs with
  | None => Err ErrNotFound
  | Some bs => Unmarshal bs
  end.

Definition GetWithProof (r : Tree) (id : EventHash) : result (MerkleProof.ItemWithProof EventWithMetadata) :=
  let* (index, bs) := tree_GetWithIndex r id in
  let* proofOp := MerkleProof.ProofOpForTree r id in
  match bs with
  | None => Ok (MerkleProof.mkItemWithProof None index (MerkleProof.GetProofHeight r) proofOp)
  | Some bs =>
      let* event := Unmarshal bs in
      Ok (MerkleProof.mkItemWithProof (Some event) index (MerkleProof.GetProofHeight r) proofOp)
  end.

Definition EventCount (r : Tree) : result Z :=
  let size := tree_Size r in
  if size <? 0 then Err (NewError (bz "negative size")) else Ok (u64 size).

Definition Store (event : EventWithMetadata) : M Tree unit :=
  do marshalled <- m_lift (fun _ => Marshal event) ;;
  do _ <- tree_Set (EventId (em_Metadata event)) marshalled ;;
  m_ret tt.

End Repo.

End EventsRepo.

(** ** The application ([app.go]) *)
Module EventsApp.
Import EventsRepo.

Section App.
Context `{P : Platform}.

Record txState : Type := mkTxState { creating : list bytes }.
Definition defaultTxState : txState := mkTxState [].

Record EventsApp : Type := mkEventsApp {
  Repository : Tree;
  versionNumber : Z;
  ea_txState : txState
}.

Definition NewEventsApp (tree : Tree) : result EventsApp :=
  match tree_Load tree with
  | (tree, Ok versionNumber) => Ok (mkEventsApp tree versionNumber defaultTxState)
  | (_, Err e) => Err e
  | (_, Panic w) => Panic w
  end.

Definition Name : bytes := AppNameEvents.

Definition Info (app : EventsApp) : AppInfo :=
  match Hash (Repository app) with
  | Ok appHash => InfoVersion (versionNumber app) (Hex.EncodeToString appHash)
  | Err err => InfoError (NewErrorResponse MuxCode.CodeUnknownError MuxCode.Codespace (Some err))
  | Panic _ => InfoVersion (versionNumber app) []
  end.

Definition InitChain (app : EventsApp) : result bytes :=
  match Hash (Repository app) with
  | Ok appHash => Ok appHash
  | Err err => Panic (Error err)
  | Panic w => Panic w
  end.

Definition encodingError (e : error) : ErrorResponse :=
  NewErrorResponse MuxCode.CodeEncodingError MuxCode.Codespace (Some e).
Definition unknownError (e : error) : ErrorResponse :=
  NewErrorResponse MuxCode.CodeUnknownError MuxCode.Codespace (Some e).
Definition unknownTypeError (ty : RequestType) : ErrorResponse :=
  NewErrorResponse RpcCode.CodeUnknownRequestType RpcCode.Codespace
    (Some (NewError (bz "unknown request type: " ++ ty))).

(** The request, if its signer is registered and its signature validates. *)
Definition decode (identities : Tree) (data : bytes) : result (ErrorResponse + SignedPayload) :=
  match Unmarshal (A := SignedPayload) data with
  | Panic w => Panic w
  | Err err => Ok (inl (encodingError err))
  | Ok payload =>
      match IdentityRepo.Get identities (sp_Principal payload) with
      | Panic w => Panic w
      | Err err => Ok (inl (unknownError err))
      | Ok requester =>
          match Rpc.ValidateSignature payload (PublicKey requester) with
          | Panic w => Panic w
          | Err err => Ok (inl (unknownError err))
          | Ok false => Ok (inl (NewErrorResponse RpcCode.CodeInvalidSignature RpcCode.Codespace None))
          | Ok true => Ok (inr payload)
          end
      end
  end.

Definition CheckTx (identities : Tree) (app : EventsApp) (data : bytes) : result ResponseCheckTx :=
  let* decoded := decode identities data in
  match decoded with
  | inl err => Ok (IntoCheckTxResponse err)
  | inr decoded =>
      if bool_decide (p_Type (sp_Payload decoded) = RequestTypeCreate) then
        match Unmarshal (A := CreateRequest) (p_Data (sp_Payload decoded)) with
        | Panic w => Panic w
        | Err err => Ok (IntoCheckTxResponse (encodingError err))
        | Ok _ => Ok (mkResponseCheckTx MuxCode.CodeOk [] MuxCode.Codespace)
        end
      else Ok (IntoCheckTxResponse (unknownTypeError (p_Type (sp_Payload decoded))))
  end.

Definition set_repo (r : Tree) (app : EventsApp) : EventsApp :=
  mkEventsApp r (versionNumber app) (ea_txState app).
Definition set_version (v : Z) (app : EventsApp) : EventsApp :=
  mkEventsApp (Repository app) v (ea_txState app).
Definition set_tx (tx : txState) (app : EventsApp) : EventsApp :=
  mkEventsApp (Repository app) (versionNumber app) tx.
Definition on_repo {A} (c : M Tree A) : M EventsApp A := m_zoom Repository set_repo c.

(** The commit function of an accepted creation. *)
Definition commitCreate (event : EventWithMetadata) : M EventsApp unit :=
  do _ <- m_modify (set_tx defaultTxState) ;;
  do _ <- on_repo (Store event) ;;
  do (_, v) <- on_repo Save ;;
  m_modify (set_version v).

Definition EventCreate : bytes := bz "create".
Definition createEvents (eventId : EventHash) (principal : Principal) : list AbciEvent :=
  [utils_Event EventCreate
    [mkEventAttribute (bz "type") (bz "create") true;
     mkEventAttribute (bz "event_id") (Hex.EncodeToString eventId) true;
     mkEventAttribute (bz "principal") principal true]].

Definition fail (e : ErrorResponse) : M EventsApp (FinalizeBlockResponse EventsApp) :=
  m_ret (IntoFinalizeBlockResponse e).

Definition finalizeCreate (req : RequestFinalizeBlock) (decoded : SignedPayload)
  : M EventsApp (FinalizeBlockResponse EventsApp) := fun app =>
  match Unmarshal (A := CreateRequest) (p_Data (sp_Payload decoded)) with
  | Panic w => (app, Panic w)
  | Err err => fail (encodingError err) app
  | Ok payload =>
      match EventHash.NewEventHash (u64 (fb_Height req)) (sp_Principal decoded) (se_Event (cr_Event payload)) with
      | Panic w => (app, Panic w)
      | Err err => fail (unknownError err) app
      | Ok eventId =>
          if Contains (creating (ea_txState app)) (Hex.EncodeToString eventId)
          then fail (NewErrorResponse EventsCode.CodeUnknownError EventsCode.Codespace None) app
          else
            let app := set_tx (mkTxState (creating (ea_txState app) ++ [Hex.EncodeToString eventId])) app in
            let metadata := mkMetadata eventId (fb_Time req) (sp_Principal decoded) in
            match Hash (Repository app) with
            | Panic w => (app, Panic w)
            | Err err => fail (unknownError err) app
            | Ok appHash =>
                match Marshal (mkCreateResponse metadata) with
                | Panic w => (app, Panic w)
                | Err err => fail (unknownError err) app
                | Ok responseMarshalled =>
                    (app, Ok (mkFinalizeBlockResponse
                      (mkExecTxResult EventsCode.CodeOk responseMarshalled (bz "event stored")
                         (createEvents eventId (sp_Principal decoded)) EventsCode.Codespace)
                      appHash
                      (Some (commitCreate (mkEventWithMetadata (cr_Event payload) metadata)))))
                end
            end
      end
  end.

Definition FinalizeBlock (identities : Tree) (req : RequestFinalizeBlock) (data : bytes)
  : M EventsApp (FinalizeBlockResponse EventsApp) := fun app =>
  match decode identities data with
  | Panic w => (app, Panic w)
  | Err err => (app, Err err)
  | Ok (inl err) => fail err app
  | Ok (inr decoded) =>
      match on_repo (LoadVersion (versionNumber app)) app with
      | (app, Panic w) => (app, Panic w)
      | (app, Err err) =>
          fail (NewErrorResponse RpcCode.CodeUnknownRequestType RpcCode.Codespace (Some err)) app
      | (app, Ok _) =>
          if bool_decide (p_Type (sp_Payload decoded) = RequestTypeCreate)
          then finalizeCreate req decoded app
          else fail (unknownTypeError (p_Type (sp_Payload decoded))) app
      end
  end.

(** [^/event-by-id/([a-f0-9]{64})$]. *)
Definition pathPrefix : bytes := bz "/event-by-id/".
Definition pathRegex (path : bytes) : option bytes :=
  let id := drop (length pathPrefix) path in
  if bool_decide (take (length pathPrefix) path = pathPrefix) && Hex.is_sha256_hex id
  then Some id else None.

Definition eventsError (code : Z) (err : option error) : ResponseQuery :=
  IntoQueryResponse (NewErrorResponse code EventsCode.Codespace err).

Definition Query (app : EventsApp) (req : RequestQuery) : result ResponseQuery :=
  if bool_decide (rq_Path req = bz "/count") then
    match EventCount (Repository app) with
    | Panic w => Panic w
    | Err err => Ok (eventsError EventsCode.CodeUnknownError (Some err))
    | Ok count =>
        match Marshal (mkEventCountResponse count) with
        | Panic w => Panic w
        | Err err => Ok (eventsError EventsCode.CodeUnknownError (Some err))
        | Ok marshalled =>
            Ok (mkResponseQuery EventsCode.CodeOk (bz "event count") 0 [] marshalled None
                  (rq_Height req) EventsCode.Codespace)
        end
    end
  else
    match pathRegex (rq_Path req) with
    | None => Ok (eventsError EventsCode.CodeInvalidQueryPath None)
    | Some m =>
        match Hex.DecodeString m with
        | Panic w => Panic w
        | Err _ => Ok (eventsError EventsCode.CodeInvalidQueryPath None)
        | Ok eventId =>
            match GetWithProof (Repository app) eventId with
            | Panic w => Panic w
            | Err err =>
                if errors_Is err ErrNotFound
                then Ok (eventsError EventsCode.CodeEventNotFound (Some err))
                else if errors_Is err MerkleProof.ErrTreeUninitialized
                then Ok (eventsError EventsCode.CodeTreeUninitialized (Some err))
                else Ok (eventsError EventsCode.CodeUnknownError (Some err))
            | Ok ev =>
                let height := if rq_Height req =? 0 then MerkleProof.ip_Height ev else rq_Height req in
                match MerkleProof.ip_Item ev with
                | None =>
                    Ok (mkResponseQuery EventsCode.CodeEventNotFound (bz "Event not found")
                          (MerkleProof.ip_Index ev) eventId [] (MerkleProof.item_ProofOps ev) height EventsCode.Codespace)
                | Some item =>
                    match Marshal item with
                    | Panic w => Panic w
                    | Err err => Ok (eventsError EventsCode.CodeUnknownError (Some err))
                    | Ok marshalled =>
                        Ok (mkResponseQuery EventsCode.CodeOk (bz "Event found")
                              (MerkleProof.ip_Index ev) eventId marshalled (MerkleProof.item_ProofOps ev) height
                              EventsCode.Codespace)
                    end
                end
            end
        end
    end.

End App.

(** ** Abstract specification: a map from identifiers to events *)

Abbreviation EvState := (gmap EventHash EventWithMetadata).

Definition apply_event (e : EventWithMetadata) (s : EvState) : EvState :=
  <[EventId (em_Metadata e) := e]> s.

Definition pend (e : EventWithMetadata) (tx : txState) : txState :=
  mkTxState (creating tx ++ [Hex.EncodeToString (EventId (em_Metadata e))]).

(** A creation is accepted: it is signed by a registered principal, and its
    identifier was not used before in the block. *)
Inductive accepted `{Platform} (ids : IdentityApp.IdState) (height : Z) (t : time) (tx : txState)
    (data : bytes) : EventWithMetadata -> Prop :=
| accept_create payload signer request id :
    Unmarshal data = Ok payload -> IdentityApp.signed_by ids payload signer ->
    p_Type (sp_Payload payload) = RequestTypeCreate ->
    Unmarshal (p_Data (sp_Payload payload)) = Ok request ->
    EventHash.NewEventHash (u64 height) (sp_Principal payload) (se_Event (cr_Event request)) = Ok id ->
    Hex.EncodeToString id ∉ creating tx ->
    accepted ids height t tx data
      (mkEventWithMetadata (cr_Event request) (mkMetadata id t (sp_Principal payload))).

Section Refinement.
Context `{L : PlatformLaws}.

Definition map_repr (w : gmap bytes bytes) (s : EvState) : Prop :=
  forall id, match s !! id with
             | Some e => exists b, w !! id = Some b /\ Unmarshal b = Ok e
             | None => w !! id = None
             end.

(** The state of the application within a block whose accepted requests so far
    are recorded in [tx]. *)
Record in_block (app : EventsApp) (s : EvState) (tx : txState) : Prop := {
  ib_clean : working (Repository app) = saved (Repository app);
  ib_repr : map_repr (working (Repository app)) s;
  ib_version : versionNumber app = tree_Version (Repository app);
  ib_tx : ea_txState app = tx
}.

Lemma in_block_set_tx app s tx tx' : in_block app s tx -> in_block (set_tx tx' app) s tx'.
Proof. by intros []. Qed.

Lemma events_decode_spec t ids data : IdentityApp.repr t ids ->
  match decode t data with
  | Ok (inr payload) => Unmarshal data = Ok payload /\ exists d, IdentityApp.signed_by ids payload d
  | Ok (inl e) => er_Code e <> 0 /\
      (forall payload d, Unmarshal data = Ok payload -> ~ IdentityApp.signed_by ids payload d)
  | Panic _ => IdentityApp.bad_key_request ids data
  | Err _ => False
  end.
Proof.
  intros H. unfold decode.
  destruct (Unmarshal data) as [payload|e|w] eqn:Ep; [|split; [done|by intros]|by destruct (Unmarshal_no_panic _ _ Ep)].
  rewrite (IdentityApp.repr_Get _ _ _ H).
  pose proof (IdentityApp.extract_spec t ids payload H) as Hx.
  unfold IdentityApp.extractIdentityData in Hx. rewrite (IdentityApp.repr_Get _ _ _ H) in Hx.
  destruct (IdentityApp.ids ids !! sp_Principal payload) as [d|] eqn:Ed;
    [|destruct Hx as [_ Hx]; split; [done|]; intros p d [= <-]; apply Hx].
  destruct (Rpc.ValidateSignature payload (PublicKey d)) as [[]|e|w].
  - split; [done|]. by exists d.
  - destruct Hx as [_ Hx]. split; [done|]. intros p d' [= <-]. apply Hx.
  - destruct Hx as [_ Hx]. split; [done|]. intros p d' [= <-]. apply Hx.
  - by exists payload.
Qed.

(** Reloading the version that is already loaded changes nothing. *)
Lemma reload_spec app s tx : in_block app s tx ->
  exists app', on_repo (LoadVersion (versionNumber app)) app = (app', Ok tt) /\ in_block app' s tx /\
    tree_Hash (Repository app') = tree_Hash (Repository app).
Proof.
  intros [Hc Hr Hv Ht]. destruct (law_LoadVersion (Repository app) Hc) as (t' & Hl & Hw & Hs & Hv' & Hh).
  unfold on_repo, m_zoom, LoadVersion, m_bind. rewrite Hv, Hl. eexists. split; [done|].
  split; [|done]. split; cbn; [congruence|by rewrite Hw|by rewrite Hv'|done].
Qed.

Lemma events_decode_panics t ids data : IdentityApp.repr t ids -> IdentityApp.bad_key_request ids data ->
  exists w, decode t data = Panic w.
Proof.
  intros H (payload & Hu & Hb). destruct (IdentityApp.validate_bad_signer ids payload Hb) as (d & w & Hd & Hv).
  unfold decode. rewrite Hu, (IdentityApp.repr_Get _ _ _ H), Hd, Hv. by exists w.
Qed.

Definition verdict (ids : IdentityApp.IdState) (req : RequestFinalizeBlock) (s : EvState)
    (app : EventsApp) (tx : txState) (data : bytes)
    (out : EventsApp * result (FinalizeBlockResponse EventsApp)) : Prop :=
  match out with
  | (app', Ok r) =>
      match CommitFunc r with
      | Some c => exists e, accepted ids (fb_Height req) (fb_Time req) tx data e /\ c = commitCreate e /\
          in_block app' s (pend e tx) /\ tx_Code (TxResult r) = EventsCode.CodeOk /\
          tree_Hash (Repository app) = Ok (AppHash r)
      | None => in_block app' s tx /\ tx_Code (TxResult r) <> 0 /\ AppHash r = [] /\
          (forall e, ~ accepted ids (fb_Height req) (fb_Time req) tx data e)
      end
  | (app', Panic _) => in_block app' s tx /\ IdentityApp.bad_key_request ids data
  | (_, Err _) => False
  end.

Lemma events_verdict_fail ids req s app app' tx data e :
  in_block app' s tx -> er_Code e <> 0 ->
  (forall ev, ~ accepted ids (fb_Height req) (fb_Time req) tx data ev) ->
  verdict ids req s app tx data (fail e app').
Proof. intros. cbn. done. Qed.

Lemma finalizeCreate_verdict ids req s app app' tx data payload d :
  in_block app' s tx -> tree_Hash (Repository app') = tree_Hash (Repository app) ->
  time_ok (fb_Time req) ->
  Unmarshal data = Ok payload -> IdentityApp.signed_by ids payload d ->
  p_Type (sp_Payload payload) = RequestTypeCreate ->
  verdict ids req s app tx data (finalizeCreate req payload app').
Proof.
  intros Hb Hh Ht Hp Hs Hty. unfold finalizeCreate.
  destruct (Unmarshal (p_Data (sp_Payload payload))) as [rq|e|w] eqn:Eq;
    [| |by destruct (Unmarshal_no_panic _ _ Eq)].
  2:{ apply events_verdict_fail; [done|done|]. intros ev Ha. destruct Ha; congruence. }
  destruct (Marshal (se_Event (cr_Event rq))) as [eb|e|w] eqn:Hm; [| |by destruct (Marshal_no_panic _ _ Hm)].
  2:{ assert (EventHash.NewEventHash (u64 (fb_Height req)) (sp_Principal payload) (se_Event (cr_Event rq)) = Err e) as Hid.
      { unfold EventHash.NewEventHash. by rewrite Hm. }
      rewrite Hid. apply events_verdict_fail; [done|done|]. intros ev Ha.
      destruct Ha as [p' sg rq' id' Hp' _ _ Hq' Hid' Hni]. simplify_eq. congruence. }
  assert (Hid : EventHash.NewEventHash (u64 (fb_Height req)) (sp_Principal payload) (se_Event (cr_Event rq)) =
    Ok (Sha256.Sum256 (EventHash.event_preimage (u64 (fb_Height req)) (sp_Principal payload) eb))).
  { unfold EventHash.NewEventHash. by rewrite Hm. }
  rewrite Hid. set (id := Sha256.Sum256 _) in *. cbv zeta. rewrite (ib_tx _ _ _ Hb).
  destruct (Contains (creating tx) (Hex.EncodeToString id)) eqn:Ec.
  { apply Contains_spec in Ec. apply events_verdict_fail; [done|done|]. intros ev Ha.
    destruct Ha as [p' sg rq' id' Hp' _ _ Hq' Hid' Hni]. simplify_eq. congruence. }
  cbn [Repository set_tx]. unfold Hash. rewrite Hh. destruct (law_Hash (Repository app)) as [h Hhash].
  rewrite Hhash.
  assert (Hrep : representable (mkCreateResponse (mkMetadata id (fb_Time req) (sp_Principal payload)))).
  { split; [done|]. by destruct (law_decoded _ _ Hp) as (_ & ? & _). }
  destruct (law_round_trip _ Hrep) as (rb & -> & _ & _).
  cbn. eexists. split_and!; [|done| |done|done].
  - eapply accept_create; eauto. intros Hc%Contains_spec. congruence.
  - by apply (in_block_set_tx app' s tx).
Qed.

Lemma events_FinalizeBlock_verdict t ids req s app tx data :
  IdentityApp.repr t ids -> in_block app s tx -> time_ok (fb_Time req) ->
  verdict ids req s app tx data (FinalizeBlock t req data app).
Proof.
  intros Hi Hb Ht. unfold FinalizeBlock. pose proof (events_decode_spec t ids data Hi) as Hd.
  destruct (decode t data) as [[e|payload]|e|w]; [|..|done|done].
  { destruct Hd as [He Hn]. apply events_verdict_fail; [done|done|].
    intros ev Ha. destruct Ha. by eapply Hn. }
  destruct Hd as (Hp & d & Hs).
  destruct (reload_spec app s tx Hb) as (app' & -> & Hb' & Hh).
  destruct (bool_decide_reflect (p_Type (sp_Payload payload) = RequestTypeCreate)) as [Hty|Hty].
  - by eapply finalizeCreate_verdict.
  - apply events_verdict_fail; [done|done|]. intros ev Ha. destruct Ha; congruence.
Qed.

Lemma events_FinalizeBlock_panics_iff t ids req s app tx data :
  IdentityApp.repr t ids -> in_block app s tx -> time_ok (fb_Time req) ->
  is_panic (FinalizeBlock t req data app).2 = true <-> IdentityApp.bad_key_request ids data.
Proof.
  intros Hi Hb Ht. split.
  - intros Hp. pose proof (events_FinalizeBlock_verdict t ids req s app tx data Hi Hb Ht) as Hv.
    destruct (FinalizeBlock t req data app) as [app' [r|e|w]]; try done. by destruct Hv.
  - intros Hbad. unfold FinalizeBlock. by destruct (events_decode_panics t ids data Hi Hbad) as [w ->].
Qed.

(** *** Committing *)

Lemma map_repr_insert w s e b :
  map_repr w s -> Unmarshal b = Ok e ->
  map_repr (<[EventId (em_Metadata e) := b]> w) (apply_event e s).
Proof.
  intros H Hb id. unfold apply_event. destruct (decide (EventId (em_Metadata e) = id)) as [<-|Hne].
  - rewrite lookup_insert_eq. exists b. by rewrite lookup_insert_eq.
  - rewrite !lookup_insert_ne by done. apply H.
Qed.

(** An accepted event is stored under its identifier. *)
Lemma events_commit_spec app s e :
  map_repr (working (Repository app)) s -> representable e ->
  exists app', commitCreate e app = (app', Ok tt) /\ in_block app' (apply_event e s) defaultTxState.
Proof.
  intros H Hr. destruct (law_round_trip e Hr) as (b & Hm & Hne & Hu).
  destruct (law_Set (Repository app) (EventId (em_Metadata e)) b Hne) as (t' & x & Hs & Hw & _ & _ & _).
  destruct (law_SaveVersion t') as (t2 & h & Hsv & Hw2 & Hs2 & Hv2 & _).
  unfold commitCreate, on_repo, Store, Save, m_bind, m_modify, m_zoom, m_lift. cbn [Repository set_tx set_repo].
  rewrite Hm, Hs. cbn [m_ret Repository set_repo]. rewrite Hsv. eexists. split; [done|].
  split; cbn; [congruence| |done|done]. rewrite Hw2, Hw. by apply map_repr_insert.
Qed.

Lemma events_accepted_representable ids h t tx data e :
  time_ok t -> accepted ids h t tx data e -> representable e.
Proof.
  intros Ht Ha. destruct Ha as [p sg rq id Hp _ _ Hq Hid _].
  destruct (law_decoded _ _ Hq) as (Hoff & [Hmin Hsys] & _). unfold EventHash.NewEventHash in Hid.
  apply res_bind_ok in Hid as (eb & Hm & _). pose proof (law_event_time _ _ Hm Hmin) as Htime.
  split; [by split; [|apply Hsys]|]. split; [done|]. by destruct (law_decoded _ _ Hp) as (_ & ? & _).
Qed.

(** *** Queries *)

Lemma pathRegex_id id : length id = 32%nat ->
  pathRegex (pathPrefix ++ Hex.EncodeToString id) = Some (Hex.EncodeToString id).
Proof.
  intros Hl. unfold pathRegex. rewrite drop_app_length, take_app_length.
  by rewrite bool_decide_true, Hex.encode_is_sha256_hex by done.
Qed.

Definition query_answer (s : EvState) (id : EventHash) (r : ResponseQuery) : Prop :=
  q_Key r = id /\ MerkleProof.ValidateProofOps (q_ProofOps r) = Ok tt /\
  q_Codespace r = EventsCode.Codespace /\
  match s !! id with
  | Some e => q_Code r = EventsCode.CodeOk /\ Unmarshal (q_Value r) = Ok e
  | None => q_Code r = EventsCode.CodeEventNotFound /\ q_Value r = []
  end.

Lemma Query_by_id app s tx id req :
  in_block app s tx -> length id = 32%nat ->
  (forall e, s !! id = Some e -> representable e) ->
  rq_Path req = pathPrefix ++ Hex.EncodeToString id ->
  exists r, Query app req = Ok r /\
    (if decide (working (Repository app) = ∅)
     then q_Code r = EventsCode.CodeTreeUninitialized
     else query_answer s id r).
Proof.
  intros [Hc Hr _ _] Hl Hrep Hpath. unfold Query. rewrite Hpath, bool_decide_false by done.
  rewrite (pathRegex_id id Hl), Hex.decode_encode. unfold GetWithProof.
  destruct (law_GetWithIndex (Repository app) id) as [ix ->]. cbn [res_bind].
  destruct (decide (working (Repository app) = ∅)) as [He|Hne].
  { rewrite MerkleProof.ProofOpForTree_empty by done. by eexists. }
  destruct (MerkleProof.ProofOpForTree_ok (Repository app) id Hne Hc) as (op & -> & _ & Hv).
  cbn [res_bind]. pose proof (Hr id) as Hid. unfold query_answer.
  destruct (s !! id) as [e|] eqn:Ee.
  - destruct Hid as (b & -> & Hb). rewrite Hb. cbn [res_bind MerkleProof.ip_Item].
    destruct (law_round_trip e (Hrep e eq_refl)) as (b' & -> & _ & Hu).
    eexists. split; [done|]. cbn. by rewrite Hv.
  - rewrite Hid. eexists. split; [done|]. cbn. by rewrite Hv.
Qed.

(** Querying an event by its identifier answers with the event recorded
    under it, or with not-found, and a proof that the client-side validation
    accepts; over an empty tree the answer is the dedicated code. *)
Theorem events_query_spec app s tx id req :
  in_block app s tx -> length id = 32%nat ->
  (forall e, s !! id = Some e -> representable e) ->
  rq_Path req = pathPrefix ++ Hex.EncodeToString id ->
  exists r, Query app req = Ok r /\
    (if decide (working (Repository app) = ∅)
     then q_Code r = EventsCode.CodeTreeUninitialized
     else query_answer s id r).
Proof. apply Query_by_id. Qed.

(** The count the application reports is the number of recorded events. *)
Lemma EventCount_spec app s tx :
  in_block app s tx -> Z.of_nat (size s) < 2 ^ 63 ->
  EventCount (Repository app) = Ok (Z.of_nat (size s)).
Proof.
  intros [_ Hr _ _] Hb. unfold EventCount. rewrite law_Size.
  assert (Hd : dom (working (Repository app)) = dom s).
  { apply set_eq. intros id. rewrite !elem_of_dom. specialize (Hr id).
    destruct (s !! id); [destruct Hr as (b & -> & _)|rewrite Hr]; done. }
  rewrite <- (size_dom (working (Repository app))), Hd, size_dom.
  rewrite (proj2 (Z.ltb_ge _ _)) by lia. f_equal. apply uwrap_id. unfold in_u. lia.
Qed.

End Refinement.

End EventsApp.
