(* ===== verification/RetentionApp.v ===== *)
(** * The retention policy application

    Models [wineventchain/pkg/retentionpolicy/app.go]: an administrator may set
    the retention policy of the chain once; the policy is kept in memory and in
    a key-value database.  Both policy pointers are options. *)

From S2P Require Import Prelude Types Text Duration Policy Platform Abci MerkleProof Rpc IdentityApp.

Module RetentionApp.

Section App.
Context `{P : Platform}.

(** [txState] has one field, the policy accepted in the current block. *)
Record RetentionPolicyApp : Type := mkRetentionPolicyApp {
  db : DB;
  policy : option StoredPolicy;
  tx_policy : option StoredPolicy
}.

Definition dbKey : bytes := bz "policy".

Definition set_db (d : DB) (app : RetentionPolicyApp) : RetentionPolicyApp :=
  mkRetentionPolicyApp d (policy app) (tx_policy app).
Definition set_policy (p : option StoredPolicy) (app : RetentionPolicyApp) : RetentionPolicyApp :=
  mkRetentionPolicyApp (db app) p (tx_policy app).
Definition set_tx_policy (p : option StoredPolicy) (app : RetentionPolicyApp) : RetentionPolicyApp :=
  mkRetentionPolicyApp (db app) (policy app) p.

Definition loadPolicy (app : RetentionPolicyApp) : result RetentionPolicyApp :=
  let* data := db_Get (db app) dbKey in
  match data with
  | None => Ok app
  | Some data =>
      let* p := Unmarshal (A := StoredPolicy) data in
      Ok (set_policy (Some p) app)
  end.

Definition NewRetentionPolicyApp (d : DB) : result RetentionPolicyApp :=
  loadPolicy (mkRetentionPolicyApp d None None).

Definition Name : bytes := AppNameRetention.

Definition appHash (app : RetentionPolicyApp) : result bytes :=
  let* h := hashstructure_Hash (policy app) in
  Ok (le_encode 8 h).

Definition Info (app : RetentionPolicyApp) : AppInfo :=
  match appHash app with
  | Ok h => InfoPolicy (Hex.EncodeToString h) (match policy app with Some _ => true | None => false end)
  | Err err => InfoError (NewErrorResponse MuxCode.CodeUnknownError MuxCode.Codespace (Some err))
  | Panic _ => InfoPolicy [] false
  end.

Definition InitChain (app : RetentionPolicyApp) : result bytes :=
  match appHash app with
  | Ok h => Ok h
  | Err err => Panic (Error err)
  | Panic w => Panic w
  end.

Definition encodingError (e : error) : ErrorResponse :=
  NewErrorResponse MuxCode.CodeEncodingError MuxCode.Codespace (Some e).
Definition unknownError (e : error) : ErrorResponse :=
  NewErrorResponse MuxCode.CodeUnknownError MuxCode.Codespace (Some e).
Definition retentionError (code : Z) (err : option error) : ErrorResponse :=
  NewErrorResponse code RetentionCode.Codespace err.
Definition unauthorizedError : ErrorResponse :=
  retentionError RetentionCode.CodeUnauthorized
    (Some (NewError (bz "only principals with the admin role can set the retention policy"))).
Definition alreadySetError : ErrorResponse :=
  retentionError RetentionCode.CodePolicyAlreadySet (Some (NewError (bz "retention policy already set"))).
Definition unknownTypeError : ErrorResponse :=
  retentionError RetentionCode.CodeUnknownRequestType None.

Definition decode (identities : Tree) (data : bytes)
  : result (ErrorResponse + (SignedPayload * IdentityData)) :=
  match Unmarshal (A := SignedPayload) data with
  | Panic w => Panic w
  | Err err => Ok (inl (encodingError err))
  | Ok payload =>
      match IdentityRepo.Get identities (sp_Principal payload) with
      | Panic w => Panic w
      | Err err => Ok (inl (unknownError err))
      | Ok requester =>
          match Rpc.ValidateSignature payload (PublicKey requester) with
          | Panic w => Panic w
          | Err err => Ok (inl (unknownError err))
          | Ok false => Ok (inl (NewErrorResponse RpcCode.CodeInvalidSignature RpcCode.Codespace None))
          | Ok true => Ok (inr (payload, requester))
          end
      end
  end.

Definition is_set (app : RetentionPolicyApp) : bool :=
  match policy app, tx_policy app with None, None => false | _, _ => true end.

Definition CheckTx (identities : Tree) (app : RetentionPolicyApp) (data : bytes)
  : result ResponseCheckTx :=
  let* decoded := decode identities data in
  match decoded with
  | inl err => Ok (IntoCheckTxResponse err)
  | inr (payload, requester) =>
      if negb (bool_decide (id_Role requester = RoleAdmin)) then Ok (IntoCheckTxResponse unauthorizedError)
      else if is_set app then Ok (IntoCheckTxResponse alreadySetError)
      else if bool_decide (p_Type (sp_Payload payload) = RequestTypeSetPolicy) then
        match Unmarshal (A := SetPolicyRequest) (p_Data (sp_Payload payload)) with
        | Panic w => Panic w
        | Err err => Ok (IntoCheckTxResponse (encodingError err))
        | Ok request =>
            match Policy.Validate (spr_Policy request) with
            | Some err =>
                Ok (IntoCheckTxResponse (retentionError RetentionCode.CodeInvalidPolicy (Some err)))
            | None => Ok (mkResponseCheckTx RetentionCode.CodeOk [] RetentionCode.Codespace)
            end
        end
      else Ok (IntoCheckTxResponse unknownTypeError)
  end.

Definition fail (e : ErrorResponse) : M RetentionPolicyApp (FinalizeBlockResponse RetentionPolicyApp) :=
  m_ret (IntoFinalizeBlockResponse e).

(** [json.Marshal(types.SetPolicyResponse{})] of the empty struct. *)
Definition setPolicyResponse : bytes := bz "{}".

Definition commitPolicy (p : StoredPolicy) : M RetentionPolicyApp unit :=
  do _ <- m_modify (set_policy (Some p)) ;;
  do _ <- m_modify (set_tx_policy None) ;;
  do marshalled <- m_lift (fun _ => Marshal p) ;;
  m_zoom db set_db (db_Set dbKey marshalled).

(** The guard after [app.appHash()] tests the error of [decode], which is nil
    here: a failure to hash is not noticed and the hash is nil. *)
Definition appHash_unchecked (app : RetentionPolicyApp) : result bytes :=
  match appHash app with
  | Ok h => Ok h
  | Err _ => Ok []
  | Panic w => Panic w
  end.

Definition FinalizeBlock (identities : Tree) (req : RequestFinalizeBlock) (data : bytes)
  : M RetentionPolicyApp (FinalizeBlockResponse RetentionPolicyApp) := fun app =>
  match decode identities data with
  | Panic w => (app, Panic w)
  | Err err => (app, Err err)
  | Ok (inl err) => fail err app
  | Ok (inr (payload, requester)) =>
      if negb (bool_decide (id_Role requester = RoleAdmin)) then fail unauthorizedError app
      else if is_set app then fail alreadySetError app
      else
        match appHash_unchecked app with
        | Panic w => (app, Panic w)
        | Err err => (app, Err err)
        | Ok appHash =>
            if bool_decide (p_Type (sp_Payload payload) = RequestTypeSetPolicy) then
              match Unmarshal (A := SetPolicyRequest) (p_Data (sp_Payload payload)) with
              | Panic w => (app, Panic w)
              | Err err => fail (encodingError err) app
              | Ok request =>
                  match Policy.Validate (spr_Policy request) with
                  | Some err => fail (retentionError RetentionCode.CodeInvalidPolicy (Some err)) app
                  | None =>
                      let p := mkStoredPolicy (spr_Policy request) (sp_Principal payload) (fb_Time req) in
                      (set_tx_policy (Some p) app,
                       Ok (mkFinalizeBlockResponse
                             (mkExecTxResult RetentionCode.CodeOk setPolicyResponse (bz "policy set")
                                [utils_Event (bz "policy_set") []] RetentionCode.Codespace)
                             appHash
                             (Some (commitPolicy p))))
                  end
              end
            else fail unknownTypeError app
        end
  end.

Definition Query (app : RetentionPolicyApp) (req : RequestQuery) : result ResponseQuery :=
  if rq_Prove req then
    Ok (IntoQueryResponse (retentionError RetentionCode.CodeUnsupportedRequest
      (Some (NewError (bz "proof operation not valid for RetentionPolicyApp, as there is no merkle tree to provide a proof for")))))
  else
    match policy app with
    | None => Ok (IntoQueryResponse (retentionError RetentionCode.CodePolicyNotSet None))
    | Some p =>
        let* data := Marshal p in
        Ok (mkResponseQuery RetentionCode.CodeOk (bz "policy found") 0 [] data None 0 RetentionCode.Codespace)
    end.

End App.

(** ** Abstract specification: an optional policy, set at most once *)

Inductive accepted `{Platform} (ids : IdentityApp.IdState) (t : time)
    (current pending : option StoredPolicy) (data : bytes) : StoredPolicy -> Prop :=
| accept_policy payload signer request :
    Unmarshal data = Ok payload -> IdentityApp.signed_by ids payload signer ->
    IsAdmin signer = true -> current = None -> pending = None ->
    p_Type (sp_Payload payload) = RequestTypeSetPolicy ->
    Unmarshal (p_Data (sp_Payload payload)) = Ok request ->
    Policy.well_formed (spr_Policy request) ->
    accepted ids t current pending data
      (mkStoredPolicy (spr_Policy request) (sp_Principal payload) t).

Section Refinement.
Context `{L : PlatformLaws}.

(** What the database holds for a policy. *)
Definition persisted (d : DB) (p : option StoredPolicy) : Prop :=
  match p with
  | Some p => exists b, db_contents d !! dbKey = Some b /\ Marshal p = Ok b
  | None => db_contents d !! dbKey = None
  end.

Record in_block (app : RetentionPolicyApp) (current pending : option StoredPolicy) : Prop := {
  ib_policy : policy app = current;
  ib_tx : tx_policy app = pending;
  ib_db : persisted (db app) current
}.

Lemma retention_decode_spec t ids data : IdentityApp.repr t ids ->
  match decode t data with
  | Ok (inr (payload, d)) => Unmarshal data = Ok payload /\ IdentityApp.signed_by ids payload d
  | Ok (inl e) => er_Code e <> 0 /\
      (forall payload d, Unmarshal data = Ok payload -> ~ IdentityApp.signed_by ids payload d)
  | Panic _ => IdentityApp.bad_key_request ids data
  | Err _ => False
  end.
Proof.
  intros H. unfold decode.
  destruct (Unmarshal data) as [payload|e|w] eqn:Ep;
    [|split; [done|by intros]|by destruct (Unmarshal_no_panic _ _ Ep)].
  rewrite (IdentityApp.repr_Get _ _ _ H).
  pose proof (IdentityApp.extract_spec t ids payload H) as Hx.
  unfold IdentityApp.extractIdentityData in Hx. rewrite (IdentityApp.repr_Get _ _ _ H) in Hx.
  destruct (IdentityApp.ids ids !! sp_Principal payload) as [d|] eqn:Ed;
    [|destruct Hx as [_ Hx]; split; [done|]; intros p d [= <-]; apply Hx].
  destruct (Rpc.ValidateSignature payload (PublicKey d)) as [[]|e|w].
  - done.
  - destruct Hx as [_ Hx]. split; [done|]. intros p d' [= <-]. apply Hx.
  - destruct Hx as [_ Hx]. split; [done|]. intros p d' [= <-]. apply Hx.
  - by exists payload.
Qed.

Lemma retention_decode_panics t ids data : IdentityApp.repr t ids -> IdentityApp.bad_key_request ids data ->
  exists w, decode t data = Panic w.
Proof.
  intros H (payload & Hu & Hb). destruct (IdentityApp.validate_bad_signer ids payload Hb) as (d & w & Hd & Hv).
  unfold decode. rewrite Hu, (IdentityApp.repr_Get _ _ _ H), Hd, Hv. by exists w.
Qed.

Definition verdict (ids : IdentityApp.IdState) (req : RequestFinalizeBlock)
    (current pending : option StoredPolicy) (app : RetentionPolicyApp) (data : bytes)
    (out : RetentionPolicyApp * result (FinalizeBlockResponse RetentionPolicyApp)) : Prop :=
  match out with
  | (app', Ok r) =>
      match CommitFunc r with
      | Some c => exists p, accepted ids (fb_Time req) current pending data p /\ c = commitPolicy p /\
          app' = set_tx_policy (Some p) app /\ tx_Code (TxResult r) = RetentionCode.CodeOk /\
          appHash app = Ok (AppHash r)
      | None => app' = app /\ tx_Code (TxResult r) <> 0 /\ AppHash r = [] /\
          (forall p, ~ accepted ids (fb_Time req) current pending data p)
      end
  | (app', Panic _) => app' = app /\ IdentityApp.bad_key_request ids data
  | (_, Err _) => False
  end.

Lemma retention_verdict_fail ids req current pending app data e :
  er_Code e <> 0 -> (forall p, ~ accepted ids (fb_Time req) current pending data p) ->
  verdict ids req current pending app data (fail e app).
Proof. intros. cbn. done. Qed.

Lemma accepted_inv ids t current pending data payload d p :
  Unmarshal data = Ok payload -> IdentityApp.signed_by ids payload d ->
  accepted ids t current pending data p ->
  IsAdmin d = true /\ current = None /\ pending = None /\
  p_Type (sp_Payload payload) = RequestTypeSetPolicy /\
  exists rq, Unmarshal (p_Data (sp_Payload payload)) = Ok rq /\ Policy.well_formed (spr_Policy rq).
Proof.
  intros Hp [Hd _] Ha. destruct Ha as [p' d' rq Hp' [Hd' _]].
  rewrite Hp in Hp'. injection Hp' as <-. rewrite Hd in Hd'. injection Hd' as <-.
  split_and!; try done. by exists rq.
Qed.

Lemma appHash_ok app : exists h, appHash app = Ok h.
Proof.
  unfold appHash. destruct (law_hashstructure (policy app)) as (h & -> & _). by eexists.
Qed.

Lemma retention_FinalizeBlock_verdict t ids req current pending app data :
  IdentityApp.repr t ids -> in_block app current pending ->
  verdict ids req current pending app data (FinalizeBlock t req data app).
Proof.
  intros Hi Hb. unfold FinalizeBlock. pose proof (retention_decode_spec t ids data Hi) as Hd.
  destruct (decode t data) as [[e|[payload d]]|e|w]; [|..|done|done].
  { destruct Hd as [He Hn]. apply retention_verdict_fail; [done|]. intros p Ha. destruct Ha. by eapply Hn. }
  destruct Hd as [Hp Hs].
  assert (Hinv := fun p => accepted_inv ids (fb_Time req) current pending data payload d p Hp Hs).
  unfold IsAdmin in Hinv. destruct (bool_decide (id_Role d = RoleAdmin)) eqn:Ea; cbn [negb].
  2:{ apply retention_verdict_fail; [done|]. intros p Ha. by destruct (Hinv p Ha). }
  unfold is_set. rewrite (ib_policy _ _ _ Hb), (ib_tx _ _ _ Hb).
  destruct current as [cur|]; [apply retention_verdict_fail; [done|]; intros p Ha; by destruct (Hinv p Ha) as (_ & ? & _)|].
  destruct pending as [pend|]; [apply retention_verdict_fail; [done|]; intros p Ha; by destruct (Hinv p Ha) as (_ & _ & ? & _)|].
  destruct (appHash_ok app) as [h Hh]. unfold appHash_unchecked. rewrite Hh.
  destruct (bool_decide_reflect (p_Type (sp_Payload payload) = RequestTypeSetPolicy)) as [Hty|Hty].
  2:{ apply retention_verdict_fail; [done|]. intros p Ha. by destruct (Hinv p Ha) as (_ & _ & _ & ? & _). }
  destruct (Unmarshal (p_Data (sp_Payload payload))) as [rq|e|w] eqn:Eq;
    [| |by destruct (Unmarshal_no_panic _ _ Eq)].
  2:{ apply retention_verdict_fail; [done|]. intros p Ha. by destruct (Hinv p Ha) as (_ & _ & _ & _ & ? & ? & _). }
  destruct (Policy.Validate (spr_Policy rq)) as [err|] eqn:Ev.
  - apply retention_verdict_fail; [done|]. intros p Ha.
    destruct (Hinv p Ha) as (_ & _ & _ & _ & rq' & [= <-] & Hwf%Policy.Validate_wf). congruence.
  - cbn. eexists. split_and!; [|done|done|done|done].
    eapply accept_policy; eauto. by apply Policy.Validate_wf.
Qed.

Lemma retention_FinalizeBlock_panics_iff t ids req current pending app data :
  IdentityApp.repr t ids -> in_block app current pending ->
  is_panic (FinalizeBlock t req data app).2 = true <-> IdentityApp.bad_key_request ids data.
Proof.
  intros Hi Hb. split.
  - intros Hp. pose proof (retention_FinalizeBlock_verdict t ids req current pending app data Hi Hb) as Hv.
    destruct (FinalizeBlock t req data app) as [app' [r|e|w]]; try done. by destruct Hv.
  - intros Hbad. unfold FinalizeBlock. by destruct (retention_decode_panics t ids data Hi Hbad) as [w ->].
Qed.

(** *** Committing and restarting *)

Lemma retention_commit_spec app p :
  time_ok (spol_AppliedAt p) ->
  exists app', commitPolicy p app = (app', Ok tt) /\ in_block app' (Some p) None.
Proof.
  intros Ht. destruct (law_policy_marshals p Ht) as (b & Hm & _).
  destruct (law_db_Set (db app) dbKey b) as (d' & Hs & Hd).
  unfold commitPolicy, m_bind, m_modify, m_lift, m_zoom. cbn [db set_policy set_tx_policy].
  rewrite Hm, Hs. eexists. split; [done|]. split; [done|done|]. cbn. exists b.
  by rewrite Hd, lookup_insert_eq.
Qed.

(** A restart between blocks finds the policy again, provided it can be written
    and read back. *)
Lemma reload_policy app current :
  in_block app current None -> opt_all representable current ->
  exists app', NewRetentionPolicyApp (db app) = Ok app' /\ in_block app' current None.
Proof.
  intros [Hp Ht Hd] Hr. unfold NewRetentionPolicyApp, loadPolicy. cbn [db]. rewrite law_db_Get. cbn [res_bind].
  unfold persisted in Hd. destruct current as [p|]; cbn in Hr.
  - destruct Hd as (b & Hl & Hm). rewrite Hl.
    destruct (law_round_trip p Hr) as (b' & Hm' & _ & Hu). rewrite Hm in Hm'. injection Hm' as <-.
    rewrite Hu. cbn. eexists. split; [done|]. split; [done|done|]. by exists b.
  - rewrite Hd. eexists. split; [done|]. by split.
Qed.

(** A policy with a period that does not survive printing can be set, and
    the node that committed it fails to start again. *)
Theorem unreadable_policy_blocks_restart app p f :
  in_block app (Some p) None -> Forall filter_decoded (Filters (spol_Policy p)) ->
  f ∈ Filters (spol_Policy p) -> ~ Duration.survives (pa_RetentionPeriod (f_PolicyAction f)) ->
  is_ok (NewRetentionPolicyApp (db app)) = false.
Proof.
  intros [Hp Ht (b & Hl & Hm)] Hdec Hf Hs.
  unfold NewRetentionPolicyApp, loadPolicy. cbn [db]. rewrite law_db_Get, Hl. cbn [res_bind].
  destruct (Unmarshal b) as [q|e|w] eqn:Eu; [|done|done]. exfalso.
  assert (Hok : is_ok (Unmarshal (A := StoredPolicy) b) = true) by (by rewrite Eu).
  pose proof (law_policy_periods p b Hdec Hm Hok) as Hall. rewrite List.Forall_forall in Hall.
  specialize (Hall f (proj1 (list_elem_of_In _ _) Hf)). cbn beta in Hall.
  rewrite Duration.UnmarshalJSON_MarshalJSON, Duration.String_rejected in Hall; done.
Qed.

End Refinement.

End RetentionApp.
