(* ===== verification/Multiplexer.v ===== *)
(** * The multiplexer

    Models [wineventchain/pkg/multiplexer]: the ABCI application that routes
    requests to the applications by name, runs the transactions of a block,
    keeps their commit functions until [Commit], and persists the height and
    the hash of every application.  The applications are values of the
    interface [MultiplexedApp] over the state [W] they share. *)

From S2P Require Import Prelude Types Text Sha256 Platform Abci.
From Corelib Require Import Init.Byte.

(** ** Persisted state ([state.go]) *)
Module MuxState.

Section State.
Context `{P : Platform}.

Definition stateKey : bytes := bz "muxer_state".

Record State : Type := mkState {
  s_db : DB;
  Size : Z;
  Height : Z;
  AppHashes : gmap bytes bytes
}.

(** [utils.Keys]: the keys in the unspecified order of map iteration. *)
Definition Keys {A} (m : gmap bytes A) : list bytes := (map_to_list m).*1.

Definition sort_Strings (l : list bytes) : list bytes := merge_sort bytes_le l.

(** With the iteration order as an argument. *)
Definition GenerateAppHash_from (appNames : list bytes) (s : State) : bytes :=
  Sha256.Sum256 (concat ((fun name => default [] (AppHashes s !! name)) <$> sort_Strings appNames)).

Definition GenerateAppHash (s : State) : bytes := GenerateAppHash_from (Keys (AppHashes s)) s.

(** [utils.Must] and the explicit [panic] calls turn errors into panics. *)
Definition Must {A} (r : result A) : result A :=
  match r with Ok a => Ok a | Err e => Panic (Error e) | Panic w => Panic w end.

Definition loadState (db : DB) : result State :=
  let* stateBytes := Must (db_Get db stateKey) in
  match default [] stateBytes with
  | [] => Ok (mkState db 0 0 ∅)
  | bs => let* j := Must (Unmarshal (A := StateJson) bs) in
          Ok (mkState db (sj_Size j) (sj_Height j) (sj_AppHashes j))
  end.

Definition set_db (d : DB) (s : State) : State := mkState d (Size s) (Height s) (AppHashes s).

Definition saveState : M State unit := fun s =>
  match Must (Marshal (mkStateJson (Size s) (Height s) (AppHashes s))) with
  | Ok stateBytes =>
      match m_zoom s_db set_db (db_Set stateKey stateBytes) s with
      | (s, r) => (s, Must r)
      end
  | Err e => (s, Err e)
  | Panic w => (s, Panic w)
  end.

End State.

(** *** The order of map iteration does not matter *)

Lemma sort_Strings_unique l l' : l ≡ₚ l' -> sort_Strings l = sort_Strings l'.
Proof.
  intros H. unfold sort_Strings. apply (StronglySorted_unique bytes_le).
  - apply (StronglySorted_merge_sort bytes_le).
  - apply (StronglySorted_merge_sort bytes_le).
  - by rewrite !merge_sort_Permutation.
Qed.

(** The application hash is a function of the recorded hashes: whatever
    order the iteration over the map yields the names in, sorting makes the
    result the same. *)
Theorem GenerateAppHash_deterministic `{P : Platform} (s : State) (order : list bytes) :
  order ≡ₚ Keys (AppHashes s) -> GenerateAppHash_from order s = GenerateAppHash s.
Proof. intros H. unfold GenerateAppHash, GenerateAppHash_from. by rewrite (sort_Strings_unique _ _ H). Qed.

Section Laws.
Context `{L : PlatformLaws}.

Definition json_of (s : State) : StateJson := mkStateJson (Size s) (Height s) (AppHashes s).

(** What is on disk for a state. *)
Definition stored (d : DB) (s : State) : Prop :=
  exists b, db_contents d !! stateKey = Some b /\ b <> [] /\ Unmarshal b = Ok (json_of s).

Lemma saveState_spec s : representable (json_of s) ->
  exists d, saveState s = (set_db d s, Ok tt) /\ stored d s.
Proof.
  intros Hr. unfold saveState. destruct (law_round_trip _ Hr) as (b & Hm & Hne & Hu).
  unfold json_of in Hm. rewrite Hm. cbn [Must].
  destruct (law_db_Set (s_db s) stateKey b) as (d & Hs & Hd).
  unfold m_zoom. rewrite Hs. exists d. split; [done|]. exists b. by rewrite Hd, lookup_insert_eq.
Qed.

Lemma loadState_stored d s : stored d s -> loadState d = Ok (set_db d s).
Proof.
  intros (b & Hl & Hne & Hu). unfold loadState. rewrite law_db_Get, Hl. cbn.
  destruct b; [done|]. by rewrite Hu.
Qed.

(** A state that was saved is loaded again unchanged. *)
Theorem state_round_trip s s' :
  representable (json_of s) -> saveState s = (s', Ok tt) -> loadState (s_db s') = Ok s'.
Proof.
  intros Hr Hs. destruct (saveState_spec s Hr) as (d & Hs' & Hst). rewrite Hs in Hs'.
  injection Hs' as ->. by apply loadState_stored.
Qed.

End Laws.

End MuxState.

(** ** Validators ([validator.go], and [parseValidatorTx] of [abci.go]) *)
Module Validators.

Record Validator : Type := mkValidator {
  v_Address : bytes;
  v_PubKey : bytes
}.

Abbreviation ValidatorMap := (gmap bytes Validator).

Definition NewValidatorMap : ValidatorMap := ∅.
Definition Add (val : Validator) (v : ValidatorMap) : ValidatorMap := <[v_Address val := val]> v.
Definition Get (v : ValidatorMap) (address : bytes) : option Validator := v !! address.

Record ValidatorUpdate : Type := mkValidatorUpdate {
  vu_PubKey : bytes;
  vu_Power : Z
}.

Definition validatorPrefix : bytes := bz "val:".

Definition HasPrefix (s prefix : bytes) : bool := bool_decide (take (length prefix) s = prefix).
Definition TrimPrefix (s prefix : bytes) : bytes :=
  if HasPrefix s prefix then drop (length prefix) s else s.

(** [strings.Split(s, sep)] for a one-byte separator. *)
Fixpoint Split (sep : byte) (s : bytes) : list bytes :=
  match s with
  | [] => [[]]
  | c :: r =>
      if bool_decide (c = sep) then [] :: Split sep r
      else match Split sep r with
           | part :: parts => (c :: part) :: parts
           | [] => [[c]]
           end
  end.

(** *** [base64.StdEncoding.Decode] into a nil slice

    [decodeQuantum] writes the first decoded byte to [dst[0]], so the first
    complete quantum is out of range; corrupt input is reported before. *)
Definition b64_digit (c : byte) : bool :=
  let z := b2z c in
  ((65 <=? z) && (z <=? 90)) || ((97 <=? z) && (z <=? 122)) || ((48 <=? z) && (z <=? 57)) ||
  (z =? 43) || (z =? 47).

Definition newline (c : byte) : bool := (b2z c =? 10) || (b2z c =? 13).

Fixpoint skip_newlines (s : bytes) : bytes :=
  match s with
  | c :: r => if newline c then skip_newlines r else s
  | [] => []
  end.

Definition CorruptInputError : error := NewError (bz "illegal base64 data").
Definition out_of_range {A} : result A := Panic (bz "index out of range [0] with length 0").

Fixpoint decode_into_nil (j : nat) (src : bytes) : result unit :=
  match src with
  | [] => match j with O => Ok tt | _ => Err CorruptInputError end
  | c :: r =>
      if b64_digit c then (if bool_decide (j = 3%nat) then out_of_range else decode_into_nil (S j) r)
      else if newline c then decode_into_nil j r
      else if negb (bool_decide (c = "="%byte)) then Err CorruptInputError
      else
        match j with
        | 0%nat | 1%nat => Err CorruptInputError
        | 2%nat =>
            match skip_newlines r with
            | c' :: _ => if bool_decide (c' = "="%byte) then out_of_range else Err CorruptInputError
            | [] => Err CorruptInputError
            end
        | _ => out_of_range
        end
  end.

Section Parse.
(** [types.UpdateValidator] of CometBFT, which panics on unknown key types. *)
Variable UpdateValidator : bytes -> Z -> bytes -> result ValidatorUpdate.

Definition parseValidatorTx (tx : bytes) : result ValidatorUpdate :=
  let tx := TrimPrefix tx validatorPrefix in
  match Split "!"%byte tx with
  | [keyType; pubKeyString; powerString] =>
      match decode_into_nil 0 pubKeyString with
      | Panic w => Panic w
      | Err err => Err (WrapError (bz "error decoding base64 pubkey: ") err)
      | Ok _ =>
          match Strconv.ParseInt powerString with
          | Panic w => Panic w
          | Err err => Err (WrapError (bz "error parsing power: ") err)
          | Ok power =>
              if power <? 0 then Err (NewError (bz "power must be non-negative"))
              else UpdateValidator [] power keyType
          end
      end
  | _ => Err (NewError (bz "invalid validator tx: " ++ tx))
  end.

End Parse.

End Validators.

(** ** The application ([abci.go]) *)
Module Multiplexer.
Import MuxState Validators.

Section Mux.
Context `{P : Platform}.
Context {W : Type}.
Variable UpdateValidator : bytes -> Z -> bytes -> result ValidatorUpdate.

(** [world] is what the application pointers reach. *)
Record MultiplexedApplication : Type := mkMux {
  apps : gmap bytes (MultiplexedApp W);
  world : W;
  state : State;
  commitFuncs : list (M W unit);
  RetainBlocks : Z;
  validators : ValidatorMap
}.

Definition set_world (w : W) (m : MultiplexedApplication) : MultiplexedApplication :=
  mkMux (apps m) w (state m) (commitFuncs m) (RetainBlocks m) (validators m).
Definition set_state (s : State) (m : MultiplexedApplication) : MultiplexedApplication :=
  mkMux (apps m) (world m) s (commitFuncs m) (RetainBlocks m) (validators m).
Definition set_commitFuncs (c : list (M W unit)) (m : MultiplexedApplication) : MultiplexedApplication :=
  mkMux (apps m) (world m) (state m) c (RetainBlocks m) (validators m).
Definition set_hash (name hash : bytes) (s : State) : State :=
  mkState (s_db s) (Size s) (Height s) (<[name := hash]> (AppHashes s)).
Definition set_height (h : Z) (s : State) : State :=
  mkState (s_db s) (Size s) h (AppHashes s).

Definition NewApplication (db : DB) (w : W) (subApps : list (MultiplexedApp W))
  : result MultiplexedApplication :=
  let* s := loadState db in
  let appMap := fold_left (fun m app => <[app_Name app := app]> m) subApps ∅ in
  Ok (mkMux appMap w s [] 0 NewValidatorMap).

Record ResponseInfo : Type := mkResponseInfo {
  ri_Data : bytes;
  ri_AppVersion : Z;
  LastBlockHeight : Z;
  LastBlockAppHash : bytes
}.

Definition AppVersion : Z := 1.

(** The data is the JSON of an empty map. *)
Definition Info (m : MultiplexedApplication) : ResponseInfo :=
  mkResponseInfo (bz "{}") AppVersion (Height (state m)) (GenerateAppHash (state m)).

(** One iteration of the loop over the applications of [InitChain]. *)
Definition initApp (m : MultiplexedApplication) (subApp : MultiplexedApp W) : result MultiplexedApplication :=
  let* h := app_InitChain subApp (world m) in
  Ok (set_state (set_hash (app_Name subApp) h (state m)) m).

Fixpoint initApps (subApps : list (MultiplexedApp W)) (m : MultiplexedApplication)
  : result MultiplexedApplication :=
  match subApps with
  | [] => Ok m
  | a :: rest => let* m := initApp m a in initApps rest m
  end.

(** The response carries the hash. *)
Definition InitChain (m : MultiplexedApplication) : result (MultiplexedApplication * bytes) :=
  let* m := initApps (map_to_list (apps m)).*2 m in
  Ok (m, GenerateAppHash (state m)).

Definition muxError (code : Z) (text : string) : ErrorResponse :=
  NewErrorResponse code MuxCode.Codespace (Some (NewError (bz text))).

Definition Query (m : MultiplexedApplication) (req : RequestQuery) : result ResponseQuery :=
  match Unmarshal (A := MuxedRequest) (rq_Data req) with
  | Panic w => Panic w
  | Err _ => Ok (IntoQueryResponse (muxError MuxCode.CodeEncodingError "error decoding request"))
  | Ok decoded =>
      match apps m !! mr_App decoded with
      | None => Ok (IntoQueryResponse (muxError MuxCode.CodeUnknownApp "unknown app name"))
      | Some subApp => app_Query subApp (world m) req
      end
  end.

Definition CheckTx (m : MultiplexedApplication) (tx : bytes) : result ResponseCheckTx :=
  if HasPrefix tx validatorPrefix then
    match parseValidatorTx UpdateValidator tx with
    | Panic w => Panic w
    | Err _ => Ok (IntoCheckTxResponse (muxError MuxCode.CodeInvalidValidatorTx "error parsing validator tx"))
    | Ok _ => Ok (mkResponseCheckTx MuxCode.CodeOk [] [])
    end
  else
    match Unmarshal (A := MuxedRequest) tx with
    | Panic w => Panic w
    | Err _ => Ok (IntoCheckTxResponse (muxError MuxCode.CodeEncodingError "error decoding request"))
    | Ok decoded =>
        match apps m !! mr_App decoded with
        | None => Ok (IntoCheckTxResponse (muxError MuxCode.CodeUnknownApp "unknown app name"))
        | Some subApp => app_CheckTx subApp (world m) (mr_Data decoded)
        end
    end.

(** The updates for the evidence of misbehaviour of a block. *)
Definition punish (vals : ValidatorMap) (evidence : Misbehavior) : list ValidatorUpdate :=
  if mb_DuplicateVote evidence then
    match Get vals (mb_Address evidence) with
    | None => []
    | Some v => [mkValidatorUpdate (v_PubKey v) (Max (mb_Power evidence - 1) 0)]
    end
  else [].

Definition codeResult (code : Z) : ExecTxResult := mkExecTxResult code [] [] [] [].

(** One iteration of the loop over the transactions. *)
Definition runTx (req : RequestFinalizeBlock) (tx : bytes) : M MultiplexedApplication ExecTxResult := fun m =>
  match Unmarshal (A := MuxedRequest) tx with
  | Panic w => (m, Panic w)
  | Err _ => (m, Ok (codeResult MuxCode.CodeEncodingError))
  | Ok decoded =>
      match apps m !! mr_App decoded with
      | None => (m, Ok (codeResult MuxCode.CodeUnknownApp))
      | Some subApp =>
          match m_zoom world set_world (app_FinalizeBlock subApp req (mr_Data decoded)) m with
          | (m, Panic w) => (m, Panic w)
          | (m, Err e) => (m, Err e)
          | (m, Ok res) =>
              let m := match CommitFunc res with
                       | Some f => set_commitFuncs (commitFuncs m ++ [f]) m
                       | None => m
                       end in
              (set_state (set_hash (app_Name subApp) (AppHash res) (state m)) m, Ok (TxResult res))
          end
      end
  end.

Fixpoint runTxs (req : RequestFinalizeBlock) (txs : list bytes)
  : M MultiplexedApplication (list ExecTxResult) :=
  match txs with
  | [] => m_ret []
  | tx :: rest =>
      do r <- runTx req tx ;;
      do rs <- runTxs req rest ;;
      m_ret (r :: rs)
  end.

Record ResponseFinalizeBlock : Type := mkResponseFinalizeBlock {
  TxResults : list ExecTxResult;
  ValidatorUpdates : list ValidatorUpdate;
  fb_AppHash : bytes
}.

Definition FinalizeBlock (req : RequestFinalizeBlock) : M MultiplexedApplication ResponseFinalizeBlock :=
  do _ <- m_modify (set_commitFuncs []) ;;
  do updates <- m_lift (fun m => Ok (concat (punish (validators m) <$> fb_Misbehavior req))) ;;
  do results <- runTxs req (fb_Txs req) ;;
  do _ <- m_modify (fun m => set_state (set_height (fb_Height req) (state m)) m) ;;
  m_lift (fun m => Ok (mkResponseFinalizeBlock results updates (GenerateAppHash (state m)))).

Fixpoint runCommits (fs : list (M W unit)) : M W unit :=
  match fs with
  | [] => m_ret tt
  | f :: rest => do _ <- f ;; runCommits rest
  end.

(** The result is [RetainHeight]; zero when it is not set. *)
Definition Commit : M MultiplexedApplication Z :=
  do fs <- m_lift (fun m => Ok (commitFuncs m)) ;;
  do _ <- m_zoom world set_world (runCommits fs) ;;
  do _ <- m_zoom state set_state saveState ;;
  m_lift (fun m =>
    Ok (if (0 <? RetainBlocks m) && (RetainBlocks m <=? Height (state m))
        then i64 (Height (state m) - RetainBlocks m + 1) else 0)).

End Mux.

Section Properties.
Context `{P : Platform}.
Context {W : Type}.
Variable UpdateValidator : bytes -> Z -> bytes -> result ValidatorUpdate.

Lemma Split_cons sep a b : sep ∉ a -> Split sep (a ++ sep :: b) = a :: Split sep b.
Proof.
  induction a as [|c a IH]; intros Hn; cbn; [by rewrite bool_decide_true|].
  apply not_elem_of_cons in Hn as [Hc Hn]. rewrite bool_decide_false by done. by rewrite IH.
Qed.

Lemma Split_single sep a : sep ∉ a -> Split sep a = [a].
Proof.
  induction a as [|c a IH]; intros Hn; cbn; [done|].
  apply not_elem_of_cons in Hn as [Hc Hn]. rewrite bool_decide_false by done. by rewrite IH.
Qed.

Lemma decode_into_nil_quantum a b c d rest :
  forallb b64_digit [a; b; c; d] = true ->
  is_panic (decode_into_nil 0 (a :: b :: c :: d :: rest)) = true.
Proof. cbn. rewrite !andb_true_iff. intros (-> & -> & -> & -> & _). done. Qed.

(** A validator transaction with a key of at least one full base64 quantum
    makes [CheckTx] panic, whatever the key type and the power: the key is
    decoded into a slice without room. *)
Theorem validator_tx_panics (m : MultiplexedApplication (W := W)) keyType a b c d rest power :
  let key := a :: b :: c :: d :: rest in
  forallb b64_digit [a; b; c; d] = true ->
  "!"%byte ∉ keyType -> "!"%byte ∉ key -> "!"%byte ∉ power ->
  is_panic (CheckTx UpdateValidator m
    (validatorPrefix ++ keyType ++ "!"%byte :: key ++ "!"%byte :: power)) = true.
Proof.
  intros key Hd Hk Hkey Hp. unfold CheckTx, HasPrefix. rewrite take_app_length, bool_decide_true by done.
  unfold parseValidatorTx, TrimPrefix, HasPrefix. rewrite take_app_length, bool_decide_true by done.
  rewrite drop_app_length, (Split_cons _ _ _ Hk), (Split_cons _ _ _ Hkey), (Split_single _ _ Hp).
  pose proof (decode_into_nil_quantum a b c d rest Hd) as Hq. fold key in Hq.
  destruct (decode_into_nil 0 key); done.
Qed.

Lemma runTx_validators req tx (m : MultiplexedApplication (W := W)) : validators (runTx req tx m).1 = validators m.
Proof.
  unfold runTx. destruct (Unmarshal tx) as [d|e|w]; [|done|done].
  destruct (apps m !! mr_App d) as [a|]; [|done]. unfold m_zoom.
  destruct (app_FinalizeBlock a req (mr_Data d) (world m)) as [w [r|e|p]]; [|done|done].
  by destruct (CommitFunc r).
Qed.

Lemma runTxs_validators req txs (m : MultiplexedApplication (W := W)) : validators (runTxs req txs m).1 = validators m.
Proof.
  revert m. induction txs as [|tx txs IH]; intros m; cbn [runTxs]; [done|].
  unfold m_bind. pose proof (runTx_validators req tx m) as Ht.
  destruct (runTx req tx m) as [m1 [r|e|w]]; cbn in *; [|done|done].
  pose proof (IH m1) as Hr. destruct (runTxs req txs m1) as [m2 [rs|e|w]]; cbn in *; congruence.
Qed.

Lemma FinalizeBlock_validators req (m : MultiplexedApplication (W := W)) :
  validators (FinalizeBlock req m).1 = validators m.
Proof.
  unfold FinalizeBlock, m_bind, m_modify, m_lift. pose proof (runTxs_validators req (fb_Txs req) (set_commitFuncs [] m)) as H.
  destruct (runTxs _ _ _) as [m1 [rs|e|w]]; cbn in *; done.
Qed.

(** The validator map is created empty and no request adds to it, so a
    block never changes a validator's power, whatever evidence of misbehaviour
    it carries. *)
Theorem misbehaviour_unpunished db w subApps (m m' : MultiplexedApplication (W := W)) req r :
  NewApplication db w subApps = Ok m -> FinalizeBlock req m = (m', Ok r) ->
  ValidatorUpdates r = [] /\ validators m' = NewValidatorMap.
Proof.
  intros Hn Hf.
  assert (Hv : validators m = NewValidatorMap).
  { unfold NewApplication in Hn. destruct (loadState db); [|done|done]. by injection Hn as <-. }
  split.
  - unfold FinalizeBlock, m_bind, m_modify, m_lift in Hf.
    destruct (runTxs _ _ _) as [m1 [rs|e|p]]; [|done|done]. injection Hf as _ <-. cbn. rewrite Hv.
    induction (fb_Misbehavior req) as [|ev l IH]; [done|]. cbn. rewrite IH.
    unfold punish. by destruct (mb_DuplicateVote ev).
  - rewrite <- Hv, <- (FinalizeBlock_validators req m). by rewrite Hf.
Qed.

End Properties.

End Multiplexer.
