(* ===== verification/Chain.v ===== *)
(** * The node

    Puts the applications together as [wineventchain/cmd/app/main.go] does: the
    three applications share the identity repository and are registered with
    the multiplexer.  An abstract chain (identities, events, policy) specifies
    what a block may do; executing and committing a block on the node is shown
    to refine it, and the properties of the chain are proved over all runs. *)

From S2P Require Import Prelude Types Text Sha256 Duration Policy Platform Abci MerkleProof Rpc IdentityApp EventsApp RetentionApp Multiplexer.

Module Chain.
Import MuxState Multiplexer.

(** ** The state the applications share *)
Section Node.
Context `{P : Platform}.

Record World : Type := mkWorld {
  w_id : IdentityApp.IdentityApp;
  w_ev : EventsApp.EventsApp;
  w_pol : RetentionApp.RetentionPolicyApp
}.

Definition put_id (a : IdentityApp.IdentityApp) (w : World) : World := mkWorld a (w_ev w) (w_pol w).
Definition put_ev (a : EventsApp.EventsApp) (w : World) : World := mkWorld (w_id w) a (w_pol w).
Definition put_pol (a : RetentionApp.RetentionPolicyApp) (w : World) : World := mkWorld (w_id w) (w_ev w) a.

(** The identity repository as the other applications see it. *)
Definition identities (w : World) : Tree := IdentityApp.Repository (w_id w).

Definition identity_app : MultiplexedApp World :=
  mkMultiplexedApp IdentityApp.Name
    (fun w => IdentityApp.Info (w_id w))
    (fun w => IdentityApp.InitChain (w_id w))
    (fun w => IdentityApp.CheckTx (w_id w))
    (fun req data => lift_finalize w_id put_id (IdentityApp.FinalizeBlock req data))
    (fun w => IdentityApp.Query (w_id w)).

Definition events_app : MultiplexedApp World :=
  mkMultiplexedApp EventsApp.Name
    (fun w => EventsApp.Info (w_ev w))
    (fun w => EventsApp.InitChain (w_ev w))
    (fun w => EventsApp.CheckTx (identities w) (w_ev w))
    (fun req data w => lift_finalize w_ev put_ev (EventsApp.FinalizeBlock (identities w) req data) w)
    (fun w => EventsApp.Query (w_ev w)).

Definition policy_app : MultiplexedApp World :=
  mkMultiplexedApp RetentionApp.Name
    (fun w => RetentionApp.Info (w_pol w))
    (fun w => RetentionApp.InitChain (w_pol w))
    (fun w => RetentionApp.CheckTx (identities w) (w_pol w))
    (fun req data w => lift_finalize w_pol put_pol (RetentionApp.FinalizeBlock (identities w) req data) w)
    (fun w => RetentionApp.Query (w_pol w)).

Definition subApps : list (MultiplexedApp World) := [identity_app; events_app; policy_app].

(** The part of [main] that builds the node from its databases. *)
Definition newNode (stateDb : DB) (identityTree eventsTree : Tree) (policyDb : DB)
  : result (MultiplexedApplication (W := World)) :=
  let* identityApp := Must (IdentityApp.NewIdentityApp identityTree) in
  let* eventsApp := Must (EventsApp.NewEventsApp eventsTree) in
  let* policyApp := Must (RetentionApp.NewRetentionPolicyApp policyDb) in
  NewApplication stateDb (mkWorld identityApp eventsApp policyApp) subApps.

Definition node_apps : gmap bytes (MultiplexedApp World) :=
  fold_left (fun m app => <[app_Name app := app]> m) subApps ∅.

Lemma node_apps_lookup name :
  node_apps !! name =
  if decide (name = RetentionApp.Name) then Some policy_app
  else if decide (name = EventsApp.Name) then Some events_app
  else if decide (name = IdentityApp.Name) then Some identity_app
  else None.
Proof.
  unfold node_apps, subApps. cbn [fold_left app_Name identity_app events_app policy_app].
  destruct (decide (name = RetentionApp.Name)) as [->|]; [by rewrite lookup_insert_eq|].
  rewrite lookup_insert_ne by done.
  destruct (decide (name = EventsApp.Name)) as [->|]; [by rewrite lookup_insert_eq|].
  rewrite lookup_insert_ne by done.
  destruct (decide (name = IdentityApp.Name)) as [->|]; [by rewrite lookup_insert_eq|].
  by rewrite lookup_insert_ne.
Qed.

(** ** The abstract chain *)

Record ChainState : Type := mkChainState {
  c_ids : IdentityApp.IdState;
  c_evs : EventsApp.EvState;
  c_pol : option StoredPolicy
}.

(** What was accepted earlier in the same block. *)
Record Pending : Type := mkPending {
  pd_id : IdentityApp.txState;
  pd_ev : EventsApp.txState;
  pd_pol : option StoredPolicy
}.

Definition no_pending : Pending :=
  mkPending IdentityApp.defaultTxState EventsApp.defaultTxState None.

Inductive effect : Type :=
| EffIdentity (c : IdentityApp.change)
| EffEvent (e : EventWithMetadata)
| EffPolicy (p : StoredPolicy).

Definition apply_effect (s : ChainState) (e : effect) : ChainState :=
  match e with
  | EffIdentity c => mkChainState (IdentityApp.apply_change c (c_ids s)) (c_evs s) (c_pol s)
  | EffEvent e => mkChainState (c_ids s) (EventsApp.apply_event e (c_evs s)) (c_pol s)
  | EffPolicy p => mkChainState (c_ids s) (c_evs s) (Some p)
  end.

Definition pend (e : effect) (pd : Pending) : Pending :=
  match e with
  | EffIdentity c => mkPending (IdentityApp.pend c (pd_id pd)) (pd_ev pd) (pd_pol pd)
  | EffEvent e => mkPending (pd_id pd) (EventsApp.pend e (pd_ev pd)) (pd_pol pd)
  | EffPolicy p => mkPending (pd_id pd) (pd_ev pd) (Some p)
  end.

(** A transaction is accepted against the state before the block and what the
    block has accepted so far. *)
Inductive accepted_tx (s : ChainState) (req : RequestFinalizeBlock) (pd : Pending) (tx : bytes)
  : effect -> Prop :=
| accept_identity data c :
    Unmarshal tx = Ok (mkMuxedRequest IdentityApp.Name data) ->
    IdentityApp.accepted (c_ids s) (pd_id pd) data c ->
    accepted_tx s req pd tx (EffIdentity c)
| accept_event data e :
    Unmarshal tx = Ok (mkMuxedRequest EventsApp.Name data) ->
    EventsApp.accepted (c_ids s) (fb_Height req) (fb_Time req) (pd_ev pd) data e ->
    accepted_tx s req pd tx (EffEvent e)
| accept_policy data p :
    Unmarshal tx = Ok (mkMuxedRequest RetentionApp.Name data) ->
    RetentionApp.accepted (c_ids s) (fb_Time req) (c_pol s) (pd_pol pd) data p ->
    accepted_tx s req pd tx (EffPolicy p).

(** Running the transactions of a block: the codes and the effects. *)
Inductive block_run (s : ChainState) (req : RequestFinalizeBlock)
  : Pending -> list bytes -> list Z -> list effect -> Prop :=
| run_nil pd : block_run s req pd [] [] []
| run_accept pd tx txs codes e effs :
    accepted_tx s req pd tx e -> block_run s req (pend e pd) txs codes effs ->
    block_run s req pd (tx :: txs) (0 :: codes) (e :: effs)
| run_reject pd tx txs code codes effs :
    (forall e, ~ accepted_tx s req pd tx e) -> code <> 0 -> block_run s req pd txs codes effs ->
    block_run s req pd (tx :: txs) (code :: codes) effs.

(** The transaction is signed by a principal whose key cannot be used. *)
Definition tx_crashes (s : ChainState) (tx : bytes) : Prop :=
  exists name data, Unmarshal tx = Ok (mkMuxedRequest name data) /\
    ((name = IdentityApp.Name /\ IdentityApp.bad_identity_request (c_ids s) data) \/
     ((name = EventsApp.Name \/ name = RetentionApp.Name) /\
      IdentityApp.bad_key_request (c_ids s) data)).

Definition commit_effect (e : effect) : M World unit :=
  match e with
  | EffIdentity c => m_zoom w_id put_id (IdentityApp.commit_of c)
  | EffEvent e => m_zoom w_ev put_ev (EventsApp.commitCreate e)
  | EffPolicy p => m_zoom w_pol put_pol (RetentionApp.commitPolicy p)
  end.

End Node.

Section Refinement.
Context `{L : PlatformLaws}.
Implicit Types m : MultiplexedApplication (W := World).

(** ** The simulation relation *)

Record in_block (w : World) (s : ChainState) (pd : Pending) : Prop := {
  ib_ids : IdentityApp.repr (identities w) (c_ids s);
  ib_version : IdentityApp.versionNumber (w_id w) = tree_Version (identities w);
  ib_idtx : IdentityApp.ia_txState (w_id w) = pd_id pd;
  ib_evs : EventsApp.in_block (w_ev w) (c_evs s) (pd_ev pd);
  ib_pol : RetentionApp.in_block (w_pol w) (c_pol s) (pd_pol pd)
}.

(** The persisted part stays writable. *)
Definition state_ok (st : State) : Prop := representable (json_of st).

Lemma set_hash_ok st name h : utf8 name -> state_ok st -> state_ok (set_hash name h st).
Proof.
  intros Hn (H1 & H2 & H3). split_and!; [done|done|]. cbn. by apply map_Forall_insert_2.
Qed.

(** What running transactions leaves alone. *)
Record frame m m' : Prop := {
  fr_apps : apps m' = apps m;
  fr_retain : RetainBlocks m' = RetainBlocks m;
  fr_state : state_ok (state m) -> state_ok (state m')
}.

Lemma frame_refl m : frame m m.
Proof. by split. Qed.

Lemma frame_trans m1 m2 m3 : frame m1 m2 -> frame m2 m3 -> frame m1 m3.
Proof. intros [? ? ?] [? ? ?]. split; [congruence|congruence|auto]. Qed.

(** The outcome of one transaction. *)
Definition tx_outcome (s : ChainState) (req : RequestFinalizeBlock) (pd : Pending) (tx : bytes)
    m m' (r : ExecTxResult) : Prop :=
  frame m m' /\
  ((exists e, accepted_tx s req pd tx e /\ tx_Code r = 0 /\ in_block (world m') s (pend e pd) /\
      commitFuncs m' = commitFuncs m ++ [commit_effect e]) \/
   ((forall e, ~ accepted_tx s req pd tx e) /\ tx_Code r <> 0 /\ in_block (world m') s pd /\
      commitFuncs m' = commitFuncs m)).

(** Running one application on a transaction, by its verdict. *)
Lemma runTx_identity s req pd tx data m :
  apps m = node_apps -> in_block (world m) s pd ->
  Unmarshal tx = Ok (mkMuxedRequest IdentityApp.Name data) ->
  match runTx req tx m with
  | (m', Ok r) => tx_outcome s req pd tx m m' r
  | (_, Panic _) => tx_crashes s tx
  | (_, Err _) => False
  end.
Proof.
  intros Ha Hb Hu. unfold runTx. rewrite Hu, Ha, node_apps_lookup. cbn [mr_App mr_Data].
  do 2 (rewrite decide_False by done). rewrite decide_True by done.
  pose proof (IdentityApp.identity_FinalizeBlock_verdict (c_ids s) (w_id (world m)) req data (ib_ids _ _ _ Hb)) as Hv.
  unfold m_zoom. cbn [identity_app app_FinalizeBlock]. unfold lift_finalize, m_bind, m_zoom.
  destruct (IdentityApp.FinalizeBlock req data (w_id (world m))) as [a [r|e|p]]; [|done|].
  2:{ destruct Hv as [_ Hv]. exists IdentityApp.Name, data. auto. }
  cbn in Hv |- *. destruct (CommitFunc r) as [c|] eqn:Ec; cbn.
  - destruct Hv as (ch & Hacc & -> & -> & Hcode & Hh). split.
    { split; [done|done|]. by apply set_hash_ok. }
    left. exists (EffIdentity ch). split_and!; [|done| |done].
    + eapply accept_identity; [done|]. by rewrite <- (ib_idtx _ _ _ Hb).
    + destruct Hb as [Hi Hver Htx He Hp]. split; cbn; [done|done| |done|done]. by rewrite Htx.
  - destruct Hv as (-> & Hcode & Hh & Hn). split.
    { split; [done|done|]. by apply set_hash_ok. }
    right. split_and!; [|done| |done].
    + intros e He. destruct He as [data' ch Hu' Hacc|data' ? Hu'|data' ? Hu']; rewrite Hu in Hu'; [|done|done].
      injection Hu' as <-. apply (Hn ch). by rewrite (ib_idtx _ _ _ Hb).
    + destruct Hb. by split.
Qed.

Lemma runTx_events s req pd tx data m :
  apps m = node_apps -> in_block (world m) s pd -> time_ok (fb_Time req) ->
  Unmarshal tx = Ok (mkMuxedRequest EventsApp.Name data) ->
  match runTx req tx m with
  | (m', Ok r) => tx_outcome s req pd tx m m' r
  | (_, Panic _) => tx_crashes s tx
  | (_, Err _) => False
  end.
Proof.
  intros Ha Hb Ht Hu. unfold runTx. rewrite Hu, Ha, node_apps_lookup. cbn [mr_App mr_Data].
  rewrite decide_False by done. rewrite decide_True by done.
  pose proof (EventsApp.events_FinalizeBlock_verdict (identities (world m)) (c_ids s) req (c_evs s)
    (w_ev (world m)) (pd_ev pd) data (ib_ids _ _ _ Hb) (ib_evs _ _ _ Hb) Ht) as Hv.
  unfold m_zoom. cbn [events_app app_FinalizeBlock]. unfold lift_finalize, m_bind, m_zoom.
  destruct (EventsApp.FinalizeBlock _ req data (w_ev (world m))) as [a [r|e|p]]; [|done|].
  2:{ destruct Hv as [_ Hv]. exists EventsApp.Name, data. auto. }
  cbn in Hv |- *. destruct (CommitFunc r) as [c|] eqn:Ec; cbn.
  - destruct Hv as (ev & Hacc & -> & Hin & Hcode & Hh). split.
    { split; [done|done|]. by apply set_hash_ok. }
    left. exists (EffEvent ev). split_and!; [|done| |done].
    + by eapply accept_event.
    + destruct Hb. by split.
  - destruct Hv as (Hin & Hcode & Hh & Hn). split.
    { split; [done|done|]. by apply set_hash_ok. }
    right. split_and!; [|done| |done].
    + intros e He. destruct He as [data' ch Hu' Hacc|data' ? Hu'|data' ? Hu']; rewrite Hu in Hu'; [done| |done].
      injection Hu' as <-. by eapply Hn.
    + destruct Hb. by split.
Qed.

Lemma runTx_policy s req pd tx data m :
  apps m = node_apps -> in_block (world m) s pd ->
  Unmarshal tx = Ok (mkMuxedRequest RetentionApp.Name data) ->
  match runTx req tx m with
  | (m', Ok r) => tx_outcome s req pd tx m m' r
  | (_, Panic _) => tx_crashes s tx
  | (_, Err _) => False
  end.
Proof.
  intros Ha Hb Hu. unfold runTx. rewrite Hu, Ha, node_apps_lookup. cbn [mr_App mr_Data].
  rewrite decide_True by done.
  pose proof (RetentionApp.retention_FinalizeBlock_verdict (identities (world m)) (c_ids s) req (c_pol s) (pd_pol pd)
    (w_pol (world m)) data (ib_ids _ _ _ Hb) (ib_pol _ _ _ Hb)) as Hv.
  unfold m_zoom. cbn [policy_app app_FinalizeBlock]. unfold lift_finalize, m_bind, m_zoom.
  destruct (RetentionApp.FinalizeBlock _ req data (w_pol (world m))) as [a [r|e|p]]; [|done|].
  2:{ destruct Hv as [_ Hv]. exists RetentionApp.Name, data. auto. }
  cbn in Hv |- *. destruct (CommitFunc r) as [c|] eqn:Ec; cbn.
  - destruct Hv as (p & Hacc & -> & -> & Hcode & Hh). split.
    { split; [done|done|]. by apply set_hash_ok. }
    left. exists (EffPolicy p). split_and!; [|done| |done].
    + by eapply accept_policy.
    + destruct Hb as [Hi Hver Htx He [Hp1 Hp2 Hp3]]. by split.
  - destruct Hv as (-> & Hcode & Hh & Hn). split.
    { split; [done|done|]. by apply set_hash_ok. }
    right. split_and!; [|done| |done].
    + intros e He. destruct He as [data' ch Hu' Hacc|data' ? Hu'|data' ? Hu']; rewrite Hu in Hu'; [done|done|].
      injection Hu' as <-. by eapply Hn.
    + destruct Hb. by split.
Qed.

Lemma runTx_outcome s req pd tx m :
  apps m = node_apps -> in_block (world m) s pd -> time_ok (fb_Time req) ->
  match runTx req tx m with
  | (m', Ok r) => tx_outcome s req pd tx m m' r
  | (_, Panic _) => tx_crashes s tx
  | (_, Err _) => False
  end.
Proof.
  intros Ha Hb Ht.
  assert (Hrej : forall code, code <> 0 -> (forall e, ~ accepted_tx s req pd tx e) ->
    tx_outcome s req pd tx m m (codeResult code)).
  { intros code Hcode Hn. split; [apply frame_refl|]. by right. }
  destruct (Unmarshal (A := MuxedRequest) tx) as [[name data]|e|w] eqn:Eu; [|..|by destruct (Unmarshal_no_panic _ _ Eu)].
  2:{ unfold runTx. rewrite Eu.
      apply Hrej; [done|]. intros e' He. destruct He as [? ? Hu|? ? Hu|? ? Hu]; rewrite Eu in Hu; done. }
  pose proof (node_apps_lookup name) as Hl.
  destruct (decide (name = RetentionApp.Name)) as [->|H1]; [by apply (runTx_policy s req pd tx data m)|].
  destruct (decide (name = EventsApp.Name)) as [->|H2]; [by apply (runTx_events s req pd tx data m)|].
  destruct (decide (name = IdentityApp.Name)) as [->|H3]; [by apply (runTx_identity s req pd tx data m)|].
  unfold runTx. rewrite Eu, Ha. cbn [mr_App]. rewrite Hl.
  apply Hrej; [done|]. intros e' He. destruct He as [? ? Hu|? ? Hu|? ? Hu]; rewrite Eu in Hu; injection Hu as ? ?; done.
Qed.

(** A crashing transaction does crash. *)
Lemma runTx_crashes s req pd tx m :
  apps m = node_apps -> in_block (world m) s pd -> time_ok (fb_Time req) -> tx_crashes s tx ->
  is_panic (runTx req tx m).2 = true.
Proof.
  intros Ha Hb Ht (name & data & Hu & Hc). unfold runTx. rewrite Hu, Ha, node_apps_lookup. cbn [mr_App mr_Data].
  destruct Hc as [[-> Hbad]|[[-> | ->] Hbad]].
  - do 2 (rewrite decide_False by done). rewrite decide_True by done.
    pose proof (proj2 (IdentityApp.identity_FinalizeBlock_panics_iff _ (w_id (world m)) req data (ib_ids _ _ _ Hb)) Hbad) as Hp.
    unfold m_zoom. cbn [identity_app app_FinalizeBlock]. unfold lift_finalize, m_bind, m_zoom.
    by destruct (IdentityApp.FinalizeBlock req data (w_id (world m))) as [a [r|e|p]].
  - rewrite decide_False by done. rewrite decide_True by done.
    pose proof (proj2 (EventsApp.events_FinalizeBlock_panics_iff _ _ req _ _ _ data (ib_ids _ _ _ Hb) (ib_evs _ _ _ Hb) Ht) Hbad) as Hp.
    unfold m_zoom. cbn [events_app app_FinalizeBlock]. unfold lift_finalize, m_bind, m_zoom.
    by destruct (EventsApp.FinalizeBlock _ req data (w_ev (world m))) as [a [r|e|p]].
  - rewrite decide_True by done.
    pose proof (proj2 (RetentionApp.retention_FinalizeBlock_panics_iff _ _ req _ _ _ data (ib_ids _ _ _ Hb) (ib_pol _ _ _ Hb)) Hbad) as Hp.
    unfold m_zoom. cbn [policy_app app_FinalizeBlock]. unfold lift_finalize, m_bind, m_zoom.
    by destruct (RetentionApp.FinalizeBlock _ req data (w_pol (world m))) as [a [r|e|p]].
Qed.

(** The transactions of a block: they all run, or one of them crashes. *)
Definition txs_outcome (s : ChainState) (req : RequestFinalizeBlock) (pd : Pending) (txs : list bytes)
    m m' (rs : list ExecTxResult) : Prop :=
  exists effs, frame m m' /\ block_run s req pd txs (tx_Code <$> rs) effs /\
    in_block (world m') s (fold_left (fun pd e => pend e pd) effs pd) /\
    commitFuncs m' = commitFuncs m ++ (commit_effect <$> effs).

Lemma runTxs_run s req txs pd m :
  apps m = node_apps -> in_block (world m) s pd -> time_ok (fb_Time req) ->
  match runTxs req txs m with
  | (m', Ok rs) => txs_outcome s req pd txs m m' rs /\ Forall (fun tx => ~ tx_crashes s tx) txs
  | (_, Panic _) => Exists (tx_crashes s) txs
  | (_, Err _) => False
  end.
Proof.
  intros Ha Hb Ht. revert pd m Ha Hb. induction txs as [|tx txs IH]; intros pd m Ha Hb.
  { split; [|by apply List.Forall_nil]. exists []. split_and!; [apply frame_refl|constructor|done|by rewrite app_nil_r]. }
  cbn [runTxs]. unfold m_bind, m_ret.
  pose proof (runTx_outcome s req pd tx m Ha Hb Ht) as Ho.
  assert (Hnc : forall m1 r, runTx req tx m = (m1, Ok r) -> ~ tx_crashes s tx).
  { intros m1 r Hr Hcr. pose proof (runTx_crashes s req pd tx m Ha Hb Ht Hcr) as Hp. by rewrite Hr in Hp. }
  destruct (runTx req tx m) as [m1 [r|e|w]]; [|done|by apply Exists_cons_hd].
  specialize (Hnc _ _ eq_refl). destruct Ho as [Hfr Hout].
  assert (Ha1 : apps m1 = node_apps) by (rewrite (fr_apps _ _ Hfr); done).
  destruct Hout as [(e & Hacc & Hcode & Hb1 & Hcf)|(Hn & Hcode & Hb1 & Hcf)].
  - specialize (IH (pend e pd) m1 Ha1 Hb1).
    destruct (runTxs req txs m1) as [m2 [rs|e'|w]]; [|done|by apply Exists_cons_tl].
    destruct IH as [(effs & Hfr2 & Hrun & Hb2 & Hcf2) Hncs]. split; [|by apply List.Forall_cons].
    exists (e :: effs). split_and!; [by eapply frame_trans| |done|].
    + rewrite fmap_cons, Hcode. by apply run_accept.
    + rewrite Hcf2, Hcf, fmap_cons, <- app_assoc. done.
  - specialize (IH pd m1 Ha1 Hb1).
    destruct (runTxs req txs m1) as [m2 [rs|e'|w]]; [|done|by apply Exists_cons_tl].
    destruct IH as [(effs & Hfr2 & Hrun & Hb2 & Hcf2) Hncs]. split; [|by apply List.Forall_cons].
    exists effs. split_and!; [by eapply frame_trans| |done|congruence].
    rewrite fmap_cons. by apply run_reject.
Qed.

(** ** Committing *)

Definition effect_ok (e : effect) : Prop :=
  match e with
  | EffIdentity c => representable (IdentityApp.ch_data c)
  | EffEvent e => representable e
  | EffPolicy p => time_ok (spol_AppliedAt p)
  end.

Lemma accepted_ok s req pd tx e :
  time_ok (fb_Time req) -> accepted_tx s req pd tx e -> effect_ok e.
Proof.
  intros Ht He. destruct He as [data c _ Ha|data e _ Ha|data p _ Ha]; cbn.
  - by eapply IdentityApp.identity_accepted_representable.
  - by eapply EventsApp.events_accepted_representable.
  - by destruct Ha.
Qed.

Lemma block_run_ok s req pd txs codes effs :
  time_ok (fb_Time req) -> block_run s req pd txs codes effs -> Forall effect_ok effs.
Proof.
  intros Ht. induction 1; [by apply List.Forall_nil| |done].
  apply List.Forall_cons; [by eapply accepted_ok|done].
Qed.

(** A commit function clears what its application had pending. *)
Definition settle (pd : Pending) (e : effect) : Pending :=
  match e with
  | EffIdentity _ => mkPending IdentityApp.defaultTxState (pd_ev pd) (pd_pol pd)
  | EffEvent _ => mkPending (pd_id pd) EventsApp.defaultTxState (pd_pol pd)
  | EffPolicy _ => mkPending (pd_id pd) (pd_ev pd) None
  end.

Lemma commit_effect_spec w s pd e :
  in_block w s pd -> effect_ok e ->
  exists w', commit_effect e w = (w', Ok tt) /\ in_block w' (apply_effect s e) (settle pd e).
Proof.
  intros [Hi Hv Ht He Hp] Hok. destruct e as [c|e|p]; cbn [commit_effect effect_ok] in *; unfold m_zoom.
  - destruct (IdentityApp.identity_commit_spec (c_ids s) (w_id w) c Hi Hok) as (a & -> & Hr).
    eexists. split; [done|]. destruct Hr. by split.
  - destruct (EventsApp.events_commit_spec (w_ev w) (c_evs s) e (EventsApp.ib_repr _ _ _ He) Hok) as (a & -> & Hr).
    eexists. split; [done|]. by split.
  - destruct (RetentionApp.retention_commit_spec (w_pol w) p Hok) as (a & -> & Hr).
    eexists. split; [done|]. by split.
Qed.

Lemma runCommits_spec effs w s pd :
  in_block w s pd -> Forall effect_ok effs ->
  exists w', runCommits (commit_effect <$> effs) w = (w', Ok tt) /\
    in_block w' (fold_left apply_effect effs s) (fold_left settle effs pd).
Proof.
  revert w s pd. induction effs as [|e effs IH]; intros w s pd Hb Hok; [by exists w|].
  apply Forall_cons_1 in Hok as [Ho Hos].
  destruct (commit_effect_spec w s pd e Hb Ho) as (w1 & H1 & Hb1).
  destruct (IH w1 _ _ Hb1 Hos) as (w2 & H2 & Hb2). exists w2. split; [|done].
  rewrite fmap_cons. cbn [runCommits]. unfold m_bind. by rewrite H1.
Qed.

(** Everything that was accepted is committed, so nothing stays pending. *)
Definition clear_id effs := existsb (fun e => match e with EffIdentity _ => true | _ => false end) effs.
Definition clear_ev effs := existsb (fun e => match e with EffEvent _ => true | _ => false end) effs.
Definition clear_pol effs := existsb (fun e => match e with EffPolicy _ => true | _ => false end) effs.

Lemma fold_settle effs pd : fold_left settle effs pd =
  mkPending (if clear_id effs then IdentityApp.defaultTxState else pd_id pd)
            (if clear_ev effs then EventsApp.defaultTxState else pd_ev pd)
            (if clear_pol effs then None else pd_pol pd).
Proof.
  revert pd. induction effs as [|e effs IH]; intros pd; [by destruct pd|].
  cbn [fold_left]. rewrite IH. unfold clear_id, clear_ev, clear_pol. cbn [existsb].
  destruct e; cbn; by repeat case_match.
Qed.

Lemma fold_pend effs pd :
  (clear_id effs = false -> pd_id (fold_left (fun pd e => pend e pd) effs pd) = pd_id pd) /\
  (clear_ev effs = false -> pd_ev (fold_left (fun pd e => pend e pd) effs pd) = pd_ev pd) /\
  (clear_pol effs = false -> pd_pol (fold_left (fun pd e => pend e pd) effs pd) = pd_pol pd).
Proof.
  revert pd. induction effs as [|e effs IH]; intros pd; [done|]. cbn [fold_left].
  destruct (IH (pend e pd)) as (H1 & H2 & H3). unfold clear_id, clear_ev, clear_pol in *.
  destruct e; cbn in *; split_and!; auto; done.
Qed.

Lemma settle_all effs :
  fold_left settle effs (fold_left (fun pd e => pend e pd) effs no_pending) = no_pending.
Proof.
  rewrite fold_settle. destruct (fold_pend effs no_pending) as (H1 & H2 & H3). unfold no_pending at 4.
  f_equal.
  - destruct (clear_id effs); [done|by rewrite H1].
  - destruct (clear_ev effs); [done|by rewrite H2].
  - destruct (clear_pol effs); [done|by rewrite H3].
Qed.

(** ** The node at rest, and a whole block *)

Record at_rest m (s : ChainState) : Prop := {
  ar_apps : apps m = node_apps;
  ar_world : in_block (world m) s no_pending;
  ar_state : state_ok (state m)
}.

(** What the consensus engine guarantees of a block. *)
Definition block_ok (req : RequestFinalizeBlock) : Prop :=
  time_ok (fb_Time req) /\ in_u 63 (fb_Height req).

(** What a finished block leaves: the codes and the new state are those of the
    abstract chain, and the state on disk is the one in memory. *)
Definition block_done m (s : ChainState) (req : RequestFinalizeBlock) m1 (r : ResponseFinalizeBlock) : Prop :=
  exists m2 h effs, Commit m1 = (m2, Ok h) /\
    block_run s req no_pending (fb_Txs req) (tx_Code <$> TxResults r) effs /\
    at_rest m2 (fold_left apply_effect effs s) /\ Height (state m2) = fb_Height req /\
    stored (s_db (state m2)) (state m2) /\ fb_AppHash r = GenerateAppHash (state m2).

Lemma commit_block m s req m' rs :
  state_ok (state m) -> block_ok req -> apps m = node_apps ->
  txs_outcome s req no_pending (fb_Txs req) (set_commitFuncs [] m) m' rs ->
  block_done m s req (set_state (set_height (fb_Height req) (state m')) m')
    (mkResponseFinalizeBlock rs (concat (punish (validators m) <$> fb_Misbehavior req))
       (GenerateAppHash (set_height (fb_Height req) (state m')))).
Proof.
  intros Hs [Ht Hh] Ha (effs & [Hfa Hfr Hfs] & Hrun & Hb & Hcf). cbn in Hcf.
  destruct (runCommits_spec effs (world m') s _ Hb (block_run_ok _ _ _ _ _ _ Ht Hrun)) as (w' & Hcm & Hb').
  rewrite settle_all in Hb'. set (st := set_height (fb_Height req) (state m')).
  assert (Hst : state_ok st).
  { destruct (Hfs Hs) as (H1 & _ & H3). split_and!; [done| |done]. unfold in_s. unfold in_u in Hh. cbn in *. lia. }
  destruct (saveState_spec st Hst) as (d & Hsv & Hd).
  eexists (set_state (set_db d st) (set_world w' (set_state st m'))), _, effs.
  split_and!; [|exact Hrun| |done|done|done].
  - unfold Commit, m_bind, m_lift, m_zoom. cbn [commitFuncs set_state world]. rewrite Hcf, Hcm.
    cbn [state set_world set_state]. rewrite Hsv. reflexivity.
  - split; cbn; [by rewrite Hfa|done|]. by destruct Hst as (? & ? & ?).
Qed.

Lemma block_refines_lemma m s req :
  at_rest m s -> block_ok req ->
  match FinalizeBlock req m with
  | (m1, Ok r) => block_done m s req m1 r /\ Forall (fun tx => ~ tx_crashes s tx) (fb_Txs req)
  | (_, Panic _) => Exists (tx_crashes s) (fb_Txs req)
  | (_, Err _) => False
  end.
Proof.
  intros [Ha Hw Hs] Hok. pose proof (runTxs_run s req (fb_Txs req) no_pending (set_commitFuncs [] m) Ha Hw (proj1 Hok)) as Hr.
  unfold FinalizeBlock, m_bind, m_modify, m_lift.
  destruct (runTxs req (fb_Txs req) (set_commitFuncs [] m)) as [m' [rs|e|w]]; [|done|done].
  destruct Hr as [Hout Hnc]. split; [|done]. by apply commit_block.
Qed.

(** C1. Executing a block on a node that represents an abstract chain either
    crashes, exactly when a transaction is signed by a principal whose
    registered key has the wrong size, or it can be committed, and the codes of
    the transactions, the resulting node and its persisted state are those of
    the abstract chain after the block. *)
Theorem block_refines m s req :
  at_rest m s -> block_ok req ->
  match FinalizeBlock req m with
  | (m1, Ok r) => block_done m s req m1 r /\ Forall (fun tx => ~ tx_crashes s tx) (fb_Txs req)
  | (_, Panic _) => Exists (tx_crashes s) (fb_Txs req)
  | (_, Err _) => False
  end.
Proof. apply block_refines_lemma. Qed.

(** ** Runs *)

Inductive node_run : MultiplexedApplication (W := World) -> list RequestFinalizeBlock ->
    MultiplexedApplication (W := World) -> Prop :=
| node_nil m : node_run m [] m
| node_block m req m1 r m2 h reqs m3 :
    FinalizeBlock req m = (m1, Ok r) -> Commit m1 = (m2, Ok h) -> node_run m2 reqs m3 ->
    node_run m (req :: reqs) m3.

Inductive chain_run : ChainState -> list RequestFinalizeBlock -> ChainState -> Prop :=
| chain_nil s : chain_run s [] s
| chain_block s req codes effs reqs s' :
    block_run s req no_pending (fb_Txs req) codes effs ->
    chain_run (fold_left apply_effect effs s) reqs s' ->
    chain_run s (req :: reqs) s'.

Lemma node_run_refines m s reqs m' :
  at_rest m s -> Forall block_ok reqs -> node_run m reqs m' ->
  exists s', at_rest m' s' /\ chain_run s reqs s'.
Proof.
  intros Hr Hok Hrun. revert s Hr Hok. induction Hrun as [m|m req m1 r m2 h reqs m3 Hf Hc _ IH]; intros s Hr Hok.
  { exists s. split; [done|constructor]. }
  apply Forall_cons_1 in Hok as [Hb Hbs].
  pose proof (block_refines_lemma m s req Hr Hb) as H. rewrite Hf in H.
  destruct H as [(m2' & h' & effs & Hc' & Hrun & Hr' & _) _].
  rewrite Hc in Hc'. injection Hc' as <- <-.
  destruct (IH _ Hr' Hbs) as (s' & Hs' & Hch). exists s'. split; [done|]. by eapply chain_block.
Qed.

(** ** Invariants of the chain *)

(** Every identity that appears in a block comes from an accepted request. *)
Lemma block_identity_origin s req pd txs codes effs s' p d :
  block_run s req pd txs codes effs ->
  IdentityApp.ids (c_ids (fold_left apply_effect effs s')) !! p = Some d ->
  IdentityApp.ids (c_ids s') !! p = Some d \/
  exists tx pd' c, tx ∈ txs /\ accepted_tx s req pd' tx (EffIdentity c) /\
    IdentityApp.ch_principal c = p /\ IdentityApp.ch_data c = d.
Proof.
  intros Hrun. revert s'. induction Hrun as [|pd tx txs codes e effs Ha _ IH|pd tx txs code codes effs _ _ _ IH];
    intros s' Hd; [by left| |].
  - cbn [fold_left] in Hd. destruct (IH _ Hd) as [Hd'|(tx' & pd' & c & Hin & Hrest)];
      [|right; exists tx', pd', c; split; [by apply list_elem_of_further|done]].
    destruct e as [c|ev|pol]; cbn in Hd'; [|by left|by left].
    assert (Hcase : (IdentityApp.ch_principal c = p /\ IdentityApp.ch_data c = d) \/
                    IdentityApp.ids (c_ids s') !! p = Some d).
    { destruct c as [q dd|q dd]; cbn in *;
        (apply lookup_insert_Some in Hd' as [[-> ->]|[_ ?]]; [by left|by right]). }
    destruct Hcase as [[Hp Hdd]|]; [right|by left]. exists tx, pd, c. split; [apply list_elem_of_here|done].
  - destruct (IH _ Hd) as [|(tx' & pd' & c & Hin & Hrest)]; [by left|right].
    exists tx', pd', c. split; [by apply list_elem_of_further|done].
Qed.

Definition chain_wf (s : ChainState) : Prop := IdentityApp.id_wf (c_ids s).

(** The identities and the policy of a state are kept by a block. *)
Definition extends (s s' : ChainState) : Prop :=
  IdentityApp.ids (c_ids s) ⊆ IdentityApp.ids (c_ids s') /\
  (IdentityApp.is_seeded (c_ids s) = true -> IdentityApp.is_seeded (c_ids s') = true) /\
  (forall p, c_pol s = Some p -> c_pol s' = Some p).

Lemma extends_refl s : extends s s.
Proof. split; [done|auto]. Qed.

Lemma extends_trans s1 s2 s3 : extends s1 s2 -> extends s2 s3 -> extends s1 s3.
Proof. intros (? & ? & ?) (? & ? & ?). split_and!; [by etransitivity|auto|auto]. Qed.

Lemma effect_extends s req pd tx e s' :
  chain_wf s -> accepted_tx s req pd tx e -> extends s s' -> chain_wf s' ->
  extends s (apply_effect s' e) /\ chain_wf (apply_effect s' e).
Proof.
  intros Hwf Ha (H1 & H2 & H3) Hwf'. destruct Ha as [data c _ Ha|data ev _ Ha|data pol _ Ha].
  - assert (Hf := IdentityApp.accepted_fresh _ _ _ _ Hwf Ha).
    assert (Hsub : IdentityApp.ids (c_ids s) ⊆ <[IdentityApp.ch_principal c := IdentityApp.ch_data c]> (IdentityApp.ids (c_ids s')))
      by (by apply insert_subseteq_r).
    destruct Ha as [|payload d rd ? ? [Hs _]]; cbn in *.
    + split; [split_and!; [done|done|done]|done].
    + assert (Hseed : IdentityApp.is_seeded (c_ids s) = true).
      { destruct (IdentityApp.is_seeded (c_ids s)) eqn:E; [done|]. rewrite (Hwf E) in Hs. done. }
      split; [split_and!; [done|done|done]|]. intros Hfalse. cbn in Hfalse. rewrite H2 in Hfalse; done.
  - split; [|done]. by split_and!.
  - split; [|done]. split_and!; [done|done|]. intros p Hp. destruct Ha as [? ? ? ? ? ? Hn]. cbn. congruence.
Qed.

Lemma block_extends s req pd txs codes effs s' :
  chain_wf s -> block_run s req pd txs codes effs -> extends s s' -> chain_wf s' ->
  extends s (fold_left apply_effect effs s') /\ chain_wf (fold_left apply_effect effs s').
Proof.
  intros Hwf Hrun. revert s'. induction Hrun as [|pd tx txs codes e effs Ha _ IH|]; intros s' He Hw; auto.
  cbn [fold_left]. destruct (effect_extends s req pd tx e s' Hwf Ha He Hw). by apply IH.
Qed.

Lemma chain_run_extends s reqs s' :
  chain_wf s -> chain_run s reqs s' -> extends s s' /\ chain_wf s'.
Proof.
  intros Hwf Hrun. induction Hrun as [s|s req codes effs reqs s' Hb _ IH]; [by split; [apply extends_refl|]|].
  destruct (block_extends s req no_pending _ _ _ s Hwf Hb (extends_refl s) Hwf) as [He Hw].
  destruct (IH Hw) as [He' Hw']. split; [by eapply extends_trans|done].
Qed.

(** C5. Identities are immutable: once a principal is registered, every later
    block leaves its key and role as they are. *)
Theorem identity_immutable m s reqs m' p d :
  at_rest m s -> chain_wf s -> Forall block_ok reqs -> node_run m reqs m' ->
  IdentityRepo.Get (identities (world m)) p = Ok d ->
  IdentityRepo.Get (identities (world m')) p = Ok d.
Proof.
  intros Hr Hwf Hok Hrun Hg. destruct (node_run_refines m s reqs m' Hr Hok Hrun) as (s' & Hr' & Hch).
  destruct (chain_run_extends s reqs s' Hwf Hch) as [(Hsub & _) _].
  rewrite (IdentityApp.repr_Get _ _ _ (ib_ids _ _ _ (ar_world _ _ Hr))) in Hg.
  rewrite (IdentityApp.repr_Get _ _ _ (ib_ids _ _ _ (ar_world _ _ Hr'))).
  destruct (IdentityApp.ids (c_ids s) !! p) as [d0|] eqn:E; [|done].
  by rewrite (lookup_weaken _ _ _ _ E Hsub).
Qed.

(** C6. The retention policy is set at most once: no later block changes a
    policy that is set. *)
Theorem policy_set_once m s reqs m' p :
  at_rest m s -> chain_wf s -> Forall block_ok reqs -> node_run m reqs m' ->
  RetentionApp.policy (w_pol (world m)) = Some p ->
  RetentionApp.policy (w_pol (world m')) = Some p.
Proof.
  intros Hr Hwf Hok Hrun Hg. destruct (node_run_refines m s reqs m' Hr Hok Hrun) as (s' & Hr' & Hch).
  destruct (chain_run_extends s reqs s' Hwf Hch) as [(_ & _ & Hpol) _].
  rewrite (RetentionApp.ib_policy _ _ _ (ib_pol _ _ _ (ar_world _ _ Hr'))).
  apply Hpol. by rewrite <- (RetentionApp.ib_policy _ _ _ (ib_pol _ _ _ (ar_world _ _ Hr))).
Qed.

(** The transaction asks for exactly this identity, with the authority for it: it
    seeds a chain without identities, or it is a registration with a valid signature
    of an administrator. *)
Definition authorised (s : ChainState) (tx : bytes) (p : Principal) (d : IdentityData) : Prop :=
  exists data payload, Unmarshal tx = Ok (mkMuxedRequest IdentityApp.Name data) /\ Unmarshal data = Ok payload /\
    ((p_Type (sp_Payload payload) = RequestTypeSeed /\ IdentityApp.is_seeded (c_ids s) = false /\
      exists seed, Unmarshal (p_Data (sp_Payload payload)) = Ok seed /\ seed_Principal seed = p /\
        d = mkIdentityData (seed_Key seed) RoleAdmin) \/
     (p_Type (sp_Payload payload) = RequestTypeRegister /\
      (exists admin, IdentityApp.ids (c_ids s) !! sp_Principal payload = Some admin /\ IsAdmin admin = true /\
        Rpc.ValidateSignature payload (PublicKey admin) = Ok true) /\
      exists reg, Unmarshal (p_Data (sp_Payload payload)) = Ok reg /\ reg_Principal reg = p /\
        d = mkIdentityData (reg_Key reg) (reg_Role reg))).

(** C4. A principal appears on the chain in a block, with a key and a role, only
    through a transaction of that block that asks for this principal with this key
    and role, and that either seeds a chain without identities, the role then being
    that of an administrator, or carries a valid signature of a principal that was
    an administrator before the block. *)
Theorem identity_authorised m s req m1 r m2 h p d :
  at_rest m s -> block_ok req ->
  FinalizeBlock req m = (m1, Ok r) -> Commit m1 = (m2, Ok h) ->
  IdentityRepo.Get (identities (world m)) p = Err IdentityRepo.ErrNotFound ->
  IdentityRepo.Get (identities (world m2)) p = Ok d ->
  exists tx, tx ∈ fb_Txs req /\ authorised s tx p d.
Proof.
  intros Hr Hok Hf Hc Hn Hd. pose proof (block_refines_lemma m s req Hr Hok) as H. rewrite Hf in H.
  destruct H as [(m2' & h' & effs & Hc' & Hrun & Hr' & _) _]. rewrite Hc in Hc'. injection Hc' as <- <-.
  rewrite (IdentityApp.repr_Get _ _ _ (ib_ids _ _ _ (ar_world _ _ Hr))) in Hn.
  rewrite (IdentityApp.repr_Get _ _ _ (ib_ids _ _ _ (ar_world _ _ Hr'))) in Hd.
  destruct (IdentityApp.ids (c_ids (fold_left apply_effect effs s)) !! p) as [d'|] eqn:E; [|done].
  injection Hd as ->.
  destruct (block_identity_origin _ _ _ _ _ _ _ _ _ Hrun E) as [Hs|(tx & pd & c & Hin & Ha & Hp & Hdc)];
    [by rewrite Hs in Hn|].
  exists tx. split; [done|]. inversion Ha as [data c' Hu Hacc| |]; subst.
  destruct Hacc as [payload sd Hu' Hty Hsd Hs _|payload rq rd Hu' Hty [Hg Hv] Had Hrd _ _]; exists data, payload.
  - split_and!; [done|done|]. left. split_and!; [done|done|]. by exists sd.
  - split_and!; [done|done|]. right. split_and!; [done|by exists rq|by exists rd].
Qed.

End Refinement.

End Chain.
