(* ===== verification/ChainHistory.v ===== *)
(** * The history of the chain

    Events are never lost or replaced, policies are well formed and set by
    administrators, a node that restarts resumes where it stopped, and a fresh
    node starts from the empty chain. *)

From S2P Require Import Prelude Types Text Sha256 Duration Policy Platform Abci MerkleProof Rpc IdentityApp EventsApp RetentionApp Multiplexer Chain.

Module ChainHistory.
Import MuxState Multiplexer Chain.

Section History.
Context `{L : PlatformLaws}.
Implicit Types m : MultiplexedApplication (W := World).

(** ** Events *)

(** What was fed to the digest for an event recorded at a height. *)
Definition preimage_of (e : EventWithMetadata) (height : Z) (a : bytes) : Prop :=
  exists eb, Marshal (se_Event (em_ScrubbedEvent e)) = Ok eb /\
    a = EventHash.event_preimage height (md_Principal (em_Metadata e)) eb.

(** Every recorded event is stored under its own digest, at a height not above
    [h]. *)
Definition events_wf (h : Z) (s : ChainState) : Prop :=
  forall id e, c_evs s !! id = Some e ->
    exists h' a, 0 <= h' <= h /\ preimage_of e h' a /\ id = Sha256.Sum256 a.

(** What the digest is fed for the creations among the transactions of a block,
    accepted or not. *)
Definition creation_in (req : RequestFinalizeBlock) (b : bytes) : Prop :=
  exists tx data payload request eb, tx ∈ fb_Txs req /\ Unmarshal tx = Ok (mkMuxedRequest EventsApp.Name data) /\
    Unmarshal data = Ok payload /\ Unmarshal (p_Data (sp_Payload payload)) = Ok request /\
    Marshal (se_Event (cr_Event request)) = Ok eb /\
    b = EventHash.event_preimage (fb_Height req) (sp_Principal payload) eb.

(** No creation of the blocks collides with a recorded event: the inputs that are
    compared are those of this event and of these transactions. *)
Definition collision_free (h : Z) (reqs : list RequestFinalizeBlock) (e : EventWithMetadata) : Prop :=
  forall h' a req b, 0 <= h' <= h -> preimage_of e h' a -> req ∈ reqs -> creation_in req b ->
    Sha256.Sum256 a = Sha256.Sum256 b -> a = b.

(** Block heights grow. *)
Fixpoint increasing (h : Z) (reqs : list RequestFinalizeBlock) : Prop :=
  match reqs with
  | [] => True
  | req :: reqs => h < fb_Height req /\ increasing (fb_Height req) reqs
  end.

Definition new_event (s : ChainState) (req : RequestFinalizeBlock) (e : EventWithMetadata) : Prop :=
  exists tx pd, tx ∈ fb_Txs req /\ accepted_tx s req pd tx (EffEvent e).

Lemma block_event_lookup s req pd txs codes effs s' id :
  (forall tx, tx ∈ txs -> tx ∈ fb_Txs req) ->
  block_run s req pd txs codes effs ->
  c_evs (fold_left apply_effect effs s') !! id = c_evs s' !! id \/
  exists e, new_event s req e /\ EventId (em_Metadata e) = id /\
    c_evs (fold_left apply_effect effs s') !! id = Some e.
Proof.
  intros Hin Hrun. revert s' Hin.
  induction Hrun as [|pd tx txs codes e effs Ha _ IH|pd tx txs code codes effs _ _ _ IH]; intros s' Hin; [by left| |].
  - cbn [fold_left]. assert (Hin' : forall t, t ∈ txs -> t ∈ fb_Txs req) by (intros; by apply Hin, list_elem_of_further).
    destruct (IH (apply_effect s' e) Hin') as [-> |]; [|by right].
    destruct e as [c|ev|pol]; cbn; [by left| |by left]. unfold EventsApp.apply_event.
    destruct (decide (EventId (em_Metadata ev) = id)) as [<-|]; [|left; by rewrite lookup_insert_ne].
    right. exists ev. rewrite lookup_insert_eq. split_and!; [|done|done].
    exists tx, pd. split; [apply Hin, list_elem_of_here|done].
  - apply IH. intros. by apply Hin, list_elem_of_further.
Qed.

Lemma new_event_id s req e : block_ok req -> new_event s req e ->
  exists b, creation_in req b /\ preimage_of e (fb_Height req) b /\ EventId (em_Metadata e) = Sha256.Sum256 b.
Proof.
  intros [_ Hh] (tx & pd & Hin & Ha). inversion Ha as [|data e' Hu Hacc|]; subst.
  destruct Hacc as [payload sg rq id Hd _ _ Hq Hid _]. unfold EventHash.NewEventHash in Hid.
  rewrite uwrap_id in Hid by (unfold in_u in *; lia).
  destruct (Marshal _) as [eb| |] eqn:Hm; cbn [res_bind] in Hid; [|discriminate Hid|discriminate Hid].
  injection Hid as <-. exists (EventHash.event_preimage (fb_Height req) (sp_Principal payload) eb). split_and!; [|by exists eb|done].
  exists tx, data, payload, rq, eb. by split_and!.
Qed.

(** A recorded event is not replaced: another one under its identifier would be a
    collision, since their heights differ. *)
Lemma block_keeps_event s req codes effs h id e h' a :
  0 <= h' <= h -> h < fb_Height req -> block_ok req -> preimage_of e h' a -> id = Sha256.Sum256 a ->
  (forall b, creation_in req b -> Sha256.Sum256 a = Sha256.Sum256 b -> a = b) ->
  block_run s req no_pending (fb_Txs req) codes effs ->
  c_evs s !! id = Some e -> c_evs (fold_left apply_effect effs s) !! id = Some e.
Proof.
  intros Hh' Hlt Hok (eb & _ & ->) -> Hcf Hrun He.
  destruct (block_event_lookup s req _ _ _ _ s (Sha256.Sum256 (EventHash.event_preimage h' (md_Principal (em_Metadata e)) eb))
    (fun tx H => H) Hrun) as [->|(e' & Hn & Hid & _)]; [done|].
  destruct (new_event_id s req e' Hok Hn) as (b & Hb & (eb' & _ & Eb) & Hid'). subst b.
  assert (E := Hcf _ Hb ltac:(congruence)). apply EventHash.event_preimage_height in E; destruct Hok as [_ Hr]; unfold in_u in *; lia.
Qed.

(** The identifiers stay digests of the events. *)
Lemma block_events_wf s req codes effs h :
  events_wf h s -> h < fb_Height req -> block_ok req ->
  block_run s req no_pending (fb_Txs req) codes effs -> events_wf (fb_Height req) (fold_left apply_effect effs s).
Proof.
  intros Hwf Hlt Hok Hrun id e He.
  destruct (block_event_lookup s req _ _ _ _ s id (fun tx H => H) Hrun) as [Hsame|(e' & Hn & Heq & Hl)].
  - rewrite Hsame in He. destruct (Hwf _ _ He) as (h' & a & ? & ? & ?). exists h', a. split; [lia|done].
  - rewrite He in Hl. injection Hl as <-. destruct (new_event_id s req e Hok Hn) as (b & _ & Hp & Hid).
    exists (fb_Height req), b. destruct Hok as [_ Hb]. unfold in_u in Hb. split_and!; [lia|lia|done|congruence].
Qed.

Lemma increasing_above h h' reqs : h <= h' -> increasing h' reqs -> increasing h reqs.
Proof. destruct reqs; [done|]. intros ? [? ?]. split; [lia|done]. Qed.

Lemma chain_run_events s reqs s' h id e :
  events_wf h s -> increasing h reqs -> Forall block_ok reqs -> collision_free h reqs e -> chain_run s reqs s' ->
  c_evs s !! id = Some e -> c_evs s' !! id = Some e.
Proof.
  intros Hwf Hinc Hok Hcf Hrun He. destruct (Hwf _ _ He) as (h' & a & Hh & Ha & Hid). clear Hwf.
  induction Hrun as [s|s req codes effs reqs s' Hb _ IH]; [done|].
  apply Forall_cons_1 in Hok as [Hb' Hok]. destruct Hinc as [Hlt Hinc]. apply IH.
  - by eapply increasing_above; [apply Z.lt_le_incl|].
  - done.
  - intros h0 a0 r b0 Hh0 Ha0 Hr. apply (Hcf h0 a0 r b0 Hh0 Ha0). by apply list_elem_of_further.
  - eapply block_keeps_event; try done. intros b0 Hb0. apply (Hcf h' a req b0 Hh Ha); [apply list_elem_of_here|done].
Qed.

Lemma GetByEventId_repr w s pd id : Chain.in_block w s pd ->
  EventsRepo.GetByEventId (EventsApp.Repository (w_ev w)) id =
  match c_evs s !! id with Some e => Ok e | None => Err EventsRepo.ErrNotFound end.
Proof.
  intros Hb. unfold EventsRepo.GetByEventId. rewrite law_Get. cbn [res_bind].
  pose proof (EventsApp.ib_repr _ _ _ (ib_evs _ _ _ Hb) id) as H.
  destruct (c_evs s !! id); [destruct H as (b & -> & Hb')|rewrite H]; done.
Qed.

(** C3. Events are append-only: an event that can be read from the chain is read
    unchanged after any number of further blocks of growing height, whatever
    transactions they hold, unless one of these transactions hits the SHA-256
    digest of the event with another input; resubmitting the event itself does
    not, since the height is part of the input. *)
Theorem events_append_only m s reqs m' h id e :
  at_rest m s -> events_wf h s -> increasing h reqs -> Forall block_ok reqs -> collision_free h reqs e -> node_run m reqs m' ->
  EventsRepo.GetByEventId (EventsApp.Repository (w_ev (world m))) id = Ok e ->
  EventsRepo.GetByEventId (EventsApp.Repository (w_ev (world m'))) id = Ok e.
Proof.
  intros Hr Hwf Hinc Hok Hcf Hrun Hg. destruct (node_run_refines m s reqs m' Hr Hok Hrun) as (s' & Hr' & Hch).
  rewrite (GetByEventId_repr _ _ _ _ (ar_world _ _ Hr)) in Hg.
  rewrite (GetByEventId_repr _ _ _ _ (ar_world _ _ Hr')).
  destruct (c_evs s !! id) as [e0|] eqn:E; [|done]. injection Hg as ->.
  by rewrite (chain_run_events s reqs s' h id e Hwf Hinc Hok Hcf Hch E).
Qed.

(** ** Restarting *)

Lemma load_identity app s : IdentityApp.repr (IdentityApp.Repository app) s ->
  exists app', IdentityApp.NewIdentityApp (IdentityApp.Repository app) = Ok app' /\ IdentityApp.at_rest app' s.
Proof.
  intros [Hc Hr]. unfold IdentityApp.NewIdentityApp.
  destruct (law_Load (IdentityApp.Repository app)) as (t & -> & Hw & Hs & Hv & _). eexists. split; [done|].
  split; cbn; [|done|done]. split; [congruence|]. by rewrite Hw, <- Hc.
Qed.

Lemma load_events app s tx : EventsApp.in_block app s tx ->
  exists app', EventsApp.NewEventsApp (EventsApp.Repository app) = Ok app' /\
    EventsApp.in_block app' s EventsApp.defaultTxState.
Proof.
  intros [Hc Hr _ _]. unfold EventsApp.NewEventsApp.
  destruct (law_Load (EventsApp.Repository app)) as (t & -> & Hw & Hs & Hv & _). eexists. split; [done|].
  split; cbn; [congruence| |done|done]. by rewrite Hw, <- Hc.
Qed.

(** Starting a node on the databases of another one. *)
Definition restart m : result (MultiplexedApplication (W := World)) :=
  newNode (s_db (state m)) (identities (world m)) (EventsApp.Repository (w_ev (world m)))
    (RetentionApp.db (w_pol (world m))).


Definition genesis : ChainState := mkChainState (IdentityApp.mkIdState ∅ false) ∅ None.

Lemma genesis_at_rest db t1 t2 pdb :
  working t1 = ∅ -> saved t1 = ∅ -> working t2 = ∅ -> saved t2 = ∅ ->
  db_contents db = ∅ -> db_contents pdb = ∅ ->
  exists m, newNode db t1 t2 pdb = Ok m /\
    at_rest m genesis /\ Height (state m) = 0.
Proof.
  intros H1 H1' H2 H2' Hd Hp. unfold newNode, IdentityApp.NewIdentityApp, EventsApp.NewEventsApp.
  destruct (law_Load t1) as (t1' & -> & Hw1 & Hs1 & Hv1 & _).
  destruct (law_Load t2) as (t2' & -> & Hw2 & Hs2 & Hv2 & _). cbn [Must res_bind].
  unfold RetentionApp.NewRetentionPolicyApp, RetentionApp.loadPolicy. cbn [RetentionApp.db].
  rewrite law_db_Get, Hp, lookup_empty. cbn [Must res_bind].
  unfold NewApplication, loadState. rewrite law_db_Get, Hd, lookup_empty. cbn.
  eexists. split; [done|]. split; [|done]. split; [done| |].
  - split; cbn; [|done|done| |].
    + split; [congruence|]. rewrite Hw1, H1'. split; [intros p; by rewrite !lookup_empty|].
      rewrite lookup_empty. cbn. by split; [intros []|].
    + split; cbn; [congruence| |done|done]. rewrite Hw2, H2'. intros id. by rewrite !lookup_empty.
    + split; [done|done|]. cbn. by rewrite Hp, lookup_empty.
  - cbn. split_and!; [done|done|apply map_Forall_empty].
Qed.

(** A node started on empty databases represents the empty chain, at height
    zero. *)
Theorem genesis_is_empty db t1 t2 pdb :
  working t1 = ∅ -> saved t1 = ∅ -> working t2 = ∅ -> saved t2 = ∅ ->
  db_contents db = ∅ -> db_contents pdb = ∅ ->
  exists m, newNode db t1 t2 pdb = Ok m /\ at_rest m genesis /\ Height (state m) = 0.
Proof. apply genesis_at_rest. Qed.

End History.

End ChainHistory.
