(* ===== verification/ChainMain.v ===== *)
(** * Starting a node of the chain

    Models [wineventchain/internal/config] and [wineventchain/cmd/app/main.go]:
    where the settings come from, the databases they choose, the applications
    over them, and the CometBFT node around the multiplexer.  CometBFT, the
    databases and the file system are parameters. *)

From S2P Require Import Prelude Types Text JsonText JsonScan JsonCodec Platform Bson JsonTypes Abci IdentityApp EventsApp RetentionApp Multiplexer Chain ChainHistory.

Module ChainMain.
Import JsonText JsonScan JsonCodec JsonTypes MuxState Multiplexer Chain ChainHistory.

(** ** Settings ([types.go], [config.go]) *)

Record Config : Type := mkConfig {
  StateStore_Type : bytes;
  Disk_Directory : bytes;
  Mongo_ConnectionString : bytes;
  Mongo_DatabaseName : bytes
}.

Definition StoreTypeDisk : bytes := bz "disk".
Definition StoreTypeMongoDB : bytes := bz "mongodb".

Definition Default : Config := mkConfig [] [] [] [].

Definition enc_Config : encoder Config := fun c =>
  enc_struct [(bz "state_store", enc_struct
    [(bz "type", enc_string (StateStore_Type c));
     (bz "disk", enc_struct [(bz "directory", enc_string (Disk_Directory c))]);
     (bz "mongodb", enc_struct [(bz "connection_string", enc_string (Mongo_ConnectionString c));
                                (bz "db_name", enc_string (Mongo_DatabaseName c))])])].

(** The nested structs are decoded into the fields that stand for theirs. *)
Definition dec_Config : decoder Config := dec_struct
  [(bz "state_store", dec_struct
    [(bz "type", set_field StateStore_Type (fun x c => mkConfig x (Disk_Directory c) (Mongo_ConnectionString c) (Mongo_DatabaseName c)) dec_string);
     (bz "disk", dec_struct
       [(bz "directory", set_field Disk_Directory (fun x c => mkConfig (StateStore_Type c) x (Mongo_ConnectionString c) (Mongo_DatabaseName c)) dec_string)]);
     (bz "mongodb", dec_struct
       [(bz "connection_string", set_field Mongo_ConnectionString (fun x c => mkConfig (StateStore_Type c) (Disk_Directory c) x (Mongo_DatabaseName c)) dec_string);
        (bz "db_name", set_field Mongo_DatabaseName (fun x c => mkConfig (StateStore_Type c) (Disk_Directory c) (Mongo_ConnectionString c) x) dec_string)])])].

Definition LoadJson (read : result bytes) : result Config :=
  let* data := read in Unmarshal_into dec_Config Default data.

(** [env.Parse]. *)
Definition LoadEnv (parse : result Config) : result Config := parse.

(** *** [json.MarshalIndent] with no prefix and two spaces *)

Definition newline (depth : nat) : bytes := z2b 10 :: concat (replicate depth (bz "  ")).

(** [Indent] of a valid text without white space. *)
Fixpoint indent (src : bytes) (in_string escaped need : bool) (depth : nat) : bytes :=
  match src with
  | [] => []
  | c :: rest =>
      let closes := isc 0x7D c || isc 0x5D c in
      let start := need && negb (closes && negb in_string) in
      let depth := if start then S depth else depth in
      (if start then newline depth else []) ++
      let need := need && negb start in
      if in_string then
        c :: indent rest (escaped || negb (isc 0x22 c)) (negb escaped && isc 0x5C c) need depth
      else if isc 0x7B c || isc 0x5B c then c :: indent rest false false true depth
      else if isc 0x2C c then c :: newline depth ++ indent rest false false need depth
      else if isc 0x3A c then c :: bz " " ++ indent rest false false need depth
      else if closes then
        if need then c :: indent rest false false false depth
        else newline (pred depth) ++ c :: indent rest false false need (pred depth)
      else c :: indent rest (isc 0x22 c) false need depth
  end.

Definition MarshalIndent {A} (enc : encoder A) (a : A) : result bytes :=
  let* b := enc a in Ok (indent b false false false 0).

Fixpoint intersperse {A} (sep : A) (l : list A) : list A :=
  match l with
  | [] => []
  | [a] => [a]
  | a :: l => a :: sep :: intersperse sep l
  end.

(** ** Databases ([newDbGenerator]) *)

Definition ErrNotExist : error := Sentinel (bz "file does not exist").
Definition ErrExist : error := Sentinel (bz "file already exists").

Section Main.
Context `{P : Platform}.

(** The libraries: the file system, LevelDB and MongoDB, the tree of an
    application over its database, and the parts of CometBFT. *)
Record Libraries : Type := mkLibraries {
  UserHomeDir : result bytes;
  ReadFile : bytes -> result bytes;
  WriteFile : bytes -> bytes -> result unit;
  env_Parse : result Config;
  Mkdir : bytes -> result unit;
  NewGoLevelDB : bytes -> bytes -> result DB;         (* name and directory *)
  mongo_Connect : bytes -> result unit;
  NewMongoDB : bytes -> bytes -> DB;                  (* database and collection *)
  tree_of : DB -> Tree;
  comet_ReadInConfig : bytes -> result unit;
  comet_Unmarshal : result unit;
  comet_ValidateBasic : result unit;
  comet_ParseLogLevel : result unit;
  comet_LoadNodeKey : result unit;
  comet_NewNode : result unit;
  comet_Start : result unit
}.

Variable libs : Libraries.

Definition fatal {A} (message : string) : result A := Err (NewError (bz message)).
Definition Fatal {A} (r : result A) (message : string) : result A :=
  match r with Err _ => fatal message | r => r end.

Definition newDbGenerator (conf : Config) : result (bytes -> result DB) :=
  if bool_decide (StateStore_Type conf = StoreTypeDisk) then
    let* _ := match Mkdir libs (Disk_Directory conf) with
              | Err err => if errors_Is err ErrExist then Ok tt else fatal "failed to create state store directory"
              | r => r
              end in
    Ok (fun name => NewGoLevelDB libs name (Disk_Directory conf))
  else if bool_decide (StateStore_Type conf = StoreTypeMongoDB) then
    let* _ := Fatal (mongo_Connect libs (Mongo_ConnectionString conf)) "failed to connect to mongodb" in
    Ok (fun name => Ok (NewMongoDB libs (Mongo_DatabaseName conf) name))
  else fatal "unknown state store type".

(** ** The node *)

(** What is written to the disk when the file of the settings is missing. *)
Definition default_file : result bytes := MarshalIndent enc_Config Default.

Definition loadConfig (configPath : bytes) : result Config :=
  if bool_decide (configPath = []) then
    Fatal (LoadEnv (env_Parse libs)) "failed to load config from environment variables"
  else
    match LoadJson (ReadFile libs configPath) with
    | Err err =>
        if errors_Is err ErrNotExist then
          let* defaultMarshalled := Fatal default_file "failed to marshal default config" in
          let* _ := Fatal (WriteFile libs configPath defaultMarshalled) "failed to write default config file" in
          fatal "created default config file"
        else fatal "failed to load config"
    | r => r
    end.

(** The applications and the multiplexer over the databases. *)
Definition buildApplication (dbGenerator : bytes -> result DB) : result (MultiplexedApplication (W := World)) :=
  let* stateDb := Must (dbGenerator (bz "state")) in
  let* identityDb := Must (dbGenerator (bz "identity")) in
  let* identityApp := Must (IdentityApp.NewIdentityApp (tree_of libs identityDb)) in
  let* eventsDb := Must (dbGenerator (bz "events")) in
  let* eventsApp := Must (EventsApp.NewEventsApp (tree_of libs eventsDb)) in
  let* policyDb := Must (dbGenerator (bz "retentionpolicy")) in
  let* policyApp := Must (RetentionApp.NewRetentionPolicyApp policyDb) in
  NewApplication stateDb (mkWorld identityApp eventsApp policyApp) subApps.

Definition wrap {A} (r : result A) (prefix : string) : result A :=
  match r with Err e => Err (WrapError (bz prefix) e) | r => r end.

(** [newNode] of [main.go]; the validator key is loaded by CometBFT, which ends
    the process if it cannot be. *)
Definition cometNode (configFile : bytes) : result unit :=
  let* _ := wrap (comet_ReadInConfig libs configFile) "failed to read cometbft config file: " in
  let* _ := wrap (comet_Unmarshal libs) "failed to unmarshal cometbft config file: " in
  let* _ := wrap (comet_ValidateBasic libs) "cometbft config is invalid: " in
  let* _ := wrap (comet_ParseLogLevel libs) "failed to parse log level: " in
  let* _ := wrap (comet_LoadNodeKey libs) "failed to load node key: " in
  wrap (comet_NewNode libs) "failed to create new Tendermint node: ".

(** [strings.ReplaceAll(s, old, new)] for an [old] that is not empty. *)
Fixpoint replace_from (fuel : nat) (s old new : bytes) : bytes :=
  match fuel, s with
  | S fuel, c :: rest =>
      if bool_decide (take (length old) s = old) then new ++ replace_from fuel (drop (length old) s) old new
      else c :: replace_from fuel rest old new
  | _, _ => s
  end.
Definition ReplaceAll (s old new : bytes) : bytes := replace_from (length s) s old new.

Definition main (configPath tendermintConfigPath : bytes) : result (MultiplexedApplication (W := World)) :=
  let* homeDir := match UserHomeDir libs with Err e => Panic (Error e) | r => r end in
  let* conf := loadConfig configPath in
  let* dbGenerator := newDbGenerator conf in
  let* app := buildApplication dbGenerator in
  let* _ := Fatal (cometNode (ReplaceAll tendermintConfigPath (bz "$HOME") homeDir)) "failed to create new node" in
  let* _ := Fatal (comet_Start libs) "failed to start CometBFT node" in
  Ok app.

(** *** Properties *)

(** With its databases the process runs the node of [Chain]. *)
Lemma buildApplication_node gen sdb idb edb pdb :
  gen (bz "state") = Ok sdb -> gen (bz "identity") = Ok idb -> gen (bz "events") = Ok edb -> gen (bz "retentionpolicy") = Ok pdb ->
  buildApplication gen = newNode sdb (tree_of libs idb) (tree_of libs edb) pdb.
Proof.
  intros Hs Hi He Hp. unfold buildApplication, newNode. rewrite Hs, Hi. cbn [Must res_bind].
  destruct (Must (IdentityApp.NewIdentityApp _)); cbn [res_bind]; [|done..]. rewrite He. cbn [Must res_bind].
  destruct (Must (EventsApp.NewEventsApp _)); cbn [res_bind]; [|done..]. by rewrite Hp.
Qed.

(** The databases on the disk are named after the applications; the directory
    may be there already. *)
Lemma disk_databases conf : StateStore_Type conf = StoreTypeDisk ->
  Mkdir libs (Disk_Directory conf) = Ok tt \/ Mkdir libs (Disk_Directory conf) = Err ErrExist ->
  newDbGenerator conf = Ok (fun name => NewGoLevelDB libs name (Disk_Directory conf)).
Proof. intros Ht Hm. unfold newDbGenerator. rewrite bool_decide_true by done. by destruct Hm as [->| ->]. Qed.

Lemma unknown_store conf : StateStore_Type conf <> StoreTypeDisk -> StateStore_Type conf <> StoreTypeMongoDB ->
  newDbGenerator conf = fatal "unknown state store type".
Proof. intros Hd Hm. unfold newDbGenerator. by rewrite !bool_decide_false. Qed.

End Main.
Arguments Libraries {P}.

(** ** Start and the chain *)

Section Start.
Context `{L : PlatformLaws}.
Variable libs : Libraries.

(** CometBFT accepts its settings and starts. *)
Definition comet_ok (path : bytes) : Prop :=
  cometNode libs path = Ok tt /\ comet_Start libs = Ok tt.

(** On an empty directory the process comes up with the empty chain: no
    identity, no event, no policy, at height zero, and at rest. *)
Theorem fresh_start conf configPath data home tm :
  UserHomeDir libs = Ok home -> configPath <> [] ->
  ReadFile libs configPath = Ok data -> Unmarshal_into dec_Config Default data = Ok conf ->
  StateStore_Type conf = StoreTypeDisk -> Mkdir libs (Disk_Directory conf) = Ok tt ->
  (forall name, exists d, NewGoLevelDB libs name (Disk_Directory conf) = Ok d /\ db_contents d = ∅ /\
    working (tree_of libs d) = ∅ /\ saved (tree_of libs d) = ∅) ->
  comet_ok (ReplaceAll tm (bz "$HOME") home) ->
  exists m, main libs configPath tm = Ok m /\ at_rest m genesis /\ Height (state m) = 0.
Proof.
  intros Hh Hp Hr Hu Ht Hm Hdb [Hc Hs].
  destruct (Hdb (bz "state")) as (sd & Esd & Hsd & _). destruct (Hdb (bz "identity")) as (id & Eid & _ & Hid1 & Hid2).
  destruct (Hdb (bz "events")) as (ed & Eed & _ & Hed1 & Hed2). destruct (Hdb (bz "retentionpolicy")) as (pd & Epd & Hpd & _).
  destruct (genesis_at_rest sd (tree_of libs id) (tree_of libs ed) pd) as (m & Hn & Hrest & Hh0); [done..|].
  exists m. split; [|done]. unfold main. rewrite Hh. cbn [res_bind].
  unfold loadConfig, LoadJson. rewrite bool_decide_false, Hr by done. cbn [res_bind]. rewrite Hu. cbn [res_bind].
  rewrite (disk_databases libs conf Ht) by (by left). cbn [res_bind].
  rewrite (buildApplication_node libs _ sd id ed pd) by done. rewrite Hn. cbn [res_bind]. by rewrite Hc, Hs.
Qed.

(** Started with the path of a file that is not there, the process writes a file
    of default settings and ends; started again it reads that file and refuses
    it, because no kind of store is set. *)
Theorem default_file_refused configPath home tm :
  UserHomeDir libs = Ok home -> configPath <> [] ->
  exists text, default_file = Ok text /\
    (ReadFile libs configPath = Err ErrNotExist -> WriteFile libs configPath text = Ok tt ->
     main libs configPath tm = fatal "created default config file") /\
    (ReadFile libs configPath = Ok text -> main libs configPath tm = fatal "unknown state store type").
Proof.
  intros Hh Hp. eexists. split; [vm_compute; reflexivity|]. unfold main, loadConfig. rewrite Hh, bool_decide_false by done. cbn [res_bind].
  split.
  - intros Hr Hw. unfold LoadJson. rewrite Hr. cbn [res_bind errors_Is ErrNotExist]. rewrite bool_decide_true by done.
    assert (default_file = Ok _) as -> by (vm_compute; reflexivity). cbn [Fatal res_bind]. by rewrite Hw.
  - intros Hr. unfold LoadJson. rewrite Hr. cbn [res_bind].
    assert (Unmarshal_into dec_Config Default _ = Ok Default) as -> by (vm_compute; reflexivity). cbn [res_bind].
    by rewrite unknown_store.
Qed.

End Start.

(** What is written. *)
Example default_text : default_file = Ok (concat (intersperse [z2b 10]
  ((fun s => (fun b => if bool_decide ([b] = bz "'") then z2b 34 else b) <$> bz s) <$>
    ["{"; "  'state_store': {"; "    'type': '',"; "    'disk': {"; "      'directory': ''"; "    },"; "    'mongodb': {";
     "      'connection_string': '',"; "      'db_name': ''"; "    }"; "  }"; "}"]))).
Proof. vm_compute. reflexivity. Qed.

End ChainMain.
