(* ===== verification/Reference.v ===== *)
(** * A reference platform

    A concrete implementation of every library interface of [Platform]: trees
    and databases as finite maps, a keyed digest in place of Ed25519, an
    injective encoding in place of the Protobuf form of proofs, and the JSON of
    [JsonPlatform].  It satisfies all the laws, so the hypotheses of the
    theorems about the node can hold, and the witnesses evaluate on it. *)

From S2P Require Import Prelude Types Text Sha256 Duration Platform Bson UuidReference JsonTypes JsonPlatform.
Import JsonTypes JsonPlatform.

Module Reference.

(** ** Encoding of proofs *)

Fixpoint pos_bytes (p : positive) : bytes :=
  match p with
  | xH => [z2b 1]
  | xO p => z2b 2 :: pos_bytes p
  | xI p => z2b 3 :: pos_bytes p
  end.

Fixpoint bytes_pos (b : bytes) : option positive :=
  match b with
  | [] => None
  | c :: r =>
      if bool_decide (b2z c = 1) then Some xH
      else if bool_decide (b2z c = 2) then xO <$> bytes_pos r
      else xI <$> bytes_pos r
  end.

Lemma bytes_pos_bytes p : bytes_pos (pos_bytes p) = Some p.
Proof. induction p as [p IH|p IH|]; cbn in *; [by rewrite IH|by rewrite IH|done]. Qed.

(** ** Trees and databases *)

Record RTree : Type := mkRTree {
  rt_working : gmap bytes bytes;
  rt_saved : gmap bytes bytes;
  rt_version : Z
}.

Record RProof : Type := mkRProof {
  rp_value : option bytes;
  rp_root : bytes;
  rp_key : bytes
}.

#[global] Instance RProof_eq_dec : EqDecision RProof.
Proof. solve_decision. Defined.

Definition rt_hash (t : RTree) : bytes :=
  if rt_version t =? 0 then []
  else Sha256.Sum256 (concat ((fun kv => kv.1 ++ kv.2) <$> map_to_list (rt_saved t))).

#[global] Instance ref_tree : TreeOps RTree RProof := {|
  tree_Get t k := Ok (rt_working t !! k);
  tree_Has t k := Ok (bool_decide (is_Some (rt_working t !! k)));
  tree_GetWithIndex t k := Ok (0, rt_working t !! k);
  tree_GetProof t k :=
    if decide (rt_working t = ∅) then Err nil_root_error
    else Ok (mkRProof (rt_working t !! k) (rt_hash t) k);
  tree_Size t := Z.of_nat (size (rt_working t));
  tree_Version t := Z.max 0 (rt_version t);
  tree_VersionExists t v := (1 <=? v) && (v <=? rt_version t);
  tree_Hash t := Ok (rt_hash t);
  tree_Set k v t :=
    (mkRTree (<[k := v]> (rt_working t)) (rt_saved t) (rt_version t),
     Ok (bool_decide (is_Some (rt_working t !! k))));
  tree_SaveVersion t :=
    let t' := mkRTree (rt_working t) (rt_working t) (Z.max 0 (rt_version t) + 1) in
    (t', Ok (rt_hash t', rt_version t'));
  tree_Load t := (mkRTree (rt_saved t) (rt_saved t) (rt_version t), Ok (Z.max 0 (rt_version t)));
  tree_LoadVersion v t :=
    if v =? Z.max 0 (rt_version t) then (mkRTree (rt_saved t) (rt_saved t) (rt_version t), Ok v)
    else (t, Err (NewError (bz "version does not exist")));
  tree_Rollback t := mkRTree (rt_saved t) (rt_saved t) (rt_version t)
|}.

#[global] Instance ref_tree_laws : TreeLaws RTree RProof.
Proof.
  refine {| working := rt_working; saved := rt_saved |}; intros; cbn; try done.
  - by eexists.
  - by rewrite decide_True.
  - rewrite decide_False by done. by eexists.
  - lia.
  - by eexists.
  - eexists _, _. split; [done|]. cbn. done.
  - eexists _, _. split; [done|]. cbn. split_and!; [done|done|lia|done].
  - eexists. split; [done|]. done.
  - rewrite Z.eqb_refl. eexists. split; [done|]. cbn. done.
Defined.

#[global] Instance ref_ics23 : Ics23 RProof := {|
  proof_variant p := match rp_value p with Some v => ProofExist v | None => ProofNonexist end;
  exist_Verify p root key v :=
    bool_decide (rp_root p = root /\ rp_key p = key /\ rp_value p = Some v);
  nonexist_Verify p root key :=
    bool_decide (rp_root p = root /\ rp_key p = key /\ rp_value p = None)
|}.

#[global] Instance ref_db : DbOps (gmap bytes bytes) := {|
  db_Get d k := Ok (d !! k);
  db_Set k v d := (<[k := v]> d, Ok tt)
|}.

#[global] Instance ref_db_laws : DbLaws (gmap bytes bytes).
Proof. refine {| db_contents := id |}; intros; [done|]. by eexists. Defined.

#[global] Instance ref_ed25519 : Ed25519 := {|
  ed_key sk := zlen sk =? PrivateKeySize;
  ed_public sk := Sha256.Sum256 sk;
  ed_sign sk m := Sha256.Sum256 (Sha256.Sum256 sk ++ m);
  ed_verify pk m sig := bool_decide (sig = Sha256.Sum256 (pk ++ m))
|}.

#[global] Instance ref_ed25519_laws : Ed25519Laws.
Proof.
  split; cbn.
  - intros sk Hk. by apply Z.eqb_eq.
  - intros sk _. unfold zlen. by rewrite Sha256.Sum256_length.
  - intros sk m _. by apply bool_decide_true.
Qed.

#[global] Instance RProof_countable : Countable RProof.
Proof.
  apply (inj_countable' (A := option bytes * bytes * bytes) (fun r => (rp_value r, rp_root r, rp_key r))
    (fun '(v, r, k) => mkRProof v r k)). by intros [].
Defined.

#[global] Instance ref_proof_bytes : ProofBytes RProof := {|
  proof_Marshal p := Ok (pos_bytes (encode p));
  proof_Unmarshal b :=
    match bytes_pos b ≫= decode with Some p => Ok p | None => Err (NewError (bz "invalid value")) end
|}.

#[global] Instance ref_proof_bytes_laws : ProofBytesLaws RProof.
Proof.
  split; [|done|].
  - intros p. eexists. split; [done|]. cbn. rewrite bytes_pos_bytes. cbn. by rewrite decode_encode.
  - intros b w. cbn. by destruct (bytes_pos b ≫= decode).
Qed.

(** ** The platform *)

Definition ref_policy_hash (p : option StoredPolicy) : result Z :=
  Ok (match p with None => 0 | Some _ => 1 end).

#[global] Instance platform : Platform := json_platform (T := RTree) (P := RProof) (D := gmap bytes bytes)
  uuid_Nil ref_policy_hash.

#[global] Instance platform_laws : PlatformLaws platform.
Proof.
  apply json_platform_laws.
  - intros t k p h Hc Hp [= <-]. cbn in *. destruct (decide (rt_working t = ∅)); [done|].
    injection Hp as <-. cbn. destruct (rt_working t !! k) as [v|]; by rewrite bool_decide_true.
  - intros p. eexists. split; [done|]. unfold in_u. destruct p; lia.
Defined.

End Reference.
