(* ===== verification/ChainWitness.v ===== *)
(** * The node on the reference platform

    Concrete chains: the theorems about requests, applications and the node,
    applied on the reference platform to an empty chain, to a chain with an
    administrator, an event and a policy, and to blocks on top of them. *)

From S2P Require Import Prelude Types Text Sha256 Duration Policy Platform Abci MerkleProof Rpc IdentityApp EventsApp RetentionApp Multiplexer Chain ChainHistory JsonPlatform Reference.

Module ChainWitness.
Import MuxState Multiplexer Chain ChainHistory Reference.

(** ** An administrator, an event and a policy *)

Definition root_key : bytes := bz "the secret of root" ++ replicate 46 (z2b 7).
Definition root : Principal := bz "root".
Definition root_data : IdentityData := mkIdentityData (ed_public root_key) RoleAdmin.

Definition now : time := mkTime (1700000000 * 10 ^ 9) 0.

Definition some_system : System :=
  mkSystem (mkProvider (Some (bz "Security")) None None) 4624 now 17 None (Some 4) None
    (bz "Security") (bz "HOST-1").

Definition encoded {A} `{Json A} (a : A) : bytes := match Marshal a with Ok b => b | _ => [] end.

Definition some_event : EventWithMetadata :=
  mkEventWithMetadata (mkScrubbedEvent (bz "00ff") (mkEvent some_system))
    (mkMetadata (Sha256.Sum256 (EventHash.event_preimage 3 root (encoded (mkEvent some_system)))) now root).

Definition some_policy : StoredPolicy :=
  mkStoredPolicy (mkRetentionPolicy
    [mkFilter (bz "all") (mkMatch None None None)
       (mkPolicyAction Policy.PolicyTypeTimestamp [] (30 * 24 * Duration.Hour) 0)]) root now.

Definition effects : list effect :=
  [EffIdentity (IdentityApp.AddSeed root root_data); EffEvent some_event; EffPolicy some_policy].

Definition sample : ChainState := fold_left apply_effect effects genesis.

Definition empty_tree : Tree (Platform := platform) := mkRTree ∅ ∅ 0.
Definition empty_db : DB (Platform := platform) := (∅ : gmap bytes bytes).

Lemma now_ok : time_ok now.
Proof. repeat split; vm_compute; congruence. Qed.

Lemma some_event_ok : representable some_event.
Proof. repeat split; vm_compute; congruence || reflexivity. Qed.

Lemma some_policy_ok : representable some_policy.
Proof.
  split; [|split; [reflexivity|exact now_ok]].
  apply List.Forall_cons; [|apply List.Forall_nil]. split.
  - repeat split; vm_compute; congruence || reflexivity.
  - split; [vm_compute; congruence|left; reflexivity].
Qed.

Lemma effects_ok : Forall effect_ok effects.
Proof.
  apply List.Forall_cons; [done|]. apply List.Forall_cons; [exact some_event_ok|].
  apply List.Forall_cons; [exact now_ok|apply List.Forall_nil].
Qed.

(** A node that represents the sample chain, with its state on disk. *)
Lemma sample_node : exists m : MultiplexedApplication (W := World),
  at_rest m sample /\ stored (s_db (state m)) (state m).
Proof.
  destruct (genesis_at_rest empty_db empty_tree empty_tree empty_db) as (m & _ & [Ha Hw Hs] & _); try done.
  destruct (runCommits_spec effects (world m) genesis no_pending Hw effects_ok) as (w & _ & Hb).
  destruct (saveState_spec (state m) Hs) as (d & _ & Hd).
  exists (set_state (set_db d (state m)) (set_world w m)). split; [|done].
  split; cbn; [done|exact Hb|by destruct Hs as (? & ? & ?)].
Qed.

(** The only key of the sample chain has the size of a key. *)
Lemma sample_no_crash tx : ~ tx_crashes sample tx.
Proof.
  assert (Hk : forall payload, ~ IdentityApp.bad_signer (c_ids sample) payload).
  { intros payload (d & sig & Hd & _ & Hl). cbn in Hd.
    apply lookup_insert_Some in Hd as [[_ <-]|[_ Hd]]; [|done].
    apply Hl. cbn. unfold zlen. by rewrite Sha256.Sum256_length. }
  intros (name & data & _ & [[_ (p & _ & _ & Hb)]|[_ (p & _ & Hb)]]); by eapply Hk.
Qed.

Definition block (h : Z) (txs : list bytes) : RequestFinalizeBlock := mkRequestFinalizeBlock txs [] h now.

Lemma block_is_ok h txs : 0 <= h < 2 ^ 63 -> block_ok (block h txs).
Proof. intros Hh. split; [exact now_ok|exact Hh]. Qed.

(** Any block runs on a node without unusable keys. *)
Lemma block_runs m s h txs :
  at_rest m s -> (forall tx, ~ tx_crashes s tx) -> 0 <= h < 2 ^ 63 ->
  exists m1 r m2 rh effs, FinalizeBlock (block h txs) m = (m1, Ok r) /\ Commit m1 = (m2, Ok rh) /\
    block_run s (block h txs) no_pending txs (tx_Code <$> TxResults r) effs /\
    at_rest m2 (fold_left apply_effect effs s).
Proof.
  intros Hr Hn Hh. pose proof (block_refines_lemma m s (block h txs) Hr (block_is_ok h txs Hh)) as H.
  destruct (FinalizeBlock (block h txs) m) as [m1 [r|e|w]]; [|done|].
  - destruct H as [(m2 & rh & effs & Hc & Hrun & Hr2 & _) _]. by exists m1, r, m2, rh, effs.
  - apply List.Exists_exists in H as (tx & _ & Hc). by destruct (Hn tx).
Qed.

Lemma sample_run m txs : at_rest m sample -> exists m', node_run m [block 9 txs] m'.
Proof.
  intros Hr. destruct (block_runs m sample 9 txs Hr sample_no_crash ltac:(lia)) as (m1 & r & m2 & rh & effs & Hf & Hc & _).
  exists m2. eapply node_block; [done|done|constructor].
Qed.

Lemma sample_wf : chain_wf sample.
Proof. done. Qed.

Lemma sample_events_wf : events_wf 3 sample.
Proof.
  intros id e He. cbn in He. apply lookup_insert_Some in He as [[<- <-]|[_ He]]; [|done].
  exists 3, (EventHash.event_preimage 3 root (encoded (mkEvent some_system))). split; [lia|]. split; [|done].
  exists (encoded (mkEvent some_system)). split; [vm_compute; reflexivity|done].
Qed.

(** ** The chain *)

Definition junk : bytes := bz "not a request".

Lemma block_refines_witness : exists m,
  at_rest m sample /\
  match FinalizeBlock (block 9 [junk]) m with
  | (m1, Ok r) => block_done m sample (block 9 [junk]) m1 r /\
                  Forall (fun tx => ~ tx_crashes sample tx) [junk]
  | (_, Panic _) => Exists (tx_crashes sample) [junk]
  | (_, Err _) => False
  end.
Proof.
  destruct sample_node as (m & Hr & _). exists m. split; [exact Hr|].
  apply (block_refines m sample (block 9 [junk]) Hr). apply block_is_ok. lia.
Defined.

Lemma identity_immutable_witness : exists m m',
  node_run m [block 9 [junk]] m' /\
  IdentityRepo.Get (identities (world m)) root = Ok root_data /\
  IdentityRepo.Get (identities (world m')) root = Ok root_data.
Proof.
  destruct sample_node as (m & Hr & _). destruct (sample_run m [junk] Hr) as [m' Hrun].
  assert (Hg : IdentityRepo.Get (identities (world m)) root = Ok root_data).
  { rewrite (IdentityApp.repr_Get _ _ _ (ib_ids _ _ _ (ar_world _ _ Hr))). cbn. by rewrite lookup_insert_eq. }
  exists m, m'. split; [exact Hrun|]. split; [exact Hg|].
  apply (identity_immutable m sample [block 9 [junk]] m' root root_data Hr sample_wf); [|exact Hrun|exact Hg].
  apply List.Forall_cons; [apply block_is_ok; lia|apply List.Forall_nil].
Defined.

Lemma policy_set_once_witness : exists m m',
  node_run m [block 9 [junk]] m' /\
  RetentionApp.policy (w_pol (world m)) = Some some_policy /\
  RetentionApp.policy (w_pol (world m')) = Some some_policy.
Proof.
  destruct sample_node as (m & Hr & _). destruct (sample_run m [junk] Hr) as [m' Hrun].
  assert (Hg : RetentionApp.policy (w_pol (world m)) = Some some_policy).
  { exact (RetentionApp.ib_policy _ _ _ (ib_pol _ _ _ (ar_world _ _ Hr))). }
  exists m, m'. split; [exact Hrun|]. split; [exact Hg|].
  apply (policy_set_once m sample [block 9 [junk]] m' some_policy Hr sample_wf); [|exact Hrun|exact Hg].
  apply List.Forall_cons; [apply block_is_ok; lia|apply List.Forall_nil].
Defined.

(** The administrator submits the event of the sample chain again. *)
Definition resubmission : bytes :=
  match Rpc.b_Marshal (Rpc.b_Signed root root_key (Rpc.b_Data RequestTypeCreate
    (mkCreateRequest (em_ScrubbedEvent some_event) (replicate 16 (z2b 1))) (Rpc.b_App AppNameEvents Rpc.NewBuilder))) with
  | Ok b => b
  | _ => []
  end.

Lemma resubmission_collides_not : collision_free 3 [block 9 [resubmission]] some_event.
Proof.
  intros h' a req b Hh (eb & Heb & ->) Hreq%list_elem_of_singleton (tx & data & payload & rq & eb' & Htx & H1 & H2 & H3 & H4 & Hb) E. subst b.
  subst req. cbn in Htx. apply list_elem_of_singleton in Htx as ->.
  vm_compute in H1. injection H1 as <-. vm_compute in H2. injection H2 as <-. vm_compute in H3. injection H3 as <-.
  vm_compute in H4. injection H4 as <-. vm_compute in Heb. injection Heb as <-. exfalso.
  assert (h' = 0 \/ h' = 1 \/ h' = 2 \/ h' = 3) as Hcase by lia.
  destruct Hcase as [Hz|[Hz|[Hz|Hz]]]; subst h'; vm_compute in E; discriminate E.
Qed.

Lemma events_append_only_witness : exists m m',
  node_run m [block 9 [resubmission]] m' /\
  EventsRepo.GetByEventId (EventsApp.Repository (w_ev (world m'))) (EventId (em_Metadata some_event)) = Ok some_event.
Proof.
  destruct sample_node as (m & Hr & _). destruct (sample_run m [resubmission] Hr) as [m' Hrun].
  exists m, m'. split; [exact Hrun|].
  apply (events_append_only m sample [block 9 [resubmission]] m' 3 _ some_event Hr sample_events_wf);
    [done|apply List.Forall_cons; [apply block_is_ok; lia|apply List.Forall_nil]|exact resubmission_collides_not|exact Hrun|].
  rewrite (GetByEventId_repr _ _ _ _ (ar_world _ _ Hr)). cbn. by rewrite lookup_insert_eq.
Defined.


Lemma genesis_is_empty_witness : exists m,
  newNode empty_db empty_tree empty_tree empty_db = Ok m /\ at_rest m genesis /\ Height (state m) = 0.
Proof. by apply (genesis_is_empty empty_db empty_tree empty_tree empty_db). Defined.

(** ** A seed *)

Definition seed_request : PayloadSeed := mkPayloadSeed root (ed_public root_key).
Definition seed_payload : SignedPayload :=
  mkSignedPayload (mkPayload RequestTypeSeed (encoded seed_request)) [] [].
Definition seed_tx : bytes :=
  encoded (mkMuxedRequest IdentityApp.Name (encoded seed_payload)).

Lemma seed_tx_decodes : Unmarshal seed_tx = Ok (mkMuxedRequest IdentityApp.Name (encoded seed_payload)).
Proof. vm_compute. reflexivity. Qed.
Lemma seed_payload_decodes : Unmarshal (encoded seed_payload) = Ok seed_payload.
Proof. vm_compute. reflexivity. Qed.
Lemma seed_request_decodes : Unmarshal (p_Data (sp_Payload seed_payload)) = Ok seed_request.
Proof. vm_compute. reflexivity. Qed.

Lemma seed_accepted h :
  accepted_tx genesis (block h [seed_tx]) no_pending seed_tx
    (EffIdentity (IdentityApp.AddSeed root root_data)).
Proof.
  apply (accept_identity _ _ _ _ (encoded seed_payload) _ seed_tx_decodes).
  by apply (IdentityApp.accept_seed _ _ _ seed_payload seed_request seed_payload_decodes eq_refl seed_request_decodes).
Qed.

Lemma genesis_no_crash tx : ~ tx_crashes genesis tx.
Proof.
  intros (name & data & _ & [[_ (p & _ & _ & d & sig & Hd & _)]|[_ (p & _ & d & sig & Hd & _)]]); done.
Qed.

Lemma single_effect s req pd tx codes effs :
  block_run s req pd [tx] codes effs ->
  (exists e, accepted_tx s req pd tx e /\ effs = [e]) \/ (forall e, ~ accepted_tx s req pd tx e).
Proof.
  intros Hrun. inversion Hrun as [|? ? ? ? e ? Ha Hrest|? ? ? ? ? ? Hn]; subst; [left|by right].
  inversion Hrest; subst. by exists e.
Qed.

Lemma accepted_identity_inv s req pd tx e data :
  Unmarshal tx = Ok (mkMuxedRequest IdentityApp.Name data) -> accepted_tx s req pd tx e ->
  exists c, e = EffIdentity c /\ IdentityApp.accepted (c_ids s) (pd_id pd) data c.
Proof.
  intros Hu Ha. destruct Ha as [data' c Hu' Hacc|data' ? Hu'|data' ? Hu']; rewrite Hu in Hu';
    [|discriminate Hu'|discriminate Hu']. injection Hu' as <-. by exists c.
Qed.

(** The block with the seed has exactly its effect. *)
Lemma seed_effects h codes effs :
  block_run genesis (block h [seed_tx]) no_pending [seed_tx] codes effs ->
  exists d, IdentityApp.ids (c_ids (fold_left apply_effect effs genesis)) !! root = Some d.
Proof.
  intros Hrun. destruct (single_effect _ _ _ _ _ _ Hrun) as [(e & Ha & ->)|Hn];
    [|by destruct (Hn _ (seed_accepted h))].
  destruct (accepted_identity_inv _ _ _ _ _ _ seed_tx_decodes Ha) as (c & -> & Hacc).
  destruct (IdentityApp.accepted_payload _ _ _ _ seed_payload seed_payload_decodes Hacc)
    as [(_ & _ & _ & sd & Hsd & ->)|[Hty _]]; [|discriminate Hty].
  rewrite seed_request_decodes in Hsd. injection Hsd as <-. exists root_data. cbn [fold_left].
  cbn [apply_effect c_ids IdentityApp.apply_change IdentityApp.ids seed_Principal seed_request].
  by rewrite lookup_insert_eq.
Qed.

Lemma identity_authorised_witness : exists m m1 r m2 h d,
  FinalizeBlock (block 1 [seed_tx]) m = (m1, Ok r) /\ Commit m1 = (m2, Ok h) /\
  IdentityRepo.Get (identities (world m2)) root = Ok d /\
  exists tx, tx ∈ [seed_tx] /\ authorised genesis tx root d.
Proof.
  destruct (genesis_at_rest empty_db empty_tree empty_tree empty_db) as (m & _ & Hr & _); try done.
  destruct (block_runs m genesis 1 [seed_tx] Hr genesis_no_crash ltac:(lia))
    as (m1 & r & m2 & h & effs & Hf & Hc & Hrun & Hr2).
  destruct (seed_effects 1 _ _ Hrun) as [d Hd].
  assert (Hg : IdentityRepo.Get (identities (world m2)) root = Ok d).
  { rewrite (IdentityApp.repr_Get _ _ _ (ib_ids _ _ _ (ar_world _ _ Hr2))). by rewrite Hd. }
  exists m, m1, r, m2, h, d. split_and!; [exact Hf|exact Hc|exact Hg|].
  apply (identity_authorised m genesis (block 1 [seed_tx]) m1 r m2 h root d Hr (block_is_ok 1 _ ltac:(lia)) Hf Hc);
    [|exact Hg].
  by rewrite (IdentityApp.repr_Get _ _ _ (ib_ids _ _ _ (ar_world _ _ Hr))).
Defined.

(** ** Requests, queries, state *)

#[global] Instance register_compact : JsonCompact PayloadRegister := JsonPlatform.compact_PayloadRegister _.

Definition alice : PayloadRegister := mkPayloadRegister (bz "alice") RoleUser (ed_public (replicate 64 (z2b 7))).

Lemma alice_encoded : Marshal alice = Ok (encoded alice).
Proof. vm_compute. reflexivity. Qed.

Lemma signed_request_round_trip_witness : exists tx inner p,
  Rpc.b_Marshal (Rpc.b_App IdentityApp.Name (Rpc.b_Signed root root_key
    (Rpc.b_Data RequestTypeRegister alice Rpc.NewBuilder))) = Ok tx /\
  Unmarshal tx = Ok (mkMuxedRequest IdentityApp.Name inner) /\ Unmarshal inner = Ok p /\
  sp_Payload p = mkPayload RequestTypeRegister (encoded alice) /\ sp_Principal p = root /\
  Rpc.ValidateSignature p (ed_public root_key) = Ok true.
Proof.
  refine (Rpc.signed_request_round_trip RequestTypeRegister alice IdentityApp.Name root root_key (encoded alice)
            _ _ _ _ _ alice_encoded).
  - reflexivity.
  - discriminate.
  - reflexivity.
  - reflexivity.
  - reflexivity.
Defined.

(** A tree with one saved entry. *)
Definition small_tree : Tree (Platform := platform) :=
  mkRTree {[bz "k" := bz "v"]} {[bz "k" := bz "v"]} 1.

Lemma own_proofs_validate_witness : exists op,
  MerkleProof.ProofOpForTree small_tree (bz "absent") = Ok op /\
  MerkleProof.ValidateProofOps (MerkleProof.ProofOps op) = Ok tt.
Proof. by apply (MerkleProof.own_proofs_validate small_tree (bz "absent")). Defined.

Definition query (path : bytes) : RequestQuery := mkRequestQuery [] path 0 true.

(** The trees of the sample node are not empty. *)
Lemma identity_query_spec_witness : exists m r,
  IdentityApp.Query (w_id (world m)) (query (IdentityApp.query_path root)) = Ok r /\
  (if decide (working (identities (world m)) = ∅) then q_Code r = IdentityCode.CodeTreeUninitialized
   else IdentityApp.query_answer (c_ids sample) root r).
Proof.
  destruct sample_node as (m & Hr & _). exists m.
  apply (IdentityApp.identity_query_spec (w_id (world m)) (c_ids sample) root
           (query (IdentityApp.query_path root))); [exact (ib_ids _ _ _ (ar_world _ _ Hr))| |reflexivity].
  intros d Hd. cbn in Hd. rewrite lookup_insert_eq in Hd. by injection Hd as <-.
Defined.

Lemma events_query_spec_witness : exists m r,
  EventsApp.Query (w_ev (world m))
    (query (EventsApp.pathPrefix ++ Hex.EncodeToString (EventId (em_Metadata some_event)))) = Ok r /\
  (if decide (working (EventsApp.Repository (w_ev (world m))) = ∅) then q_Code r = EventsCode.CodeTreeUninitialized
   else EventsApp.query_answer (c_evs sample) (EventId (em_Metadata some_event)) r).
Proof.
  destruct sample_node as (m & Hr & _). exists m.
  apply (EventsApp.events_query_spec (w_ev (world m)) (c_evs sample) EventsApp.defaultTxState
           (EventId (em_Metadata some_event))
           (query (EventsApp.pathPrefix ++ Hex.EncodeToString (EventId (em_Metadata some_event)))));
    [exact (ib_evs _ _ _ (ar_world _ _ Hr))|apply Sha256.Sum256_length| |reflexivity].
  intros e He. cbn in He. rewrite lookup_insert_eq in He. injection He as <-. exact some_event_ok.
Defined.

(** A policy with a period of one and a half seconds. *)
Definition odd_filter : Filter :=
  mkFilter (bz "odd") (mkMatch None None None)
    (mkPolicyAction Policy.PolicyTypeTimestamp [] (Duration.Second + 500 * Duration.Millisecond) 0).
Definition odd_policy : StoredPolicy := mkStoredPolicy (mkRetentionPolicy [odd_filter]) root now.

Lemma odd_policy_committed : exists app, RetentionApp.in_block app (Some odd_policy) None.
Proof.
  destruct (RetentionApp.retention_commit_spec (RetentionApp.mkRetentionPolicyApp empty_db None None) odd_policy now_ok)
    as (app & _ & Hb). by exists app.
Qed.

Lemma unreadable_policy_blocks_restart_witness : exists app,
  RetentionApp.in_block app (Some odd_policy) None /\
  is_ok (RetentionApp.NewRetentionPolicyApp (RetentionApp.db app)) = false.
Proof.
  destruct odd_policy_committed as [app Hb]. exists app. split; [exact Hb|].
  apply (RetentionApp.unreadable_policy_blocks_restart app odd_policy odd_filter Hb).
  - apply List.Forall_cons; [|apply List.Forall_nil]. repeat split; vm_compute; congruence || reflexivity.
  - apply list_elem_of_here.
  - intros [_ [Hw|[Hw|[Hw _]]]]; vm_compute in Hw; discriminate Hw.
Defined.

Definition two_hashes : State (P := platform) :=
  mkState empty_db 0 7 (<[bz "identity" := bz "h1"]> {[bz "events" := bz "h2"]}).

Lemma GenerateAppHash_deterministic_witness :
  GenerateAppHash_from [bz "identity"; bz "events"] two_hashes = GenerateAppHash two_hashes /\
  GenerateAppHash_from [bz "events"; bz "identity"] two_hashes = GenerateAppHash two_hashes.
Proof.
  assert (Hk : Keys (AppHashes two_hashes) ≡ₚ [bz "identity"; bz "events"]).
  { unfold Keys. cbn [AppHashes two_hashes]. rewrite map_to_list_insert by done.
    by rewrite map_to_list_singleton. }
  split; apply (GenerateAppHash_deterministic two_hashes); rewrite Hk; [done|apply perm_swap].
Defined.

Lemma two_hashes_ok : representable (json_of two_hashes).
Proof.
  split; [|split]; [vm_compute; split; congruence..|].
  apply map_Forall_insert_2; [reflexivity|]. by apply map_Forall_singleton.
Qed.

Lemma state_round_trip_witness : exists s',
  saveState two_hashes = (s', Ok tt) /\ loadState (s_db s') = Ok s'.
Proof.
  destruct (saveState_spec two_hashes two_hashes_ok) as (d & Hs & _).
  exists (set_db d two_hashes). split; [exact Hs|].
  apply (state_round_trip two_hashes _ two_hashes_ok Hs).
Defined.

(** CometBFT panics on an unsupported key type. *)
Definition update_validator (key : bytes) (power : Z) (keyType : bytes) : result Validators.ValidatorUpdate :=
  if bool_decide (keyType = bz "ed25519") then Ok (Validators.mkValidatorUpdate key power)
  else Panic (bz "key type not supported").

Lemma validator_tx_panics_witness : exists m : MultiplexedApplication (W := World),
  is_panic (CheckTx update_validator m (bz "val:ed25519!AAAA!10")) = true.
Proof.
  destruct sample_node as (m & _). exists m.
  apply (validator_tx_panics update_validator m (bz "ed25519")
           (z2b 65) (z2b 65) (z2b 65) (z2b 65) [] (bz "10")); [reflexivity|..];
    by apply (bool_decide_unpack _).
Defined.

Lemma misbehaviour_unpunished_witness : exists (m m' : MultiplexedApplication (W := World)) r,
  FinalizeBlock (mkRequestFinalizeBlock [] [mkMisbehavior true (bz "addr") 10] 1 now) m = (m', Ok r) /\
  ValidatorUpdates r = [] /\ validators m' = Validators.NewValidatorMap.
Proof.
  destruct (genesis_at_rest empty_db empty_tree empty_tree empty_db) as (m & Hn & Hr & _); try done.
  assert (Hf : exists m' r, FinalizeBlock (mkRequestFinalizeBlock [] [mkMisbehavior true (bz "addr") 10] 1 now) m = (m', Ok r)).
  { eexists _, _. reflexivity. }
  destruct Hf as (m' & r & Hf). exists m, m', r. split; [exact Hf|].
  unfold newNode in Hn.
  destruct (Must (IdentityApp.NewIdentityApp empty_tree)) as [ia| |]; [|discriminate Hn|discriminate Hn].
  destruct (Must (EventsApp.NewEventsApp empty_tree)) as [ea| |]; [|discriminate Hn|discriminate Hn].
  destruct (Must (RetentionApp.NewRetentionPolicyApp empty_db)) as [pa| |]; [|discriminate Hn|discriminate Hn].
  exact (misbehaviour_unpunished _ _ _ m m' _ r Hn Hf).
Defined.

End ChainWitness.
