(* ===== verification/StateStore.v ===== *)
(** * The state store of the off-chain interface

    Models [offchain-interface/pkg/state]: the LevelDB store that remembers the
    last block seen, the ranges of blocks not yet processed and the events not
    yet received.  LevelDB itself is an interface: an ordered map from byte
    strings to byte strings with transactions. *)

From S2P Require Import Prelude Types.
From Corelib Require Import Init.Byte.

(** ** LevelDB *)

Class LevelDB (D : Type) : Type := {
  ldb_Get : D -> bytes -> result (option bytes); (* [ErrNotFound] is [None] *)
  ldb_Put : bytes -> bytes -> M D unit;
  ldb_Delete : bytes -> M D unit;
  (* the pairs an iterator over [util.BytesPrefix(p)] visits, in order *)
  ldb_Prefix : D -> bytes -> list (bytes * bytes);
  (* opening and committing a transaction *)
  ldb_Open : D -> result unit;
  ldb_Commit : D -> result unit
}.

Definition has_prefix (p k : bytes) : Prop := exists r, k = p ++ r.

Class LevelDBLaws (D : Type) `{LevelDB D} : Type := {
  ldb : D -> gmap bytes bytes;
  law_ldb_Get d k : ldb_Get d k = Ok (ldb d !! k);
  law_ldb_Put d k v : exists d', ldb_Put k v d = (d', Ok tt) /\ ldb d' = <[k := v]> (ldb d);
  law_ldb_Delete d k : exists d', ldb_Delete k d = (d', Ok tt) /\ ldb d' = delete k (ldb d);
  law_ldb_Prefix d p k v : (k, v) ∈ ldb_Prefix d p <-> ldb d !! k = Some v /\ has_prefix p k;
  law_ldb_sorted d p : StronglySorted bytes_le (ldb_Prefix d p).*1;
  law_ldb_NoDup d p : NoDup (ldb_Prefix d p).*1;
  law_ldb_Open d : ldb_Open d = Ok tt;
  law_ldb_Commit d : ldb_Commit d = Ok tt
}.

(** ** Integers and times as bytes *)
Module Codec.

Definition boolToBytes (b : bool) : bytes := if b then [x01] else [x00].
Definition int16ToBytes (i : Z) : bytes := le_encode 2 (uwrap 16 i).
Definition int64ToBytes (i : Z) : bytes := le_encode 8 (uwrap 64 i).
Definition uint64ToBytes (i : Z) : bytes := le_encode 8 i.
Definition bytesToInt16 (b : bytes) : Z := swrap 16 (le_decode (take 2 b)).
Definition bytesToInt (b : bytes) : Z := swrap 64 (le_decode (take 8 b)).

Fixpoint join (parts : list bytes) : bytes :=
  match parts with
  | [] => []
  | b :: rest => b ++ join rest
  end.

(** [time.MarshalBinary]: a version byte, the seconds since year 1 and the
    nanoseconds in big-endian order, and the offset in minutes, minus one for
    UTC.  Version 2 adds the seconds of the offset.  A location at offset zero
    is written as UTC. *)
Definition unixToInternal : Z := 62135596800.
Definition be (n : nat) (z : Z) : bytes := rev (le_encode n z).
Definition be_decode (b : bytes) : Z := le_decode (rev b).

Definition offset_minutes (t : time) : Z := if offset t =? 0 then -1 else Z.quot (offset t) 60.

Definition time_MarshalBinary (t : time) : result bytes :=
  let offsetMin := offset_minutes t in
  let offsetSec := if offset t =? 0 then 0 else Z.rem (offset t) 60 in
  if negb (offset t =? 0) &&
     ((offsetMin <? -32768) || (offsetMin =? -1) || (32767 <? offsetMin)) then
    Err (NewError (bz "Time.MarshalBinary: unexpected zone offset"))
  else
    let version := if offsetSec =? 0 then 1 else 2 in
    Ok ([z2b version] ++ be 8 (uwrap 64 (instant t / 10 ^ 9 + unixToInternal)) ++
        be 4 (instant t mod 10 ^ 9) ++ be 2 (uwrap 16 offsetMin) ++
        (if offsetSec =? 0 then [] else [z2b offsetSec])).

Definition time_UnmarshalBinary (data : bytes) : result time :=
  match data with
  | [] => Err (NewError (bz "Time.UnmarshalBinary: no data"))
  | version :: buf =>
      if negb ((b2z version =? 1) || (b2z version =? 2)) then
        Err (NewError (bz "Time.UnmarshalBinary: unsupported version"))
      else if negb (zlen data =? (if b2z version =? 2 then 16 else 15)) then
        Err (NewError (bz "Time.UnmarshalBinary: invalid length"))
      else
        let sec := swrap 64 (be_decode (take 8 buf)) in
        let nsec := swrap 32 (be_decode (take 4 (drop 8 buf))) in
        let minutes := swrap 16 (be_decode (take 2 (drop 12 buf))) in
        let off := minutes * 60 +
          (if b2z version =? 2 then match drop 14 buf with s :: _ => b2z s | [] => 0 end else 0) in
        Ok (mkTime ((sec - unixToInternal) * 10 ^ 9 + nsec) (if off =? -60 then 0 else off))
  end.

(** *** Round trips *)

Lemma int64_round_trip i : in_s 64 i -> bytesToInt (int64ToBytes i) = i.
Proof.
  intros Hi. unfold bytesToInt, int64ToBytes. rewrite firstn_all2 by (by rewrite length_le_encode).
  rewrite le_decode_encode_u by (apply uwrap_bound; lia). rewrite swrap_uwrap, swrap_id by (done || lia). done.
Qed.

Lemma int16_round_trip i : in_s 16 i -> bytesToInt16 (int16ToBytes i) = i.
Proof.
  intros Hi. unfold bytesToInt16, int16ToBytes. rewrite firstn_all2 by (by rewrite length_le_encode).
  rewrite le_decode_encode_u by (apply uwrap_bound; lia). rewrite swrap_uwrap, swrap_id by (done || lia). done.
Qed.

Lemma be_decode_be n z : in_u (8 * Z.of_nat n) z -> be_decode (be n z) = z.
Proof. intros. unfold be_decode, be. by rewrite rev_involutive, le_decode_encode_u. Qed.

Lemma length_be n z : length (be n z) = n.
Proof. unfold be. by rewrite length_rev, length_le_encode. Qed.

(** The times the encoding can hold: whole-minute offsets, UTC written as such. *)
Definition binary_time (t : time) : Prop :=
  in_s 64 (instant t / 10 ^ 9 + unixToInternal) /\
  offset t mod 60 = 0 /\ - 86400 < offset t < 86400 /\ offset t <> -60.

Lemma time_round_trip t : binary_time t ->
  exists b, time_MarshalBinary t = Ok b /\ length b = 15%nat /\ time_UnmarshalBinary b = Ok t.
Proof.
  intros (Hs & Hm & Hb & Hne). apply Z.mod_divide in Hm as [k Hk]; [|lia].
  assert (Hq : Z.quot (offset t) 60 = k) by (rewrite Hk; by apply Z.quot_mul).
  assert (Hr : Z.rem (offset t) 60 = 0) by (rewrite Hk; by apply Z.rem_mul).
  set (mins := offset_minutes t).
  assert (Hmins : mins = if offset t =? 0 then -1 else k) by (unfold mins, offset_minutes; by rewrite Hq).
  assert (Hmb : in_s 16 mins) by (unfold in_s; rewrite Hmins; destruct (Z.eqb_spec (offset t) 0); lia).
  assert (Hsec0 : (if offset t =? 0 then 0 else Z.rem (offset t) 60) = 0) by (destruct (offset t =? 0); done).
  exists ([z2b 1] ++ be 8 (uwrap 64 (instant t / 10 ^ 9 + unixToInternal)) ++
     be 4 (instant t mod 10 ^ 9) ++ be 2 (uwrap 16 mins)). split_and!.
  - unfold time_MarshalBinary. fold mins. rewrite Hsec0. cbn [Z.eqb]. rewrite app_nil_r.
    destruct (Z.eqb_spec (offset t) 0) as [H0|H0]; cbn [negb andb]; [done|].
    rewrite Hmins. rewrite (proj2 (Z.eqb_neq k (-1))), !(proj2 (Z.ltb_ge _ _)) by lia. done.
  - rewrite !length_app, !length_be. done.
  - unfold time_UnmarshalBinary. cbn [app]. change (b2z (z2b 1)) with 1. cbn [Z.eqb orb negb].
    replace (zlen _) with 15 by (unfold zlen; cbn [length]; rewrite !length_app, !length_be; done).
    cbn [Z.eqb negb].
    rewrite take_app_length' by (by rewrite length_be). rewrite drop_app_length' by (by rewrite length_be).
    rewrite take_app_length' by (by rewrite length_be).
    replace 12%nat with (8 + 4)%nat by done. rewrite <- drop_drop, drop_app_length', drop_app_length' by (by rewrite length_be).
    rewrite firstn_all2 by (by rewrite length_be).
    rewrite !be_decode_be; [|apply uwrap_bound; lia|..|apply uwrap_bound; lia].
    2:{ unfold in_u. pose proof (Z.mod_pos_bound (instant t) (10 ^ 9)). lia. }
    rewrite !swrap_uwrap, (swrap_id 64), (swrap_id 16) by (done || lia).
    rewrite swrap_id; [|lia|unfold in_s; pose proof (Z.mod_pos_bound (instant t) (10 ^ 9)); lia].
    f_equal. destruct t as [ins off]. cbn [instant offset] in *. f_equal.
    + pose proof (Z.div_mod ins (10 ^ 9)). lia.
    + rewrite Hmins. destruct (Z.eqb_spec off 0) as [->|]; [done|].
      change (1 =? 2)%positive with false. cbn iota.
      match goal with |- context [?x =? -60] => destruct (Z.eqb_spec x (-60)); lia end.
Qed.

End Codec.

(** ** Data ([store.go]) *)

Record BlockRange : Type := mkBlockRange {
  Low : Z;  (* inclusive *)
  High : Z  (* exclusive *)
}.

Record BlockRangeWithId : Type := mkBlockRangeWithId {
  br_Range : BlockRange;
  br_Id : bytes
}.

Record MissingEvent : Type := mkMissingEvent {
  me_EventId : bytes;
  me_ReceivedTime : time;
  me_BlockHeight : Z;
  me_LastRetryTime : time;
  me_RetriedUnicast : bool;
  me_RetryCount : Z
}.

Record MissingEventWithKey : Type := mkMissingEventWithKey {
  mk_Event : MissingEvent;
  mk_Id : bytes
}.

(** The zero value of [time.Time]. *)
Definition zeroTime : time := mkTime (- Codec.unixToInternal * 10 ^ 9) 0.

Definition NewBlockRange (low high : Z) : BlockRange := mkBlockRange low high.
Definition NewBlockRangeWithId (r : BlockRange) (id : bytes) : BlockRangeWithId := mkBlockRangeWithId r id.
Definition NewMissingEvent (eventId : bytes) (receivedTime : time) (blockHeight : Z) : MissingEvent :=
  mkMissingEvent eventId receivedTime blockHeight zeroTime false 0.

(** ** The encoding of a missing event *)
Module MissingEventCodec.
Import Codec.

(** Both times that are written are the time of reception. *)
Definition marshalMissingEvent (event : MissingEvent) : result bytes :=
  let* receivedTime := time_MarshalBinary (me_ReceivedTime event) in
  let* lastRetryTime := time_MarshalBinary (me_ReceivedTime event) in
  Ok (join [int16ToBytes (swrap 16 (zlen (me_EventId event))); me_EventId event;
            int16ToBytes (swrap 16 (zlen receivedTime)); receivedTime;
            int64ToBytes (me_BlockHeight event);
            int16ToBytes (swrap 16 (zlen lastRetryTime)); lastRetryTime;
            boolToBytes (me_RetriedUnicast event);
            int64ToBytes (me_RetryCount event)]).

Definition bad_length {A} : result A := Err (NewError (bz "invalid bytes length for missing event")).

Definition unmarshalMissingEvent (data : bytes) : result MissingEvent :=
  if zlen data <? 2 then bad_length
  else
    let* b := slice_cap data [] 0 2 in
    let idLen := bytesToInt16 b in
    let off := 2 in
    if zlen data <? off + idLen + 2 then bad_length
    else
      let* eventId := slice_cap data [] off (off + idLen) in
      let off := off + idLen in
      let* b := slice_cap data [] off (off + 2) in
      let receivedTimeLen := bytesToInt16 b in
      let off := off + 2 in
      if zlen data <? off + receivedTimeLen + 8 + 2 then bad_length
      else
        let* receivedTimeBytes := slice_cap data [] off (off + receivedTimeLen) in
        let off := off + receivedTimeLen in
        let* b := slice_cap data [] off (off + 8) in
        let blockHeight := bytesToInt b in
        let off := off + 8 in
        let* b := slice_cap data [] off (off + 2) in
        let lastRetryTimeLen := bytesToInt16 b in
        let off := off + 2 in
        if zlen data <? off + lastRetryTimeLen + 1 + 8 then bad_length
        else
          let* lastRetryTimeBytes := slice_cap data [] off (off + lastRetryTimeLen) in
          let off := off + lastRetryTimeLen in
          let* c := index data off in
          let retriedUnicast := bool_decide (c = x01) in
          let off := off + 1 in
          let* b := slice_cap data [] off (off + 8) in
          let retryCount := bytesToInt b in
          let* receivedTime := time_UnmarshalBinary receivedTimeBytes in
          let* lastRetryTime := time_UnmarshalBinary lastRetryTimeBytes in
          Ok (mkMissingEvent eventId receivedTime blockHeight lastRetryTime retriedUnicast retryCount).

(** *** What is read back *)

Definition event_fits (e : MissingEvent) : Prop :=
  zlen (me_EventId e) < 2 ^ 15 /\ binary_time (me_ReceivedTime e) /\
  in_s 64 (me_BlockHeight e) /\ in_s 64 (me_RetryCount e).

(** The event as the store returns it. *)
Definition stored_event (e : MissingEvent) : MissingEvent :=
  mkMissingEvent (me_EventId e) (me_ReceivedTime e) (me_BlockHeight e) (me_ReceivedTime e)
    (me_RetriedUnicast e) (me_RetryCount e).

Lemma slice_at {A} (b a c : list A) lo hi data :
  data = a ++ b ++ c -> lo = zlen a -> hi = zlen a + zlen b -> slice_cap data [] lo hi = Ok b.
Proof. intros ->. apply slice_cap_ok. Qed.

(** Read the part [b] of [data] that follows [a]. *)
Ltac read_part b a c data :=
  rewrite (slice_at b a c) by (rewrite ?zlen_app; (unfold data; by rewrite <- ?app_assoc) || lia);
  cbn [res_bind]; cbv zeta;
  repeat match goal with
  | H : bytesToInt16 ?x = _ |- context [bytesToInt16 ?x] => rewrite H
  | H : bytesToInt ?x = _ |- context [bytesToInt ?x] => rewrite H
  end;
  repeat match goal with
  | |- context [zlen data <? ?n] => rewrite (proj2 (Z.ltb_ge (zlen data) n)) by lia
  end.

Lemma flag_byte b : exists c, boolToBytes b = [c] /\ bool_decide (c = x01) = b.
Proof. destruct b; eexists; split; done. Qed.

Lemma marshal_unmarshal e : event_fits e ->
  exists b, marshalMissingEvent e = Ok b /\ unmarshalMissingEvent b = Ok (stored_event e).
Proof.
  intros (Hid & Ht & Hh & Hc). destruct (time_round_trip _ Ht) as (tb & Hm & Hl & Hu).
  assert (Hzl : zlen tb = 15) by (unfold zlen; by rewrite Hl).
  pose proof (zlen_nonneg (me_EventId e)) as Hid0.
  pose (id := me_EventId e). pose (idl := int16ToBytes (zlen id)). pose (tl := int16ToBytes 15).
  pose (bh := int64ToBytes (me_BlockHeight e)). pose (rc := int64ToBytes (me_RetryCount e)).
  destruct (flag_byte (me_RetriedUnicast e)) as (c & Hrb & Hflag).
  pose (data := idl ++ id ++ tl ++ tb ++ bh ++ tl ++ tb ++ [c] ++ rc).
  assert (L1 : zlen idl = 2) by apply zlen_le_encode. assert (L2 : zlen tl = 2) by apply zlen_le_encode.
  assert (L3 : zlen bh = 8) by apply zlen_le_encode. assert (L4 : zlen rc = 8) by apply zlen_le_encode.
  assert (L5 : zlen [c] = 1) by done.
  assert (Hlen : zlen data = 2 + zlen id + 2 + 15 + 8 + 2 + 15 + 1 + 8)
    by (unfold data; rewrite !zlen_app; lia).
  assert (E1 : bytesToInt16 idl = zlen id) by (apply int16_round_trip; unfold in_s; fold id in Hid, Hid0; lia).
  assert (E2 : bytesToInt16 tl = 15) by done.
  assert (E3 := int64_round_trip _ Hh). fold bh in E3. assert (E4 := int64_round_trip _ Hc). fold rc in E4.
  exists data. fold id in Hid, Hid0. split.
  { unfold marshalMissingEvent. rewrite Hm. cbn [res_bind join]. fold id.
    rewrite Hzl, (swrap_id 16 (zlen id)), Hrb, app_nil_r by (unfold in_s; lia). done. }
  unfold unmarshalMissingEvent. rewrite (proj2 (Z.ltb_ge (zlen data) 2)) by lia.
  read_part idl (@nil byte) (id ++ tl ++ tb ++ bh ++ tl ++ tb ++ [c] ++ rc) data.
  read_part id idl (tl ++ tb ++ bh ++ tl ++ tb ++ [c] ++ rc) data.
  read_part tl (idl ++ id) (tb ++ bh ++ tl ++ tb ++ [c] ++ rc) data.
  read_part tb (idl ++ id ++ tl) (bh ++ tl ++ tb ++ [c] ++ rc) data.
  read_part bh (idl ++ id ++ tl ++ tb) (tl ++ tb ++ [c] ++ rc) data.
  read_part tl (idl ++ id ++ tl ++ tb ++ bh) (tb ++ [c] ++ rc) data.
  read_part tb (idl ++ id ++ tl ++ tb ++ bh ++ tl) ([c] ++ rc) data.
  replace (index data _) with (Ok c).
  2:{ symmetry. unfold data. rewrite !app_assoc. rewrite <- (app_assoc _ [c] rc).
      apply index_ok. rewrite !zlen_app. lia. }
  read_part rc (idl ++ id ++ tl ++ tb ++ bh ++ tl ++ tb ++ [c]) (@nil byte) data.
  rewrite Hu, Hflag. done.
Qed.

End MissingEventCodec.

(** ** The store ([leveldbstore.go]) *)
Module LevelDBStore.
Import Codec MissingEventCodec.

Section Store.
Context `{LevelDB D}.

Definition keyLastSeenBlockHeight : bytes := bz "last_seen_block_height".
Definition keyMissingBlocksIdCounter : bytes := bz "id_counter_missing_blocks".
Definition keyPrefixMissingBlocks : bytes := bz "missing_blocks_".
Definition keyMissingEventsIdCounter : bytes := bz "id_counter_missing_events".
Definition keyPrefixMissingEvents : bytes := bz "missing_events_".
Definition keyPrefixMissingEventsIndex : bytes := bz "index_missing_events_".

(** A call that fails, with the error of [fmt.Errorf]. *)
Definition errorf {S A} (m : string) : M S A := m_err (NewError (bz m)).

Definition ldb_get (k : bytes) : M D (option bytes) := m_lift (fun d => ldb_Get d k).

(** Reading the integer panics on a value of fewer than eight bytes. *)
Definition LastSeenBlockHeight : M D (option Z) :=
  do value <- ldb_get keyLastSeenBlockHeight ;;
  m_lift (fun _ => match value with
                   | None => Ok None
                   | Some v => let* _ := index v 7 in Ok (Some (bytesToInt v))
                   end).

Definition SetLastSeenBlockHeight (height : Z) : M D unit :=
  ldb_Put keyLastSeenBlockHeight (int64ToBytes height).

(** The increment of a key: the loop from the last byte, which clears the
    bytes that overflow. *)
Fixpoint next_rev (l : bytes) : bytes :=
  match l with
  | [] => []
  | b :: r => if b2z b =? 255 then x00 :: next_rev r else z2b (b2z b + 1) :: r
  end.

Definition getNextKey (currentKey : bytes) : bytes := rev (next_rev (rev currentKey)).

Definition zeroKey : bytes := repeat x00 16.

(** The transaction works on the database; an error discards its writes. *)
Definition withTransaction {A} (f : M D A) : M D A := fun d =>
  match ldb_Open d with
  | Ok _ =>
      match f d with
      | (d', Ok a) => match ldb_Commit d' with
                      | Ok _ => (d', Ok a)
                      | Err e => (d, Err e)
                      | Panic w => (d, Panic w)
                      end
      | (_, Err e) => (d, Err e)
      | (_, Panic w) => (d, Panic w)
      end
  | Err e => (d, Err e)
  | Panic w => (d, Panic w)
  end.

(** The current value of a counter. *)
Definition readCounter (counterKey : bytes) : M D bytes :=
  do counterBytes <- ldb_get counterKey ;;
  match counterBytes with
  | None => m_ret zeroKey
  | Some c => if negb (zlen c =? 16) then errorf "invalid counter length" else m_ret c
  end.

Definition withIncrementingId (counterKey : bytes) (f : bytes -> M D unit) : M D bytes :=
  withTransaction (
    do current <- readCounter counterKey ;;
    let id := getNextKey current in
    do _ <- ldb_Put counterKey id ;;
    do _ <- f id ;;
    m_ret id).

(** *** Missing blocks *)

Definition encodeRange (r : BlockRange) : bytes := int64ToBytes (Low r) ++ int64ToBytes (High r).

Definition decodeBlock (kv : bytes * bytes) : result BlockRangeWithId :=
  let id := drop (length keyPrefixMissingBlocks) kv.1 in
  if negb (zlen id =? 16) then Err (NewError (bz "invalid key length for missing block range"))
  else if negb (zlen kv.2 =? 16) then Err (NewError (bz "invalid value length for missing block range"))
  else Ok (NewBlockRangeWithId (mkBlockRange (bytesToInt (take 8 kv.2)) (bytesToInt (drop 8 kv.2))) id).

Fixpoint mapM_res {A B} (f : A -> result B) (l : list A) : result (list B) :=
  match l with
  | [] => Ok []
  | a :: l => let* b := f a in let* bs := mapM_res f l in Ok (b :: bs)
  end.

Definition MissingBlocks (d : D) : result (list BlockRangeWithId) :=
  mapM_res decodeBlock (ldb_Prefix d keyPrefixMissingBlocks).

Definition AddMissingBlocks (r : BlockRange) : M D bytes :=
  withIncrementingId keyMissingBlocksIdCounter (fun id =>
    ldb_Put (keyPrefixMissingBlocks ++ id) (encodeRange r)).

Definition UpdateMissingBlockRange (r : BlockRangeWithId) : M D unit :=
  ldb_Put (keyPrefixMissingBlocks ++ br_Id r) (encodeRange (br_Range r)).

Definition RemoveMissingBlockRange (id : bytes) : M D unit :=
  ldb_Delete (keyPrefixMissingBlocks ++ id).

(** *** Missing events *)

(** [it.Seek(key)] followed by [it.Next()]: the position after the first entry
    not below [key]. *)
Fixpoint after_seek (key : bytes) (l : list (bytes * bytes)) : list (bytes * bytes) :=
  match l with
  | [] => []
  | kv :: r => if bytes_leb key kv.1 then r else after_seek key r
  end.

(** The loop: [it.Next()] is tested before the limit. *)
Fixpoint collectEvents (after : option bytes) (limit : Z) (l : list (bytes * bytes))
    (acc : list MissingEventWithKey) : result (list MissingEventWithKey) :=
  match l with
  | [] => Ok acc
  | kv :: r =>
      if zlen acc <? limit then
        let idRaw := drop (length keyPrefixMissingEvents) kv.1 in
        if negb (zlen idRaw =? 16) then Err (NewError (bz "invalid key length for missing event"))
        else if bool_decide (after = Some idRaw) then collectEvents after limit r acc
        else
          let* missingEvent := unmarshalMissingEvent kv.2 in
          collectEvents after limit r (acc ++ [mkMissingEventWithKey missingEvent idRaw])
      else Ok acc
  end.

Definition MissingEvents (after : option bytes) (limit : Z) (d : D) : result (list MissingEventWithKey) :=
  if limit <=? 0 then Err (NewError (bz "limit must be greater than 0"))
  else
    let l := ldb_Prefix d keyPrefixMissingEvents in
    let l := match after with
             | Some a => after_seek (keyPrefixMissingEvents ++ a) l
             | None => l
             end in
    collectEvents after limit l [].

Definition MissingEventCount (d : D) : Z := zlen (ldb_Prefix d keyPrefixMissingEventsIndex).

(** The operations of a batch, in order. *)
Inductive batch_op : Type :=
| BatchPut (k v : bytes)
| BatchDelete (k : bytes).

Fixpoint writeBatch (ops : list batch_op) : M D unit :=
  match ops with
  | [] => m_ret tt
  | BatchPut k v :: r => do _ <- ldb_Put k v ;; writeBatch r
  | BatchDelete k :: r => do _ <- ldb_Delete k ;; writeBatch r
  end.

(** The operations one event adds to the batch; reads go to the transaction,
    which does not see the batch. *)
Definition addEvent (event : MissingEvent) (internalId : bytes) : M D (list batch_op) :=
  let indexKey := keyPrefixMissingEventsIndex ++ me_EventId event in
  do prevInternalId <- ldb_get indexKey ;;
  let ops := [BatchPut indexKey internalId] ++
    match prevInternalId with
    | Some prev => [BatchDelete (keyPrefixMissingEvents ++ prev)]
    | None => []
    end in
  do encoded <- m_lift (fun _ => marshalMissingEvent event) ;;
  m_ret (ops ++ [BatchPut (keyPrefixMissingEvents ++ internalId) encoded]).

Fixpoint addEvents (events : list MissingEvent) (ids : list bytes) : M D (list batch_op) :=
  match events, ids with
  | e :: es, id :: ids =>
      do ops <- addEvent e id ;;
      do rest <- addEvents es ids ;;
      m_ret (ops ++ rest)
  | _, _ => m_ret []
  end.

(** The next [n] keys after [id]. *)
Fixpoint nextKeys (n : nat) (id : bytes) : list bytes :=
  match n with
  | O => []
  | S n => getNextKey id :: nextKeys n (getNextKey id)
  end.

(** [f] is the callback applied to each of the new identifiers; what it adds to the
    batch is written at the end. *)
Definition withIncrementingIdBatch (counterKey : bytes) (n : nat) (f : list bytes -> M D (list batch_op)) : M D (list bytes) :=
  withTransaction (
    do current <- readCounter counterKey ;;
    let ids := nextKeys n current in
    do _ <- ldb_Put counterKey (List.last ids current) ;;
    do ops <- f ids ;;
    do _ <- writeBatch ops ;;
    m_ret ids).

Definition AddMissingEvents (events : list MissingEvent) : M D (list MissingEventWithKey) :=
  do ids <- withIncrementingIdBatch keyMissingEventsIdCounter (length events) (addEvents events) ;;
  m_ret (zip_with mkMissingEventWithKey events ids).

Definition IncrementMissingEventRetryCount (now : time) (eventId : bytes) : M D unit :=
  withTransaction (
    do internalId <- ldb_get (keyPrefixMissingEventsIndex ++ eventId) ;;
    match internalId with
    | None => errorf "error incrementing missing event retry count: event index not found"
    | Some internalId =>
        let key := keyPrefixMissingEvents ++ internalId in
        do value <- ldb_get key ;;
        match value with
        | None => errorf "leveldb: not found"
        | Some value =>
            do e <- m_lift (fun _ => unmarshalMissingEvent value) ;;
            let e := mkMissingEvent (me_EventId e) (me_ReceivedTime e) (me_BlockHeight e) now true
                       (i64 (me_RetryCount e + 1)) in
            do encoded <- m_lift (fun _ => marshalMissingEvent e) ;;
            ldb_Put key encoded
        end
    end).

Definition RemoveMissingEvent (eventId : bytes) : M D unit :=
  withTransaction (
    let indexKey := keyPrefixMissingEventsIndex ++ eventId in
    do internalId <- ldb_get indexKey ;;
    match internalId with
    | None => m_ret tt
    | Some internalId =>
        do _ <- ldb_Delete indexKey ;;
        ldb_Delete (keyPrefixMissingEvents ++ internalId)
    end).

End Store.

End LevelDBStore.
