(* ===== verification/StateStoreFacts.v ===== *)
(** * What the state store guarantees

    Proofs about [StateStore]: identifiers count upwards in the order LevelDB
    sorts keys, the missing blocks and the missing events refine ordered
    queues, and the pages of missing events are the segments of that queue. *)

From S2P Require Import Prelude Types StateStore.
From Corelib Require Import Init.Byte.
Import Codec MissingEventCodec LevelDBStore.

(** ** Identifiers *)

Lemma next_rev_value l :
  le_decode (next_rev l) = (le_decode l + 1) mod 256 ^ zlen l /\ length (next_rev l) = length l.
Proof.
  induction l as [|b l [IH IHl]]; [done|]. cbn [next_rev le_decode].
  pose proof (b2z_bound b) as Hb. pose proof (le_decode_bound l) as Hl. rewrite zlen_cons.
  pose proof (zlen_nonneg l). rewrite Z.pow_add_r, Z.pow_1_r by lia.
  assert (Hp : 0 < 256 ^ zlen l) by (apply Z.pow_pos_nonneg; lia).
  destruct (Z.eqb_spec (b2z b) 255) as [->|Hne]; cbn [le_decode length].
  - split; [|by rewrite IHl]. rewrite IH. change (b2z x00) with 0.
    replace (255 + 256 * le_decode l + 1) with (256 * (le_decode l + 1)) by lia.
    rewrite Z.mul_mod_distr_l by lia. lia.
  - split; [|done]. rewrite b2z_z2b, (Z.mod_small (b2z b + 1)) by lia.
    rewrite Z.mod_small by nia. lia.
Qed.

Lemma zlen_rev {A} (l : list A) : zlen (rev l) = zlen l.
Proof. unfold zlen. by rewrite length_rev. Qed.

Lemma getNextKey_value k : be_decode (getNextKey k) = (be_decode k + 1) mod 256 ^ zlen k.
Proof.
  unfold be_decode, getNextKey. rewrite rev_involutive, (proj1 (next_rev_value _)). by rewrite zlen_rev.
Qed.

Lemma length_getNextKey k : length (getNextKey k) = length k.
Proof. unfold getNextKey. by rewrite length_rev, (proj2 (next_rev_value _)), length_rev. Qed.

Lemma le_decode_app a b : le_decode (a ++ b) = le_decode a + 256 ^ zlen a * le_decode b.
Proof.
  induction a as [|x a IH]; cbn [app le_decode]; [change (zlen []) with 0; lia|].
  rewrite IH, zlen_cons, Z.pow_add_r, Z.pow_1_r by (pose proof (zlen_nonneg a); lia). lia.
Qed.

Lemma be_decode_cons x l : be_decode (x :: l) = b2z x * 256 ^ zlen l + be_decode l.
Proof. unfold be_decode. cbn [rev]. rewrite le_decode_app, zlen_rev. cbn [le_decode]. lia. Qed.

Lemma be_decode_bound l : 0 <= be_decode l < 256 ^ zlen l.
Proof. unfold be_decode. rewrite <- (zlen_rev l). apply le_decode_bound. Qed.

(** LevelDB's order on keys of one length is the order of the numbers. *)
Lemma bytes_le_value a b : length a = length b -> bytes_le a b <-> be_decode a <= be_decode b.
Proof.
  revert b. induction a as [|x a IH]; intros [|y b]; cbn [length]; try done.
  intros [= Hl]. unfold bytes_le. cbn [bytes_leb]. rewrite !be_decode_cons.
  assert (Hz : zlen a = zlen b) by (unfold zlen; lia). rewrite Hz.
  pose proof (be_decode_bound a) as Ba. pose proof (be_decode_bound b) as Bb. rewrite Hz in Ba.
  destruct (Z.ltb_spec (b2z x) (b2z y)); [split; [nia|done]|].
  destruct (Z.eqb_spec (b2z x) (b2z y)) as [->|]; [rewrite (IH b Hl); lia|].
  split; [done|]. nia.
Qed.

Lemma be_decode_inj a b : length a = length b -> be_decode a = be_decode b -> a = b.
Proof.
  intros Hl He. apply (anti_symm bytes_le); apply bytes_le_value; lia.
Qed.

Lemma bytes_le_app p a b : bytes_le (p ++ a) (p ++ b) <-> bytes_le a b.
Proof.
  induction p as [|x p IH]; [done|]. unfold bytes_le in *. cbn [app bytes_leb].
  rewrite Z.ltb_irrefl, Z.eqb_refl. exact IH.
Qed.

(** A counter with room for [n] more values. *)
Definition room (c : bytes) (n : nat) : Prop :=
  length c = 16%nat /\ be_decode c + Z.of_nat n < 256 ^ 16.

Lemma next_room c n : room c (S n) ->
  room (getNextKey c) n /\ be_decode (getNextKey c) = be_decode c + 1.
Proof.
  intros [Hl Hr]. pose proof (be_decode_bound c). assert (zlen c = 16) as Hz by (unfold zlen; lia).
  assert (be_decode (getNextKey c) = be_decode c + 1) as E
    by (rewrite getNextKey_value, Hz, Z.mod_small; lia).
  split; [|done]. split; [by rewrite length_getNextKey|lia].
Qed.

Lemma nextKeys_value n c i k : room c n -> nextKeys n c !! i = Some k ->
  length k = 16%nat /\ be_decode k = be_decode c + Z.of_nat i + 1.
Proof.
  revert c i. induction n as [|n IH]; intros c i Hr; cbn [nextKeys]; [done|].
  apply next_room in Hr as [Hr E]. destruct i as [|i]; cbn.
  - intros [= <-]. split; [apply Hr|lia].
  - intros Hk. apply IH in Hk as [? ->]; [|done]. split; [done|lia].
Qed.

Lemma length_nextKeys n c : length (nextKeys n c) = n.
Proof. revert c. induction n; cbn; auto. Qed.

Lemma last_cons_default {A} (a c : A) l : List.last (a :: l) c = List.last l a.
Proof.
  revert a c. induction l as [|y l IH]; intros a c; [done|].
  change (List.last (y :: l) c = List.last (y :: l) a). by rewrite !IH.
Qed.

Lemma last_nextKeys n c : room c n ->
  length (List.last (nextKeys n c) c) = 16%nat /\ be_decode (List.last (nextKeys n c) c) = be_decode c + Z.of_nat n.
Proof.
  revert c. induction n as [|n IH]; intros c Hr; cbn [nextKeys]; [split; [apply Hr|cbn [List.last]; lia]|].
  apply next_room in Hr as [Hr E]. pose proof (IH _ Hr) as [H1 H2].
  rewrite last_cons_default. split; [done|lia].
Qed.

(** ** Scans

    [l] is what an iterator over the prefix [p] visits in the database [m]. *)

Abbreviation db := (gmap bytes bytes).

Record is_scan (m : db) (p : bytes) (l : list (bytes * bytes)) : Prop := {
  scan_sorted : StronglySorted bytes_le l.*1;
  scan_NoDup : NoDup l.*1;
  scan_elem k v : (k, v) ∈ l <-> m !! k = Some v /\ has_prefix p k
}.

Lemma scan_unique m p l l' : is_scan m p l -> is_scan m p l' -> l = l'.
Proof.
  intros [S1 N1 E1] [S2 N2 E2].
  assert (l ≡ₚ l') as HP.
  { apply NoDup_Permutation; [by apply NoDup_fmap_1 in N1|by apply NoDup_fmap_1 in N2|].
    intros [k v]. by rewrite E1, E2. }
  assert (l.*1 = l'.*1) as Hk
    by (apply (StronglySorted_unique bytes_le); [done..|]; by apply fmap_Permutation).
  apply list_eq. intros i. assert (l.*1 !! i = l'.*1 !! i) as Hi by (by rewrite Hk).
  rewrite !list_lookup_fmap in Hi.
  destruct (l !! i) as [[k v]|] eqn:L, (l' !! i) as [[k' v']|] eqn:L'; try done. cbn in Hi. simplify_eq.
  apply list_elem_of_lookup_2 in L, L'. apply E1 in L as [L _]. apply E2 in L' as [L' _]. congruence.
Qed.

Lemma scan_frame m m' p l :
  (forall k, has_prefix p k -> m' !! k = m !! k) -> is_scan m p l -> is_scan m' p l.
Proof.
  intros Hf [S N E]. split; [done..|]. intros k v. rewrite E. split; intros [H1 H2]; (split; [|done]).
  - by rewrite Hf.
  - by rewrite <- Hf.
Qed.

Lemma StronglySorted_sublist {A} (R : relation A) (l k : list A) :
  sublist l k -> StronglySorted R k -> StronglySorted R l.
Proof.
  induction 1 as [|x l k Hs IH|x l k Hs IH]; intros HR; [done|..];
    apply StronglySorted_inv in HR as [HR HF]; [|auto].
  constructor; [auto|]. apply List.Forall_forall. intros y Hy. rewrite List.Forall_forall in HF. apply HF.
  apply list_elem_of_In. apply list_elem_of_In in Hy. by eapply elem_of_submseteq, sublist_submseteq.
Qed.

Lemma fmap_sublist {A B} (f : A -> B) (l k : list A) : sublist l k -> sublist (f <$> l) (f <$> k).
Proof. induction 1; cbn; by constructor. Qed.

Lemma scan_delete m p l k : is_scan m p l -> is_scan (delete k m) p (filter (fun kv => kv.1 <> k) l).
Proof.
  intros [S N E].
  assert (sublist (filter (fun kv : bytes * bytes => kv.1 <> k) l).*1 l.*1) as Hsub
    by (apply fmap_sublist, sublist_filter).
  split.
  - by eapply StronglySorted_sublist.
  - by eapply sublist_NoDup.
  - intros k' v. rewrite list_elem_of_filter, E, lookup_delete_Some. cbn.
    assert (k' <> k <-> k <> k') by (split; congruence). tauto.
Qed.

Lemma scan_append m p l k v :
  is_scan m p l -> has_prefix p k -> Forall (fun kv => bytes_le kv.1 k /\ kv.1 <> k) l ->
  is_scan (<[k := v]> m) p (l ++ [(k, v)]).
Proof.
  intros [S N E] Hp Hl. rewrite List.Forall_forall in Hl. split.
  - rewrite fmap_app. apply StronglySorted_app. split_and!; [|done|by repeat constructor].
    intros x y [[k1 v1] [-> H1]]%list_elem_of_fmap ->%list_elem_of_singleton.
    by apply Hl, list_elem_of_In.
  - rewrite fmap_app. apply list.NoDup_app. split_and!; [done| |apply NoDup_singleton].
    intros x [[k1 v1] [-> H1]]%list_elem_of_fmap. cbn. intros ->%list_elem_of_singleton.
    apply list_elem_of_In, Hl in H1 as [_ H1]. done.
  - intros k' v'. rewrite elem_of_app, list_elem_of_singleton, E, lookup_insert_Some.
    split; [|intros [[[-> ->]|[? ?]] ?]; auto].
    intros [[H1 H2]|[= -> ->]]; [|auto]. split; [|done]. right. split; [|done]. intros ->.
    destruct (Hl (k', v')) as [_ Hne]; [|done]. apply list_elem_of_In, E. done.
Qed.

Definition set_value (k v : bytes) (kv : bytes * bytes) : bytes * bytes :=
  if decide (kv.1 = k) then (k, v) else kv.

Lemma scan_update m p l k v :
  is_scan m p l -> k ∈ l.*1 -> is_scan (<[k := v]> m) p (set_value k v <$> l).
Proof.
  intros [S N E] Hk.
  assert ((set_value k v <$> l).*1 = l.*1) as Hkeys.
  { rewrite <- list_fmap_compose. apply list_fmap_ext. intros i [k' v'] _. cbn. unfold set_value. cbn.
    by destruct (decide (k' = k)) as [->|]. }
  apply list_elem_of_fmap in Hk as [[k0 v0] [Hk Hin]]. cbn in Hk. subst k0.
  apply E in Hin as [Hm Hp]. split; [by rewrite Hkeys..|].
  intros k' v'. rewrite list_elem_of_fmap, lookup_insert_Some. split.
  - intros [[k1 v1] [Heq Hin]]. unfold set_value in Heq. cbn in Heq.
    apply E in Hin as [? ?]. destruct (decide (k1 = k)) as [->|]; simplify_eq; auto.
  - intros [[[-> ->]|[Hne Hm']] Hp'].
    + exists (k', v0). unfold set_value. cbn. rewrite decide_True by done. split; [done|]. by apply E.
    + exists (k', v'). unfold set_value. cbn. rewrite decide_False by done. split; [done|]. by apply E.
Qed.

Lemma filter_fmap_list {A B} (f : A -> B) (P : B -> Prop) `{!forall x, Decision (P x)} (l : list A) :
  filter P (f <$> l) = f <$> filter (fun x => P (f x)) l.
Proof.
  induction l as [|x l IH]; [done|]. cbn [fmap list_fmap]. rewrite !filter_cons.
  destruct (decide (P (f x))); cbn; rewrite <- IH; done.
Qed.

(** ** The abstract store

    The height of the last block, and two queues with the counter that gives
    their identifiers. *)

Record Store : Type := mkStore {
  s_height : option Z;
  s_blockCounter : bytes;
  s_blocks : list BlockRangeWithId;
  s_eventCounter : bytes;
  s_events : list MissingEventWithKey
}.

Definition block_entry (b : BlockRangeWithId) : bytes * bytes :=
  (keyPrefixMissingBlocks ++ br_Id b, encodeRange (br_Range b)).

Definition event_bytes (e : MissingEvent) : bytes :=
  match marshalMissingEvent e with Ok b => b | _ => [] end.

Definition event_entry (x : MissingEventWithKey) : bytes * bytes :=
  (keyPrefixMissingEvents ++ mk_Id x, event_bytes (mk_Event x)).

Definition event_id (x : MissingEventWithKey) : bytes := me_EventId (mk_Event x).

Definition counter_is (m : db) (key c : bytes) : Prop :=
  (m !! key = Some c \/ m !! key = None /\ c = zeroKey) /\ length c = 16%nat.

Definition issued (c id : bytes) : Prop := length id = 16%nat /\ be_decode id <= be_decode c.

Definition range_fits (r : BlockRange) : Prop := in_s 64 (Low r) /\ in_s 64 (High r).

Record blocks_state (m : db) (c : bytes) (q : list BlockRangeWithId) : Prop := {
  bs_counter : counter_is m keyMissingBlocksIdCounter c;
  bs_scan : is_scan m keyPrefixMissingBlocks (block_entry <$> q);
  bs_wf : Forall (fun b => issued c (br_Id b) /\ range_fits (br_Range b)) q
}.

(** The events of [q] and nothing else are stored, and the index maps the
    identifier of each event to its key. *)
Record events_queue (m : db) (q : list MissingEventWithKey) : Prop := {
  eq_scan : is_scan m keyPrefixMissingEvents (event_entry <$> q);
  eq_index eid iid : m !! (keyPrefixMissingEventsIndex ++ eid) = Some iid <->
    exists x, x ∈ q /\ mk_Id x = iid /\ event_id x = eid;
  eq_wf : Forall (fun x => event_fits (mk_Event x) /\ stored_event (mk_Event x) = mk_Event x /\
                           length (mk_Id x) = 16%nat) q
}.

Record represents (m : db) (s : Store) : Prop := {
  rep_height : m !! keyLastSeenBlockHeight = int64ToBytes <$> s_height s;
  rep_height_fits : forall h, s_height s = Some h -> in_s 64 h;
  rep_blocks : blocks_state m (s_blockCounter s) (s_blocks s);
  rep_counter : counter_is m keyMissingEventsIdCounter (s_eventCounter s);
  rep_events : events_queue m (s_events s);
  rep_issued : Forall (fun x => issued (s_eventCounter s) (mk_Id x)) (s_events s)
}.

(** *** The parts of the store use separate keys *)

Definition block_key (k : bytes) : Prop := k = keyMissingBlocksIdCounter \/ has_prefix keyPrefixMissingBlocks k.
Definition event_key (k : bytes) : Prop :=
  has_prefix keyPrefixMissingEvents k \/ has_prefix keyPrefixMissingEventsIndex k.

Definition agree (P : bytes -> Prop) (m m' : db) : Prop := forall k, P k -> m' !! k = m !! k.

Lemma has_prefix_app p r : has_prefix p (p ++ r).
Proof. by exists r. Qed.

Create HintDb store.
#[export] Hint Resolve has_prefix_app : store.

Lemma blocks_frame m m' c q : agree block_key m m' -> blocks_state m c q -> blocks_state m' c q.
Proof.
  intros Ha [Hc Hs Hw]. split; [|eapply scan_frame; [|done]|done].
  - unfold counter_is. rewrite Ha by (by left). exact Hc.
  - intros k Hk. apply Ha. by right.
Qed.

Lemma events_frame m m' q : agree event_key m m' -> events_queue m q -> events_queue m' q.
Proof.
  intros Ha [Hs Hi Hw]. split; [eapply scan_frame; [|done]| |done].
  - intros k Hk. apply Ha. by left.
  - intros eid iid. rewrite Ha by (right; apply has_prefix_app). apply Hi.
Qed.

(** Keys of different parts differ: their first bytes do. *)
Ltac keys_differ :=
  unfold block_key, event_key, has_prefix in *; intros;
  repeat match goal with
  | Hor : _ \/ _ |- _ => destruct Hor as [Hor|Hor]
  | Hex : exists _, _ |- _ => let r := fresh "r" in destruct Hex as [r Hex]
  end;
  subst; let E := fresh "E" in intros E; cbv in E; discriminate E.

Lemma insert_agree (P : bytes -> Prop) k v m : (forall k', P k' -> k <> k') -> agree P m (<[k := v]> m).
Proof. intros H k' Hk. by rewrite lookup_insert_ne by auto. Qed.

Lemma delete_agree (P : bytes -> Prop) k m : (forall k', P k' -> k <> k') -> agree P m (delete k m).
Proof. intros H k' Hk. by rewrite lookup_delete_ne by auto. Qed.

Lemma agree_trans P m1 m2 m3 : agree P m1 m2 -> agree P m2 m3 -> agree P m1 m3.
Proof. intros H1 H2 k Hk. by rewrite H2, H1. Qed.

Lemma block_key_not_event k : has_prefix keyPrefixMissingBlocks k -> forall k', event_key k' -> k <> k'.
Proof. keys_differ. Qed.

(** *** Runs of the operations *)
Section Runs.
Context `{LevelDBLaws D}.
Implicit Types d : D.

Lemma ldb_get_run k d : ldb_get k d = (d, Ok (ldb d !! k)).
Proof. unfold ldb_get, m_lift. by rewrite law_ldb_Get. Qed.

Lemma withTransaction_ok {A} (f : M D A) d d' a : f d = (d', Ok a) -> withTransaction f d = (d', Ok a).
Proof. intros Hf. unfold withTransaction. by rewrite law_ldb_Open, Hf, law_ldb_Commit. Qed.

(** A transaction that fails leaves the database as it was. *)
Lemma withTransaction_atomic {A} (f : M D A) d :
  is_ok (withTransaction f d).2 = false -> (withTransaction f d).1 = d.
Proof.
  unfold withTransaction. rewrite law_ldb_Open. destruct (f d) as [d' [a|e|w]]; try done.
  by rewrite law_ldb_Commit.
Qed.

Lemma readCounter_run key c d : counter_is (ldb d) key c -> readCounter key d = (d, Ok c).
Proof.
  intros [Hc Hl]. unfold readCounter. rewrite (m_bind_ok _ _ _ _ _ (ldb_get_run _ _)).
  destruct Hc as [->|[-> ->]]; [|done]. assert (zlen c = 16) as -> by (unfold zlen; lia). done.
Qed.

Lemma withIncrementingId_run key c k v d :
  counter_is (ldb d) key c ->
  exists d', withIncrementingId key (fun id => ldb_Put (k id) v) d = (d', Ok (getNextKey c)) /\
    ldb d' = <[k (getNextKey c) := v]> (<[key := getNextKey c]> (ldb d)).
Proof.
  intros Hc. destruct (law_ldb_Put d key (getNextKey c)) as (d1 & E1 & L1).
  destruct (law_ldb_Put d1 (k (getNextKey c)) v) as (d2 & E2 & L2).
  exists d2. split; [|by rewrite L2, L1]. unfold withIncrementingId. apply withTransaction_ok.
  rewrite (m_bind_ok _ _ _ _ _ (readCounter_run _ _ _ Hc)). cbv zeta.
  rewrite (m_bind_ok _ _ _ _ _ E1), (m_bind_ok _ _ _ _ _ E2). done.
Qed.

(** *** The missing blocks *)

Lemma zlen_int64ToBytes i : zlen (int64ToBytes i) = 8.
Proof. apply zlen_le_encode. Qed.

Lemma decode_block_entry b : length (br_Id b) = 16%nat -> range_fits (br_Range b) ->
  decodeBlock (block_entry b) = Ok b.
Proof.
  intros Hl [H1 H2]. unfold decodeBlock, block_entry. cbn [fst snd].
  rewrite drop_app_length. unfold encodeRange. unfold zlen at 1. rewrite Hl. cbn [Z.eqb negb].
  rewrite zlen_app, !zlen_int64ToBytes. cbn [Z.eqb negb].
  rewrite take_app_length', drop_app_length' by (unfold int64ToBytes; by rewrite length_le_encode).
  rewrite !int64_round_trip by done. by destruct b as [[]].
Qed.

Lemma mapM_res_fmap {A B} (f : B -> result A) (g : A -> B) l :
  Forall (fun a => f (g a) = Ok a) l -> mapM_res f (g <$> l) = Ok l.
Proof. induction 1 as [|a l Ha Hl IH]; [done|]. cbn. by rewrite Ha, IH. Qed.

Lemma is_scan_Prefix d p : is_scan (ldb d) p (ldb_Prefix d p).
Proof. split; [apply law_ldb_sorted|apply law_ldb_NoDup|apply law_ldb_Prefix]. Qed.

Lemma MissingBlocks_run d c q : blocks_state (ldb d) c q -> MissingBlocks d = Ok q.
Proof.
  intros [_ Hs Hw]. unfold MissingBlocks. rewrite (scan_unique _ _ _ _ (is_scan_Prefix _ _) Hs).
  apply mapM_res_fmap. eapply List.Forall_impl; [|exact Hw]. intros b [[? ?] ?]. by apply decode_block_entry.
Qed.

Lemma fresh_above p c id : room c 1 -> issued c id ->
  bytes_le (p ++ id) (p ++ getNextKey c) /\ p ++ id <> p ++ getNextKey c.
Proof.
  intros Hr [Hl Hb]. apply next_room in Hr as [[Hl' _] E]. split.
  - apply bytes_le_app, bytes_le_value; lia.
  - intros Heq%app_inv_head. subst id. lia.
Qed.

Lemma issued_next c id : room c 1 -> issued c id -> issued (getNextKey c) id.
Proof. intros Hr [Hl Hb]. apply next_room in Hr as [_ E]. split; [done|lia]. Qed.

Lemma next_issued c : room c 1 -> issued (getNextKey c) (getNextKey c).
Proof. intros Hr. apply next_room in Hr as [[? _] _]. split; [done|lia]. Qed.

Lemma counter_insert m key c : length c = 16%nat -> counter_is (<[key := c]> m) key c.
Proof. intros Hl. split; [|done]. left. apply lookup_insert_eq. Qed.

Lemma blocks_append m c q r :
  blocks_state m c q -> room c 1 -> range_fits r ->
  blocks_state (<[keyPrefixMissingBlocks ++ getNextKey c := encodeRange r]>
    (<[keyMissingBlocksIdCounter := getNextKey c]> m))
    (getNextKey c) (q ++ [NewBlockRangeWithId r (getNextKey c)]).
Proof.
  intros [Hc Hs Hw] Hroom Hr. split.
  - split; [|by rewrite length_getNextKey, (proj1 Hroom)]. left.
    rewrite lookup_insert_ne by keys_differ. apply lookup_insert_eq.
  - rewrite fmap_app. apply scan_append; [|apply has_prefix_app|].
    + eapply scan_frame; [|exact Hs]. intros k Hk. apply lookup_insert_ne. revert Hk. keys_differ.
    + apply Forall_fmap. eapply List.Forall_impl; [|exact Hw]. intros b [Hi _]. by apply fresh_above.
  - apply Forall_app. split; [|constructor; [|done]].
    + eapply List.Forall_impl; [|exact Hw]. intros b [Hi ?]. split; [by apply issued_next|done].
    + split; [by apply next_issued|done].
Qed.

Lemma Forall_filter {A} (P Q : A -> Prop) `{!forall x, Decision (Q x)} (l : list A) :
  Forall P l -> Forall P (filter Q l).
Proof.
  intros Hl. rewrite List.Forall_forall in *. intros x Hx%list_elem_of_In.
  apply list_elem_of_filter in Hx as [_ Hx]. by apply Hl, list_elem_of_In.
Qed.

Lemma app_ne p (a b : bytes) : p ++ a <> p ++ b <-> a <> b.
Proof. split; intros Hne Heq; apply Hne; [by rewrite Heq|by apply app_inv_head in Heq]. Qed.

Definition remove_block (id : bytes) (q : list BlockRangeWithId) : list BlockRangeWithId :=
  filter (fun b => br_Id b <> id) q.

Definition replace_block (new b : BlockRangeWithId) : BlockRangeWithId :=
  if decide (br_Id b = br_Id new) then new else b.

Lemma blocks_remove m c q id :
  blocks_state m c q ->
  blocks_state (delete (keyPrefixMissingBlocks ++ id) m) c (remove_block id q).
Proof.
  intros [[Hc Hl] Hs Hw]. split.
  - split; [|done]. rewrite lookup_delete_ne by keys_differ. done.
  - apply (scan_delete _ _ _ (keyPrefixMissingBlocks ++ id)) in Hs. rewrite filter_fmap_list in Hs.
    unfold remove_block. erewrite filter_iff_list; [exact Hs|]. intros b _. cbn [block_entry fst].
    by rewrite app_ne.
  - by apply Forall_filter.
Qed.

Lemma blocks_update m c q b :
  blocks_state m c q -> br_Id b ∈ br_Id <$> q -> range_fits (br_Range b) ->
  blocks_state (<[keyPrefixMissingBlocks ++ br_Id b := encodeRange (br_Range b)]> m) c (replace_block b <$> q).
Proof.
  intros [[Hc Hl] Hs Hw] [b0 [Hid Hin]]%list_elem_of_fmap Hb. split.
  - split; [|done]. rewrite lookup_insert_ne by keys_differ. done.
  - eapply (scan_update _ _ _ (keyPrefixMissingBlocks ++ br_Id b) (encodeRange (br_Range b))) in Hs.
    + rewrite <- list_fmap_compose in Hs. rewrite <- list_fmap_compose.
      erewrite list_fmap_ext; [exact Hs|]. intros i b' _. cbn [compose]. unfold compose, set_value, replace_block.
      cbn [block_entry fst]. destruct (decide (br_Id b' = br_Id b)) as [E|E].
      * rewrite decide_True by (by rewrite E). done.
      * rewrite decide_False by (by rewrite app_ne). done.
    + rewrite <- list_fmap_compose. apply list_elem_of_fmap. exists b0. split; [|done].
      unfold compose. cbn [block_entry fst]. by rewrite Hid.
  - apply Forall_fmap. rewrite List.Forall_forall in *. intros b' Hb'. specialize (Hw _ Hb') as [Hi Hf].
    unfold compose, replace_block. destruct (decide (br_Id b' = br_Id b)) as [E|]; [|done].
    split; [by rewrite <- E|done].
Qed.

(** *** Writes to one part of the store *)

Definition with_blocks (c : bytes) (q : list BlockRangeWithId) (s : Store) : Store :=
  mkStore (s_height s) c q (s_eventCounter s) (s_events s).

Definition with_events (c : bytes) (q : list MissingEventWithKey) (s : Store) : Store :=
  mkStore (s_height s) (s_blockCounter s) (s_blocks s) c q.

Definition with_height (h : Z) (s : Store) : Store :=
  mkStore (Some h) (s_blockCounter s) (s_blocks s) (s_eventCounter s) (s_events s).

Lemma represents_blocks m m' s c q :
  represents m s -> blocks_state m' c q -> (forall k, ~ block_key k -> m' !! k = m !! k) ->
  represents m' (with_blocks c q s).
Proof.
  intros [Hh Hhf _ Hc He Hi] Hb Hk. split; cbn; [|done|done| |eapply events_frame; [|done]|done].
  - rewrite Hk; [done|]. intros [E|[r E]]; cbv in E; discriminate E.
  - unfold counter_is. rewrite Hk; [done|]. intros [E|[r E]]; cbv in E; discriminate E.
  - intros k Hev. apply Hk. intros Hbk. revert Hev Hbk.
    unfold event_key, block_key, has_prefix. intros [[r ->]|[r ->]] [E|[r' E]]; cbv in E; discriminate E.
Qed.

Lemma represents_events m m' s c q :
  represents m s -> counter_is m' keyMissingEventsIdCounter c -> events_queue m' q ->
  Forall (fun x => issued c (mk_Id x)) q ->
  (forall k, k <> keyMissingEventsIdCounter -> ~ event_key k -> m' !! k = m !! k) ->
  represents m' (with_events c q s).
Proof.
  intros [Hh Hhf Hb _ _ _] Hc He Hi Hk. split; cbn; [|done|eapply blocks_frame; [|done]|done..].
  - rewrite Hk; [done|done|]. intros [[r E]|[r E]]; cbv in E; discriminate E.
  - intros k Hbk. apply Hk; [revert Hbk; keys_differ|]. intros Hev. revert Hev Hbk.
    unfold event_key, block_key, has_prefix. intros [[r ->]|[r ->]] [E|[r' E]]; cbv in E; discriminate E.
Qed.

(** *** The missing events *)

Lemma NoDup_fmap_elem {A B} (f : A -> B) (l : list A) x y :
  NoDup (f <$> l) -> x ∈ l -> y ∈ l -> f x = f y -> x = y.
Proof.
  intros HN [i Hi]%list_elem_of_lookup [j Hj]%list_elem_of_lookup Hf.
  assert (i = j) as ->; [|congruence].
  eapply NoDup_lookup; [exact HN|..]; rewrite list_lookup_fmap; [by rewrite Hi|by rewrite Hj, Hf].
Qed.

Lemma queue_id_inj m q x y : events_queue m q -> x ∈ q -> y ∈ q -> mk_Id x = mk_Id y -> x = y.
Proof.
  intros [[_ HN _] _ _] Hx Hy Hid. rewrite <- list_fmap_compose in HN.
  eapply NoDup_fmap_elem; [exact HN|done..|]. cbn. by rewrite Hid.
Qed.

Lemma queue_indexed m q x : events_queue m q -> x ∈ q ->
  m !! (keyPrefixMissingEventsIndex ++ event_id x) = Some (mk_Id x).
Proof. intros Hq Hx. apply (eq_index _ _ Hq). eauto. Qed.

Definition without (eid : bytes) (q : list MissingEventWithKey) : list MissingEventWithKey :=
  filter (fun x => event_id x <> eid) q.

Lemma elem_of_without eid q x : x ∈ without eid q <-> event_id x <> eid /\ x ∈ q.
Proof. unfold without. by rewrite list_elem_of_filter. Qed.

Lemma filter_all_list {A} (P : A -> Prop) `{!forall x, Decision (P x)} (l : list A) :
  (forall x, x ∈ l -> P x) -> filter P l = l.
Proof.
  induction l as [|x l IH]; [done|]. intros Hl. rewrite filter_cons, decide_True by (apply Hl; constructor).
  f_equal. apply IH. intros y Hy. apply Hl. by constructor.
Qed.

Lemma without_absent m q eid : events_queue m q ->
  m !! (keyPrefixMissingEventsIndex ++ eid) = None -> without eid q = q.
Proof.
  intros Hq Hn. unfold without. apply filter_all_list. intros x Hx Heid. subst eid.
  by rewrite (queue_indexed _ _ _ Hq Hx) in Hn.
Qed.

Lemma events_drop m q eid iid :
  events_queue m q -> m !! (keyPrefixMissingEventsIndex ++ eid) = Some iid ->
  events_queue (delete (keyPrefixMissingEvents ++ iid) (delete (keyPrefixMissingEventsIndex ++ eid) m))
    (without eid q).
Proof.
  intros Hq Hidx. destruct (proj1 (eq_index _ _ Hq _ _) Hidx) as (y & Hy & Hyi & Hye). split.
  - assert (is_scan (delete (keyPrefixMissingEventsIndex ++ eid) m) keyPrefixMissingEvents (event_entry <$> q))
      as Hs by (eapply scan_frame; [|apply Hq]; intros k Hk; apply lookup_delete_ne; revert Hk; keys_differ).
    apply (scan_delete _ _ _ (keyPrefixMissingEvents ++ iid)) in Hs. rewrite filter_fmap_list in Hs.
    unfold without. erewrite filter_iff_list; [exact Hs|]. intros x Hx. cbn [event_entry fst].
    rewrite app_ne. split; intros Hne Heq; apply Hne.
    + rewrite <- Hyi in Heq. by rewrite (queue_id_inj _ _ _ _ Hq Hx Hy Heq).
    + rewrite <- Heq, (queue_indexed _ _ _ Hq Hx) in Hidx. congruence.
  - intros eid' iid'. rewrite lookup_delete_ne by keys_differ.
    rewrite lookup_delete_Some, (eq_index _ _ Hq), app_ne. setoid_rewrite elem_of_without. split.
    + intros (Hne & x & Hx & Hxi & Hxe). exists x. split_and!; [congruence|done..].
    + intros (x & [Hne Hx] & Hxi & Hxe). split; [congruence|eauto].
  - apply Forall_filter, Hq.
Qed.

Lemma stored_event_fits e : event_fits e -> event_fits (stored_event e).
Proof. done. Qed.

Lemma event_bytes_stored e : event_bytes (stored_event e) = event_bytes e.
Proof. done. Qed.

Lemma events_add m q e id :
  events_queue m q -> m !! (keyPrefixMissingEventsIndex ++ me_EventId e) = None ->
  length id = 16%nat -> event_fits e -> Forall (fun x => be_decode (mk_Id x) < be_decode id) q ->
  events_queue (<[keyPrefixMissingEvents ++ id := event_bytes e]>
     (<[keyPrefixMissingEventsIndex ++ me_EventId e := id]> m))
    (q ++ [mkMissingEventWithKey (stored_event e) id]).
Proof.
  intros Hq Hn Hl Hf Hlt. rewrite List.Forall_forall in Hlt.
  pose proof (eq_wf _ _ Hq) as Hw. split.
  - rewrite fmap_app. apply scan_append; [|apply has_prefix_app|].
    + eapply scan_frame; [|apply Hq]. intros k Hk. apply lookup_insert_ne. revert Hk. keys_differ.
    + apply Forall_fmap. rewrite List.Forall_forall in *. intros x Hx. cbn [compose event_entry fst].
      specialize (Hlt _ Hx). destruct (Hw _ Hx) as (_ & _ & Hlx). split.
      * apply bytes_le_app, bytes_le_value; lia.
      * intros E%app_inv_head. rewrite E in Hlt. lia.
  - intros eid iid. rewrite lookup_insert_ne by keys_differ.
    rewrite lookup_insert_Some, (eq_index _ _ Hq), app_ne. setoid_rewrite elem_of_app.
    setoid_rewrite list_elem_of_singleton. split.
    + intros [[E <-]|[Hne (x & ? & ? & ?)]]; [|exists x; auto].
      apply app_inv_head in E as <-. eexists. split_and!; [right; reflexivity|done..].
    + intros (x & [Hx| ->] & Hxi & Hxe); [|left; cbn in *; by subst].
      right. split; [|eauto]. intros E.
      rewrite E, <- Hxe, (queue_indexed _ _ _ Hq Hx) in Hn. done.
  - apply Forall_app. split; [done|]. constructor; [|done]. split_and!; done.
Qed.

(** *** Batches *)

Definition apply_op (m : db) (op : batch_op) : db :=
  match op with
  | BatchPut k v => <[k := v]> m
  | BatchDelete k => delete k m
  end.

Lemma writeBatch_run ops d :
  exists d', writeBatch ops d = (d', Ok tt) /\ ldb d' = foldl apply_op (ldb d) ops.
Proof.
  revert d. induction ops as [|[k v|k] ops IH]; intros d; cbn [writeBatch foldl]; [by exists d|..].
  - destruct (law_ldb_Put d k v) as (d1 & E1 & L1). destruct (IH d1) as (d2 & E2 & L2).
    exists d2. rewrite (m_bind_ok _ _ _ _ _ E1), E2, L2, L1. done.
  - destruct (law_ldb_Delete d k) as (d1 & E1 & L1). destruct (IH d1) as (d2 & E2 & L2).
    exists d2. rewrite (m_bind_ok _ _ _ _ _ E1), E2, L2, L1. done.
Qed.

Definition event_ops (m : db) (e : MissingEvent) (id : bytes) : list batch_op :=
  ([BatchPut (keyPrefixMissingEventsIndex ++ me_EventId e) id] ++
   match m !! (keyPrefixMissingEventsIndex ++ me_EventId e) with
   | Some prev => [BatchDelete (keyPrefixMissingEvents ++ prev)]
   | None => []
   end) ++ [BatchPut (keyPrefixMissingEvents ++ id) (event_bytes e)].

Lemma marshal_event_bytes e : event_fits e -> marshalMissingEvent e = Ok (event_bytes e).
Proof. intros Hf. unfold event_bytes. destruct (marshal_unmarshal e Hf) as (b & -> & _). done. Qed.

Lemma addEvents_run es ids d :
  Forall event_fits es -> addEvents es ids d = (d, Ok (concat (zip_with (event_ops (ldb d)) es ids))).
Proof.
  intros Hf. revert ids. induction Hf as [|e es He Hes IH]; intros [|id ids]; cbn [addEvents zip_with concat]; try done.
  assert (addEvent e id d = (d, Ok (event_ops (ldb d) e id))) as E1.
  { unfold addEvent. cbv zeta. rewrite (m_bind_ok _ _ _ _ _ (ldb_get_run _ _)).
    unfold m_bind, m_lift, m_ret. by rewrite (marshal_event_bytes e He). }
  rewrite (m_bind_ok _ _ _ _ _ E1), (m_bind_ok _ _ _ _ _ (IH ids)). done.
Qed.

(** An event joins the end of the queue and leaves its earlier place. *)
Definition enqueue (q : list MissingEventWithKey) (new : MissingEvent * bytes) : list MissingEventWithKey :=
  without (me_EventId new.1) q ++ [mkMissingEventWithKey (stored_event new.1) new.2].

Lemma apply_event_ops m e id :
  foldl apply_op m (event_ops m e id) =
    <[keyPrefixMissingEvents ++ id := event_bytes e]>
      (<[keyPrefixMissingEventsIndex ++ me_EventId e := id]>
         match m !! (keyPrefixMissingEventsIndex ++ me_EventId e) with
         | Some prev => delete (keyPrefixMissingEvents ++ prev)
                          (delete (keyPrefixMissingEventsIndex ++ me_EventId e) m)
         | None => m
         end).
Proof.
  unfold event_ops. destruct (m !! _) as [prev|]; cbn [app foldl apply_op]; [|done]. f_equal.
  rewrite delete_insert_ne by keys_differ.
  rewrite (delete_delete m), insert_delete_eq. done.
Qed.

Lemma event_ops_step m q e id :
  events_queue m q -> length id = 16%nat -> event_fits e ->
  Forall (fun x => be_decode (mk_Id x) < be_decode id) q ->
  events_queue (foldl apply_op m (event_ops m e id)) (enqueue q (e, id)).
Proof.
  intros Hq Hl Hf Hlt. rewrite apply_event_ops. unfold enqueue. cbn [fst snd].
  destruct (m !! _) as [prev|] eqn:Hi.
  - apply events_add; [by apply events_drop| |done..|by apply Forall_filter].
    rewrite lookup_delete_ne by keys_differ. apply lookup_delete_eq.
  - rewrite (without_absent _ _ _ Hq Hi). by apply events_add.
Qed.

(** The keys a batch for the event [e] leaves alone. *)
Lemma event_ops_frame m m0 e id k :
  k <> keyPrefixMissingEventsIndex ++ me_EventId e -> ~ has_prefix keyPrefixMissingEvents k ->
  foldl apply_op m (event_ops m0 e id) !! k = m !! k.
Proof.
  intros H1 H2. assert (forall r, keyPrefixMissingEvents ++ r <> k) as H3
    by (intros r <-; apply H2, has_prefix_app).
  unfold event_ops. destruct (m0 !! _); cbn [app foldl apply_op];
    rewrite lookup_insert_ne by apply H3; rewrite ?lookup_delete_ne by apply H3;
    by rewrite lookup_insert_ne by congruence.
Qed.

Lemma batch_step c q e : room c 1 -> Forall (fun x => issued c (mk_Id x)) q ->
  Forall (fun x => be_decode (mk_Id x) < be_decode (getNextKey c)) q /\
  Forall (fun x => issued (getNextKey c) (mk_Id x)) (enqueue q (e, getNextKey c)).
Proof.
  intros Hr Hi. pose proof (next_room _ _ Hr) as [_ E]. split.
  - eapply List.Forall_impl; [|exact Hi]. intros x [_ Hx]. lia.
  - apply Forall_app. split; [|constructor; [by apply next_issued|done]].
    apply Forall_filter. eapply List.Forall_impl; [|exact Hi]. intros x. by apply issued_next.
Qed.

Lemma index_not_event_key eid : ~ has_prefix keyPrefixMissingEvents (keyPrefixMissingEventsIndex ++ eid).
Proof. intros [r E]. cbv in E. discriminate E. Qed.

Lemma batch_run m0 es c m q :
  room c (length es) -> NoDup (me_EventId <$> es) -> Forall event_fits es ->
  (forall e, e ∈ es -> m0 !! (keyPrefixMissingEventsIndex ++ me_EventId e) =
                       m !! (keyPrefixMissingEventsIndex ++ me_EventId e)) ->
  events_queue m q -> Forall (fun x => issued c (mk_Id x)) q ->
  let ids := nextKeys (length es) c in
  let m' := foldl apply_op m (concat (zip_with (event_ops m0) es ids)) in
  let q' := foldl enqueue q (zip es ids) in
  events_queue m' q' /\ Forall (fun x => issued (List.last ids c) (mk_Id x)) q' /\
  (forall k, ~ event_key k -> m' !! k = m !! k).
Proof.
  revert c m q. induction es as [|e es IH]; intros c m q Hr HN Hf Hm Hq Hi; cbv zeta.
  { cbn. done. }
  cbn [length] in Hr. assert (room c 1) as Hr1 by (destruct Hr; split; [done|cbn [length] in *; lia]).
  destruct (next_room _ _ Hr) as [Hr' _].
  rewrite fmap_cons in HN. apply list.NoDup_cons in HN as [Hnot HN].
  apply Forall_cons_1 in Hf as [Hfe Hf]. destruct (batch_step c q e Hr1 Hi) as [Hlt Hi'].
  cbn [length nextKeys zip_with concat zip foldl]. rewrite foldl_app.
  assert (event_ops m0 e (getNextKey c) = event_ops m e (getNextKey c)) as ->
    by (unfold event_ops; rewrite Hm by constructor; done).
  pose proof (event_ops_step m q e (getNextKey c) Hq (proj1 Hr') Hfe Hlt) as Hq'.
  destruct (IH (getNextKey c) (foldl apply_op m (event_ops m e (getNextKey c)))
    (enqueue q (e, getNextKey c)) Hr' HN Hf) as (H1 & H2 & H3); [|exact Hq'|exact Hi'|].
  - intros e' He'. rewrite Hm by (by constructor). symmetry.
    apply event_ops_frame; [|apply index_not_event_key].
    apply app_ne. intros E. apply Hnot. rewrite <- E. by apply list_elem_of_fmap_2.
  - cbv zeta in H1, H2, H3. split_and!; [exact H1| |].
    + replace (List.last (getNextKey c :: nextKeys (length es) (getNextKey c)) c)
        with (List.last (nextKeys (length es) (getNextKey c)) (getNextKey c)); [exact H2|].
      symmetry. apply last_cons_default.
    + intros k Hk. rewrite H3 by done. apply event_ops_frame.
      * intros ->. apply Hk. unfold event_key; auto with store.
      * intros Hp. apply Hk. by left.
Qed.

(** *** Operations on the missing events *)

Lemma AddMissingEvents_run d s es :
  represents (ldb d) s -> room (s_eventCounter s) (length es) ->
  NoDup (me_EventId <$> es) -> Forall event_fits es ->
  let ids := nextKeys (length es) (s_eventCounter s) in
  exists d', AddMissingEvents es d = (d', Ok (zip_with mkMissingEventWithKey es ids)) /\
    represents (ldb d') (with_events (List.last ids (s_eventCounter s)) (foldl enqueue (s_events s) (zip es ids)) s).
Proof.
  intros Hs Hr HN Hf ids. pose (c' := List.last ids (s_eventCounter s)).
  destruct (law_ldb_Put d keyMissingEventsIdCounter c') as (d1 & E1 & L1).
  destruct (writeBatch_run (concat (zip_with (event_ops (ldb d1)) es ids)) d1) as (d2 & E2 & L2).
  exists d2. split.
  - unfold AddMissingEvents. erewrite m_bind_ok; [reflexivity|]. unfold withIncrementingIdBatch. apply withTransaction_ok.
    rewrite (m_bind_ok _ _ _ _ _ (readCounter_run _ _ _ (rep_counter _ _ Hs))). cbv zeta. fold ids. fold c'.
    rewrite (m_bind_ok _ _ _ _ _ E1), (m_bind_ok _ _ _ _ _ (addEvents_run _ _ _ Hf)).
    run E2. done.
  - assert (events_queue (ldb d1) (s_events s)) as Hq.
    { rewrite L1. eapply events_frame; [|apply Hs]. apply insert_agree. keys_differ. }
    destruct (batch_run (ldb d1) es _ (ldb d1) _ Hr HN Hf (fun _ _ => eq_refl) Hq (rep_issued _ _ Hs)) as (H1 & H2 & H3).
    fold ids in H1, H2, H3. rewrite <- L2 in H1, H3. eapply represents_events; [exact Hs| |done..|].
    + unfold counter_is. rewrite H3.
      * rewrite L1, lookup_insert_eq. split; [by left|]. apply last_nextKeys. done.
      * intros [[r E]|[r E]]; cbv in E; discriminate E.
    + intros k Hk Hne. rewrite H3, L1 by done. by apply lookup_insert_ne.
Qed.

Lemma RemoveMissingEvent_run d s eid :
  represents (ldb d) s ->
  exists d', RemoveMissingEvent eid d = (d', Ok tt) /\
    represents (ldb d') (with_events (s_eventCounter s) (without eid (s_events s)) s).
Proof.
  intros Hs. pose proof (rep_events _ _ Hs) as Hq.
  destruct (ldb d !! (keyPrefixMissingEventsIndex ++ eid)) as [iid|] eqn:Hi.
  - destruct (law_ldb_Delete d (keyPrefixMissingEventsIndex ++ eid)) as (d1 & E1 & L1).
    destruct (law_ldb_Delete d1 (keyPrefixMissingEvents ++ iid)) as (d2 & E2 & L2).
    exists d2. split.
    + unfold RemoveMissingEvent. apply withTransaction_ok. cbv zeta.
      rewrite (m_bind_ok _ _ _ _ _ (ldb_get_run _ _)), Hi, (m_bind_ok _ _ _ _ _ E1). done.
    + rewrite L2, L1. eapply represents_events; [exact Hs| |by apply events_drop|apply Forall_filter, Hs|].
      * unfold counter_is. rewrite !lookup_delete_ne by keys_differ. apply Hs.
      * intros k _ Hne. rewrite !lookup_delete_ne; [done|..];
          intros <-; apply Hne; unfold event_key; auto with store.
  - exists d. split.
    + unfold RemoveMissingEvent. apply withTransaction_ok. cbv zeta.
      rewrite (m_bind_ok _ _ _ _ _ (ldb_get_run _ _)), Hi. done.
    + rewrite (without_absent _ _ _ Hq Hi). by destruct s.
Qed.

(** A retry as the store keeps it: the time of the retry is not written. *)
Definition retried (x : MissingEventWithKey) : MissingEventWithKey :=
  let e := mk_Event x in
  mkMissingEventWithKey (mkMissingEvent (me_EventId e) (me_ReceivedTime e) (me_BlockHeight e)
    (me_ReceivedTime e) true (i64 (me_RetryCount e + 1))) (mk_Id x).

Definition retry_event (eid : bytes) (x : MissingEventWithKey) : MissingEventWithKey :=
  if decide (event_id x = eid) then retried x else x.

Lemma unmarshal_event_bytes e : event_fits e -> stored_event e = e ->
  unmarshalMissingEvent (event_bytes e) = Ok e.
Proof.
  intros Hf Hs. unfold event_bytes. destruct (marshal_unmarshal e Hf) as (b & -> & ->). by rewrite Hs.
Qed.

Lemma queue_stored m q x : events_queue m q -> x ∈ q ->
  m !! (keyPrefixMissingEvents ++ mk_Id x) = Some (event_bytes (mk_Event x)).
Proof.
  intros [Hs _ _] Hx. apply (scan_elem _ _ _ Hs _ _). apply list_elem_of_fmap. by exists x.
Qed.

Lemma queue_wf m q x : events_queue m q -> x ∈ q ->
  event_fits (mk_Event x) /\ stored_event (mk_Event x) = mk_Event x /\ length (mk_Id x) = 16%nat.
Proof. intros [_ _ Hw] Hx. rewrite List.Forall_forall in Hw. by apply Hw, list_elem_of_In. Qed.

Lemma retry_keys eid x : mk_Id (retry_event eid x) = mk_Id x /\ event_id (retry_event eid x) = event_id x.
Proof. unfold retry_event. by destruct (decide (event_id x = eid)). Qed.

Lemma retried_fits x : event_fits (mk_Event x) -> event_fits (mk_Event (retried x)).
Proof. intros (? & ? & ? & ?). split_and!; try done. by apply swrap_bound. Qed.

Lemma events_retry m q x :
  events_queue m q -> x ∈ q ->
  events_queue (<[keyPrefixMissingEvents ++ mk_Id x := event_bytes (mk_Event (retried x))]> m)
    (retry_event (event_id x) <$> q).
Proof.
  intros Hq Hx. split.
  - pose proof (eq_scan _ _ Hq) as Hs.
    apply (scan_update _ _ _ (keyPrefixMissingEvents ++ mk_Id x) (event_bytes (mk_Event (retried x)))) in Hs.
    2:{ rewrite <- list_fmap_compose. apply list_elem_of_fmap. by exists x. }
    rewrite <- list_fmap_compose in Hs. rewrite <- list_fmap_compose.
    erewrite list_fmap_ext; [exact Hs|]. intros i y Hy%list_elem_of_lookup_2.
    unfold compose, set_value, retry_event. cbn [event_entry fst].
    destruct (decide (event_id y = event_id x)) as [E|E].
    + assert (y = x) as ->; [|by rewrite decide_True].
      apply (queue_id_inj _ _ _ _ Hq Hy Hx). apply (f_equal (fun i => m !! (keyPrefixMissingEventsIndex ++ i))) in E.
      rewrite (queue_indexed _ _ _ Hq Hy), (queue_indexed _ _ _ Hq Hx) in E. congruence.
    + rewrite decide_False; [done|]. apply app_ne. intros E2. apply E. by rewrite (queue_id_inj _ _ _ _ Hq Hy Hx E2).
  - intros eid iid. rewrite lookup_insert_ne by keys_differ. rewrite (eq_index _ _ Hq).
    setoid_rewrite list_elem_of_fmap. split.
    + intros (y & Hy & Hi & He). destruct (retry_keys (event_id x) y) as [K1 K2].
      exists (retry_event (event_id x) y). rewrite K1, K2. eauto.
    + intros (z & (y & -> & Hy) & Hi & He). destruct (retry_keys (event_id x) y) as [K1 K2].
      exists y. rewrite K1 in Hi. rewrite K2 in He. eauto.
  - apply Forall_fmap, List.Forall_forall. intros y Hy%list_elem_of_In.
    destruct (queue_wf _ _ _ Hq Hy) as (H1 & H2 & H3). unfold compose, retry_event.
    destruct (decide _); [|done]. split_and!; [by apply retried_fits|done|done].
Qed.

Lemma Increment_run now d s x :
  represents (ldb d) s -> x ∈ s_events s ->
  exists d', IncrementMissingEventRetryCount now (event_id x) d = (d', Ok tt) /\
    represents (ldb d') (with_events (s_eventCounter s) (retry_event (event_id x) <$> s_events s) s).
Proof.
  intros Hs Hx. pose proof (rep_events _ _ Hs) as Hq.
  destruct (law_ldb_Put d (keyPrefixMissingEvents ++ mk_Id x) (event_bytes (mk_Event (retried x)))) as (d1 & E1 & L1).
  destruct (queue_wf _ _ _ Hq Hx) as (Hf & Hst & Hl).
  exists d1. split.
  - unfold IncrementMissingEventRetryCount. apply withTransaction_ok.
    rewrite (m_bind_ok _ _ _ _ _ (ldb_get_run _ _)), (queue_indexed _ _ _ Hq Hx). cbv zeta.
    rewrite (m_bind_ok _ _ _ _ _ (ldb_get_run _ _)), (queue_stored _ _ _ Hq Hx).
    unfold m_bind, m_lift. rewrite unmarshal_event_bytes by done. cbv zeta iota.
    rewrite marshal_event_bytes by apply (retried_fits x Hf). exact E1.
  - rewrite L1. eapply represents_events; [exact Hs| |by apply events_retry| |].
    + unfold counter_is. rewrite lookup_insert_ne by keys_differ. apply Hs.
    + apply Forall_fmap. eapply List.Forall_impl; [|apply (rep_issued _ _ Hs)]. intros y Hy.
      unfold compose. by rewrite (proj1 (retry_keys _ _)).
    + intros k _ Hne. apply lookup_insert_ne. intros <-. apply Hne. unfold event_key; auto with store.
Qed.

Lemma Increment_absent now d s eid :
  represents (ldb d) s -> eid ∉ event_id <$> s_events s ->
  exists e, IncrementMissingEventRetryCount now eid d = (d, Err e).
Proof.
  intros Hs Hn. assert (ldb d !! (keyPrefixMissingEventsIndex ++ eid) = None) as Hi.
  { destruct (ldb d !! _) as [iid|] eqn:E; [|done]. apply (eq_index _ _ (rep_events _ _ Hs)) in E as (x & Hx & _ & <-).
    destruct Hn. apply list_elem_of_fmap. by exists x. }
  eexists. unfold IncrementMissingEventRetryCount, withTransaction. rewrite law_ldb_Open.
  rewrite (m_bind_ok _ _ _ _ _ (ldb_get_run _ _)), Hi. reflexivity.
Qed.

(** *** Pages *)

Lemma collectEvents_run after limit q acc :
  Forall (fun x => event_fits (mk_Event x) /\ stored_event (mk_Event x) = mk_Event x /\
                   length (mk_Id x) = 16%nat) q ->
  Forall (fun x => after <> Some (mk_Id x)) q -> zlen acc <= limit ->
  collectEvents after limit (event_entry <$> q) acc = Ok (acc ++ take (Z.to_nat (limit - zlen acc)) q).
Proof.
  intros Hw. revert acc. induction Hw as [|x q (Hf & Hs & Hl) Hw IH]; intros acc Ha Hacc; cbn [fmap list_fmap collectEvents].
  { by rewrite firstn_nil, app_nil_r. }
  apply Forall_cons_1 in Ha as [Hax Ha]. destruct (Z.ltb_spec (zlen acc) limit) as [Hlt|Hge].
  - cbn [event_entry fst snd]. rewrite drop_app_length. unfold zlen at 1. rewrite Hl. cbn [Z.of_nat Z.eqb negb].
    change (Z.of_nat 16 =? 16) with true. cbn [negb]. rewrite bool_decide_eq_false_2 by done.
    rewrite unmarshal_event_bytes by done. cbn [res_bind].
    assert (zlen (acc ++ [mkMissingEventWithKey (mk_Event x) (mk_Id x)]) = zlen acc + 1) as Hz
      by (rewrite zlen_app; done).
    rewrite IH by (done || lia). rewrite Hz, <- app_assoc. f_equal. f_equal.
    replace (Z.to_nat (limit - zlen acc)) with (S (Z.to_nat (limit - (zlen acc + 1)))) by lia.
    by destruct x.
  - replace (Z.to_nat (limit - zlen acc)) with 0%nat by lia. cbn [take]. by rewrite app_nil_r.
Qed.

Lemma after_seek_run a l1 x l2 :
  length a = 16%nat -> length (mk_Id x) = 16%nat ->
  Forall (fun y => length (mk_Id y) = 16%nat /\ be_decode (mk_Id y) < be_decode a) l1 ->
  be_decode a <= be_decode (mk_Id x) ->
  after_seek (keyPrefixMissingEvents ++ a) (event_entry <$> (l1 ++ x :: l2)) = event_entry <$> l2.
Proof.
  intros Ha Hx Hl1 Hle. induction Hl1 as [|y l1 [Hy Hlt] _ IH]; cbn [app fmap list_fmap after_seek event_entry fst].
  - rewrite (proj2 (bytes_le_app _ _ _) (proj2 (bytes_le_value a (mk_Id x) ltac:(lia)) Hle)). done.
  - destruct (bytes_leb _ _) eqn:E; [|exact IH].
    apply bytes_le_app, bytes_le_value in E; lia.
Qed.

Lemma queue_sorted m l1 x l2 y : events_queue m (l1 ++ x :: l2) -> y ∈ l1 -> be_decode (mk_Id y) < be_decode (mk_Id x).
Proof.
  intros Hq Hy. pose proof (eq_scan _ _ Hq) as [Hs HN _]. rewrite <- list_fmap_compose in Hs, HN.
  rewrite fmap_app in Hs, HN. assert (x ∈ l1 ++ x :: l2) as Hx by (apply elem_of_app; right; constructor).
  assert (y ∈ l1 ++ x :: l2) as Hy' by (by apply elem_of_app; left).
  destruct (queue_wf _ _ _ Hq Hx) as (_ & _ & Lx). destruct (queue_wf _ _ _ Hq Hy') as (_ & _ & Ly).
  apply StronglySorted_app in Hs as [Hs _].
  specialize (Hs (fst (event_entry y)) (fst (event_entry x))).
  assert (bytes_le (event_entry y).1 (event_entry x).1) as Hle
    by (apply Hs; [by apply (list_elem_of_fmap_2 (fst ∘ event_entry))|cbn; constructor]).
  apply bytes_le_app, bytes_le_value in Hle; [|lia].
  destruct (Z.eq_dec (be_decode (mk_Id y)) (be_decode (mk_Id x))) as [E|]; [|lia].
  apply be_decode_inj in E; [|lia]. apply list.NoDup_app in HN as (_ & HN & _).
  destruct (HN (event_entry y).1); [by apply (list_elem_of_fmap_2 (fst ∘ event_entry))|].
  cbn. rewrite E. constructor.
Qed.

(** The position after a seek to [a]: the entries past the first one not below [a]. *)
Lemma MissingEvents_seek d l1 x l2 a limit :
  events_queue (ldb d) (l1 ++ x :: l2) -> length a = 16%nat -> 0 < limit ->
  Forall (fun y => be_decode (mk_Id y) < be_decode a) l1 -> be_decode a <= be_decode (mk_Id x) ->
  MissingEvents (Some a) limit d = Ok (take (Z.to_nat limit) l2).
Proof.
  intros Hq Ha Hlim Hl1 Hle. unfold MissingEvents. rewrite (proj2 (Z.leb_gt limit 0)) by lia. cbv zeta.
  rewrite (scan_unique _ _ _ _ (is_scan_Prefix _ _) (eq_scan _ _ Hq)).
  assert (forall y, y ∈ l1 ++ x :: l2 -> length (mk_Id y) = 16%nat) as Hlen by (intros y Hy; by destruct (queue_wf _ _ _ Hq Hy) as (_ & _ & ?)).
  rewrite after_seek_run; [|done|apply Hlen; apply elem_of_app; right; constructor| |done].
  2:{ rewrite List.Forall_forall in *. intros y Hy. split; [|by apply Hl1].
      apply Hlen, elem_of_app. left. by apply list_elem_of_In. }
  rewrite collectEvents_run, zlen_nil, Z.sub_0_r; [done|..|rewrite zlen_nil; lia].
  - pose proof (eq_wf _ _ Hq) as Hw. apply Forall_app in Hw as [_ Hw]. by apply Forall_cons_1 in Hw as [_ Hw].
  - apply List.Forall_forall. intros y Hy%list_elem_of_In [= ->].
    apply list_elem_of_split in Hy as (k1 & k2 & ->).
    pose proof (queue_sorted (ldb d) (l1 ++ x :: k1) y k2 x) as Hlt.
    rewrite <- app_assoc in Hlt. specialize (Hlt Hq). rewrite elem_of_app in Hlt.
    specialize (Hlt (or_intror (list_elem_of_here _ _))). lia.
Qed.

(** The events a seek to the cursor [a] leaves to read: the first one not below
    [a] is passed over. *)
Fixpoint after_cursor (a : bytes) (q : list MissingEventWithKey) : list MissingEventWithKey :=
  match q with
  | [] => []
  | x :: r => if be_decode a <=? be_decode (mk_Id x) then r else after_cursor a r
  end.

Lemma after_cursor_split a q :
  (Forall (fun y => be_decode (mk_Id y) < be_decode a) q /\ after_cursor a q = []) \/
  exists l1 x, q = l1 ++ x :: after_cursor a q /\
    Forall (fun y => be_decode (mk_Id y) < be_decode a) l1 /\ be_decode a <= be_decode (mk_Id x).
Proof.
  induction q as [|x q IH]; [by left|]. cbn [after_cursor].
  destruct (Z.leb_spec (be_decode a) (be_decode (mk_Id x))); [right; by exists [], x|].
  destruct IH as [[Hf Hn]|(l1 & y & Hq & Hf & Hle)].
  - left. split; [by constructor|done].
  - right. exists (x :: l1), y. split_and!; [cbn; by rewrite <- Hq|by constructor|done].
Qed.

Lemma MissingEvents_after d q a limit :
  events_queue (ldb d) q -> length a = 16%nat -> 0 < limit ->
  MissingEvents (Some a) limit d = Ok (take (Z.to_nat limit) (after_cursor a q)).
Proof.
  intros Hq Ha Hlim. destruct (after_cursor_split a q) as [[Hf Hn]|(l1 & x & E & Hf & Hle)].
  - rewrite Hn, firstn_nil. unfold MissingEvents. rewrite (proj2 (Z.leb_gt limit 0)) by lia. cbv zeta.
    rewrite (scan_unique _ _ _ _ (is_scan_Prefix _ _) (eq_scan _ _ Hq)).
    replace (after_seek _ _) with (@nil (bytes * bytes)); [done|]. symmetry.
    assert (Forall (fun y => length (mk_Id y) = 16%nat) q) as Hl
      by (eapply List.Forall_impl; [|apply Hq]; by intros y (_ & _ & ?)).
    clear Hq Hn. induction Hf as [|y q Hy Hf IH]; [done|]. apply Forall_cons_1 in Hl as [Hly Hl].
    cbn [fmap list_fmap after_seek event_entry fst].
    destruct (bytes_leb _ _) eqn:E; [|by apply IH]. apply bytes_le_app, bytes_le_value in E; lia.
  - rewrite E in Hq. eapply MissingEvents_seek; [exact Hq|done..].
Qed.

Lemma MissingEvents_first d q limit :
  events_queue (ldb d) q -> 0 < limit -> MissingEvents None limit d = Ok (take (Z.to_nat limit) q).
Proof.
  intros Hq Hlim. unfold MissingEvents. rewrite (proj2 (Z.leb_gt limit 0)) by lia. cbv zeta.
  rewrite (scan_unique _ _ _ _ (is_scan_Prefix _ _) (eq_scan _ _ Hq)).
  rewrite collectEvents_run, zlen_nil, Z.sub_0_r; [done|apply Hq| |rewrite zlen_nil; lia].
  by apply List.Forall_forall.
Qed.

Lemma MissingEventCount_run d q : events_queue (ldb d) q -> MissingEventCount d = zlen q.
Proof.
  intros Hq. unfold MissingEventCount. pose proof (is_scan_Prefix d keyPrefixMissingEventsIndex) as [_ HN HE].
  set (l := ldb_Prefix d keyPrefixMissingEventsIndex) in *.
  assert (l.*1 ≡ₚ (fun x => keyPrefixMissingEventsIndex ++ event_id x) <$> q) as HP.
  { apply NoDup_Permutation; [done| |].
    - pose proof (eq_scan _ _ Hq) as [_ HNq _]. rewrite <- list_fmap_compose in HNq.
      apply NoDup_fmap_1 in HNq. apply NoDup_fmap_2_strong; [|done]. intros x y Hx Hy E.
      apply (f_equal (fun k => ldb d !! k)) in E. rewrite !(queue_indexed _ _ _ Hq) in E by done.
      apply (queue_id_inj _ _ _ _ Hq Hx Hy). congruence.
    - intros k. rewrite !list_elem_of_fmap. split.
      + intros ([k' v] & -> & Hin). apply HE in Hin as [Hm [r ->]]. cbn.
        apply (eq_index _ _ Hq) in Hm as (x & Hx & _ & <-). eauto.
      + intros (x & -> & Hx). exists (keyPrefixMissingEventsIndex ++ event_id x, mk_Id x). split; [done|].
        apply HE. split; [by apply queue_indexed with q|apply has_prefix_app]. }
  apply Permutation_length in HP. rewrite !length_fmap in HP. unfold zlen. by rewrite HP.
Qed.

(** *** Operations on the missing blocks and on the height *)

Lemma AddMissingBlocks_run d s r :
  represents (ldb d) s -> room (s_blockCounter s) 1 -> range_fits r ->
  exists d', AddMissingBlocks r d = (d', Ok (getNextKey (s_blockCounter s))) /\
    represents (ldb d') (with_blocks (getNextKey (s_blockCounter s))
      (s_blocks s ++ [NewBlockRangeWithId r (getNextKey (s_blockCounter s))]) s).
Proof.
  intros Hs Hr Hf. pose proof (rep_blocks _ _ Hs) as Hb.
  destruct (withIncrementingId_run keyMissingBlocksIdCounter _
    (fun id => keyPrefixMissingBlocks ++ id) (encodeRange r) d (bs_counter _ _ _ Hb)) as (d' & E & L).
  exists d'. split; [exact E|]. rewrite L.
  eapply represents_blocks; [exact Hs|by apply blocks_append|].
  intros k Hk. rewrite !lookup_insert_ne; [done|..]; intros <-; apply Hk; unfold block_key; auto with store.
Qed.

Lemma RemoveMissingBlockRange_run d s id :
  represents (ldb d) s ->
  exists d', RemoveMissingBlockRange id d = (d', Ok tt) /\
    represents (ldb d') (with_blocks (s_blockCounter s) (remove_block id (s_blocks s)) s).
Proof.
  intros Hs. pose proof (rep_blocks _ _ Hs) as Hb.
  destruct (law_ldb_Delete d (keyPrefixMissingBlocks ++ id)) as (d' & E & L).
  exists d'. split; [exact E|]. rewrite L. eapply represents_blocks; [exact Hs|by apply blocks_remove|].
  intros k Hk. apply lookup_delete_ne. intros <-. apply Hk. unfold block_key; auto with store.
Qed.

Lemma UpdateMissingBlockRange_run d s b :
  represents (ldb d) s -> br_Id b ∈ br_Id <$> s_blocks s -> range_fits (br_Range b) ->
  exists d', UpdateMissingBlockRange b d = (d', Ok tt) /\
    represents (ldb d') (with_blocks (s_blockCounter s) (replace_block b <$> s_blocks s) s).
Proof.
  intros Hs Hin Hf. pose proof (rep_blocks _ _ Hs) as Hb.
  destruct (law_ldb_Put d (keyPrefixMissingBlocks ++ br_Id b) (encodeRange (br_Range b))) as (d' & E & L).
  exists d'. split; [exact E|]. rewrite L. eapply represents_blocks; [exact Hs|by apply blocks_update|].
  intros k Hk. apply lookup_insert_ne. intros <-. apply Hk. unfold block_key; auto with store.
Qed.

Lemma LastSeenBlockHeight_run d s :
  represents (ldb d) s -> LastSeenBlockHeight d = (d, Ok (s_height s)).
Proof.
  intros Hs. unfold LastSeenBlockHeight. rewrite (m_bind_ok _ _ _ _ _ (ldb_get_run _ _)), (rep_height _ _ Hs).
  unfold m_lift. destruct (s_height s) as [h|] eqn:Hh; [|done]. cbn [fmap option_fmap option_map].
  rewrite int64_round_trip by (by apply (rep_height_fits _ _ Hs)). done.
Qed.

Lemma SetLastSeenBlockHeight_run d s h :
  represents (ldb d) s -> in_s 64 h ->
  exists d', SetLastSeenBlockHeight h d = (d', Ok tt) /\ represents (ldb d') (with_height h s).
Proof.
  intros Hs Hf. destruct (law_ldb_Put d keyLastSeenBlockHeight (int64ToBytes h)) as (d' & E & L).
  exists d'. split; [exact E|]. rewrite L. destruct Hs as [_ _ Hb [Hc Hl] Hq Hi].
  split; cbn; [by rewrite lookup_insert_eq|congruence| | | |done].
  - eapply blocks_frame; [|exact Hb]. apply insert_agree. keys_differ.
  - split; [|done]. rewrite lookup_insert_ne by keys_differ. done.
  - eapply events_frame; [|exact Hq]. apply insert_agree. keys_differ.
Qed.

(** ** The contract of the store *)

(** Identifiers are numbers in big-endian order, counted up from the
    stored counter: [getNextKey] adds one modulo 2^128, and while the counter
    has room the keys of a batch are the next numbers, so each of them is after
    every earlier key in the order in which LevelDB iterates. *)
Theorem identifiers_count_up (c : bytes) :
  length c = 16%nat ->
  be_decode (getNextKey c) = (be_decode c + 1) mod 2 ^ 128 /\
  (forall n i k, be_decode c + Z.of_nat n < 2 ^ 128 -> nextKeys n c !! i = Some k ->
     be_decode k = be_decode c + Z.of_nat i + 1 /\ bytes_le c k /\ k <> c).
Proof.
  intros Hl. split.
  - rewrite getNextKey_value. assert (zlen c = 16) as -> by (unfold zlen; lia). done.
  - intros n i k Hn Hk. assert (room c n) as Hr by done.
    apply (nextKeys_value n c i k Hr) in Hk as [Hlk E]. split_and!; [done| |intros ->; lia].
    apply bytes_le_value; lia.
Qed.

(** C24. The ranges of missing blocks behave as a queue: a range added gets the
    next identifier and is listed last, a range removed is gone, an update
    replaces the range with the same identifier in its place, and none of them
    touches the last height or the missing events. *)
Theorem missing_blocks_refine d s :
  represents (ldb d) s ->
  MissingBlocks d = Ok (s_blocks s) /\
  (forall r, room (s_blockCounter s) 1 -> range_fits r ->
     exists d', AddMissingBlocks r d = (d', Ok (getNextKey (s_blockCounter s))) /\
       represents (ldb d') (with_blocks (getNextKey (s_blockCounter s))
         (s_blocks s ++ [NewBlockRangeWithId r (getNextKey (s_blockCounter s))]) s)) /\
  (forall id, exists d', RemoveMissingBlockRange id d = (d', Ok tt) /\
     represents (ldb d') (with_blocks (s_blockCounter s) (remove_block id (s_blocks s)) s)) /\
  (forall b, br_Id b ∈ br_Id <$> s_blocks s -> range_fits (br_Range b) ->
     exists d', UpdateMissingBlockRange b d = (d', Ok tt) /\
       represents (ldb d') (with_blocks (s_blockCounter s) (replace_block b <$> s_blocks s) s)).
Proof.
  intros Hs. split_and!.
  - eapply MissingBlocks_run, Hs.
  - intros r. by apply AddMissingBlocks_run.
  - intros id. by apply RemoveMissingBlockRange_run.
  - intros b. by apply UpdateMissingBlockRange_run.
Qed.


(** Pages: without a cursor the first [limit] events of the queue are
    returned, and with the identifier of an event of the queue as the cursor
    the next [limit] events after it, so that pages neither repeat nor skip. *)
Theorem missing_event_pages d s limit :
  represents (ldb d) s -> 0 < limit ->
  MissingEvents None limit d = Ok (take (Z.to_nat limit) (s_events s)) /\
  (forall l1 x l2, s_events s = l1 ++ x :: l2 ->
     MissingEvents (Some (mk_Id x)) limit d = Ok (take (Z.to_nat limit) l2)).
Proof.
  intros Hs Hlim. pose proof (rep_events _ _ Hs) as Hq. split; [by apply MissingEvents_first|].
  intros l1 x l2 E. rewrite E in Hq.
  assert (x ∈ l1 ++ x :: l2) as Hx by (apply elem_of_app; right; constructor).
  apply MissingEvents_seek with l1 x; [done|apply (queue_wf _ _ _ Hq Hx)|done| |lia].
  apply List.Forall_forall. intros y Hy%list_elem_of_In. by eapply queue_sorted.
Qed.

(** A cursor whose event was removed between two pages makes the next page
    skip an event: the seek stops at the first later entry and the loop moves
    past it. *)
Theorem removed_cursor_skips d s l1 x l2 a limit :
  represents (ldb d) s -> s_events s = l1 ++ x :: l2 -> 0 < limit -> length a = 16%nat ->
  Forall (fun y => be_decode (mk_Id y) < be_decode a) l1 -> be_decode a < be_decode (mk_Id x) ->
  MissingEvents (Some a) limit d = Ok (take (Z.to_nat limit) l2).
Proof.
  intros Hs E Hlim Ha Hl1 Hlt. pose proof (rep_events _ _ Hs) as Hq. rewrite E in Hq.
  apply MissingEvents_seek with l1 x; [done..|lia].
Qed.

End Runs.

(** An event is read back as it was stored, but for the time of the last
    retry: the encoder writes the time of reception in its place. *)
Theorem missing_event_round_trip (e : MissingEvent) :
  event_fits e ->
  exists b, marshalMissingEvent e = Ok b /\ unmarshalMissingEvent b = Ok (stored_event e) /\
    (stored_event e = e <-> me_LastRetryTime e = me_ReceivedTime e).
Proof.
  intros Hf. destruct (marshal_unmarshal e Hf) as (b & H1 & H2). exists b. split_and!; [done..|].
  destruct e as [id rt bh lt ru rc]. unfold stored_event. cbn. split; [by intros [=]|intros ->; done].
Qed.
