(* ===== verification/StateStoreWitness.v ===== *)
(** * The state store on a concrete database

    A finite map whose prefix scans are sorted is a model of LevelDB, so the
    contract of the store has an instance; the hypotheses of the theorems of
    [StateStoreFacts] hold on stores built by the operations themselves. *)

From S2P Require Import Prelude Types StateStore StateStoreFacts.
From Corelib Require Import Init.Byte.
Import Codec MissingEventCodec LevelDBStore.

(** ** The reference database *)

Definition kv_le (a b : bytes * bytes) : Prop := bytes_le a.1 b.1.
#[global] Instance kv_le_dec a b : Decision (kv_le a b).
Proof. unfold kv_le; apply _. Defined.
#[global] Instance kv_le_total : Total kv_le.
Proof. intros a b. apply (total bytes_le). Qed.
#[global] Instance kv_le_trans : Transitive kv_le.
Proof. intros a b c. apply (transitivity (R := bytes_le)). Qed.

Definition starts_with (p : bytes) (kv : bytes * bytes) : Prop := take (length p) kv.1 = p.
#[global] Instance starts_with_dec p kv : Decision (starts_with p kv).
Proof. unfold starts_with; apply _. Defined.

Lemma starts_with_prefix p kv : starts_with p kv <-> has_prefix p kv.1.
Proof.
  unfold starts_with, has_prefix. split.
  - intros E. exists (drop (length p) kv.1). rewrite <- E at 1. symmetry. apply take_drop.
  - intros [r ->]. apply take_app_length.
Qed.

#[global] Instance gmap_LevelDB : LevelDB (gmap bytes bytes) := {
  ldb_Get m k := Ok (m !! k);
  ldb_Put k v := m_modify (insert k v);
  ldb_Delete k := m_modify (delete k);
  ldb_Prefix m p := merge_sort kv_le (filter (starts_with p) (map_to_list m));
  ldb_Open _ := Ok tt;
  ldb_Commit _ := Ok tt
}.

Lemma StronglySorted_keys l : StronglySorted kv_le l -> StronglySorted bytes_le l.*1.
Proof.
  induction 1 as [|kv l Hs IH Hf]; cbn; constructor; [done|]. by apply Forall_fmap.
Qed.

#[global] Instance gmap_LevelDBLaws : LevelDBLaws (gmap bytes bytes).
Proof.
  unshelve econstructor; [exact id|..]; cbn; try done.
  - intros m k v. by eexists.
  - intros m k. by eexists.
  - intros m p k v. rewrite merge_sort_Permutation, list_elem_of_filter, elem_of_map_to_list, starts_with_prefix.
    cbn. tauto.
  - intros m p. apply StronglySorted_keys. apply (StronglySorted_merge_sort kv_le).
  - intros m p. rewrite merge_sort_Permutation.
    eapply sublist_NoDup; [|apply fmap_sublist, sublist_filter]. apply NoDup_fst_map_to_list.
Defined.

(** ** Concrete stores *)

Definition emptyStore : Store := mkStore None zeroKey [] zeroKey [].

Lemma empty_represents : represents (ldb (∅ : gmap bytes bytes)) emptyStore.
Proof.
  assert (forall p, is_scan (∅ : gmap bytes bytes) p []) as Hscan.
  { intros p. split; [constructor..|]. intros k v. rewrite lookup_empty. split; [by intros ?%elem_of_nil|by intros [? _]]. }
  split; cbn; try done.
  - split; [split; [by right|done]|apply Hscan|done].
  - split; [by right|done].
  - split; [apply Hscan| |done]. intros eid iid. rewrite lookup_empty.
    split; [done|by intros (x & ?%elem_of_nil & _)].
Qed.

Definition wTime : time := mkTime (1700000000 * 10 ^ 9) 3600.
Definition wEvent (name : string) : MissingEvent := NewMissingEvent (bz name) wTime 7.
Definition wEvents : list MissingEvent := [wEvent "a"; wEvent "b"; wEvent "c"].

Lemma wEvents_fit : Forall event_fits wEvents.
Proof. repeat constructor; cbv; try done; intros [=]. Qed.

Definition wIds : list bytes := nextKeys 3 zeroKey.
Definition wQueue : list MissingEventWithKey :=
  zip_with (fun e id => mkMissingEventWithKey (stored_event e) id) wEvents wIds.
Definition wStore : Store := mkStore None zeroKey [] (List.last wIds zeroKey) wQueue.

(** The store after the three events were added. *)
Lemma wStore_reached : exists d : gmap bytes bytes, represents (ldb d) wStore.
Proof.
  destruct (AddMissingEvents_run _ _ wEvents empty_represents) as (d & _ & Hd).
  - by split; vm_compute.
  - apply (bool_decide_unpack _). by vm_compute.
  - apply wEvents_fit.
  - exists d. exact Hd.
Qed.

(** The store after the first of them was removed. *)
Definition wStore' : Store := mkStore None zeroKey [] (List.last wIds zeroKey) (drop 1 wQueue).

Lemma wStore'_reached : exists d : gmap bytes bytes, represents (ldb d) wStore'.
Proof.
  destruct wStore_reached as [d Hd]. destruct (RemoveMissingEvent_run d wStore (bz "a") Hd) as (d' & _ & Hd').
  by exists d'.
Qed.

Lemma identifiers_count_up_witness :
  be_decode (getNextKey zeroKey) = 1 /\ nextKeys 2 zeroKey !! 1%nat = Some (getNextKey (getNextKey zeroKey)) /\
  bytes_le zeroKey (getNextKey (getNextKey zeroKey)).
Proof.
  destruct (identifiers_count_up zeroKey eq_refl) as [H1 H2]. split_and!; [exact H1|done|].
  apply (H2 2%nat 1%nat); done.
Defined.

Lemma missing_blocks_refine_witness :
  MissingBlocks (∅ : gmap bytes bytes) = Ok [] /\
  exists d', AddMissingBlocks (mkBlockRange 3 9) (∅ : gmap bytes bytes) = (d', Ok (getNextKey zeroKey)) /\
    represents (ldb d') (with_blocks (getNextKey zeroKey)
      [NewBlockRangeWithId (mkBlockRange 3 9) (getNextKey zeroKey)] emptyStore).
Proof.
  destruct (missing_blocks_refine _ _ empty_represents) as (H1 & H2 & _). split; [exact H1|].
  apply (H2 (mkBlockRange 3 9)); [by split; vm_compute|by split; vm_compute].
Defined.


Lemma missing_event_pages_witness :
  exists d : gmap bytes bytes, represents (ldb d) wStore /\
    MissingEvents None 1 d = Ok (take 1 wQueue) /\
    MissingEvents (mk_Id <$> wQueue !! 0%nat) 2 d = Ok (drop 1 wQueue).
Proof.
  destruct wStore_reached as [d Hd]. exists d. split; [exact Hd|]. split.
  - exact (proj1 (missing_event_pages d wStore 1 Hd eq_refl)).
  - exact (proj2 (missing_event_pages d wStore 2 Hd eq_refl) [] _ (drop 1 wQueue) eq_refl).
Defined.

(** The page that follows the removed first event starts at the third. *)
Lemma removed_cursor_skips_witness :
  exists d : gmap bytes bytes, represents (ldb d) wStore' /\
    MissingEvents (mk_Id <$> wQueue !! 0%nat) 5 d = Ok (drop 2 wQueue).
Proof.
  destruct wStore'_reached as [d Hd]. exists d. split; [exact Hd|].
  eapply (removed_cursor_skips d wStore' [] _ (drop 2 wQueue) (getNextKey zeroKey) 5 Hd eq_refl eq_refl eq_refl).
  - constructor.
  - by vm_compute.
Defined.

Lemma missing_event_round_trip_witness :
  exists b, marshalMissingEvent (wEvent "a") = Ok b /\ unmarshalMissingEvent b = Ok (stored_event (wEvent "a")) /\
    stored_event (wEvent "a") <> wEvent "a".
Proof.
  destruct (missing_event_round_trip (wEvent "a")) as (b & H1 & H2 & H3).
  { pose proof wEvents_fit as Hf. by apply Forall_cons_1 in Hf as [Hf _]. }
  exists b. split_and!; [exact H1|exact H2|]. intros E. apply H3 in E. vm_compute in E. discriminate E.
Defined.
