(* ===== verification/StoreInterface.v ===== *)
(** * The interface of the state store

    [offchain-interface/pkg/state/store.go] declares the interface [Store] that
    the harmoniser and the payload handlers use.  Here it is a class of
    operations and a class of laws, the contract proved of the LevelDB store:
    the operations act on an abstract store of a height and two queues. *)

From S2P Require Import Prelude Types StateStore StateStoreFacts.

(** Identifiers of both kinds are sixteen bytes. *)
Class StateStore (S : Type) : Type := {
  st_LastSeenBlockHeight : M S (option Z);
  st_SetLastSeenBlockHeight : Z -> M S unit;
  st_MissingBlocks : S -> result (list BlockRangeWithId);
  st_AddMissingBlocks : BlockRange -> M S bytes;
  st_UpdateMissingBlockRange : BlockRangeWithId -> M S unit;
  st_RemoveMissingBlockRange : bytes -> M S unit;
  st_MissingEvents : option bytes -> Z -> S -> result (list MissingEventWithKey);
  st_MissingEventCount : S -> result Z;
  st_AddMissingEvents : list MissingEvent -> M S (list MissingEventWithKey);
  (* the first argument is the clock *)
  st_IncrementMissingEventRetryCount : time -> bytes -> M S unit;
  st_RemoveMissingEvent : bytes -> M S unit
}.

(** The events a page starts from. *)
Definition page_start (after : option bytes) (q : list MissingEventWithKey) : list MissingEventWithKey :=
  match after with
  | None => q
  | Some a => after_cursor a q
  end.

Class StateStoreLaws (S : Type) `{StateStore S} : Type := {
  implements : S -> Store -> Prop;
  law_last_height d s : implements d s -> st_LastSeenBlockHeight d = (d, Ok (s_height s));
  law_set_height d s h : implements d s -> in_s 64 h ->
    exists d', st_SetLastSeenBlockHeight h d = (d', Ok tt) /\ implements d' (with_height h s);
  law_blocks d s : implements d s -> st_MissingBlocks d = Ok (s_blocks s);
  law_add_blocks d s r : implements d s -> room (s_blockCounter s) 1 -> range_fits r ->
    exists d', st_AddMissingBlocks r d = (d', Ok (LevelDBStore.getNextKey (s_blockCounter s))) /\
      implements d' (with_blocks (LevelDBStore.getNextKey (s_blockCounter s))
        (s_blocks s ++ [NewBlockRangeWithId r (LevelDBStore.getNextKey (s_blockCounter s))]) s);
  law_update_block d s b : implements d s -> br_Id b ∈ br_Id <$> s_blocks s -> range_fits (br_Range b) ->
    exists d', st_UpdateMissingBlockRange b d = (d', Ok tt) /\
      implements d' (with_blocks (s_blockCounter s) (replace_block b <$> s_blocks s) s);
  law_remove_block d s id : implements d s ->
    exists d', st_RemoveMissingBlockRange id d = (d', Ok tt) /\
      implements d' (with_blocks (s_blockCounter s) (remove_block id (s_blocks s)) s);
  law_events d s after limit : implements d s -> 0 < limit ->
    (forall a, after = Some a -> length a = 16%nat) ->
    st_MissingEvents after limit d = Ok (take (Z.to_nat limit) (page_start after (s_events s)));
  (* a page of no events cannot be asked for *)
  law_events_limit d after limit : limit <= 0 -> exists e, st_MissingEvents after limit d = Err e;
  law_count d s : implements d s -> st_MissingEventCount d = Ok (zlen (s_events s));
  law_add_event d s e : implements d s -> room (s_eventCounter s) 1 -> MissingEventCodec.event_fits e ->
    exists d', st_AddMissingEvents [e] d =
        (d', Ok [mkMissingEventWithKey e (LevelDBStore.getNextKey (s_eventCounter s))]) /\
      implements d' (with_events (LevelDBStore.getNextKey (s_eventCounter s))
        (enqueue (s_events s) (e, LevelDBStore.getNextKey (s_eventCounter s))) s);
  law_retry d s now x : implements d s -> x ∈ s_events s ->
    exists d', st_IncrementMissingEventRetryCount now (event_id x) d = (d', Ok tt) /\
      implements d' (with_events (s_eventCounter s) (retry_event (event_id x) <$> s_events s) s);
  law_retry_absent d s now eid : implements d s -> eid ∉ event_id <$> s_events s ->
    exists e, st_IncrementMissingEventRetryCount now eid d = (d, Err e);
  law_remove_event d s eid : implements d s ->
    exists d', st_RemoveMissingEvent eid d = (d', Ok tt) /\
      implements d' (with_events (s_eventCounter s) (without eid (s_events s)) s);
  (* the identifiers of a queue are increasing and sixteen bytes long, and an
     event is in it once *)
  law_ids d s : implements d s -> Forall (fun x => length (mk_Id x) = 16%nat) (s_events s);
  law_sorted d s l1 x l2 y : implements d s -> s_events s = l1 ++ x :: l2 -> y ∈ l1 ->
    Codec.be_decode (mk_Id y) < Codec.be_decode (mk_Id x);
  law_once d s x y : implements d s -> x ∈ s_events s -> y ∈ s_events s -> event_id x = event_id y -> x = y;
  law_stored d s x : implements d s -> x ∈ s_events s ->
    MissingEventCodec.event_fits (mk_Event x) /\ MissingEventCodec.stored_event (mk_Event x) = mk_Event x;
  law_height_fits d s h : implements d s -> s_height s = Some h -> in_s 64 h;
  law_counters d s : implements d s -> length (s_blockCounter s) = 16%nat /\ length (s_eventCounter s) = 16%nat
}.

(** ** The LevelDB store implements it *)

#[global] Instance LevelDB_StateStore `{LevelDB D} : StateStore D := {
  st_LastSeenBlockHeight := LevelDBStore.LastSeenBlockHeight;
  st_SetLastSeenBlockHeight := LevelDBStore.SetLastSeenBlockHeight;
  st_MissingBlocks := LevelDBStore.MissingBlocks;
  st_AddMissingBlocks := LevelDBStore.AddMissingBlocks;
  st_UpdateMissingBlockRange := LevelDBStore.UpdateMissingBlockRange;
  st_RemoveMissingBlockRange := LevelDBStore.RemoveMissingBlockRange;
  st_MissingEvents := LevelDBStore.MissingEvents;
  st_MissingEventCount d := Ok (LevelDBStore.MissingEventCount d);
  st_AddMissingEvents := LevelDBStore.AddMissingEvents;
  st_IncrementMissingEventRetryCount := LevelDBStore.IncrementMissingEventRetryCount;
  st_RemoveMissingEvent := LevelDBStore.RemoveMissingEvent
}.

Lemma queue_once m q x y : events_queue m q -> x ∈ q -> y ∈ q -> event_id x = event_id y -> x = y.
Proof.
  intros Hq Hx Hy E. apply (queue_id_inj _ _ _ _ Hq Hx Hy).
  pose proof (queue_indexed _ _ _ Hq Hx) as H1. rewrite E, (queue_indexed _ _ _ Hq Hy) in H1. congruence.
Qed.

#[global] Instance LevelDB_StateStoreLaws `{LevelDBLaws D} : StateStoreLaws D.
Proof.
  refine {| implements d s := represents (ldb d) s |}; cbn.
  - apply LastSeenBlockHeight_run.
  - apply SetLastSeenBlockHeight_run.
  - intros d s Hs. eapply MissingBlocks_run, Hs.
  - apply AddMissingBlocks_run.
  - apply UpdateMissingBlockRange_run.
  - apply RemoveMissingBlockRange_run.
  - intros d s [a|] limit Hs Hlim Ha.
    + by apply MissingEvents_after; [apply Hs|apply Ha|].
    + by apply MissingEvents_first; [apply Hs|].
  - intros d after limit Hlim. unfold LevelDBStore.MissingEvents. rewrite (proj2 (Z.leb_le _ _)) by lia. by eexists.
  - intros d s Hs. f_equal. by apply MissingEventCount_run, Hs.
  - intros d s e Hs Hr Hf. apply (AddMissingEvents_run d s [e]); [done..|apply NoDup_singleton|by constructor].
  - intros d s now x. apply Increment_run.
  - intros d s now eid. apply Increment_absent.
  - intros d s eid. apply RemoveMissingEvent_run.
  - intros d s Hs. eapply List.Forall_impl; [|apply (eq_wf _ _ (rep_events _ _ Hs))]. by intros x (_ & _ & ?).
  - intros d s l1 x l2 y Hs E Hy. pose proof (rep_events _ _ Hs) as Hq. rewrite E in Hq. by eapply queue_sorted.
  - intros d s x y Hs. eapply queue_once, Hs.
  - intros d s x Hs Hx. by destruct (queue_wf _ _ _ (rep_events _ _ Hs) Hx) as (? & ? & _).
  - intros d s h Hs. apply (rep_height_fits _ _ Hs).
  - intros d s Hs. split; [apply (bs_counter _ _ _ (rep_blocks _ _ Hs))|apply (rep_counter _ _ Hs)].
Defined.
