(* ===== verification/Repository.v ===== *)
(** * The event repository

    [offchain-interface/pkg/repository] declares the interface the off-chain
    node keeps its events behind, and [mongodb/event.go] implements it.  The
    interface is a class of operations and a class of laws; the MongoDB
    repository is modelled over the operations of the driver, of which the laws
    state the documented behaviour, and proved to satisfy the interface. *)

From S2P Require Import Prelude Types Text Bson Multiplexer.
From Corelib Require Import Init.Byte.

Definition ErrEventAlreadyStored : error := Sentinel (bz "event already stored").

(** ** The interface ([repository.go]) *)

Class EventRepository (R : Type) : Type := {
  er_GetEventById : EventHash -> R -> result (option StoredEvent);
  er_GetEventsById : list EventHash -> R -> result (list StoredEvent);
  er_Store : StoredEvent -> M R unit
}.

Definition stored_id (e : StoredEvent) : EventHash := EventId (st_Metadata e).

(** A repository holds at most one event for each identifier.  It may round an
    event, but keeps what identifies it and its data.  A store that fails may
    have stored the event nevertheless. *)
Class EventRepositoryLaws (R : Type) `{EventRepository R} : Type := {
  er_events : R -> list StoredEvent;
  er_wf : R -> Prop;
  er_storable : StoredEvent -> Prop;
  er_form : StoredEvent -> StoredEvent;
  law_form e : stored_id (er_form e) = stored_id e /\
    md_Principal (st_Metadata (er_form e)) = md_Principal (st_Metadata e) /\
    ed_EventData (st_EventWithData (er_form e)) = ed_EventData (st_EventWithData e) /\
    st_TxHash (er_form e) = st_TxHash e;
  law_unique r : er_wf r -> NoDup (stored_id <$> er_events r);
  law_GetEventById r id o : er_wf r -> er_GetEventById id r = Ok o ->
    match o with
    | Some e => e ∈ er_events r /\ stored_id e = id
    | None => id ∉ stored_id <$> er_events r
    end;
  law_GetEventsById r ids es : er_wf r -> er_GetEventsById ids r = Ok es ->
    es ≡ₚ filter (fun e => stored_id e ∈ ids) (er_events r);
  law_Store r r' e o : er_wf r -> er_storable e -> er_Store e r = (r', o) ->
    er_wf r' /\
    (er_events r' = er_events r \/
     (stored_id e ∉ stored_id <$> er_events r) /\ er_events r' = er_events r ++ [er_form e]) /\
    (o = Ok tt -> er_events r' = er_events r ++ [er_form e]) /\
    (forall err, o = Err err -> errors_Is err ErrEventAlreadyStored = true -> stored_id e ∈ stored_id <$> er_events r)
}.

(** ** Queries of MongoDB

    What a query document selects, for the operators the repository uses.  The
    paths it uses lead to fields of nested documents, never through arrays. *)
Module Query.

Fixpoint lookup_path (path : list bytes) (v : bson) : option bson :=
  match path with
  | [] => Some v
  | k :: rest =>
      match v with
      | BDoc fs => v ← EventDoc.lookup_field k fs; lookup_path rest v
      | _ => None
      end
  end.

(** [a.b.c] *)
Definition at_path (path : bytes) (v : bson) : option bson := lookup_path (Validators.Split "."%byte path) v.

Definition scalar_eqb (a b : bson) : bool :=
  match a, b with
  | BNull, BNull => true
  | BInt x, BInt y => x =? y
  | BStr x, BStr y => bool_decide (x = y)
  | BDate x, BDate y => x =? y
  | BObjectId x, BObjectId y => x =? y
  | _, _ => false
  end.

Definition equals (v : option bson) (x : bson) : bool :=
  match v with Some v => scalar_eqb v x | None => false end.

(** Comparisons select values of the same type only. *)
Definition less (v : option bson) (x : bson) : bool :=
  match v, x with
  | Some (BDate a), BDate b => a <? b
  | Some (BObjectId a), BObjectId b => a <? b
  | _, _ => false
  end.

(** [$lte] on object identifiers and [$gt] on dates. *)
Definition at_most (v : option bson) (x : bson) : bool :=
  match v, x with Some (BObjectId a), BObjectId b => a <=? b | _, _ => false end.
Definition greater (v : option bson) (x : bson) : bool :=
  match v, x with Some (BDate a), BDate b => b <? a | _, _ => false end.

Definition operator (op : bytes) (v : option bson) (x : bson) : bool :=
  if bool_decide (op = bz "$ne") then negb (equals v x)
  else if bool_decide (op = bz "$lt") then less v x
  else if bool_decide (op = bz "$in") then
    match x with BArr xs => existsb (equals v) xs | _ => false end
  else if bool_decide (op = bz "$lte") then at_most v x
  else if bool_decide (op = bz "$gt") then greater v x
  else false.

Definition condition (v : option bson) (c : bson) : bool :=
  match c with
  | BDoc ops => forallb (fun '(op, x) => operator op v x) ops
  | _ => equals v c
  end.

(** All the conditions of a query hold. *)
Fixpoint matches (q doc : bson) : bool :=
  match q with
  | BDoc fs =>
      forallb (fun '(k, c) =>
        if bool_decide (k = bz "$and") then
          match c with BArr qs => forallb (fun q => matches q doc) qs | _ => false end
        else if bool_decide (k = bz "$or") then
          match c with BArr qs => existsb (fun q => matches q doc) qs | _ => false end
        else condition (at_path k doc) c) fs
  | _ => false
  end.

End Query.

(** ** The driver *)

Inductive find_one : Type :=
| Found (doc : bson)
| ErrNoDocuments
| FindFailed (e : error).

(** The outcome of an insertion: a [WriteException] carries the codes of its
    write errors, of which there are none when only the write concern failed. *)
Inductive insert_one : Type :=
| Inserted
| WriteException (codes : list Z)
| InsertFailed (e : error).

Class MongoCollection (D : Type) : Type := {
  mongo_FindOne : bson -> D -> find_one;
  mongo_Find : bson -> D -> result (list bson);
  mongo_InsertOne : bson -> D -> D * insert_one;
  mongo_DeleteMany : bson -> M D Z;
  mongo_Aggregate : list bson -> D -> result (list bson);
  mongo_CountDocuments : D -> result Z
}.

(** ** The MongoDB repository ([mongodb/event.go]) *)
Module MongoEvents.

Definition KeyEventId : bytes := bz "metadata.event_id".
Definition KeyTimestamp : bytes := bz "metadata.received_time".
Definition KeyPrincipal : bytes := bz "metadata.principal".
Definition KeyChannel : bytes := bz "event.event.system.channel".
Definition KeyEventTypeId : bytes := bz "event.event.system.event_id".
Definition KeyProvider : bytes := bz "event.event.system.provider.guid".
Definition KeyTxHash : bytes := bz "tx_hash".

Section Ops.
Context `{UuidText} {D : Type} `{MongoCollection D}.

Definition find_event (filter : bson) (m : D) : result (option StoredEvent) :=
  match mongo_FindOne filter m with
  | ErrNoDocuments => Ok None
  | FindFailed e => Err e
  | Found doc => let* event := EventDoc.dec_event doc in Ok (Some event)
  end.

Definition GetEventById (id : EventHash) (m : D) : result (option StoredEvent) :=
  find_event (single KeyEventId (TxHash.MarshalBSONValue id)) m.

Definition idFilter (ids : list EventHash) : bson :=
  single KeyEventId (single (bz "$in") (BArr (TxHash.MarshalBSONValue <$> ids))).

Definition GetEventsById (ids : list EventHash) (m : D) : result (list StoredEvent) :=
  let* docs := mongo_Find (idFilter ids) m in
  EventDoc.dec_list EventDoc.dec_event docs.

Definition GetEventByTx (txHash : TxHash) (m : D) : result (option StoredEvent) :=
  find_event (single KeyTxHash (TxHash.MarshalBSONValue txHash)) m.

Definition EventCount (m : D) : result Z := mongo_CountDocuments m.

Definition duplicateKey : Z := 11000.

(** [ex.WriteErrors[0]] is out of range when only the write concern failed. *)
Definition Store (event : StoredEvent) : M D unit := fun m =>
  match mongo_InsertOne (EventDoc.event_doc event) m with
  | (m, Inserted) => (m, Ok tt)
  | (m, InsertFailed e) => (m, Err e)
  | (m, WriteException codes) =>
      match codes with
      | [] => (m, Panic (bz "index out of range [0] with length 0"))
      | code :: _ =>
          if code =? duplicateKey then (m, Err ErrEventAlreadyStored)
          else (m, Err (NewError (bz "write exception")))
      end
  end.

End Ops.

#[global] Instance Mongo_EventRepository `{UuidText} `{MongoCollection D} : EventRepository D := {
  er_GetEventById := GetEventById;
  er_GetEventsById := GetEventsById;
  er_Store := Store
}.

End MongoEvents.

(** *** Documented behaviour of the driver *)

Definition with_id (oid : Z) (doc : bson) : bson :=
  match doc with BDoc fs => BDoc ((bz "_id", BObjectId oid) :: fs) | _ => doc end.

(** Two documents with the same event identifier. *)
Definition same_key (a b : bson) : bool :=
  match Query.at_path MongoEvents.KeyEventId a with
  | Some v => Query.equals (Query.at_path MongoEvents.KeyEventId b) v
  | None => false
  end.

Class MongoLaws (D : Type) `{MongoCollection D} : Type := {
  documents : D -> list bson;
  law_FindOne q d : match mongo_FindOne q d with
    | Found doc => doc ∈ documents d /\ Query.matches q doc = true
    | ErrNoDocuments => Forall (fun doc => Query.matches q doc = false) (documents d)
    | FindFailed _ => True
    end;
  law_Find q d docs : mongo_Find q d = Ok docs -> docs ≡ₚ filter (fun doc => Query.matches q doc = true) (documents d);
  (* the unique index on the event identifier *)
  law_InsertOne doc d d' o : mongo_InsertOne doc d = (d', o) ->
    (documents d' = documents d \/
     Forall (fun other => same_key doc other = false) (documents d) /\
     exists oid, documents d' = documents d ++ [with_id oid doc]) /\
    (o = Inserted -> exists oid, documents d' = documents d ++ [with_id oid doc]) /\
    (forall rest, o = WriteException (MongoEvents.duplicateKey :: rest) ->
       Exists (fun other => same_key doc other = true) (documents d)) /\
    (forall e, o = InsertFailed e -> errors_Is e ErrEventAlreadyStored = false);
  law_DeleteMany q d d' o : mongo_DeleteMany q d = (d', o) ->
    match o with
    | Ok _ => documents d' = filter (fun doc => Query.matches q doc = false) (documents d)
    | Err _ => exists gone : bson -> bool, documents d' = filter (fun doc => gone doc = false) (documents d) /\
                 forall doc, gone doc = true -> Query.matches q doc = true
    | Panic _ => False
    end
}.

(** ** The repository satisfies the interface *)
Module MongoFacts.
Import MongoEvents.

Section Facts.
Context `{UuidLaws} {D : Type} `{MongoLaws D}.
Implicit Types (d : D) (e : StoredEvent).

(** The documents of some events, which are well-formed and have different
    identifiers. *)
Record holds (docs : list bson) (evs : list StoredEvent) : Prop := {
  hd_docs : Forall2 (fun doc e => exists oid, doc = EventDoc.stored_doc oid e) docs evs;
  hd_ok : Forall EventDoc.guids_ok evs;
  hd_unique : NoDup (stored_id <$> evs)
}.

Definition decoded (docs : list bson) : list StoredEvent :=
  omap (fun doc => match EventDoc.dec_event doc with Ok e => Some e | _ => None end) docs.

Lemma decoded_form docs evs :
  Forall2 (fun doc e => exists oid, doc = EventDoc.stored_doc oid e) docs evs -> Forall EventDoc.guids_ok evs ->
  decoded docs = EventDoc.stored_form <$> evs.
Proof.
  intros Hd Hok. unfold decoded. induction Hd as [|doc e docs evs [oid ->] Hd IH]; [done|].
  apply List.Forall_cons_iff in Hok as [He Hok]. cbn [omap list_omap fmap list_fmap].
  rewrite EventDoc.dec_stored_doc by done. f_equal. by apply IH.
Qed.

Lemma key_of_doc oid e : Query.at_path KeyEventId (EventDoc.stored_doc oid e) = Some (BStr (Hex.EncodeToString (stored_id e))).
Proof. reflexivity. Qed.

Lemma key_of_new e : Query.at_path KeyEventId (EventDoc.event_doc e) = Some (BStr (Hex.EncodeToString (stored_id e))).
Proof. reflexivity. Qed.

Lemma hex_eqb a b : bool_decide (Hex.EncodeToString a = Hex.EncodeToString b) = bool_decide (a = b).
Proof. apply bool_decide_ext. split; [apply Hex.encode_inj|by intros ->]. Qed.

(** The queries by identifier. *)
Lemma matches_id oid e id :
  Query.matches (single KeyEventId (TxHash.MarshalBSONValue id)) (EventDoc.stored_doc oid e) = bool_decide (stored_id e = id).
Proof.
  unfold single. cbn [Query.matches forallb]. rewrite !bool_decide_false by done.
  rewrite key_of_doc. cbn [Query.condition Query.equals Query.scalar_eqb TxHash.MarshalBSONValue].
  by rewrite andb_true_r, hex_eqb.
Qed.

Lemma existsb_hex id (ids : list bytes) :
  existsb (Query.equals (Some (BStr (Hex.EncodeToString id)))) (TxHash.MarshalBSONValue <$> ids) = bool_decide (id ∈ ids).
Proof.
  induction ids as [|x ids IH]; [by rewrite bool_decide_false by apply not_elem_of_nil|].
  cbn [fmap list_fmap existsb]. change (list_fmap _ _ TxHash.MarshalBSONValue ids) with (TxHash.MarshalBSONValue <$> ids).
  rewrite IH. cbn [Query.equals Query.scalar_eqb TxHash.MarshalBSONValue]. rewrite hex_eqb.
  rewrite (bool_decide_ext _ _ (elem_of_cons ids id x)), bool_decide_or. done.
Qed.

Lemma matches_ids oid e ids :
  Query.matches (idFilter ids) (EventDoc.stored_doc oid e) = bool_decide (stored_id e ∈ ids).
Proof.
  unfold idFilter, single. cbn [Query.matches forallb]. rewrite !bool_decide_false by done.
  rewrite key_of_doc. cbn [Query.condition forallb]. unfold Query.operator. rewrite !bool_decide_false by done.
  rewrite bool_decide_true by done. by rewrite !andb_true_r, existsb_hex.
Qed.

Lemma same_key_doc oid e e' :
  same_key (EventDoc.event_doc e) (EventDoc.stored_doc oid e') = bool_decide (stored_id e' = stored_id e).
Proof. unfold same_key. rewrite key_of_new, key_of_doc. cbn [Query.equals Query.scalar_eqb]. by rewrite hex_eqb. Qed.

(** Selecting documents selects their events. *)
Lemma filter_docs (f : bson -> bool) (g : StoredEvent -> bool) docs evs :
  (forall oid e, f (EventDoc.stored_doc oid e) = g e) ->
  Forall2 (fun doc e => exists oid, doc = EventDoc.stored_doc oid e) docs evs ->
  Forall2 (fun doc e => exists oid, doc = EventDoc.stored_doc oid e)
    (filter (fun doc => f doc = true) docs) (filter (fun e => g e = true) evs).
Proof.
  intros Hfg Hd. induction Hd as [|doc e docs evs [oid ->] Hd IH]; [constructor|].
  rewrite !filter_cons. rewrite Hfg. destruct (g e); repeat case_decide; try done. constructor; eauto.
Qed.

Lemma holds_ids docs evs : holds docs evs -> stored_id <$> decoded docs = stored_id <$> evs.
Proof.
  intros [Hd Hok _]. rewrite (decoded_form docs evs) by done. rewrite <- list_fmap_compose.
  by apply list_fmap_ext.
Qed.

(** A document of the collection and its event. *)
Lemma holds_doc docs evs doc : holds docs evs -> doc ∈ docs ->
  exists oid e, doc = EventDoc.stored_doc oid e /\ e ∈ evs /\ EventDoc.guids_ok e.
Proof.
  intros [Hd Hok _] Hin. apply list_elem_of_lookup_1 in Hin as [i Hi].
  destruct (Forall2_lookup_l _ _ _ _ _ Hd Hi) as (e & He & oid & ->). exists oid, e.
  apply list_elem_of_lookup_2 in He. split; [done|]. split; [done|].
  by apply (proj1 (List.Forall_forall _ _) Hok), list_elem_of_In.
Qed.

Lemma holds_event docs evs e : holds docs evs -> e ∈ evs -> exists oid, EventDoc.stored_doc oid e ∈ docs.
Proof.
  intros [Hd _ _] Hin. apply list_elem_of_lookup_1 in Hin as [i Hi].
  destruct (Forall2_lookup_r _ _ _ _ _ Hd Hi) as (doc & Hdoc & oid & ->). exists oid.
  by apply list_elem_of_lookup_2 in Hdoc.
Qed.

Lemma in_ids e evs : e ∈ evs -> stored_id e ∈ stored_id <$> (evs : list StoredEvent).
Proof. intros. apply list_elem_of_fmap. eauto. Qed.

Lemma holds_app docs evs e oid : holds docs evs -> EventDoc.guids_ok e -> stored_id e ∉ stored_id <$> evs ->
  holds (docs ++ [EventDoc.stored_doc oid e]) (evs ++ [e]).
Proof.
  intros [Hd Hok Hnd] He Hnew. split.
  - apply Forall2_app; [done|]. constructor; [by exists oid|constructor].
  - apply Forall_app. split; [done|]. by constructor.
  - rewrite fmap_app. apply list.NoDup_app. split; [done|]. split; [|apply NoDup_singleton].
    intros x Hx Hx'. apply list_elem_of_singleton in Hx' as ->. done.
Qed.

Lemma holds_insert docs evs e oid : holds docs evs -> EventDoc.guids_ok e ->
  Forall (fun other => same_key (EventDoc.event_doc e) other = false) docs ->
  holds (docs ++ [EventDoc.stored_doc oid e]) (evs ++ [e]) /\ (stored_id e ∉ stored_id <$> evs).
Proof.
  intros Hh He Hfree. assert (stored_id e ∉ stored_id <$> evs) as Hnew.
  { intros Hin. apply list_elem_of_fmap in Hin as (e' & Hid & Hin). destruct (holds_event _ _ _ Hh Hin) as (oid' & Hdoc).
    pose proof (proj1 (List.Forall_forall _ _) Hfree _ (proj1 (list_elem_of_In _ _) Hdoc)) as Hk.
    cbn beta in Hk. rewrite same_key_doc in Hk. by rewrite bool_decide_true in Hk. }
  split; [|done]. by apply holds_app.
Qed.

Lemma decoded_app docs1 docs2 : decoded (docs1 ++ docs2) = decoded docs1 ++ decoded docs2.
Proof. apply omap_app. Qed.

Lemma decoded_one oid e : EventDoc.guids_ok e -> decoded [EventDoc.stored_doc oid e] = [EventDoc.stored_form e].
Proof. intros He. unfold decoded. cbn [omap list_omap]. by rewrite EventDoc.dec_stored_doc. Qed.

Lemma Mongo_GetEventById d evs id o : holds (documents d) evs -> GetEventById id d = Ok o ->
  match o with
  | Some e => e ∈ decoded (documents d) /\ stored_id e = id
  | None => id ∉ stored_id <$> decoded (documents d)
  end.
Proof.
  intros Hh E. unfold GetEventById, find_event in E.
  pose proof (law_FindOne (single KeyEventId (TxHash.MarshalBSONValue id)) d) as Hf.
  destruct (mongo_FindOne _ d) as [doc| |err]; [| |done].
  - destruct Hf as [Hin Hm]. destruct (holds_doc _ _ _ Hh Hin) as (oid & e & -> & He & Hok).
    rewrite EventDoc.dec_stored_doc in E by done. injection E as <-. rewrite matches_id in Hm.
    apply bool_decide_eq_true in Hm. split; [|done].
    destruct Hh as [Hd Hoks _]. rewrite (decoded_form _ _ Hd Hoks). apply list_elem_of_fmap. eauto.
  - injection E as <-. rewrite (holds_ids _ _ Hh). intros Hin. apply list_elem_of_fmap in Hin as (e & -> & He).
    destruct (holds_event _ _ _ Hh He) as (oid & Hdoc).
    pose proof (proj1 (List.Forall_forall _ _) Hf _ (proj1 (list_elem_of_In _ _) Hdoc)) as Hm.
    cbn beta in Hm. rewrite matches_id in Hm. by rewrite bool_decide_true in Hm.
Qed.

Lemma dec_list_ok docs : Forall (fun doc => is_ok (EventDoc.dec_event doc) = true) docs ->
  EventDoc.dec_list EventDoc.dec_event docs = Ok (decoded docs).
Proof.
  unfold decoded. induction docs as [|doc docs IH]; [done|]. intros [Hd Hr]%List.Forall_cons_iff.
  cbn [EventDoc.dec_list omap list_omap]. destruct (EventDoc.dec_event doc); [|done..]. cbn [res_bind]. by rewrite IH.
Qed.

Lemma Mongo_GetEventsById d evs ids es : holds (documents d) evs -> GetEventsById ids d = Ok es ->
  es ≡ₚ filter (fun e => stored_id e ∈ ids) (decoded (documents d)).
Proof.
  intros Hh E. unfold GetEventsById in E. apply res_bind_ok in E as (docs & Hf & E).
  apply law_Find in Hf. assert (EventDoc.dec_list EventDoc.dec_event docs = Ok (decoded docs)) as E'.
  { apply dec_list_ok. apply List.Forall_forall. intros doc Hin. apply list_elem_of_In in Hin. rewrite Hf in Hin.
    apply list_elem_of_filter in Hin as [_ Hin]. destruct (holds_doc _ _ _ Hh Hin) as (oid & e & -> & _ & Hok).
    by rewrite EventDoc.dec_stored_doc. }
  rewrite E' in E. injection E as <-. unfold decoded. rewrite Hf.
  pose proof (filter_docs (Query.matches (idFilter ids)) (fun e => bool_decide (stored_id e ∈ ids)) _ _
                (fun oid e => matches_ids oid e ids) (hd_docs _ _ Hh)) as Hd.
  fold (decoded (filter (fun doc => Query.matches (idFilter ids) doc = true) (documents d))). fold (decoded (documents d)).
  rewrite (decoded_form _ _ Hd), (decoded_form _ _ (hd_docs _ _ Hh) (hd_ok _ _ Hh)).
  - apply reflexive_eq. generalize evs. intros l. induction l as [|e l IH]; [done|].
    rewrite filter_cons. cbn [fmap list_fmap]. rewrite filter_cons. cbn [fmap list_fmap] in IH.
    destruct (decide (stored_id e ∈ ids)) as [Hi|Hi].
    + rewrite (bool_decide_true _ Hi), decide_True by done. rewrite decide_True by done. cbn [fmap list_fmap]. by f_equal.
    + rewrite (bool_decide_false _ Hi), !decide_False by done. done.
  - apply List.Forall_forall. intros e He. apply list_elem_of_In, list_elem_of_filter in He as [_ He].
    by apply (proj1 (List.Forall_forall _ _) (hd_ok _ _ Hh)), list_elem_of_In.
Qed.

Lemma Mongo_Store d d' evs e o : holds (documents d) evs -> EventDoc.guids_ok e -> Store e d = (d', o) ->
  (documents d' = documents d \/
   (stored_id e ∉ stored_id <$> evs) /\ exists oid, documents d' = documents d ++ [EventDoc.stored_doc oid e]) /\
  (o = Ok tt -> exists oid, documents d' = documents d ++ [EventDoc.stored_doc oid e]) /\
  (forall err, o = Err err -> errors_Is err ErrEventAlreadyStored = true -> stored_id e ∈ stored_id <$> evs).
Proof.
  intros Hh He E. unfold Store in E. destruct (mongo_InsertOne _ d) as [d1 w] eqn:Ei.
  assert (d1 = d') as ->. { destruct w as [|[|c cs]|]; [..|by injection E]; [by injection E..|]. case_match; by injection E. }
  destruct (law_InsertOne _ _ _ _ Ei) as (Hc & Hi & Hdup & Hfail). split; [|split].
  - destruct Hc as [->|[Hfree [oid ->]]]; [by left|right]. split; [|by exists oid].
    by apply (holds_insert _ _ _ oid Hh He Hfree).
  - intros ->. destruct w as [|[|c cs]|]; [by apply Hi|done| |done]. case_match; done.
  - intros x -> Hx. destruct w as [|[|c cs]|err]; [done|done| |].
    + case_match eqn:Ec; [|by injection E as <-]. apply Z.eqb_eq in Ec as ->. specialize (Hdup cs eq_refl).
      apply List.Exists_exists in Hdup as (doc & Hin & Hk). apply list_elem_of_In in Hin.
      destruct (holds_doc _ _ _ Hh Hin) as (oid & e' & -> & He' & _). rewrite same_key_doc in Hk.
      apply bool_decide_eq_true in Hk as <-. by apply in_ids.
    + injection E as <-. by rewrite (Hfail _ eq_refl) in Hx.
Qed.

Lemma Mongo_Store_events d d' evs e o : holds (documents d) evs -> EventDoc.guids_ok e -> Store e d = (d', o) ->
  (exists evs', holds (documents d') evs') /\
  (decoded (documents d') = decoded (documents d) \/
   (stored_id e ∉ stored_id <$> decoded (documents d)) /\
   decoded (documents d') = decoded (documents d) ++ [EventDoc.stored_form e]) /\
  (o = Ok tt -> decoded (documents d') = decoded (documents d) ++ [EventDoc.stored_form e]) /\
  (forall err, o = Err err -> errors_Is err ErrEventAlreadyStored = true -> stored_id e ∈ stored_id <$> decoded (documents d)).
Proof.
  intros Hh He E. destruct (Mongo_Store d d' evs e o Hh He E) as (Hc & Hok & Hdup). rewrite !(holds_ids _ _ Hh).
  assert (forall oid, documents d' = documents d ++ [EventDoc.stored_doc oid e] ->
            decoded (documents d') = decoded (documents d) ++ [EventDoc.stored_form e]) as Hdec.
  { intros oid ->. by rewrite decoded_app, decoded_one. }
  split; [|split; [|split]]; [| |by intros ->; destruct (Hok eq_refl) as [oid ?]; eauto|done].
  - destruct Hc as [->|[Hnew [oid ->]]]; [by exists evs|]. exists (evs ++ [e]).
    by apply holds_app.
  - destruct Hc as [->|[Hnew [oid Ed]]]; [by left|right]. split; [done|]. by eapply Hdec.
Qed.

#[global] Instance Mongo_EventRepositoryLaws : EventRepositoryLaws D.
Proof.
  refine {| er_events d := decoded (documents d); er_wf d := exists evs, holds (documents d) evs;
            er_storable := EventDoc.guids_ok; er_form := EventDoc.stored_form |}.
  - done.
  - intros d [evs Hh]. rewrite (holds_ids _ _ Hh). apply Hh.
  - intros d id o [evs Hh]. by eapply Mongo_GetEventById.
  - intros d ids es [evs Hh]. by eapply Mongo_GetEventsById.
  - intros d d' e o [evs Hh]. by eapply Mongo_Store_events.
Defined.

End Facts.
End MongoFacts.
