(* ===== verification/Pool.v ===== *)
(** * The connection pool

    Models [common/pkg/pool/pool.go], the round-robin pool the clients of the
    chain take their connections from.  A connection is a value of a comparable
    type [T].  The clock and the test function are the environment of a call:
    [env i] is the moment of its [i]-th test.  The mutex is released while a
    connection is tested, so a call to [Get] is two critical sections, [pick]
    and [discard], which calls of several goroutines interleave. *)

From S2P Require Import Prelude.

Module Pool.

(** The state of the world at one moment: the clock in nanoseconds, and what
    the test function answers. *)
Record Moment (T : Type) : Type := mkMoment {
  now : Z;
  alive : T -> bool
}.
Arguments mkMoment {T}.
Arguments now {T}.
Arguments alive {T}.

(** [closeCh] is nil when no interval was configured; otherwise it is open or
    closed. *)
Record Pool (T : Type) `{Countable T} : Type := mkPool {
  idx : nat;
  conns : list T;
  deadConns : list T;
  lastTestTime : gmap T Z;
  livenessValidThreshold : Z;
  closeCh : option bool
}.
Arguments mkPool {T _ _}.
Arguments idx {T _ _}.
Arguments conns {T _ _}.
Arguments deadConns {T _ _}.
Arguments lastTestTime {T _ _}.
Arguments livenessValidThreshold {T _ _}.
Arguments closeCh {T _ _}.

Definition ErrPoolEmpty : error := Sentinel (bz "pool is empty").

Section Ops.
Context {T : Type} `{Countable T}.

Definition set_idx (i : nat) (p : Pool T) : Pool T :=
  mkPool i (conns p) (deadConns p) (lastTestTime p) (livenessValidThreshold p) (closeCh p).
Definition set_conns (alive dead : list T) (p : Pool T) : Pool T :=
  mkPool (idx p) alive dead (lastTestTime p) (livenessValidThreshold p) (closeCh p).
Definition set_tested (c : T) (t : Z) (p : Pool T) : Pool T :=
  mkPool (idx p) (conns p) (deadConns p) (<[c := t]> (lastTestTime p)) (livenessValidThreshold p) (closeCh p).
Definition set_closed (p : Pool T) : Pool T :=
  mkPool (idx p) (conns p) (deadConns p) (lastTestTime p) (livenessValidThreshold p) (Some true).

(** [append(s[:i], s[i+1:]...)]: the second slice expression is out of range
    when [i] is not an index. *)
Definition remove_at (i : nat) (s : list T) : result (list T) :=
  if (S i <=? length s)%nat then Ok (take i s ++ drop (S i) s)
  else Panic (bz "slice bounds out of range").

(** ** Adding and removing connections *)

(** The loop of [Add]: the connections that passed, those that failed, and the
    times of the tests. *)
Fixpoint test_all (env : nat -> Moment T) (i : nat) (cs : list T) (p : Pool T) : Pool T * list T * list T :=
  match cs with
  | [] => (p, [], [])
  | c :: rest =>
      let '(p, ok, dead) := test_all env (S i) rest (set_tested c (now (env i)) p) in
      if alive (env i) c then (p, c :: ok, dead) else (p, ok, c :: dead)
  end.

Definition Add (env : nat -> Moment T) (cs : list T) (p : Pool T) : Pool T :=
  let '(p, ok, dead) := test_all env 0 cs p in
  set_conns (conns p ++ ok) (deadConns p ++ dead) p.

Definition NewPool (env : nat -> Moment T) (cs : list T) (threshold interval : Z) : Pool T :=
  let p := mkPool 0 [] [] ∅ threshold None in
  let p := match cs with [] => p | _ => Add env cs p end in
  if 0 <? interval
  then mkPool (idx p) (conns p) (deadConns p) (lastTestTime p) (livenessValidThreshold p) (Some false)
  else p.

(** The list without the first occurrence of a connection. *)
Fixpoint remove_first (conn : T) (cs : list T) : option (list T) :=
  match cs with
  | [] => None
  | c :: rest => if bool_decide (c = conn) then Some rest else cons c <$> remove_first conn rest
  end.

Definition Remove (conn : T) (p : Pool T) : Pool T :=
  match remove_first conn (conns p) with
  | Some cs => set_conns cs (deadConns p) p
  | None =>
      match remove_first conn (deadConns p) with
      | Some cs => set_conns (conns p) cs p
      | None => p
      end
  end.

(** ** Taking a connection *)

(** [ok && time.Since(lastTested) <= p.livenessValidThreshold]. *)
Definition fresh (t : Z) (c : T) (p : Pool T) : bool :=
  match lastTestTime p !! c with
  | Some lastTested => t - lastTested <=? livenessValidThreshold p
  | None => false
  end.

(** The first critical section of [Get]: the next connection, and whether it
    need not be tested. *)
Definition pick (t : Z) : M (Pool T) (T * bool) := fun p =>
  match conns p with
  | [] => (p, Err ErrPoolEmpty)
  | _ =>
      let i := if (length (conns p) <=? S (idx p))%nat then 0%nat else S (idx p) in
      match conns p !! i with
      | Some conn => (set_idx i p, Ok (conn, fresh t conn p))
      | None => (set_idx i p, Panic (bz "index out of range"))
      end
  end.

(** The second one: the connection at the current index is removed, the one
    that was tested becomes a dead one. *)
Definition discard (conn : T) : M (Pool T) unit := fun p =>
  match remove_at (idx p) (conns p) with
  | Ok cs => (set_conns cs (deadConns p ++ [conn]) p, Ok tt)
  | Err e => (p, Err e)
  | Panic w => (p, Panic w)
  end.

(** A call that no other goroutine interferes with.  Every round but the last
    removes a connection. *)
Fixpoint Get_from (env : nat -> Moment T) (fuel i : nat) : M (Pool T) T :=
  match fuel with
  | O => fun p => (p, Panic (bz "out of fuel"))
  | S fuel =>
      do (conn, valid) <- pick (now (env i)) ;;
      if valid then m_ret conn
      else if alive (env i) conn then m_ret conn
      else do _ <- discard conn ;; Get_from env fuel (S i)
  end.

Definition Get (env : nat -> Moment T) : M (Pool T) T := fun p =>
  Get_from env (S (length (conns p))) 0 p.

(** ** Taking all connections

    The loop ranges over the slice as it was when the loop began, [arr], but
    the removals shift the elements of the array it shares with [p.conns]. *)
Fixpoint getAll_loop (env : nat -> Moment T) (rounds i : nat) (arr acc : list T) : M (Pool T) (list T) :=
  match rounds with
  | O => m_ret acc
  | S rounds => fun p =>
      match arr !! i with
      | None => (p, Panic (bz "index out of range"))
      | Some conn =>
          let acc := if fresh (now (env i)) conn p then acc ++ [conn] else acc in
          if alive (env i) conn then getAll_loop env rounds (S i) arr (acc ++ [conn]) p
          else
            match discard conn p with
            | (p, Ok _) => getAll_loop env rounds (S i) (conns p ++ drop (length (conns p)) arr) acc p
            | (p, Err e) => (p, Err e)
            | (p, Panic w) => (p, Panic w)
            end
      end
  end.

Definition GetAll (env : nat -> Moment T) (includeDead : bool) : M (Pool T) (list T) := fun p =>
  if includeDead then (p, Ok (conns p ++ deadConns p))
  else getAll_loop env (length (conns p)) 0 (conns p) [] p.

(** ** Closing, and testing dead connections *)

(** The destructors run concurrently; [order] is the order in which they
    return, and the first error is the result. *)
Definition Close (destructorFunc : T -> option error) (order : list T) : M (Pool T) unit := fun p =>
  match closeCh p with
  | Some true => (p, Panic (bz "close of closed channel"))
  | ch =>
      let p := match ch with Some _ => set_closed p | None => p end in
      match head (omap destructorFunc order) with
      | Some e => (p, Err e)
      | None => (p, Ok tt)
      end
  end.

(** One tick of [startDeadConnTester]: the indices from [i - 1] down to 0. *)
Fixpoint retest (env : nat -> Moment T) (i : nat) : M (Pool T) unit :=
  match i with
  | O => m_ret tt
  | S i => fun p =>
      match deadConns p !! i with
      | None => (p, Panic (bz "index out of range"))
      | Some c =>
          if alive (env i) c then
            match remove_at i (deadConns p) with
            | Ok dead => retest env i (set_conns (conns p ++ [c]) dead p)
            | Err e => (p, Err e)
            | Panic w => (p, Panic w)
            end
          else retest env i p
      end
  end.

Definition testDeadConns (env : nat -> Moment T) : M (Pool T) unit := fun p =>
  retest env (length (deadConns p)) p.

(** ** Concurrent calls

    What a goroutine that called [Get] does next: enter the pool, test the
    connection it picked, or return. *)
Inductive caller : Type :=
| Entering
| Testing (conn : T)
| Returned (r : result T).

(** One step of a caller at a moment. *)
Definition caller_step (m : Moment T) (c : caller) (p : Pool T) : Pool T * caller :=
  match c with
  | Entering =>
      match pick (now m) p with
      | (p, Ok (conn, true)) => (p, Returned (Ok conn))
      | (p, Ok (conn, false)) => (p, Testing conn)
      | (p, Err e) => (p, Returned (Err e))
      | (p, Panic w) => (p, Returned (Panic w))
      end
  | Testing conn =>
      if alive m conn then (p, Returned (Ok conn))
      else
        match discard conn p with
        | (p, Ok _) => (p, Entering)
        | (p, Err e) => (p, Returned (Err e))
        | (p, Panic w) => (p, Returned (Panic w))
        end
  | Returned r => (p, Returned r)
  end.

(** Any caller may move. *)
Inductive step (m : Moment T) : Pool T * list caller -> Pool T * list caller -> Prop :=
| step_caller p cs i c p' c' :
    cs !! i = Some c -> caller_step m c p = (p', c') ->
    step m (p, cs) (p', <[i := c']> cs).

Definition steps (m : Moment T) := rtc (step m).

End Ops.
Arguments caller T : clear implicits.

(** ** Properties *)

Section Facts.
Context {T : Type} `{Countable T}.
Implicit Types (p : Pool T) (c : T) (l : list T) (env : nat -> Moment T).

(** All connections of a pool. *)
Definition members p : list T := conns p ++ deadConns p.

Lemma remove_at_ok i l c : l !! i = Some c -> remove_at i l = Ok (take i l ++ drop (S i) l).
Proof.
  intros E. apply lookup_lt_Some in E. unfold remove_at. by rewrite (proj2 (Nat.leb_le _ _)) by lia.
Qed.

Lemma remove_at_perm i l c : l !! i = Some c -> l ≡ₚ c :: take i l ++ drop (S i) l.
Proof.
  intros E. rewrite <- (take_drop_middle l i c E) at 1. by rewrite Permutation_middle.
Qed.

(** The index [pick] moves to. *)
Definition next_idx p : nat :=
  if (length (conns p) <=? S (idx p))%nat then 0%nat else S (idx p).

Lemma pick_ok t p : conns p <> [] ->
  exists c, conns p !! next_idx p = Some c /\ pick t p = (set_idx (next_idx p) p, Ok (c, fresh t c p)).
Proof.
  intros Hne. assert (next_idx p < length (conns p))%nat as Hlt.
  { unfold next_idx. case_match eqn:E; [destruct (conns p); [done|cbn; lia]|].
    apply Nat.leb_gt in E. lia. }
  destruct (lookup_lt_is_Some_2 _ _ Hlt) as [c Hc]. exists c. split; [done|].
  unfold pick. fold (next_idx p). rewrite Hc. by destruct (conns p).
Qed.

Lemma discard_ok c c' p : conns p !! idx p = Some c' ->
  discard c p = (set_conns (take (idx p) (conns p) ++ drop (S (idx p)) (conns p)) (deadConns p ++ [c]) p, Ok tt).
Proof. intros E. unfold discard. by rewrite (remove_at_ok _ _ _ E). Qed.

(** What a call to [Get] leaves behind: it only moves connections that failed
    their test from one list to the other. *)
Record moved env p p' : Prop := {
  mv_members : members p' ≡ₚ members p;
  mv_dead : exists failed, deadConns p' = deadConns p ++ failed /\
    Forall (fun c => exists i, alive (env i) c = false /\ fresh (now (env i)) c p = false) failed;
  mv_times : lastTestTime p' = lastTestTime p;
  mv_threshold : livenessValidThreshold p' = livenessValidThreshold p;
  mv_closed : closeCh p' = closeCh p
}.

Lemma fresh_moved t c p p' :
  lastTestTime p' = lastTestTime p -> livenessValidThreshold p' = livenessValidThreshold p ->
  fresh t c p' = fresh t c p.
Proof. unfold fresh. by intros -> ->. Qed.

Lemma moved_refl env p i : moved env p (set_idx i p).
Proof. split; try done. exists []. rewrite app_nil_r. done. Qed.

Lemma moved_trans env p1 p2 p3 : moved env p1 p2 -> moved env p2 p3 -> moved env p1 p3.
Proof.
  intros [Hm1 (f1 & D1 & F1) T1 L1 C1] [Hm2 (f2 & D2 & F2) T2 L2 C2]. split; try congruence.
  - by rewrite Hm2.
  - exists (f1 ++ f2). rewrite D2, D1, app_assoc. split; [done|]. apply Forall_app. split; [done|].
    eapply List.Forall_impl; [|exact F2]. intros c (i & Ha & Hf). exists i. split; [done|].
    by rewrite <- (fresh_moved _ c p1 p2).
Qed.

Lemma moved_discard env i p c : conns p !! idx p = Some c ->
  alive (env i) c = false -> fresh (now (env i)) c p = false ->
  moved env p (set_conns (take (idx p) (conns p) ++ drop (S (idx p)) (conns p)) (deadConns p ++ [c]) p).
Proof.
  intros E Ha Hf. split; try done; unfold members; cbn.
  - rewrite (remove_at_perm _ _ _ E) at 3. rewrite app_assoc. rewrite <- app_comm_cons.
    by rewrite <- Permutation_cons_append.
  - exists [c]. split; [done|]. constructor; [by exists i|done].
Qed.

(** The connections that are left were there before. *)
Lemma moved_conns env p p' c : moved env p p' -> c ∈ conns p' -> c ∈ conns p.
Proof.
  intros [Hm (failed & Hd & _) _ _ _] Hc. unfold members in Hm. rewrite Hd, app_assoc in Hm.
  rewrite (Permutation_app_comm (conns p') (deadConns p)), (Permutation_app_comm (conns p)) in Hm.
  rewrite <- app_assoc in Hm. apply Permutation_app_inv_l in Hm. rewrite <- Hm. apply elem_of_app. by left.
Qed.

(** A connection that passes its tests stays. *)
Lemma moved_stays env p p' c : moved env p p' -> c ∈ conns p -> (forall i, alive (env i) c = true) -> c ∈ conns p'.
Proof.
  intros [Hm (failed & Hd & Hf) _ _ _] Hc Ha. unfold members in Hm. rewrite Hd, app_assoc in Hm.
  rewrite (Permutation_app_comm (conns p') (deadConns p)), (Permutation_app_comm (conns p)) in Hm.
  rewrite <- app_assoc in Hm. apply Permutation_app_inv_l in Hm. rewrite <- Hm in Hc. apply elem_of_app in Hc as [Hc|Hc]; [done|].
  rewrite List.Forall_forall in Hf. apply list_elem_of_In, Hf in Hc as (i & Hi & _). by rewrite Ha in Hi.
Qed.

(** The connection a call returns is usable: tested recently or just now. *)
Definition usable env p c : Prop :=
  exists i, fresh (now (env i)) c p = true \/ alive (env i) c = true.

Lemma Get_from_spec env fuel : forall i p, (length (conns p) < fuel)%nat ->
  exists p', moved env p p' /\
    ((exists c, Get_from env fuel i p = (p', Ok c) /\ c ∈ conns p' /\ usable env p c) \/
     (Get_from env fuel i p = (p', Err ErrPoolEmpty) /\ conns p' = [])).
Proof.
  induction fuel as [|fuel IH]; intros i p Hl; [lia|]. cbn [Get_from].
  destruct (decide (conns p = [])) as [E|Hne].
  { exists (set_idx (idx p) p). split; [apply moved_refl|]. right.
    unfold m_bind, pick. rewrite E. split; [|done]. f_equal. destruct p; cbn in *; by rewrite E. }
  destruct (pick_ok (now (env i)) p Hne) as (c & Hc & E). run E.
  destruct (fresh _ c p) eqn:Hf; [|destruct (alive (env i) c) eqn:Ha].
  1, 2: exists (set_idx (next_idx p) p); split; [apply moved_refl|]; left; exists c; split; [done|]; split;
    [by apply list_elem_of_lookup_2 in Hc|exists i; auto].
  rewrite (m_bind_ok _ _ _ _ _ (discard_ok c c (set_idx (next_idx p) p) Hc)).
  set (p1 := set_conns _ _ _). destruct (IH (S i) p1) as (p' & Hm & Hr).
  { pose proof (lookup_lt_Some _ _ _ Hc). subst p1. cbn in *. rewrite length_app, length_take, length_drop. lia. }
  assert (moved env p p1) as Hp1.
  { apply (moved_trans _ _ (set_idx (next_idx p) p)); [apply moved_refl|].
    by apply (moved_discard env i (set_idx (next_idx p) p)). }
  exists p'. split; [by eapply moved_trans|]. destruct Hr as [(x & E1 & Hx & Hu)|Hr]; [left|by right].
  exists x. split; [done|]. split; [done|]. destruct Hu as (j & Hj). exists j.
  by rewrite <- (fresh_moved _ x p p1).
Qed.

(** A call to [Get] returns, and never panics: it returns a connection of
    the pool that was tested recently or passed its test just now, or reports
    an empty pool when every connection failed.  Connections are only moved to
    the dead ones, and only after failing a test that was due. *)
Theorem Get_returns_usable env p :
  exists p', moved env p p' /\
    ((exists c, Get env p = (p', Ok c) /\ c ∈ conns p' /\ usable env p c) \/
     (Get env p = (p', Err ErrPoolEmpty) /\ conns p' = [])).
Proof. apply Get_from_spec. lia. Qed.

(** *** Fairness *)

(** Calls one after the other, each in its own environment. *)
Fixpoint Gets (envs : nat -> nat -> Moment T) (k n : nat) : M (Pool T) (list T) :=
  match n with
  | O => m_ret []
  | S n => do c <- Get (envs k) ;; do cs <- Gets envs (S k) n ;; m_ret (c :: cs)
  end.

(** No connection is due for a test at the time of a call. *)
Definition settled (envs : nat -> nat -> Moment T) p : Prop :=
  forall k, Forall (fun c => fresh (now (envs k 0%nat)) c p = true) (conns p).

Lemma Get_settled envs k p : settled envs p -> conns p <> [] ->
  exists c, conns p !! next_idx p = Some c /\ Get (envs k) p = (set_idx (next_idx p) p, Ok c).
Proof.
  intros Hs Hne. unfold Get. cbn [Get_from].
  destruct (pick_ok (now (envs k 0%nat)) p Hne) as (c & Hc & E). run E. exists c. split; [done|].
  by rewrite (proj1 (List.Forall_forall _ _) (Hs k) c (proj1 (list_elem_of_In _ _) (list_elem_of_lookup_2 _ _ _ Hc))).
Qed.

(** The calls before the index wraps around. *)
Lemma Gets_run envs n : forall k p, settled envs p -> (idx p + n < length (conns p))%nat ->
  Gets envs k n p = (set_idx (idx p + n) p, Ok (take n (drop (S (idx p)) (conns p)))).
Proof.
  induction n as [|n IH]; intros k p Hs Hl; cbn [Gets].
  { rewrite Nat.add_0_r. by destruct p. }
  destruct (Get_settled envs k p Hs) as (c & Hc & E); [by intros E; rewrite E in Hl; cbn in Hl; lia|]. run E.
  assert (next_idx p = S (idx p)) as En.
  { unfold next_idx. rewrite (proj2 (Nat.leb_gt _ _)) by lia. done. }
  rewrite En in *. assert (settled envs (set_idx (S (idx p)) p)) as Hs' by exact Hs.
  run (IH (S k) _ Hs' ltac:(cbn; lia)). cbn. rewrite Nat.add_succ_r. f_equal. f_equal.
  by rewrite (drop_S _ _ _ Hc).
Qed.

Lemma Gets_app envs n1 n2 : forall k p p1 p2 l1 l2,
  Gets envs k n1 p = (p1, Ok l1) -> Gets envs (k + n1) n2 p1 = (p2, Ok l2) ->
  Gets envs k (n1 + n2) p = (p2, Ok (l1 ++ l2)).
Proof.
  induction n1 as [|n1 IH]; intros k p p1 p2 l1 l2 E1 E2; cbn [Gets Nat.add] in *.
  { injection E1 as <- <-. by rewrite Nat.add_0_r in E2. }
  unfold m_bind in *. destruct (Get (envs k) p) as [q [c|e|w]]; try done.
  destruct (Gets envs (S k) n1 q) as [q1 [cs|e|w]] eqn:E; try done. injection E1 as <- <-.
  rewrite (IH (S k) q q1 p2 cs l2 E); [done|]. by rewrite Nat.add_succ_comm.
Qed.

Lemma Gets_round envs k p : settled envs p -> (idx p < length (conns p))%nat ->
  Gets envs k (length (conns p)) p = (p, Ok (drop (S (idx p)) (conns p) ++ take (S (idx p)) (conns p))).
Proof.
  intros Hs Hlt. set (n := length (conns p)) in *.
  replace n with ((n - S (idx p)) + S (idx p))%nat by lia.
  eapply Gets_app; [rewrite Gets_run by (done || lia); f_equal; f_equal; apply take_ge; rewrite length_drop; lia|].
  set (q := set_idx _ p). cbn [Gets].
  destruct (Get_settled envs (k + (n - S (idx p))) q Hs) as (c & Hc & E).
  { intros E. subst n. cbn in *. rewrite E in Hlt. cbn in Hlt. lia. }
  run E. assert (next_idx q = 0%nat) as En.
  { unfold next_idx. rewrite (proj2 (Nat.leb_le _ _)); [done|]. subst q n. cbn. lia. }
  rewrite En in *. run (Gets_run envs (idx p) (S (k + (n - S (idx p)))) (set_idx 0 q) Hs ltac:(cbn; lia)).
  unfold m_ret. apply f_equal2; [by destruct p|]. do 2 f_equal.
  change (conns (set_idx 0 q)) with (conns p). change (conns q) with (conns p) in Hc.
  destruct (conns p) as [|x l] eqn:El; [done|]. by injection Hc as <-.
Qed.

(** While no test is due, the calls take turns: as many calls as there are
    connections return each of them once, starting after the last one taken,
    and leave the pool as it was. *)
Theorem round_robin envs p : settled envs p -> (idx p < length (conns p))%nat ->
  Gets envs 0 (length (conns p)) p =
    (p, Ok (drop (S (idx p)) (conns p) ++ take (S (idx p)) (conns p))).
Proof. apply Gets_round. Qed.

(** *** Dead connections that answer again *)

(** The connections of a list that answer [b] when the one at index [j] is
    tested at moment [j]. *)
Definition answering (b : bool) env l : list T :=
  snd <$> filter (fun jc => alive (env jc.1) jc.2 = b) (imap pair l).

Lemma answering_snoc b env l c : answering b env (l ++ [c]) =
  answering b env l ++ (if decide (alive (env (length l)) c = b) then [c] else []).
Proof.
  unfold answering. rewrite imap_app, list.filter_app, fmap_app. f_equal.
  cbn [imap]. rewrite Nat.add_0_r, filter_singleton by exact []. cbn. by case_decide.
Qed.

Lemma retest_spec env i : forall tail p l, deadConns p = l ++ tail -> length l = i ->
  retest env i p =
    (set_conns (conns p ++ rev (answering true env l)) (answering false env l ++ tail) p, Ok tt).
Proof.
  induction i as [|i IH]; intros tail p l Hd Hl; cbn [retest].
  { apply length_zero_iff_nil in Hl as ->. cbn in *. rewrite app_nil_r, <- Hd. by destruct p. }
  destruct (exists_last (l := l)) as (l1 & c & ->); [by destruct l|].
  rewrite length_app in Hl. cbn in Hl. assert (length l1 = i) as Hli by lia.
  rewrite !answering_snoc, Hli. rewrite <- app_assoc in Hd. cbn in Hd.
  rewrite Hd, list_lookup_middle by done. destruct (alive (env i) c) eqn:Ha; cbn.
  - rewrite (remove_at_ok i _ c) by (by rewrite list_lookup_middle).
    subst i. replace (S (length l1)) with (length l1 + 1)%nat by lia.
    rewrite take_app_length, drop_app_add. change (drop 1 (c :: tail)) with tail.
    rewrite (IH tail (set_conns (conns p ++ [c]) (l1 ++ tail) p) l1 eq_refl eq_refl). cbn.
    rewrite rev_app_distr, app_nil_r, <- app_assoc. done.
  - rewrite (IH (c :: tail) p l1 Hd Hli). by rewrite app_nil_r, <- app_assoc.
Qed.

Lemma filter_complement {A} (f : A -> bool) (k : list A) :
  filter (fun x => f x = true) k ++ filter (fun x => f x = false) k ≡ₚ k.
Proof.
  induction k as [|x k IH]; [done|]. rewrite !filter_cons.
  destruct (f x); repeat case_decide; try congruence; rewrite <- ?app_comm_cons, <- ?Permutation_middle; by f_equiv.
Qed.

Lemma answering_split env l : answering true env l ++ answering false env l ≡ₚ l.
Proof.
  unfold answering. rewrite <- fmap_app, (filter_complement (fun jc => alive (env jc.1) jc.2)).
  rewrite fmap_imap, (imap_ext _ (const id)) by done. by rewrite imap_const, list_fmap_id.
Qed.

(** A round of tests of the dead connections returns exactly those that
    answer to the pool, and loses none. *)
Theorem dead_connections_return env p :
  testDeadConns env p =
    (set_conns (conns p ++ rev (answering true env (deadConns p))) (answering false env (deadConns p)) p, Ok tt) /\
  conns p ++ rev (answering true env (deadConns p)) ++ answering false env (deadConns p) ≡ₚ members p.
Proof.
  split.
  - unfold testDeadConns. rewrite (retest_spec env _ [] p (deadConns p)) by (rewrite ?app_nil_r; done).
    by rewrite app_nil_r.
  - unfold members. f_equiv. by rewrite <- Permutation_rev, answering_split.
Qed.

(** *** All connections *)

Lemma getAll_loop_alive env p arr : (forall i c, c ∈ arr -> alive (env i) c = true) ->
  forall rounds i acc, (i + rounds = length arr)%nat ->
  getAll_loop env rounds i arr acc p =
    (p, Ok (acc ++ concat (imap (fun j c => if fresh (now (env (i + j)%nat)) c p then [c; c] else [c]) (drop i arr)))).
Proof.
  intros Ha. induction rounds as [|rounds IH]; intros i acc Hl; cbn [getAll_loop].
  { rewrite drop_ge by lia. cbn. by rewrite app_nil_r. }
  destruct (lookup_lt_is_Some_2 arr i) as [c Hc]; [lia|]. rewrite Hc, (Ha i c) by (by apply list_elem_of_lookup_2 in Hc).
  rewrite IH by lia. rewrite (drop_S arr c i) by done. cbn [imap concat]. rewrite Nat.add_0_r.
  rewrite (imap_ext (compose _ S) (fun j c => if fresh (now (env (S i + j)%nat)) c p then [c; c] else [c])).
  2: { intros j x _. unfold compose. by rewrite Nat.add_succ_comm. }
  destruct (fresh _ c p); by rewrite <- !app_assoc.
Qed.

(** When every connection answers, [GetAll] changes nothing, but it returns
    a connection twice when its last test is still valid. *)
Theorem GetAll_repeats env p : (forall i c, c ∈ conns p -> alive (env i) c = true) ->
  GetAll env false p =
    (p, Ok (concat (imap (fun j c => if fresh (now (env j)) c p then [c; c] else [c]) (conns p)))).
Proof. intros Ha. unfold GetAll. by rewrite getAll_loop_alive by done. Qed.

(** Rounds over connections that answer. *)
Lemma getAll_skip env p arr k : forall rounds i acc,
  (forall j, (i <= j < i + k)%nat -> exists c, arr !! j = Some c /\ alive (env j) c = true) ->
  exists acc', getAll_loop env (k + rounds) i arr acc p = getAll_loop env rounds (i + k) arr acc' p.
Proof.
  induction k as [|k IH]; intros rounds i acc Ha; cbn [getAll_loop Nat.add].
  { exists acc. by rewrite Nat.add_0_r. }
  destruct (Ha i) as (c & Hc & Hal); [lia|]. rewrite Hc, Hal. rewrite <- Nat.add_succ_comm.
  apply IH. intros j Hj. apply Ha. lia.
Qed.

(** The array after an element was removed in place: the elements from there
    on have moved down by one, but for the last. *)
Lemma shifted_lookup i l j : (i < length l)%nat -> (j < length l)%nat ->
  let cs := take i l ++ drop (S i) l in
  exists j' x, (j <= j')%nat /\ l !! j' = Some x /\ (cs ++ drop (length cs) l) !! j = Some x.
Proof.
  intros Hi Hj cs. assert (length cs = length l - 1)%nat as Hcs.
  { subst cs. rewrite length_app, length_take, length_drop. lia. }
  rewrite Hcs. destruct (decide (j < length l - 1)%nat) as [H1|H1].
  - rewrite lookup_app_l by lia. subst cs. destruct (decide (j < i)%nat) as [H2|H2].
    + destruct (lookup_lt_is_Some_2 l j) as [x Hx]; [lia|]. exists j, x. split; [lia|]. split; [done|].
      rewrite lookup_app_l by (rewrite length_take; lia). by rewrite lookup_take_lt.
    + destruct (lookup_lt_is_Some_2 l (S j)) as [x Hx]; [lia|]. exists (S j), x. split; [lia|]. split; [done|].
      rewrite lookup_app_r by (rewrite length_take; lia). rewrite lookup_drop, length_take. rewrite <- Hx. f_equal. lia.
  - destruct (lookup_lt_is_Some_2 l j) as [x Hx]; [lia|]. exists j, x. split; [lia|]. split; [done|].
    rewrite lookup_app_r by lia. rewrite lookup_drop, Hcs. rewrite <- Hx. f_equal. lia.
Qed.

Lemma getAll_wrong env p pre d post c :
  conns p = pre ++ d :: post -> conns p !! idx p = Some c -> NoDup (conns p) ->
  (forall i, alive (env i) d = false) -> (forall i x, x ∈ conns p -> x <> d -> alive (env i) x = true) ->
  exists r, GetAll env false p =
    (set_conns (take (idx p) (conns p) ++ drop (S (idx p)) (conns p)) (deadConns p ++ [d]) p, Ok r).
Proof.
  intros El Hc Hnd Hd Ha. unfold GetAll. pose proof (lookup_lt_Some _ _ _ Hc) as Hi.
  assert (length (conns p) = length pre + S (length post))%nat as Hn by (rewrite El, length_app; done).
  assert (conns p !! length pre = Some d) as Hat by (rewrite El; by rewrite list_lookup_middle).
  assert (forall j x, j <> length pre -> conns p !! j = Some x -> x <> d) as Hpost.
  { intros j x Hj Hx ->. apply Hj. by eapply (NoDup_lookup _ _ _ d Hnd). }
  rewrite Hn. destruct (getAll_skip env p (conns p) (length pre) (S (length post)) 0 []) as (acc & E).
  { intros j Hj. destruct (lookup_lt_is_Some_2 (conns p) j) as [x Hx]; [lia|]. exists x. split; [done|].
    apply Ha; [by eapply list_elem_of_lookup_2|]. eapply Hpost, Hx. lia. }
  rewrite E. cbn [getAll_loop Nat.add]. rewrite Hat, Hd, (discard_ok d c p Hc). cbn [conns set_conns].
  set (p1 := set_conns _ _ p). set (cs := take _ _ ++ _).
  edestruct (getAll_skip env p1 (cs ++ drop (length cs) (conns p)) (length post) 0) as (acc' & E').
  2: { rewrite Nat.add_0_r in E'. exists acc'. exact E'. }
  intros j Hj. destruct (shifted_lookup (idx p) (conns p) j) as (j' & x & Hj' & Hx & Hs); [lia..|].
  exists x. split; [exact Hs|]. apply Ha; [by eapply list_elem_of_lookup_2|]. eapply Hpost, Hx. lia.
Qed.

(** When one connection has died, [GetAll] removes another one: the
    connection at the round-robin index is lost although it answers, and the
    dead one stays among the live ones. *)
Theorem GetAll_loses_connection env p pre d post c :
  conns p = pre ++ d :: post -> conns p !! idx p = Some c -> c <> d -> NoDup (members p) ->
  (forall i, alive (env i) d = false) -> (forall i x, x ∈ conns p -> x <> d -> alive (env i) x = true) ->
  exists p' r, GetAll env false p = (p', Ok r) /\ (c ∉ members p') /\ (d ∈ conns p').
Proof.
  intros El Hc Hcd Hnd Hd Ha. unfold members in Hnd. apply list.NoDup_app in Hnd as (Hnd & Hdis & Hnd').
  destruct (getAll_wrong env p pre d post c El Hc Hnd Hd Ha) as (r & E). rewrite E.
  do 2 eexists. split; [reflexivity|]. unfold members. cbn [conns deadConns set_conns].
  pose proof (remove_at_perm _ _ _ Hc) as Hp. set (cs := take _ _ ++ _) in *. split.
  - rewrite !elem_of_app, list_elem_of_singleton. intros [Hx|[Hx|Hx]]; [|by eapply Hdis, Hx; eapply list_elem_of_lookup_2|done].
    rewrite Hp in Hnd. apply list.NoDup_cons in Hnd as [Hno _]. done.
  - assert (d ∈ c :: cs) as Hin.
    { rewrite <- Hp, El. apply elem_of_app. right. apply list_elem_of_here. }
    apply elem_of_cons in Hin as [|]; [congruence|done].
Qed.

(** *** Concurrent calls *)

(** Two calls to [Get] that both test the last connection of the pool while
    it is dead crash the process: both remove it, and the second removal is
    out of range. *)
Theorem concurrent_Get_crashes p c m :
  conns p = [c] -> alive m c = false -> fresh (now m) c p = false ->
  exists p' w r, steps m (p, [Entering; Entering]) (p', [r; Returned (Panic w)]).
Proof.
  intros El Ha Hf.
  assert (pick (now m) p = (set_idx 0 p, Ok (c, false))) as E1.
  { unfold pick. rewrite El. cbn. by rewrite Hf. }
  assert (pick (now m) (set_idx 0 p) = (set_idx 0 p, Ok (c, false))) as E2.
  { unfold pick. cbn [conns set_idx]. rewrite El. cbn. unfold fresh in *. cbn. by rewrite Hf. }
  do 3 eexists. unfold steps.
  eapply rtc_l; [eapply (step_caller m _ _ 0); [done|by cbn; rewrite E1]|]. cbn [insert list_insert].
  eapply rtc_l; [eapply (step_caller m _ _ 1); [done|by cbn; rewrite E2]|]. cbn [insert list_insert].
  eapply rtc_l; [eapply (step_caller m _ _ 0); [done|]|].
  { cbn. rewrite Ha. unfold discard. cbn. by rewrite El. }
  cbn [insert list_insert]. eapply rtc_l; [eapply (step_caller m _ _ 1); [done|]|].
  { cbn. rewrite Ha. unfold discard. cbn. reflexivity. }
  cbn [insert list_insert]. apply rtc_refl.
Qed.

End Facts.

(** ** Concrete pools *)

Definition always (t : Z) (dead : list Z) (_ : nat) : Moment Z := mkMoment t (fun c => negb (bool_decide (c ∈ dead))).

(** Three connections that were tested at time 0. *)
Definition wPool (i : nat) : Pool Z := mkPool i [1; 2; 3] [] (list_to_map [(1, 0); (2, 0); (3, 0)]) 10 None.

Lemma round_robin_witness : Gets (fun _ => always 5 []) 0 3 (wPool 0) = (wPool 0, Ok [2; 3; 1]).
Proof. apply (round_robin (fun _ => always 5 []) (wPool 0)); [intros k; vm_compute; repeat constructor|cbn; lia]. Defined.

Lemma GetAll_repeats_witness : GetAll (always 5 []) false (wPool 0) = (wPool 0, Ok [1; 1; 2; 2; 3; 3]).
Proof. apply (GetAll_repeats (always 5 []) (wPool 0)). done. Defined.

Lemma GetAll_loses_connection_witness : exists p' r,
  GetAll (always 60 [1]) false (wPool 1) = (p', Ok r) /\ (2 ∉ members p') /\ (1 ∈ conns p').
Proof.
  apply (GetAll_loses_connection (always 60 [1]) (wPool 1) [] 1 [2; 3] 2); try done.
  - unfold members. cbn. repeat (apply list.NoDup_cons; split; [set_solver|]). apply NoDup_nil_2.
  - intros i x Hx Hne. cbn. rewrite bool_decide_false; [done|]. by intros ?%list_elem_of_singleton.
Defined.

Definition wLast : Pool Z := mkPool 0 [7] [] ∅ 10 None.

Lemma concurrent_Get_crashes_witness : exists p' w r,
  steps (always 60 [7] 0) (wLast, [Entering; Entering]) (p', [r; Returned (Panic w)]).
Proof. by apply (concurrent_Get_crashes wLast 7 (always 60 [7] 0)). Defined.

End Pool.
