(* ===== verification/BlockchainClient.v ===== *)
(** * The client of the chain

    Models [offchain-interface/pkg/blockchain/client.go] and [identity.go]: the
    round-robin client through which the off-chain node reads identities,
    events and the retention policy.  A connection is a value of a type [C]
    with the calls of the CometBFT RPC client the code makes; its state is the
    pool.  Deadlines are not modelled: a call that times out is an error. *)

From S2P Require Import Prelude Types Text Platform Abci MerkleProof IdentityApp EventsApp RetentionApp Policy Pool StateStore.

(** ** The RPC client of CometBFT *)

(** The outcome of [Tx]: an [RPCError] carries data the client looks at. *)
Inductive rpc_result (A : Type) : Type :=
| RpcOk (a : A)
| RpcError (data : bytes)
| RpcFailed (e : error).
Arguments RpcOk {A}.
Arguments RpcError {A}.
Arguments RpcFailed {A}.

(** A transaction as [TxSearch] returns it. *)
Record ResultTx : Type := mkResultTx {
  rt_Height : Z;
  rt_Data : bytes (* TxResult.Data *)
}.

Class ChainRpc (C : Type) : Type := {
  rpc_Tx : C -> bytes -> rpc_result ResultTx;
  (* path, data, height, prove *)
  rpc_ABCIQuery : C -> bytes -> bytes -> Z -> bool -> result ResponseQuery;
  (* query, page, results per page; ascending order *)
  rpc_TxSearch : C -> bytes -> Z -> Z -> result (list ResultTx * Z)
}.

Module Client.

Definition ErrABCIQueryFailed : error := Sentinel (bz "ABCI query failed").
Definition ErrEventNotFound : error := Sentinel (bz "tx not found").
Definition ErrNotEnoughNodes : error := Sentinel (bz "not enough nodes to satisfy minimum nodes requirement").
Definition ErrPolicyMismatch : error := Sentinel (bz "policies do not match").
Definition ErrPrincipalNotFound : error := Sentinel (bz "identity not found").

(** [strings.Contains]. *)
Fixpoint Contains (s substr : bytes) : bool :=
  bool_decide (take (length substr) s = substr) ||
  match s with [] => false | _ :: rest => Contains rest substr end.

Section Client.
Context `{P : Platform} {C : Type} `{Countable C} `{ChainRpc C}.
Implicit Types env : nat -> Pool.Moment C.

(** The code and the log of a failed response, in the message of the error; the
    info of a response, which the applications never set, is left out. *)
Definition queryFailed (r : ResponseQuery) : bytes :=
  bz "code: " ++ q_Codespace r ++ bz ":" ++ Strconv.FormatUint (q_Code r) ++ bz ", log: " ++ q_Log r.

(** The request that routes a query to an application. *)
Definition routed (app : bytes) : result bytes := Marshal (mkMuxedRequest app []).

(** ** Identities *)

Definition identityPath (principal : Principal) : bytes := bz "/" ++ principal.

Definition identityAnswer (res : ResponseQuery) : result IdentityData :=
  if negb (q_Code res =? IdentityCode.CodeOk) then
    if bool_decide (q_Codespace res = IdentityCode.Codespace) && (q_Code res =? IdentityCode.CodeNotFound)
    then Err ErrPrincipalNotFound
    else Err (NewError (bz "unexpected error fetching principal (code " ++ q_Codespace res ++ bz "-" ++
           Strconv.FormatUint (q_Code res) ++ bz "): , " ++ q_Log res))
  else
    let* identityData := Unmarshal (q_Value res) in
    let* _ := MerkleProof.ValidateProofOps (q_ProofOps res) in
    Ok identityData.

Definition GetIdentity env (principal : Principal) : M (Pool.Pool C) IdentityData :=
  do conn <- Pool.Get env ;;
  m_lift (fun _ =>
    let* dataMarshalled := routed AppNameIdentity in
    let* res := rpc_ABCIQuery conn (identityPath principal) dataMarshalled 0 false in
    identityAnswer res).

(** ** Events *)

Definition metadataOf (r : rpc_result ResultTx) : result Metadata :=
  match r with
  | RpcError data =>
      if Contains data (bz "not found") then Err ErrEventNotFound else Err (NewError data)
  | RpcFailed e => Err e
  | RpcOk tx => let* res := Unmarshal (A := CreateResponse) (rt_Data tx) in Ok (cresp_Metadata res)
  end.

Definition GetEventMetadataByTx env (txHash : TxHash) : M (Pool.Pool C) Metadata :=
  do conn <- Pool.Get env ;;
  m_lift (fun _ => metadataOf (rpc_Tx conn txHash)).

Definition eventPath (eventId : EventHash) : bytes := bz "/event-by-id/" ++ Hex.EncodeToString eventId.

Definition eventAnswer (res : ResponseQuery) : result EventWithMetadata :=
  if negb (q_Code res =? 0) then
    if bool_decide (q_Codespace res = EventsCode.Codespace) && (q_Code res =? EventsCode.CodeEventNotFound)
    then Err ErrEventNotFound
    else Err (WrapError (queryFailed res) ErrABCIQueryFailed)
  else
    let* event := Unmarshal (q_Value res) in
    let* _ := MerkleProof.ValidateProofOps (q_ProofOps res) in
    Ok event.

Definition GetEventById env (eventId : EventHash) : M (Pool.Pool C) EventWithMetadata :=
  do conn <- Pool.Get env ;;
  m_lift (fun _ =>
    let* dataMarshalled := routed AppNameEvents in
    let* res := rpc_ABCIQuery conn (eventPath eventId) dataMarshalled 0 true in
    eventAnswer res).

(** Two calls, each with a connection of its own. *)
Definition GetEventByTx env env' (txHash : TxHash) : M (Pool.Pool C) EventWithMetadata :=
  do metadata <- GetEventMetadataByTx env txHash ;;
  GetEventById env' (EventId metadata).

(** ** Searching blocks for events *)

Definition searchQuery (lowerHeight upperHeight : Z) : bytes :=
  bz "tx.height >= " ++ Strconv.FormatInt lowerHeight ++ bz " AND tx.height < " ++
  Strconv.FormatInt upperHeight ++ bz " AND create.type='create'".

(** Transactions whose result cannot be decoded are left out; [clock] is read
    once for each of the others. *)
Fixpoint missingEvents (clock : nat -> time) (i : nat) (txs : list ResultTx) : list MissingEvent :=
  match txs with
  | [] => []
  | tx :: rest =>
      match Unmarshal (A := CreateResponse) (rt_Data tx) with
      | Ok decoded =>
          NewMissingEvent (EventId (cresp_Metadata decoded)) (clock i) (rt_Height tx) ::
          missingEvents clock (S i) rest
      | _ => missingEvents clock i rest
      end
  end.

Definition SearchEvents env (clock : nat -> time) (lowerHeight upperHeight page limit : Z)
  : M (Pool.Pool C) (list MissingEvent * Z) :=
  do conn <- Pool.Get env ;;
  m_lift (fun _ =>
    let* (txs, total) := rpc_TxSearch conn (searchQuery lowerHeight upperHeight) page limit in
    Ok (missingEvents clock 0 txs, total)).

(** ** The retention policy *)

Definition policyAnswer (res : ResponseQuery) : result (option StoredPolicy) :=
  if bool_decide (q_Codespace res = RetentionCode.Codespace) && (q_Code res =? RetentionCode.CodeOk) then
    let* policy := Unmarshal (q_Value res) in Ok (Some policy)
  else if bool_decide (q_Codespace res = RetentionCode.Codespace) && (q_Code res =? RetentionCode.CodePolicyNotSet) then
    Ok None
  else Err (WrapError (queryFailed res) ErrABCIQueryFailed).

Definition getRetentionPolicyForClient (client : C) : result (option StoredPolicy) :=
  let* marshalled := routed AppNameRetention in
  let* res := rpc_ABCIQuery client (bz "/") marshalled 0 false in
  policyAnswer res.

(** The answers of the clients that gave one. *)
Fixpoint collect (clients : list C) : result (list (option StoredPolicy)) :=
  match clients with
  | [] => Ok []
  | client :: rest =>
      match getRetentionPolicyForClient client with
      | Panic w => Panic w
      | Err _ => collect rest
      | Ok policy => let* policies := collect rest in Ok (policy :: policies)
      end
  end.

(** The loop that compares every policy with the first. *)
Fixpoint compareAll (firstPolicy : option StoredPolicy) (policies : list (option StoredPolicy)) : result unit :=
  match policies with
  | [] => Ok tt
  | policy :: rest =>
      match policy, firstPolicy with
      | None, None => compareAll firstPolicy rest
      | Some p, Some f =>
          let* same := Policy.StoredPolicy_Equal f p in
          if same then compareAll firstPolicy rest else Err ErrPolicyMismatch
      | _, _ => Err ErrPolicyMismatch
      end
  end.

(** The messages that say how many nodes were expected are not kept, nor are
    the errors of the clients that are joined to them. *)
Definition GetRetentionPolicy env (minimumNodes : Z) : M (Pool.Pool C) (option StoredPolicy) :=
  do clients <- Pool.GetAll env false ;;
  m_lift (fun _ =>
    if zlen clients <? minimumNodes then Err ErrNotEnoughNodes
    else
      let* policies := collect clients in
      if (zlen policies <? minimumNodes) || (zlen policies =? 0) then Err ErrNotEnoughNodes
      else
        match policies with
        | [] => Err ErrNotEnoughNodes
        | [policy] => Ok policy
        | firstPolicy :: rest => let* _ := compareAll firstPolicy rest in Ok firstPolicy
        end).

(** ** What the client accepts *)

(** An answer with another value. *)
Definition with_value (v : bytes) (r : ResponseQuery) : ResponseQuery :=
  mkResponseQuery (q_Code r) (q_Log r) (q_Index r) (q_Key r) v (q_ProofOps r) (q_Height r) (q_Codespace r).

(** The proof of an answer does not bind its value: whatever event is put
    in the place of the one that was proved, the client accepts it. *)
Theorem forged_event_accepted res event v forged :
  eventAnswer res = Ok event -> Unmarshal v = Ok forged -> eventAnswer (with_value v res) = Ok forged.
Proof.
  unfold eventAnswer. cbn. destruct (negb _); [by destruct (_ && _)|].
  intros (e & _ & H2)%res_bind_ok ->. cbn. apply res_bind_ok in H2 as (u & -> & _). done.
Qed.

(** *** The policy *)

(** Policies the code does not tell apart. *)
Definition same_policy (p q : option StoredPolicy) : Prop :=
  match p, q with
  | None, None => True
  | Some p, Some q => spol_Policy p = spol_Policy q /\ spol_Author p = spol_Author q /\
      instant (spol_AppliedAt p) = instant (spol_AppliedAt q)
  | _, _ => False
  end.

#[global] Instance same_policy_equiv : Equivalence same_policy.
Proof.
  split.
  - by intros [p|].
  - intros [p|] [q|]; cbn; naive_solver.
  - intros [p|] [q|] [r|]; cbn; naive_solver congruence.
Qed.

Lemma compareAll_spec first policies :
  compareAll first policies = Ok tt <-> Forall (same_policy first) policies.
Proof.
  induction policies as [|q policies IH]; cbn [compareAll]; [by split; [constructor|]|].
  rewrite List.Forall_cons_iff, <- IH. destruct q as [q|], first as [f|]; cbn; try naive_solver.
  rewrite Policy.StoredPolicy_Equal_eq. cbn. case_bool_decide; naive_solver.
Qed.

Lemma compareAll_total first policies :
  compareAll first policies = Ok tt \/ compareAll first policies = Err ErrPolicyMismatch.
Proof.
  induction policies as [|q policies IH]; cbn [compareAll]; [by left|].
  destruct q as [q|], first as [f|]; auto. rewrite Policy.StoredPolicy_Equal_eq. cbn. case_bool_decide; auto.
Qed.

Lemma collect_spec clients policies : collect clients = Ok policies ->
  forall q, q ∈ policies <-> exists c, c ∈ clients /\ getRetentionPolicyForClient c = Ok q.
Proof.
  revert policies. induction clients as [|c clients IH]; intros policies E q; cbn [collect] in E.
  { injection E as <-. split; [by intros ?%elem_of_nil|by intros (? & ?%elem_of_nil & _)]. }
  setoid_rewrite elem_of_cons. destruct (getRetentionPolicyForClient c) as [r|e|w] eqn:Ec; [| |done].
  - apply res_bind_ok in E as (rest & E & [= <-]). rewrite elem_of_cons, (IH rest E). split.
    + intros [->|(c' & ? & ?)]; eauto.
    + intros (c' & [->|Hc] & Hq); [left; congruence|eauto].
  - rewrite (IH policies E). split; [naive_solver|].
    intros (c' & [->|Hc] & Hq); [congruence|eauto].
Qed.

(** The answer to the agreement. *)
Lemma GetRetentionPolicy_spec env minimumNodes p p' pol :
  GetRetentionPolicy env minimumNodes p = (p', Ok pol) ->
  exists clients policies, Pool.GetAll env false p = (p', Ok clients) /\ collect clients = Ok policies /\
    minimumNodes <= zlen policies /\ pol ∈ policies /\ Forall (same_policy pol) policies.
Proof.
  unfold GetRetentionPolicy, m_bind, m_lift. destruct (Pool.GetAll env false p) as [p1 [clients|e|w]]; [|done..].
  intros [= <- E]. exists clients. destruct (zlen clients <? minimumNodes); [done|].
  apply res_bind_ok in E as (policies & Hc & E). exists policies. split; [done|]. split; [done|].
  destruct (Z.ltb_spec (zlen policies) minimumNodes) as [|Hmin]; [done|]. split; [lia|]. cbn [orb] in E.
  destruct (zlen policies =? 0); [done|]. destruct policies as [|first [|second rest]]; [done| |].
  - injection E as <-. split; [apply list_elem_of_here|]. repeat constructor. reflexivity.
  - apply res_bind_ok in E as ([] & E & [= <-]). split; [apply list_elem_of_here|].
    constructor; [reflexivity|]. by apply compareAll_spec.
Qed.

(** C33. A retention policy is accepted only when every queried node that
    answered agrees with it, and at least the configured number of answers was
    received; so no node can impose a policy that another one contradicts. *)
Theorem policy_agreement env minimumNodes p p' pol :
  GetRetentionPolicy env minimumNodes p = (p', Ok pol) ->
  exists clients policies, Pool.GetAll env false p = (p', Ok clients) /\ collect clients = Ok policies /\
    minimumNodes <= zlen policies /\ pol ∈ policies /\
    (forall c q, c ∈ clients -> getRetentionPolicyForClient c = Ok q -> same_policy pol q).
Proof.
  intros E. destruct (GetRetentionPolicy_spec _ _ _ _ _ E) as (clients & policies & Hg & Hc & Hm & Hin & Ha).
  exists clients, policies. do 4 (split; [done|]). intros c q Hq Hr.
  apply (proj1 (List.Forall_forall _ _) Ha), list_elem_of_In, (collect_spec clients policies Hc). eauto.
Qed.

(** The minimum number of nodes is no protection for a short time after
    start-up: the answer of a single node, whose connection was tested
    recently, counts twice, and satisfies a minimum of two. *)
Theorem single_node_satisfies_two env p c pol :
  Pool.conns p = [c] -> Pool.alive (env 0%nat) c = true -> Pool.fresh (Pool.now (env 0%nat)) c p = true ->
  getRetentionPolicyForClient c = Ok (Some pol) ->
  GetRetentionPolicy env 2 p = (p, Ok (Some pol)).
Proof.
  intros El Ha Hf Hc. unfold GetRetentionPolicy.
  assert (Pool.GetAll env false p = (p, Ok [c; c])) as Eg.
  { unfold Pool.GetAll. rewrite El. cbn. by rewrite Hf, Ha. }
  run Eg. unfold m_lift. cbn [collect]. rewrite Hc. cbn.
  rewrite Policy.StoredPolicy_Equal_eq, bool_decide_true by done. done.
Qed.

End Client.

End Client.
