(* ===== verification/Harmoniser.v ===== *)
(** * The harmoniser

    Models [offchain-interface/pkg/harmoniser]: the handling of new block
    heights ([harmoniser.go]), the search of missed blocks for events
    ([blockbacklog.go]) and the requests for missing events
    ([eventbacklog.go]), over the interface of the state store.  Missed blocks
    are searched through the client of the chain ([BlockchainClient]), so the
    state of that loop is the store and the pool of connections.  The local
    repository, the transport and the clock are arguments.  Errors that the
    source only logs leave no trace but the state. *)

From S2P Require Import Prelude Types Platform StateStore StateStoreFacts StoreInterface Pool BlockchainClient.
From Corelib Require Import Init.Byte.

Module Harmoniser.

(** The part of the configuration the harmoniser reads; durations are in
    nanoseconds. *)
Record Backfill : Type := mkBackfill {
  BlockFetchChunkSize : Z;
  EventFetchChunkSize : Z;
  NewEventIgnoreThreshold : Z;
  EventMaxRetries : Z;
  EventRetryInterval : Z;
  TryUnicastFirst : bool
}.

Section Harmoniser.
Context {S : Type} `{StateStore S}.

(** A call whose error is logged and otherwise ignored. *)
Definition logged {A} (c : M S A) : M S unit := fun s =>
  match c s with
  | (s, Ok _) => (s, Ok tt)
  | (s, Err _) => (s, Ok tt)
  | (s, Panic w) => (s, Panic w)
  end.

Definition nil_dereference : bytes := bz "invalid memory address or nil pointer dereference".

(** ** New blocks and events *)

(** A block height read from the subscription.  A height at or below the last
    one is skipped; a gap is recorded as a missing range. *)
Definition onBlockHeight (blockHeight : Z) : M S unit := fun s =>
  match st_LastSeenBlockHeight s with
  | (s, Panic w) => (s, Panic w)
  | (s, Err _) => (s, Ok tt)
  | (s, Ok lastBlockHeight) =>
      let update := logged (st_SetLastSeenBlockHeight blockHeight) in
      match lastBlockHeight with
      | None =>
          if 0 <? blockHeight then
            (do _ <- logged (st_AddMissingBlocks (NewBlockRange 0 blockHeight)) ;; update) s
          else (s, Panic nil_dereference)
      | Some last =>
          if blockHeight <=? last then (s, Ok tt)
          else if negb (i64 (last + 1) =? blockHeight) then
            (do _ <- logged (st_AddMissingBlocks (NewBlockRange (i64 (last + 1)) blockHeight)) ;; update) s
          else update s
      end
  end.

(** An event seen on the chain. *)
Definition onEvent (ev : MissingEvent) : M S unit := logged (st_AddMissingEvents [ev]).

Fixpoint onBlockHeights (heights : list Z) : M S unit :=
  match heights with
  | [] => m_ret tt
  | h :: rest => do _ <- onBlockHeight h ;; onBlockHeights rest
  end.

(** ** Missed blocks *)

Fixpoint addAll (events : list MissingEvent) : M S unit :=
  match events with
  | [] => m_ret tt
  | e :: rest => do _ <- logged (st_AddMissingEvents [e]) ;; addAll rest
  end.

Definition handleBacklogChunk (blockRange : BlockRangeWithId) (events : list MissingEvent) : M S unit :=
  do _ <- addAll events ;;
  match List.last (Some <$> events) None with
  | None => m_ret tt
  | Some e =>
      let maxHeight := me_BlockHeight e in
      if i64 (High (br_Range blockRange) - 1) <=? maxHeight
      then logged (st_RemoveMissingBlockRange (br_Id blockRange))
      else logged (st_UpdateMissingBlockRange
             (NewBlockRangeWithId (NewBlockRange maxHeight (High (br_Range blockRange))) (br_Id blockRange)))
  end.

Variable cfg : Backfill.

Section Blocks.
Context `{P : Platform} {C : Type} `{Countable C} `{ChainRpc C}.

(** The surroundings of a call to the client: the moments at which its pool
    tests connections, and the clock. *)
Record Call : Type := mkCall {
  moments : nat -> Pool.Moment C;
  clocks : nat -> time
}.

(** Of the call for a page of a range. *)
Variable calls : BlockRangeWithId -> Z -> Call.

Definition on_store {A} : M S A -> M (S * Pool.Pool C) A := m_zoom fst (fun d w => (d, w.2)).
Definition on_pool {A} : M (Pool.Pool C) A -> M (S * Pool.Pool C) A := m_zoom snd (fun p w => (w.1, p)).

(** A page of the events of a range, and the total. *)
Definition searchPage (blockRange : BlockRangeWithId) (page : Z) : M (S * Pool.Pool C) (list MissingEvent * Z) :=
  on_pool (Client.SearchEvents (moments (calls blockRange page)) (clocks (calls blockRange page))
    (Low (br_Range blockRange)) (High (br_Range blockRange)) page (BlockFetchChunkSize cfg)).

(** The pages after the first; [true] when all were read, [false] when a page
    failed.  Each round adds the chunk size to [retrieved], so [fuel] rounds
    are enough when it is at least the number of events left. *)
Fixpoint fetchPages (fuel : nat) (blockRange : BlockRangeWithId) (retrieved totalCount page : Z) : M (S * Pool.Pool C) bool :=
  if totalCount <=? retrieved then m_ret true
  else
    match fuel with
    | O => fun s => (s, Panic (bz "out of fuel"))
    | Datatypes.S fuel => fun s =>
        match searchPage blockRange page s with
        | (s, Panic w) => (s, Panic w)
        | (s, Err _) => (s, Ok false)
        | (s, Ok (events, _)) =>
            (do _ <- on_store (handleBacklogChunk blockRange events) ;;
             fetchPages fuel blockRange (retrieved + BlockFetchChunkSize cfg) totalCount (page + 1)) s
        end
    end.

Definition backfillRange (blockRange : BlockRangeWithId) : M (S * Pool.Pool C) unit := fun s =>
  match searchPage blockRange 1 s with
  | (s, Panic w) => (s, Panic w)
  | (s, Err _) => (s, Ok tt)
  | (s, Ok (events, totalCount)) =>
      (do _ <- on_store (handleBacklogChunk blockRange events) ;;
       do all <- fetchPages (Z.to_nat totalCount) blockRange (BlockFetchChunkSize cfg) totalCount 2 ;;
       if all then on_store (logged (st_RemoveMissingBlockRange (br_Id blockRange))) else m_ret tt) s
  end.

Fixpoint backfillRanges (ranges : list BlockRangeWithId) : M (S * Pool.Pool C) unit :=
  match ranges with
  | [] => m_ret tt
  | r :: rest => do _ <- backfillRange r ;; backfillRanges rest
  end.

(** One tick of the block backfill loop. *)
Definition blockTick : M (S * Pool.Pool C) unit := fun s =>
  match st_MissingBlocks s.1 with
  | Panic w => (s, Panic w)
  | Err _ => (s, Ok tt)
  | Ok missingBlocks => backfillRanges missingBlocks s
  end.

End Blocks.

(** ** Missing events *)

(** [repository.Events().GetEventById]: whether the event is stored here. *)
Variable GetEventById : bytes -> result bool.

(** The events that are too new to be asked for, and those asked for recently. *)
Definition too_new (now : Z) (ev : MissingEvent) : bool :=
  now - NewEventIgnoreThreshold cfg <? instant (me_ReceivedTime ev).
Definition retried_recently (now : Z) (ev : MissingEvent) : bool :=
  now <? instant (me_LastRetryTime ev) + EventRetryInterval cfg.

(** Whether to request the event, and whether by multicast. *)
Definition handleMissingEvent (now : Z) (ev : MissingEvent) : M S (bool * bool) := fun s =>
  match GetEventById (me_EventId ev) with
  | Panic w => (s, Panic w)
  | Err err => (s, Err err)
  | Ok true => (do _ <- st_RemoveMissingEvent (me_EventId ev) ;; m_ret (false, false)) s
  | Ok false =>
      if too_new now ev then (s, Ok (false, false))
      else if EventMaxRetries cfg <=? me_RetryCount ev then
        (do _ <- st_RemoveMissingEvent (me_EventId ev) ;; m_ret (false, false)) s
      else if retried_recently now ev then (s, Ok (false, false))
      else if TryUnicastFirst cfg && negb (me_RetriedUnicast ev) then (s, Ok (true, false))
      else (s, Ok (true, true))
  end.

(** The requests of a page: the identifiers to ask for by multicast and by
    unicast.  An event that fails is left out. *)
Fixpoint handlePage (now : Z) (page : list MissingEventWithKey) : M S (list bytes * list bytes) :=
  match page with
  | [] => m_ret ([], [])
  | ev :: rest => fun s =>
      match handleMissingEvent now (mk_Event ev) s with
      | (s, Panic w) => (s, Panic w)
      | (s, Err _) => handlePage now rest s
      | (s, Ok (shouldRequest, useMulticast)) =>
          (do (multi, uni) <- handlePage now rest ;;
           m_ret (if shouldRequest then
                    if useMulticast then (event_id ev :: multi, uni) else (multi, event_id ev :: uni)
                  else (multi, uni))) s
      end
  end.

Fixpoint countRetries (now : Z) (ids : list bytes) : M S unit :=
  match ids with
  | [] => m_ret tt
  | id :: rest => do _ <- logged (st_IncrementMissingEventRetryCount (mkTime now 0) id) ;; countRetries now rest
  end.

(** Marshalling of a request for some events, and the transport: [true] for a
    broadcast, [false] for a unicast to a random neighbour. *)
Variable marshalRequest : list bytes -> result bytes.
Variable transportSend : bool -> bytes -> result unit.

(** [true] when the requests went out, or when there was nothing to request;
    [false] is the [continue] of the source. *)
Definition sendRequests (now : Z) (multicast : bool) (ids : list bytes) : M S bool :=
  match ids with
  | [] => m_ret true
  | _ => fun s =>
      match marshalRequest ids with
      | Panic w => (s, Panic w)
      | Err _ => (s, Ok false)
      | Ok marshalled =>
          (do _ <- countRetries now ids ;;
           fun s => match transportSend multicast marshalled with
                    | Panic w => (s, Panic w)
                    | Err _ => (s, Ok false)
                    | Ok _ => (s, Ok true)
                    end) s
      end
  end.

(** The loop over the pages: [true] when it ended, [false] when [fuel] rounds
    were not enough.  The rounds have their own clocks. *)
Fixpoint eventLoop (fuel : nat) (clock : nat -> Z) (after : option bytes) : M S bool :=
  match fuel with
  | O => m_ret false
  | Datatypes.S fuel => fun s =>
      match st_MissingEvents after (EventFetchChunkSize cfg) s with
      | Panic w => (s, Panic w)
      | Err _ => eventLoop fuel clock after s
      | Ok [] => (s, Ok true)
      | Ok ((first :: rest) as missingEvents) =>
          let now := clock fuel in
          (do (multi, uni) <- handlePage now missingEvents ;;
           let after := Some (mk_Id (List.last rest first)) in
           do sent <- sendRequests now true multi ;;
           if negb sent then eventLoop fuel clock after
           else
             do sent <- sendRequests now false uni ;;
             if negb sent then eventLoop fuel clock after
             else if zlen missingEvents <? EventFetchChunkSize cfg then m_ret true
             else eventLoop fuel clock after) s
      end
  end.

(** One tick: the count is only logged. *)
Definition eventTick (fuel : nat) (clock : nat -> Z) : M S bool := fun s =>
  match st_MissingEventCount s with
  | Panic w => (s, Panic w)
  | _ => eventLoop fuel clock None s
  end.

(** ** Runs over a lawful store *)
Context `{!StateStoreLaws S}.

Lemma logged_ok {A} (c : M S A) s s' a : c s = (s', Ok a) -> logged c s = (s', Ok tt).
Proof. unfold logged. by intros ->. Qed.

(** *** Block heights *)

(** The ranges a new height adds to the missing ones. *)
Definition gap (last : option Z) (h : Z) : list BlockRange :=
  match last with
  | None => [NewBlockRange 0 h]
  | Some l => if l + 1 <? h then [NewBlockRange (l + 1) h] else []
  end.

Lemma onBlockHeight_run h d s n :
  implements d s -> 0 < h < 2 ^ 63 -> room (s_blockCounter s) (Datatypes.S n) ->
  exists d' s', onBlockHeight h d = (d', Ok tt) /\ implements d' s' /\ s_events s' = s_events s /\
    s_height s' = Some (match s_height s with None => h | Some l => Z.max l h end) /\
    br_Range <$> s_blocks s' = (br_Range <$> s_blocks s) ++ gap (s_height s) h /\
    room (s_blockCounter s') n.
Proof.
  intros Hs Hh Hr. assert (room (s_blockCounter s) 1) as Hr1 by (destruct Hr; split; [done|lia]).
  assert (room (s_blockCounter s) n) as Hrn by (destruct Hr; split; [done|lia]).
  destruct (next_room _ _ Hr) as [Hr' _].
  assert (forall low, - 2 ^ 63 <= low <= h -> exists d' s',
    (do _ <- logged (st_AddMissingBlocks (NewBlockRange low h)) ;; logged (st_SetLastSeenBlockHeight h)) d = (d', Ok tt) /\
    implements d' s' /\ s_events s' = s_events s /\ s_height s' = Some h /\
    br_Range <$> s_blocks s' = (br_Range <$> s_blocks s) ++ [NewBlockRange low h] /\ room (s_blockCounter s') n) as Hadd.
  { intros low Hlow. destruct (law_add_blocks d s (NewBlockRange low h) Hs Hr1) as (d1 & E1 & H1);
      [split; unfold in_s; cbn; lia|].
    destruct (law_set_height d1 _ h H1) as (d2 & E2 & H2); [unfold in_s; lia|].
    eexists d2, _. rewrite (m_bind_ok _ _ _ _ _ (logged_ok _ _ _ _ E1)), (logged_ok _ _ _ _ E2).
    split_and!; [done|exact H2|done|done| |done]. cbn. by rewrite fmap_app. }
  unfold onBlockHeight. rewrite (law_last_height d s Hs). cbv zeta. destruct (s_height s) as [l|] eqn:Hl; cbn [gap].
  - pose proof (law_height_fits _ _ _ Hs Hl) as Hlf. unfold in_s in Hlf. cbn in Hlf.
    destruct (Z.leb_spec h l).
    + exists d, s. replace (l + 1 <? h) with false by (symmetry; apply Z.ltb_ge; lia).
      split_and!; [done..| |by rewrite app_nil_r|done]. rewrite Hl. f_equal. lia.
    + rewrite swrap_id by (unfold in_s; lia). replace (Z.max l h) with h by lia.
      destruct (Z.eqb_spec (l + 1) h) as [Heq|Hne]; cbn [negb].
      * replace (l + 1 <? h) with false by (symmetry; apply Z.ltb_ge; lia).
        destruct (law_set_height d s h Hs) as (d2 & E2 & H2); [unfold in_s; lia|].
        eexists d2, _. rewrite (logged_ok _ _ _ _ E2). split_and!; [done|exact H2|done|done|by rewrite app_nil_r|done].
      * replace (l + 1 <? h) with true by (symmetry; apply Z.ltb_lt; lia).
        apply Hadd. lia.
  - rewrite (proj2 (Z.ltb_lt 0 h)) by lia. apply Hadd. lia.
Qed.

Definition in_range (h : Z) (r : BlockRange) : Prop := Low r <= h < High r.

(** Every block up to the last one seen satisfies [P] or is in a missing range. *)
Definition accounted (P : Z -> Prop) (s : Store) : Prop :=
  forall last h, s_height s = Some last -> 0 <= h <= last ->
    P h \/ exists r, r ∈ br_Range <$> s_blocks s /\ in_range h r.

Lemma accounted_step P s s' h :
  accounted P s -> 0 < h ->
  s_height s' = Some (match s_height s with None => h | Some l => Z.max l h end) ->
  br_Range <$> s_blocks s' = (br_Range <$> s_blocks s) ++ gap (s_height s) h ->
  accounted (fun k => P k \/ k = h) s'.
Proof.
  intros Ha Hh Hht Hbl last k Hlast Hk. rewrite Hht in Hlast. injection Hlast as <-. rewrite Hbl.
  setoid_rewrite elem_of_app. destruct (s_height s) as [l|] eqn:Hl; cbn [gap].
  - destruct (decide (k <= l)) as [Hkl|Hkl].
    + destruct (Ha l k Hl) as [HP|(r & Hr & Hin)]; [lia|by left; left|]. right. eauto.
    + destruct (decide (k = h)) as [->|Hne]; [by left; right|]. right.
      exists (NewBlockRange (l + 1) h). rewrite (proj2 (Z.ltb_lt (l + 1) h)) by lia.
      split; [right; constructor|]. unfold in_range. cbn. lia.
  - destruct (decide (k = h)) as [->|Hne]; [by left; right|]. right. exists (NewBlockRange 0 h).
    split; [right; constructor|]. unfold in_range. cbn. lia.
Qed.

Lemma onBlockHeights_run heights : forall d s P,
  implements d s -> Forall (fun h => 0 < h < 2 ^ 63) heights ->
  room (s_blockCounter s) (length heights) -> accounted P s ->
  exists d' s', onBlockHeights heights d = (d', Ok tt) /\ implements d' s' /\
    s_events s' = s_events s /\ accounted (fun h => P h \/ h ∈ heights) s' /\
    (forall h, s_height s = Some h \/ h ∈ heights -> exists last, s_height s' = Some last /\ h <= last).
Proof.
  induction heights as [|h hs IH]; intros d s P Hs Hf Hr Ha.
  - exists d, s. split_and!; [done..| |].
    + intros last k Hl Hk. destruct (Ha last k Hl Hk) as [HP|Hex]; [by left; left|by right].
    + intros h [Hl|Hin%elem_of_nil]; [|done]. exists h. split; [done|lia].
  - apply Forall_cons_1 in Hf as [Hh Hf]. cbn [length] in Hr.
    destruct (onBlockHeight_run h d s _ Hs Hh Hr) as (d1 & s1 & E1 & Hs1 & He1 & Hh1 & Hb1 & Hr1).
    destruct (IH d1 s1 (fun k => P k \/ k = h) Hs1 Hf Hr1) as (d2 & s2 & E2 & Hs2 & He2 & Ha2 & Hl2).
    { eapply accounted_step; [exact Ha|lia|done|done]. }
    exists d2, s2. cbn [onBlockHeights]. run E1. split_and!; [done|done|by rewrite He2| |].
    + intros last k Hl Hk. setoid_rewrite elem_of_cons. destruct (Ha2 last k Hl Hk) as [[[?|?]|?]|?]; auto.
    + destruct (Hl2 _ (or_introl Hh1)) as (last & Hlast & Hle).
      intros k [Hk|[->|Hk]%elem_of_cons]; [|exists last; split; [done|destruct (s_height s); lia]|by apply Hl2; right].
      exists last. split; [done|]. rewrite Hk in Hle. lia.
Qed.

(** C25. No block is forgotten: whatever sequence of positive block heights the
    subscription reports, the harmoniser does not crash, and afterwards every
    block up to the last one seen was reported, was accounted for before, or
    is in a range that is stored as missing. *)
Theorem no_block_forgotten heights d s P :
  implements d s -> Forall (fun h => 0 < h < 2 ^ 63) heights ->
  room (s_blockCounter s) (length heights) -> accounted P s ->
  exists d' s', onBlockHeights heights d = (d', Ok tt) /\ implements d' s' /\
    s_events s' = s_events s /\ accounted (fun h => P h \/ h ∈ heights) s' /\
    (forall h, h ∈ heights -> exists last, s_height s' = Some last /\ h <= last).
Proof.
  intros Hs Hf Hr Ha. destruct (onBlockHeights_run heights d s P Hs Hf Hr Ha) as (d' & s' & H1 & H2 & H3 & H4 & H5).
  exists d', s'. split_and!; auto.
Qed.

(** *** Missed blocks *)

Definition known (s : Store) (eid : bytes) : Prop := eid ∈ event_id <$> s_events s.

Lemma known_enqueue s c e id eid :
  known (with_events c (enqueue (s_events s) (e, id)) s) eid <-> known s eid \/ eid = me_EventId e.
Proof.
  unfold known, enqueue. cbn [s_events with_events fst snd]. rewrite fmap_app, elem_of_app. cbn [fmap list_fmap].
  rewrite list_elem_of_singleton, !list_elem_of_fmap. unfold event_id at 2. cbn. split.
  - intros [(x & -> & Hx)| ->]; [|by right]. apply elem_of_without in Hx as [_ Hx]. left. eauto.
  - intros [(x & -> & Hx)| ->]; [|by right].
    destruct (decide (event_id x = me_EventId e)) as [E|E]; [by right|]. left. exists x. split; [done|].
    by apply elem_of_without.
Qed.

(** The parts of the store the events do not use. *)
Definition same_blocks (s s' : Store) : Prop :=
  s_height s' = s_height s /\ s_blockCounter s' = s_blockCounter s /\ s_blocks s' = s_blocks s.

Lemma addAll_run events : forall d s n,
  implements d s -> Forall MissingEventCodec.event_fits events ->
  room (s_eventCounter s) (length events + n) ->
  exists d' s', addAll events d = (d', Ok tt) /\ implements d' s' /\ same_blocks s s' /\
    (forall eid, known s' eid <-> known s eid \/ eid ∈ me_EventId <$> events) /\ room (s_eventCounter s') n.
Proof.
  clear cfg GetEventById marshalRequest transportSend.
  induction events as [|e es IH]; intros d s n Hs Hf Hr.
  - exists d, s. split_and!; [done..|split_and!; done| |done].
    intros eid. split; [by left|]. intros [?|?%elem_of_nil]; done.
  - apply Forall_cons_1 in Hf as [He Hf]. cbn [length] in Hr.
    assert (room (s_eventCounter s) 1) as Hr1 by (destruct Hr; split; [done|lia]).
    destruct (law_add_event d s e Hs Hr1 He) as (d1 & E1 & Hs1). destruct (next_room _ _ Hr) as [Hr' _].
    destruct (IH _ _ n Hs1 Hf Hr') as (d2 & s2 & E2 & Hs2 & Hb2 & Hk2 & Hr2).
    exists d2, s2. cbn [addAll]. rewrite (m_bind_ok _ _ _ _ _ (logged_ok _ _ _ _ E1)). split_and!; [done..| |done].
    intros eid. rewrite Hk2, known_enqueue, fmap_cons, elem_of_cons. tauto.
Qed.

Section Range.
Variable blockRange : BlockRangeWithId.
Abbreviation rid := (br_Id blockRange).
Abbreviation low := (Low (br_Range blockRange)).
Abbreviation high := (High (br_Range blockRange)).
Hypothesis Hrange : range_fits (br_Range blockRange) /\ - 2 ^ 63 < high.

Definition pending (s : Store) : Prop := rid ∈ br_Id <$> s_blocks s.

(** [s'] is [s] but for the range, which may be shorter or gone, and events. *)
Definition progressed (s s' : Store) : Prop :=
  s_height s' = s_height s /\ s_blockCounter s' = s_blockCounter s /\
  remove_block rid (s_blocks s') = remove_block rid (s_blocks s).

Lemma remove_block_idem id q : remove_block id (remove_block id q) = remove_block id q.
Proof. unfold remove_block. apply filter_all_list. by intros x [Hx _]%list_elem_of_filter. Qed.

Lemma remove_replace b q : remove_block (br_Id b) (replace_block b <$> q) = remove_block (br_Id b) q.
Proof.
  unfold remove_block. induction q as [|x q IH]; [done|]. cbn [fmap list_fmap]. rewrite !filter_cons.
  assert (replace_block b x = (if decide (br_Id x = br_Id b) then b else x)) as -> by done.
  destruct (decide (br_Id x = br_Id b)) as [E|E].
  - rewrite !(decide_False (P := _ <> br_Id b)) by (intros Hn; by apply Hn). exact IH.
  - rewrite !decide_True by done. by rewrite IH.
Qed.

Lemma pending_replace b (q : list BlockRangeWithId) : br_Id b = rid -> rid ∈ br_Id <$> q -> rid ∈ br_Id <$> (replace_block b <$> q).
Proof.
  intros Hb [x [Hx Hin]]%list_elem_of_fmap. rewrite <- list_fmap_compose. apply list_elem_of_fmap. exists x. split; [|done].
  unfold compose, replace_block. destruct (decide _); congruence.
Qed.

(** What follows the events of a chunk: the range is removed when the last
    event is of its last block, and otherwise starts at that event's block. *)
Lemma handleChunk_run events d s n :
  implements d s -> Forall MissingEventCodec.event_fits events ->
  room (s_eventCounter s) (length events + n) ->
  (pending s \/ forall e, e ∈ events -> high - 1 <= me_BlockHeight e) ->
  exists d' s', handleBacklogChunk blockRange events d = (d', Ok tt) /\ implements d' s' /\ progressed s s' /\
    (forall eid, known s' eid <-> known s eid \/ eid ∈ me_EventId <$> events) /\ room (s_eventCounter s') n /\
    match List.last (Some <$> events) None with
    | None => s_blocks s' = s_blocks s
    | Some e => if high - 1 <=? me_BlockHeight e then s_blocks s' = remove_block rid (s_blocks s) else pending s'
    end.
Proof.
  intros Hs Hf Hr Hp. destruct (addAll_run events d s n Hs Hf Hr) as (d1 & s1 & E1 & Hs1 & (Hh1 & Hc1 & Hb1) & Hk1 & Hr1).
  unfold handleBacklogChunk. run E1.
  destruct (List.last (Some <$> events) None) as [e|] eqn:Hlast.
  2:{ exists d1, s1. unfold progressed. rewrite Hb1. split_and!; done. }
  assert (e ∈ events) as He.
  { clear -Hlast. induction events as [|x es IH]; [done|]. destruct es as [|y es]; [injection Hlast as ->; constructor|].
    apply list_elem_of_further, IH. exact Hlast. }
  cbv zeta. destruct Hrange as [[HL HH] Hgt]. rewrite swrap_id by (unfold in_s in *; cbn in *; lia).
  destruct (Z.leb_spec (high - 1) (me_BlockHeight e)) as [Hle|Hlt].
  - destruct (law_remove_block d1 s1 rid Hs1) as (d2 & E2 & Hs2). eexists d2, _. rewrite (logged_ok _ _ _ _ E2).
    split_and!; [done|exact Hs2| |exact Hk1|done|cbn; by rewrite Hb1].
    unfold progressed. cbn [with_blocks s_height s_blockCounter s_blocks]. by rewrite Hb1, remove_block_idem.
  - destruct Hp as [Hp|Hp]; [|specialize (Hp e He); lia]. unfold pending in Hp. rewrite <- Hb1 in Hp.
    assert (in_s 64 (me_BlockHeight e)) as Hbh
      by (rewrite List.Forall_forall in Hf; apply list_elem_of_In, Hf in He as (_ & _ & ? & _); done).
    destruct (law_update_block d1 s1 (NewBlockRangeWithId (NewBlockRange (me_BlockHeight e) high) rid) Hs1 Hp (conj Hbh HH))
      as (d2 & E2 & Hs2).
    eexists d2, _. rewrite (logged_ok _ _ _ _ E2). split_and!; [done|exact Hs2| |exact Hk1|done|].
    + unfold progressed. cbn [with_blocks s_height s_blockCounter s_blocks]. rewrite <- Hb1. split_and!; [done..|].
      apply (remove_replace (NewBlockRangeWithId (NewBlockRange (me_BlockHeight e) high) rid)).
    + unfold pending. cbn [with_blocks s_blocks]. by apply pending_replace.
Qed.

Section Pages.
Context `{P : Platform} {C : Type} `{Countable C} `{ChainRpc C}.
Variable calls : BlockRangeWithId -> Z -> Call (C := C).
Abbreviation N := (BlockFetchChunkSize cfg).
Abbreviation backfillRange := (backfillRange calls).
Abbreviation fetchPages := (fetchPages calls).
Abbreviation searchPage := (searchPage calls).

(** *** The search service

    [tx_search] of a node, as its documentation has it: a page size that is not
    between 1 and 100 is replaced by 30 or 100, and a page that is not one of
    those the results fill is an error; the first page always exists. *)
Definition page_size (limit : Z) : Z := if limit <? 1 then 30 else if 100 <? limit then 100 else limit.
Definition page_count (total limit : Z) : Z := Z.max 1 (Z.quot (total - 1) (page_size limit) + 1).

Definition tx_search (txs : list ResultTx) (page limit : Z) : result (list ResultTx * Z) :=
  if (page <=? 0) || (page_count (zlen txs) limit <? page) then Err (NewError (bz "page should be within range"))
  else Ok (take (Z.to_nat (page_size limit)) (drop (Z.to_nat ((page - 1) * page_size limit)) txs), zlen txs).

Definition tx_le (a b : ResultTx) : Prop := rt_Height a <= rt_Height b.

(** The identifiers of the events the transactions created, of those whose
    result can be decoded. *)
Definition created (txs : list ResultTx) : list EventHash :=
  omap (fun tx => match Unmarshal (A := CreateResponse) (rt_Data tx) with
                  | Ok decoded => Some (EventId (cresp_Metadata decoded))
                  | _ => None
                  end) txs.

(** What can be stored of a transaction. *)
Definition tx_fits (tx : ResultTx) : Prop := in_s 64 (rt_Height tx) /\
  forall decoded, Unmarshal (A := CreateResponse) (rt_Data tx) = Ok decoded -> zlen (EventId (cresp_Metadata decoded)) < 2 ^ 15.

(** *** What the client makes of a page *)

Lemma missingEvents_ids clock txs : forall i, me_EventId <$> Client.missingEvents clock i txs = created txs.
Proof.
  induction txs as [|tx txs IH]; intros i; [done|]. cbn [Client.missingEvents]. unfold created. cbn [omap list_omap].
  destruct (Unmarshal (rt_Data tx)); cbn [fmap list_fmap]; [f_equal|..]; apply IH.
Qed.

Lemma missingEvents_length clock txs : forall i, (length (Client.missingEvents clock i txs) <= length txs)%nat.
Proof.
  induction txs as [|tx txs IH]; intros i; [done|]. cbn [Client.missingEvents length].
  pose proof (IH i). pose proof (IH (Datatypes.S i)). destruct (Unmarshal (rt_Data tx)); cbn [length]; lia.
Qed.

Lemma missingEvents_height clock txs e : forall i, e ∈ Client.missingEvents clock i txs ->
  exists tx, tx ∈ txs /\ me_BlockHeight e = rt_Height tx.
Proof.
  induction txs as [|tx txs IH]; intros i He; [by apply elem_of_nil in He|]. cbn [Client.missingEvents] in He.
  assert (forall j, e ∈ Client.missingEvents clock j txs -> exists tx0, tx0 ∈ tx :: txs /\ me_BlockHeight e = rt_Height tx0) as Hlater.
  { intros j Hj. destruct (IH j Hj) as (tx0 & Hin & E). exists tx0. split; [by apply list_elem_of_further|done]. }
  destruct (Unmarshal (rt_Data tx)); [|by eapply Hlater..]. apply elem_of_cons in He as [->|He]; [|by eapply Hlater].
  exists tx. split; [constructor|done].
Qed.

Lemma missingEvents_fit clock txs : (forall i, Codec.binary_time (clock i)) -> Forall tx_fits txs ->
  forall i, Forall MissingEventCodec.event_fits (Client.missingEvents clock i txs).
Proof.
  intros Hc Hf. induction Hf as [|tx txs [Hh Hd] Hf IH]; intros i; [constructor|]. cbn [Client.missingEvents].
  destruct (Unmarshal (rt_Data tx)) as [decoded| |] eqn:E; [|apply IH..]. constructor; [|apply IH].
  split_and!; cbn; [by apply Hd|done..].
Qed.

(** *** The pages of a range *)

(** The transactions of the range, in the order of the chain. *)
Variable txs : list ResultTx.
Hypothesis Hfits : Forall tx_fits txs.
Hypothesis Hclocks : forall page i, Codec.binary_time (clocks (calls blockRange page) i).

(** The connections of the pool lead to nodes with these transactions, and one
    of them answers whenever it is tested. *)
Record serving (p : Pool.Pool C) : Prop := {
  sv_answers c page limit : c ∈ Pool.conns p -> rpc_TxSearch c (Client.searchQuery low high) page limit = tx_search txs page limit;
  sv_alive : exists c, c ∈ Pool.conns p /\ forall page i, Pool.alive (moments (calls blockRange page) i) c = true
}.

(** A page is fetched, from whatever node. *)
Lemma searchPage_served page d p page_txs total : serving p -> tx_search txs page N = Ok (page_txs, total) -> exists p',
  searchPage blockRange page (d, p) =
    ((d, p'), Ok (Client.missingEvents (clocks (calls blockRange page)) 0 page_txs, total)) /\ serving p'.
Proof.
  intros [Ha (c & Hc & Hal)] Ht. set (env := moments (calls blockRange page)).
  destruct (Pool.Get_returns_usable env p) as (p' & Hm & Hr).
  assert (c ∈ Pool.conns p') as Hc' by (eapply Pool.moved_stays; [exact Hm|done|]; intros i; apply Hal).
  assert (serving p') as Hs' by (split; [intros c' page' limit Hin'; apply Ha; by eapply Pool.moved_conns|by exists c]).
  exists p'. split; [|done]. destruct Hr as [(c' & Eg & Hin' & _)|[_ En]]; [|rewrite En in Hc'; by apply elem_of_nil in Hc'].
  unfold searchPage, on_pool, m_zoom, Client.SearchEvents. cbn [snd]. fold env. run Eg. unfold m_lift.
  rewrite Ha by (by eapply Pool.moved_conns). by rewrite Ht.
Qed.

Lemma on_store_ok {A} (c : M S A) d d' (p : Pool.Pool C) a : c d = (d', Ok a) -> on_store c (d, p) = ((d', p), Ok a).
Proof. intros E. unfold on_store, m_zoom. cbn. by rewrite E. Qed.

(** A page size above 100 loses events: the service returns a hundred results,
    but the loop counts a full page and removes the range. *)
Theorem oversized_page_loses_events d s p :
  100 < N -> zlen txs <= N -> implements d s -> serving p -> pending s -> room (s_eventCounter s) (length txs) ->
  exists d' p' s', backfillRange blockRange (d, p) = ((d', p'), Ok tt) /\ implements d' s' /\
    s_blocks s' = remove_block rid (s_blocks s) /\
    forall eid, known s' eid <-> known s eid \/ eid ∈ created (take 100 txs).
Proof.
  clear GetEventById marshalRequest transportSend. intros HN Hle Hs Hp Hpe Hr.
  destruct (searchPage_served 1 d p (take 100 txs) (zlen txs) Hp) as (p1 & E1 & _).
  { unfold tx_search, page_count. assert (page_size N = 100) as ->
      by (unfold page_size; rewrite (proj2 (Z.ltb_ge N 1)), (proj2 (Z.ltb_lt 100 N)) by lia; done).
    rewrite (proj2 (Z.ltb_ge _ 1)) by lia. done. }
  set (es := Client.missingEvents _ 0 (take 100 txs)) in E1.
  destruct (handleChunk_run es d s 0 Hs) as (d1 & s1 & E & Hs1 & (_ & _ & Hb) & Hk & _ & _); [..|by left|].
  { by apply missingEvents_fit; [|apply Forall_take]. }
  { pose proof (missingEvents_length (clocks (calls blockRange 1)) (take 100 txs) 0) as Hl. fold es in Hl.
    rewrite length_take in Hl. destruct Hr. split; [done|lia]. }
  destruct (law_remove_block d1 s1 rid Hs1) as (d2 & E2 & Hs2). eexists d2, p1, _.
  split_and!; [|exact Hs2|exact Hb|intros eid; unfold es in Hk; rewrite missingEvents_ids in Hk; exact (Hk eid)].
  unfold Harmoniser.backfillRange. rewrite E1, (m_bind_ok _ _ _ _ _ (on_store_ok _ _ _ p1 _ E)).
  assert (fetchPages (Z.to_nat (zlen txs)) blockRange N (zlen txs) 2 (d1, p1) = ((d1, p1), Ok true)) as E3
    by (destruct (Z.to_nat (zlen txs)); cbn [Harmoniser.fetchPages]; by rewrite (proj2 (Z.leb_le _ _)) by lia).
  run E3. by rewrite (on_store_ok _ _ _ p1 _ (logged_ok _ _ _ _ E2)).
Qed.

Hypothesis HN : 1 <= N <= 100.
Hypothesis Hsorted : StronglySorted tx_le txs.

Definition rest (k : Z) : list ResultTx := drop (Z.to_nat (k * N)) txs.

Lemma tx_search_page k : 0 <= k -> k * N < zlen txs \/ k = 0 ->
  tx_search txs (k + 1) N = Ok (take (Z.to_nat N) (rest k), zlen txs).
Proof.
  intros Hk Hin. unfold tx_search, page_count.
  assert (page_size N = N) as -> by (unfold page_size; rewrite (proj2 (Z.ltb_ge N 1)), (proj2 (Z.ltb_ge 100 N)) by lia; done).
  assert (k + 1 <= Z.max 1 (Z.quot (zlen txs - 1) N + 1)) as Hp.
  { destruct Hin as [Hin| ->]; [|lia]. assert (k <= Z.quot (zlen txs - 1) N); [|lia].
    apply Z.quot_le_lower_bound; nia. }
  rewrite (proj2 (Z.leb_gt _ _)), (proj2 (Z.ltb_ge _ _)) by lia. cbn [orb]. replace (k + 1 - 1) with k by lia. done.
Qed.

Lemma searchPage_run k d p : serving p -> 0 <= k -> k * N < zlen txs \/ k = 0 -> exists p',
  searchPage blockRange (k + 1) (d, p) =
    ((d, p'), Ok (Client.missingEvents (clocks (calls blockRange (k + 1))) 0 (take (Z.to_nat N) (rest k)), zlen txs)) /\
  serving p'.
Proof. intros Hp Hk Hin. by apply searchPage_served, tx_search_page. Qed.

(** The range is stored, or only transactions of its last block are left. *)
Definition resumable (k : Z) (s : Store) : Prop :=
  pending s \/ forall tx, tx ∈ rest k -> high - 1 <= rt_Height tx.

Lemma rest_step k : 0 <= k -> rest k = take (Z.to_nat N) (rest k) ++ rest (k + 1).
Proof.
  intros Hk. unfold rest. rewrite <- (take_drop (Z.to_nat N) (drop (Z.to_nat (k * N)) txs)) at 1.
  f_equal. rewrite drop_drop. f_equal. lia.
Qed.

Lemma last_elem {A} (l : list A) x : List.last (Some <$> l) None = Some x -> x ∈ l.
Proof.
  induction l as [|a l IH]; [done|]. destruct l as [|b l]; [intros [= ->]; constructor|].
  intros Hl. apply list_elem_of_further, IH. exact Hl.
Qed.

Lemma page_run k d s n :
  0 <= k -> implements d s -> resumable k s -> room (s_eventCounter s) (length (rest k) + n) ->
  exists d' s', handleBacklogChunk blockRange
      (Client.missingEvents (clocks (calls blockRange (k + 1))) 0 (take (Z.to_nat N) (rest k))) d = (d', Ok tt) /\ implements d' s' /\
    progressed s s' /\ resumable (k + 1) s' /\ room (s_eventCounter s') (length (rest (k + 1)) + n) /\
    (forall eid, known s' eid <-> known s eid \/ eid ∈ created (take (Z.to_nat N) (rest k))).
Proof.
  intros Hk Hs Hres Hr. pose proof (rest_step k Hk) as Hstep.
  set (page := take (Z.to_nat N) (rest k)) in *. set (es := Client.missingEvents _ 0 page).
  assert (Hlen : length (rest k) = (length page + length (rest (k + 1)))%nat) by (rewrite Hstep at 1; apply length_app).
  assert (length es <= length page)%nat as Hle by apply missingEvents_length.
  assert (Forall tx_fits page) as Hfp by (by apply Forall_take, Forall_drop).
  assert (StronglySorted tx_le (rest k)) as Hsk.
  { unfold rest. rewrite <- (take_drop (Z.to_nat (k * N)) txs) in Hsorted. by apply StronglySorted_app in Hsorted as (_ & _ & ?). }
  destruct (handleChunk_run es d s (length (rest (k + 1)) + n)) as (d' & s' & E & Hs' & Hp & Hk' & Hr' & Hl);
    [done|by apply missingEvents_fit|destruct Hr; split; [done|lia]| |].
  { destruct Hres as [Hpend|Hall]; [by left|]. right. intros e He. destruct (missingEvents_height _ _ _ _ He) as (tx & Htx & ->).
    apply Hall. rewrite Hstep. apply elem_of_app. by left. }
  exists d', s'. split_and!; try done; [|intros eid; rewrite Hk'; unfold es; by rewrite missingEvents_ids].
  destruct (List.last (Some <$> es) None) as [e|] eqn:Hlast.
  - destruct (Z.leb_spec (high - 1) (me_BlockHeight e)); [|by left]. right. intros tx' Htx'.
    rewrite Hstep in Hsk. apply StronglySorted_app in Hsk as (Hcross & _ & _).
    destruct (missingEvents_height _ _ _ _ (last_elem _ _ Hlast)) as (tx & Htx & Eh).
    specialize (Hcross tx tx' Htx Htx'). unfold tx_le in Hcross. lia.
  - destruct Hres as [Hpend|Hall]; [left; unfold pending in *; by rewrite Hl|].
    right. intros tx Htx. apply Hall. rewrite Hstep. apply elem_of_app. by right.
Qed.

Lemma progressed_trans s1 s2 s3 : progressed s1 s2 -> progressed s2 s3 -> progressed s1 s3.
Proof. unfold progressed. intros (-> & -> & ->) (-> & -> & ->). done. Qed.

Lemma created_app l k : created (l ++ k) = created l ++ created k.
Proof. apply omap_app. Qed.

Lemma fetchPages_run fuel : forall k d s p,
  0 <= k -> zlen txs - k * N <= Z.of_nat fuel -> implements d s -> serving p -> resumable k s ->
  room (s_eventCounter s) (length (rest k)) ->
  exists d' p' s', fetchPages fuel blockRange (k * N) (zlen txs) (k + 1) (d, p) = ((d', p'), Ok true) /\ implements d' s' /\
    progressed s s' /\ (forall eid, known s' eid <-> known s eid \/ eid ∈ created (rest k)).
Proof.
  clear GetEventById marshalRequest transportSend.
  induction fuel as [|fuel IH]; intros k d s p Hk Hfuel Hs Hp Hres Hr; cbn [Harmoniser.fetchPages].
  all: destruct (Z.leb_spec (zlen txs) (k * N)) as [Hdone|Hmore].
  1,3: exists d, p, s; split_and!; [done..|split_and!; done|]; intros eid;
    unfold rest; rewrite drop_ge by (unfold zlen in Hdone; lia); (split; [by left|]; intros [?|?%elem_of_nil]; done).
  - lia.
  - destruct (searchPage_run k d p Hp Hk (or_introl Hmore)) as (p1 & E & Hp1). rewrite E.
    destruct (page_run k d s 0 Hk Hs Hres) as (d1 & s1 & E1 & Hs1 & Hg1 & Hres1 & Hr1 & Hk1); [by rewrite Nat.add_0_r|].
    run (on_store_ok _ _ _ p1 _ E1). replace (k * N + N) with ((k + 1) * N) by lia. rewrite Nat.add_0_r in Hr1.
    destruct (IH (k + 1) d1 s1 p1 ltac:(lia) ltac:(lia) Hs1 Hp1 Hres1 Hr1) as (d2 & p2 & s2 & E2 & Hs2 & Hg2 & Hk2).
    exists d2, p2, s2. split_and!; [done..|by eapply progressed_trans|].
    intros eid. rewrite Hk2, Hk1. rewrite (rest_step k Hk) at 2. rewrite created_app, elem_of_app. tauto.
Qed.


End Pages.

Section Lost.
Context `{P : Platform} {C : Type} `{Countable C} `{ChainRpc C}.
Variable calls : BlockRangeWithId -> Z -> Call (C := C).

(** A page that fails can lose events for good: when the first page ends in
    the last block of the range, the range is removed at once, and if the next
    page cannot be fetched the events on it are neither known as missing nor
    covered by a stored range any more. *)
Theorem failed_page_loses_events d s p p1 p2 es e total err :
  implements d s -> pending s -> Forall MissingEventCodec.event_fits es ->
  room (s_eventCounter s) (length es) ->
  searchPage calls blockRange 1 (d, p) = ((d, p1), Ok (es, total)) ->
  List.last (Some <$> es) None = Some e -> high - 1 <= me_BlockHeight e ->
  BlockFetchChunkSize cfg < total -> 0 < total ->
  (forall d', searchPage calls blockRange 2 (d', p1) = ((d', p2), Err err)) ->
  exists d' s', backfillRange calls blockRange (d, p) = ((d', p2), Ok tt) /\ implements d' s' /\
    s_blocks s' = remove_block rid (s_blocks s) /\
    forall eid, known s' eid <-> known s eid \/ eid ∈ me_EventId <$> es.
Proof.
  intros Hs Hp Hf Hr E1 Hl Hle Hlt Hpos E2.
  destruct (handleChunk_run es d s 0 Hs Hf ltac:(by rewrite Nat.add_0_r) (or_introl Hp))
    as (d' & s' & E & Hs' & _ & Hk & _ & Hb).
  rewrite Hl, (proj2 (Z.leb_le (high - 1) (me_BlockHeight e))) in Hb by done.
  exists d', s'. split_and!; [|done..]. unfold backfillRange. rewrite E1, (m_bind_ok _ _ _ _ _ (on_store_ok _ _ _ p1 _ E)).
  destruct (Z.to_nat total) as [|fuel] eqn:Ht; [lia|]. cbn [fetchPages].
  rewrite (proj2 (Z.leb_gt total (BlockFetchChunkSize cfg))) by lia. unfold m_bind. by rewrite E2.
Qed.

End Lost.

End Range.

(** *** Missing events *)

(** What a round does with an event. *)
Inductive decision : Type :=
| Drop                     (* stored here, or given up: forget it *)
| Keep                     (* too new, tried recently, or the repository failed *)
| Request (multicast : bool).
#[local] Instance decision_eq_dec : EqDecision decision.
Proof. solve_decision. Defined.

Definition decide_event (now : Z) (ev : MissingEvent) : decision :=
  match GetEventById (me_EventId ev) with
  | Ok true => Drop
  | Ok false =>
      if too_new now ev then Keep
      else if EventMaxRetries cfg <=? me_RetryCount ev then Drop
      else if retried_recently now ev then Keep
      else Request (negb (TryUnicastFirst cfg && negb (me_RetriedUnicast ev)))
  | _ => Keep
  end.

Definition drop_one (now : Z) (q : list MissingEventWithKey) (y : MissingEventWithKey) : list MissingEventWithKey :=
  match decide_event now (mk_Event y) with Drop => without (event_id y) q | _ => q end.

(** The events of a page to be requested by multicast, or by unicast. *)
Definition requested (now : Z) (multicast : bool) (page : list MissingEventWithKey) : list bytes :=
  omap (fun y => match decide_event now (mk_Event y) with
                 | Request m => if eqb m multicast then Some (event_id y) else None
                 | _ => None
                 end) page.

Hypothesis GetEventById_returns : forall id, is_panic (GetEventById id) = false.

Lemma with_events_same s : with_events (s_eventCounter s) (s_events s) s = s.
Proof. by destruct s. Qed.

Lemma handlePage_run now page : forall d s, implements d s ->
  exists d', handlePage now page d = (d', Ok (requested now true page, requested now false page)) /\
    implements d' (with_events (s_eventCounter s) (foldl (drop_one now) (s_events s) page) s).
Proof.
  induction page as [|y page IH]; intros d s Hs.
  { exists d. rewrite with_events_same. done. }
  cbn [handlePage foldl]. unfold requested. cbn [omap list_omap]. fold (requested now true page) (requested now false page).
  assert (forall (dec : decision), decide_event now (mk_Event y) = dec -> dec <> Drop ->
    exists d', handlePage now page d = (d', Ok (requested now true page, requested now false page)) /\
      implements d' (with_events (s_eventCounter s) (foldl (drop_one now) (drop_one now (s_events s) y) page) s)) as Hkeep.
  { intros dec Hdec Hne. unfold drop_one at 2. rewrite Hdec. destruct dec; [done|..]; by apply IH. }
  assert (decide_event now (mk_Event y) = Drop ->
    exists d', (do _ <- st_RemoveMissingEvent (event_id y) ;;
                do (multi, uni) <- handlePage now page ;; m_ret (multi, uni)) d =
        (d', Ok (requested now true page, requested now false page)) /\
      implements d' (with_events (s_eventCounter s) (foldl (drop_one now) (drop_one now (s_events s) y) page) s)) as Hdrop.
  { intros Hdec. destruct (law_remove_event d s (event_id y) Hs) as (d1 & E1 & Hs1).
    destruct (IH d1 _ Hs1) as (d2 & E2 & Hs2). exists d2.
    rewrite (m_bind_ok _ _ _ _ _ E1), (m_bind_ok _ _ _ _ _ E2). split; [done|].
    unfold drop_one at 2. rewrite Hdec. exact Hs2. }
  unfold handleMissingEvent. pose proof (GetEventById_returns (event_id y)) as Hret. unfold event_id in Hret, Hdrop |- *.
  unfold decide_event in *. destruct (GetEventById (me_EventId (mk_Event y))) as [[]|err|w]; [..|done].
  - destruct (Hdrop eq_refl) as (d' & E & Hs'). exists d'. split; [|exact Hs'].
    unfold m_bind, m_ret in *. by destruct (st_RemoveMissingEvent _ d) as [d1 [[]|e|w]].
  - destruct (too_new now (mk_Event y)); [|destruct (_ <=? _); [|destruct (retried_recently now (mk_Event y))]].
    + destruct (Hkeep _ eq_refl ltac:(done)) as (d' & E & Hs'). exists d'. by run E.
    + destruct (Hdrop eq_refl) as (d' & E & Hs'). exists d'. split; [|exact Hs'].
      unfold m_bind, m_ret in *. by destruct (st_RemoveMissingEvent _ d) as [d1 [[]|e|w]].
    + destruct (Hkeep _ eq_refl ltac:(done)) as (d' & E & Hs'). exists d'. by run E.
    + destruct (Hkeep _ eq_refl ltac:(done)) as (d' & E & Hs'). exists d'.
      by destruct (TryUnicastFirst cfg && _); cbn [negb eqb]; run E.
  - destruct (Hkeep _ eq_refl ltac:(done)) as (d' & E & Hs'). exists d'. done.
Qed.

Definition retry_all (ids : list bytes) (q : list MissingEventWithKey) : list MissingEventWithKey :=
  foldl (fun q id => retry_event id <$> q) q ids.

Lemma retry_absent_id id (q : list MissingEventWithKey) : id ∉ event_id <$> q -> retry_event id <$> q = q.
Proof.
  intros Hn. rewrite <- (list_fmap_id q) at 2. apply list_fmap_ext. intros i x Hx. unfold retry_event.
  rewrite decide_False; [done|]. intros <-. apply Hn, list_elem_of_fmap. exists x. split; [done|].
  by eapply list_elem_of_lookup_2.
Qed.

Lemma countRetries_run now ids : forall d s, implements d s ->
  exists d', countRetries now ids d = (d', Ok tt) /\
    implements d' (with_events (s_eventCounter s) (retry_all ids (s_events s)) s).
Proof.
  induction ids as [|id ids IH]; intros d s Hs.
  { exists d. rewrite with_events_same. done. }
  cbn [countRetries]. unfold retry_all. cbn [foldl]. fold (retry_all ids (retry_event id <$> s_events s)).
  destruct (decide (id ∈ event_id <$> s_events s)) as [[x [-> Hx]]%list_elem_of_fmap|Hn].
  - destruct (law_retry d s (mkTime now 0) x Hs Hx) as (d1 & E1 & Hs1).
    destruct (IH d1 _ Hs1) as (d2 & E2 & Hs2). exists d2.
    rewrite (m_bind_ok _ _ _ _ _ (logged_ok _ _ _ _ E1)). split; [done|exact Hs2].
  - destruct (law_retry_absent d s (mkTime now 0) id Hs Hn) as (e & E1).
    destruct (IH d s Hs) as (d2 & E2 & Hs2). exists d2.
    assert (logged (st_IncrementMissingEventRetryCount (mkTime now 0) id) d = (d, Ok tt)) as E by (unfold logged; by rewrite E1).
    rewrite (m_bind_ok _ _ _ _ _ E), (retry_absent_id id _ Hn). done.
Qed.

Lemma dropped_sublist now page q : sublist (foldl (drop_one now) q page) q.
Proof.
  revert q. induction page as [|y page IH]; intros q; [done|]. cbn [foldl].
  etransitivity; [apply IH|]. unfold drop_one. destruct (decide_event now (mk_Event y)); [apply sublist_filter|done..].
Qed.

Lemma retry_all_keys ids : forall q, mk_Id <$> retry_all ids q = mk_Id <$> q.
Proof.
  induction ids as [|id ids IH]; intros q; [done|]. unfold retry_all. cbn [foldl]. fold (retry_all ids (retry_event id <$> q)).
  rewrite IH, <- list_fmap_compose. apply list_fmap_ext. intros i x _. apply (retry_keys id x).
Qed.

Hypothesis marshal_returns : forall ids, is_panic (marshalRequest ids) = false.
Hypothesis transport_returns : forall m b, is_panic (transportSend m b) = false.

(** Requests are counted before they are sent, whether or not they arrive. *)
Lemma sendRequests_run now m ids d s : implements d s ->
  exists d' ids', sendRequests now m ids d =
      (d', Ok (match ids with
               | [] => true
               | _ => match marshalRequest ids with Ok b => is_ok (transportSend m b) | _ => false end
               end)) /\
    ids' = (if is_ok (marshalRequest ids) then ids else []) /\
    implements d' (with_events (s_eventCounter s) (retry_all ids' (s_events s)) s).
Proof.
  intros Hs. destruct ids as [|id ids].
  { exists d, []. split_and!; [done|by destruct (is_ok _)|]. by rewrite with_events_same. }
  pose proof (marshal_returns (id :: ids)) as Hm. unfold sendRequests.
  destruct (marshalRequest (id :: ids)) as [b|e|w]; [|..|done].
  - destruct (countRetries_run now (id :: ids) d s Hs) as (d1 & E1 & Hs1). exists d1, (id :: ids).
    run E1. pose proof (transport_returns m b) as Ht.
    destruct (transportSend m b); [..|done]; done.
  - exists d, []. split_and!; [done..|]. by rewrite with_events_same.
Qed.

(** *** The loop over the pages ends *)

Definition keys_of (s : Store) : list bytes := mk_Id <$> s_events s.

(** The keys a cursor has not passed. *)
Definition beyond (after : option bytes) (k : bytes) : Prop :=
  match after with None => True | Some a => Codec.be_decode a < Codec.be_decode k end.
#[local] Instance beyond_dec after k : Decision (beyond after k).
Proof. destruct after; cbn [beyond]; apply _. Defined.

Definition remaining (after : option bytes) (s : Store) : nat := length (filter (beyond after) (keys_of s)).

Lemma filter_strict {A} (P Q : A -> Prop) `{!forall x, Decision (P x), !forall x, Decision (Q x)} (l : list A) x :
  (forall y, P y -> Q y) -> x ∈ l -> Q x -> ~ P x -> (length (filter P l) < length (filter Q l))%nat.
Proof.
  intros Hsub Hx HQ HP. induction l as [|y l IH]; [by apply elem_of_nil in Hx|].
  assert ((length (filter P l) <= length (filter Q l))%nat) as Hle.
  { clear -Hsub. induction l as [|z l IH]; [done|]. rewrite !filter_cons.
    destruct (decide (P z)), (decide (Q z)); cbn; [lia|naive_solver|lia|lia]. }
  rewrite !filter_cons. apply elem_of_cons in Hx as [->|Hx].
  - rewrite decide_False, decide_True by done. cbn. lia.
  - specialize (IH Hx). destruct (decide (P y)), (decide (Q y)); cbn; [lia|naive_solver|lia|lia].
Qed.

Lemma filter_sublist {A} (P : A -> Prop) `{!forall x, Decision (P x)} (l k : list A) :
  sublist l k -> (length (filter P l) <= length (filter P k))%nat.
Proof.
  induction 1 as [|x l k Hs IH|x l k Hs IH]; [done|..]; rewrite ?filter_cons.
  - destruct (decide (P x)); cbn; lia.
  - destruct (decide (P x)); cbn; lia.
Qed.

(** A page only holds keys the cursor has not passed. *)
Lemma page_beyond d s after x : implements d s -> x ∈ page_start after (s_events s) ->
  x ∈ s_events s /\ beyond after (mk_Id x).
Proof.
  intros Hs. destruct after as [a|]; cbn [page_start beyond]; [|done].
  destruct (after_cursor_split a (s_events s)) as [[_ ->]|(l1 & y & E & _ & Hle)]; [by intros ?%elem_of_nil|].
  intros Hx. assert (x ∈ s_events s) as Hin by (rewrite E; apply elem_of_app; right; by apply list_elem_of_further).
  split; [done|]. apply list_elem_of_split in Hx as (k1 & k2 & Hk).
  assert (Codec.be_decode (mk_Id y) < Codec.be_decode (mk_Id x)); [|lia].
  apply (law_sorted d s (l1 ++ y :: k1) x k2 y Hs); [|apply elem_of_app; right; constructor].
  rewrite E at 1. rewrite Hk. by rewrite <- app_assoc.
Qed.

Lemma last_in {A} (a : A) l : List.last l a ∈ a :: l.
Proof. revert a. induction l as [|b l IH]; intros a; [constructor|]. rewrite last_cons_default. apply list_elem_of_further, IH. Qed.

(** [s'] keeps the blocks of [s] and some of its events, in order. *)
Definition thinned (s s' : Store) : Prop :=
  s_height s' = s_height s /\ s_blockCounter s' = s_blockCounter s /\ s_blocks s' = s_blocks s /\
  s_eventCounter s' = s_eventCounter s /\ sublist (keys_of s') (keys_of s).

Lemma thinned_trans s1 s2 s3 : thinned s1 s2 -> thinned s2 s3 -> thinned s1 s3.
Proof. unfold thinned. intros (-> & -> & -> & -> & ?) (-> & -> & -> & -> & ?). split_and!; [done..|by etransitivity]. Qed.

Lemma thinned_dropped now page s :
  thinned s (with_events (s_eventCounter s) (foldl (drop_one now) (s_events s) page) s).
Proof. split_and!; [done..|]. apply fmap_sublist, dropped_sublist. Qed.

Lemma thinned_retried ids s : thinned s (with_events (s_eventCounter s) (retry_all ids (s_events s)) s).
Proof. split_and!; [done..|]. unfold keys_of. cbn [with_events s_events]. by rewrite retry_all_keys. Qed.

Lemma cursor_decreases d s s' after first rest :
  implements d s -> thinned s s' -> (forall x, x ∈ first :: rest -> x ∈ page_start after (s_events s)) ->
  (remaining (Some (mk_Id (List.last rest first))) s' < remaining after s)%nat.
Proof.
  intros Hs (_ & _ & _ & _ & Hsub) Hpage. set (x := List.last rest first).
  destruct (page_beyond d s after x Hs (Hpage _ (last_in _ _))) as [Hx Hb].
  unfold remaining. eapply Nat.le_lt_trans; [by apply filter_sublist|].
  apply (filter_strict _ _ _ (mk_Id x)); [|by apply list_elem_of_fmap_2|done|cbn; lia].
  intros y Hy. destruct after as [a|]; [|done]. cbn in *. lia.
Qed.

Lemma eventLoop_ends clock fuel : forall d s after,
  1 <= EventFetchChunkSize cfg -> implements d s -> (forall a, after = Some a -> length a = 16%nat) ->
  (remaining after s < fuel)%nat ->
  exists d' s', eventLoop fuel clock after d = (d', Ok true) /\ implements d' s' /\ thinned s s'.
Proof.
  induction fuel as [|fuel IH]; intros d s after HN Hs Ha Hrem; [lia|]. cbn [eventLoop].
  rewrite (law_events d s after _ Hs) by (done || lia).
  destruct (take _ _) as [|first rest] eqn:Hpage; [exists d, s; split_and!; [done..|]; split_and!; done|].
  cbv beta iota zeta. set (page := first :: rest) in *. set (now := clock fuel). set (a' := mk_Id (List.last rest first)).
  assert (forall x, x ∈ page -> x ∈ page_start after (s_events s)) as Hsub.
  { intros x Hx. rewrite <- Hpage in Hx. apply list_elem_of_lookup in Hx as [i Hi].
    apply lookup_take_Some in Hi as [Hi _]. by eapply list_elem_of_lookup_2. }
  destruct (handlePage_run now page d s Hs) as (d1 & E1 & Hs1). pose proof (thinned_dropped now page s) as T1.
  run E1. clear E1.
  destruct (sendRequests_run now true (requested now true page) d1 _ Hs1) as (d2 & ids2 & E2 & _ & Hs2).
  pose proof (thinned_trans _ _ _ T1 (thinned_retried ids2 _)) as T2.
  run E2. clear E2.
  assert (forall d0 s0, implements d0 s0 -> thinned s s0 ->
    exists d' s', eventLoop fuel clock (Some a') d0 = (d', Ok true) /\ implements d' s' /\ thinned s s') as Hnext.
  { intros d0 s0 Hs0 T0. pose proof (cursor_decreases d s s0 after first rest Hs T0 Hsub) as Hlt. fold a' in Hlt.
    destruct (IH d0 s0 (Some a') HN Hs0) as (d' & s' & E & Hs' & T'); [|lia|].
    - intros a [= <-]. pose proof (law_ids d s Hs) as Hids. rewrite List.Forall_forall in Hids.
      apply Hids, list_elem_of_In. destruct (page_beyond d s after (List.last rest first) Hs) as [? _]; [|done].
      apply Hsub, last_in.
    - exists d', s'. split_and!; [done..|by eapply thinned_trans]. }
  match goal with |- context [negb ?b] => destruct b end; cbn [negb]; [|by eapply Hnext].
  destruct (sendRequests_run now false (requested now false page) d2 _ Hs2) as (d3 & ids3 & E3 & _ & Hs3).
  pose proof (thinned_trans _ _ _ T2 (thinned_retried ids3 _)) as T3.
  run E3. clear E3.
  match goal with |- context [negb ?b] => destruct b end; cbn [negb]; [|by eapply Hnext].
  destruct (zlen page <? EventFetchChunkSize cfg); [|by eapply Hnext].
  eexists d3, _. split_and!; [done|exact Hs3|exact T3].
Qed.


(** With a page size of zero or less the store refuses to read a page, and the
    loop asks again at once, for ever. *)
Theorem event_tick_never_ends clock d s fuel :
  EventFetchChunkSize cfg <= 0 -> implements d s -> eventTick fuel clock d = (d, Ok false).
Proof.
  intros HN Hs. unfold eventTick. rewrite (law_count d s Hs). induction fuel as [|fuel IH]; [done|]. cbn [eventLoop].
  destruct (law_events_limit d None _ HN) as (e & E). by rewrite E.
Qed.

(** *** What a round of one page does *)

Definition tick_event (now : Z) (x : MissingEventWithKey) : option MissingEventWithKey :=
  match decide_event now (mk_Event x) with
  | Drop => None
  | Keep => Some x
  | Request _ => Some (retried x)
  end.

Lemma queue_NoDup d s : implements d s -> NoDup (s_events s).
Proof.
  intros Hs. apply NoDup_alt. assert (forall i j x, (i < j)%nat ->
    s_events s !! i = Some x -> s_events s !! j = Some x -> False) as Hlt.
  { intros i j x Hij Hi Hj.
    pose proof (law_sorted d s (take j (s_events s)) x (drop (Datatypes.S j) (s_events s)) x Hs) as Hkey.
    rewrite take_drop_middle in Hkey by done. specialize (Hkey eq_refl).
    assert (x ∈ take j (s_events s)) as Hin
      by (apply list_elem_of_lookup; exists i; apply lookup_take_Some; done).
    specialize (Hkey Hin). lia. }
  intros i j x Hi Hj. destruct (Nat.lt_trichotomy i j) as [?|[?|?]]; [exfalso; eauto|done|exfalso; eauto].
Qed.

Lemma queue_ids_NoDup d s : implements d s -> NoDup (event_id <$> s_events s).
Proof.
  intros Hs. apply NoDup_fmap_2_strong; [|by eapply queue_NoDup].
  intros x y Hx Hy E. by apply (law_once d s).
Qed.

Lemma requested_sublist now m page : sublist (requested now m page) (event_id <$> page).
Proof.
  induction page as [|y page IH]; [done|]. unfold requested in *. cbn [omap list_omap fmap list_fmap].
  destruct (decide_event now (mk_Event y)) as [| |m']; [by apply sublist_cons..|].
  destruct (eqb m' m); [by apply sublist_skip|by apply sublist_cons].
Qed.

Lemma elem_of_requested d s now m x : implements d s -> x ∈ s_events s ->
  event_id x ∈ requested now m (s_events s) <-> decide_event now (mk_Event x) = Request m.
Proof.
  intros Hs Hx. unfold requested. rewrite list_elem_of_omap. split.
  - intros (y & Hy & E). destruct (decide_event now (mk_Event y)) as [| |m'] eqn:Ed; [done..|].
    destruct (eqb m' m) eqn:Em; [|done]. injection E as E. apply eqb_prop in Em as ->.
    by rewrite (law_once d s x y Hs Hx Hy (eq_sym E)).
  - intros E. exists x. rewrite E, eqb_reflx. done.
Qed.

Definition retry_in (ids : list bytes) (x : MissingEventWithKey) : MissingEventWithKey :=
  if decide (event_id x ∈ ids) then retried x else x.

Lemma retry_all_map ids : forall q, NoDup ids -> retry_all ids q = retry_in ids <$> q.
Proof.
  induction ids as [|id ids IH]; intros q HN.
  - cbn. rewrite <- (list_fmap_id q) at 1. apply list_fmap_ext. done.
  - apply list.NoDup_cons in HN as [Hn HN]. unfold retry_all. cbn [foldl]. fold (retry_all ids (retry_event id <$> q)).
    rewrite IH, <- list_fmap_compose by done. apply list_fmap_ext. intros i x _. unfold compose, retry_in.
    rewrite (proj2 (retry_keys id x)). unfold retry_event.
    destruct (decide (event_id x = id)) as [E|E].
    + rewrite decide_False by (by rewrite E). rewrite decide_True by (rewrite E; constructor). done.
    + destruct (decide (event_id x ∈ ids)).
      * rewrite decide_True by (by apply list_elem_of_further). done.
      * rewrite decide_False; [done|]. by intros [?|?]%elem_of_cons.
Qed.

Lemma dropped_filter now page q : foldl (drop_one now) q page =
  filter (fun x => Forall (fun y => decide_event now (mk_Event y) = Drop -> event_id x <> event_id y) page) q.
Proof.
  revert q. induction page as [|y page IH]; intros q.
  - symmetry. apply filter_all_list. by constructor.
  - cbn [foldl]. rewrite IH. unfold drop_one. destruct (decide_event now (mk_Event y)) eqn:E.
    + unfold without. rewrite list_filter_filter. apply filter_iff_list. intros x _.
      rewrite List.Forall_cons_iff. rewrite E. tauto.
    + apply filter_iff_list. intros x _. rewrite List.Forall_cons_iff, E. split; [by split|by intros [_ ?]].
    + apply filter_iff_list. intros x _. rewrite List.Forall_cons_iff, E. split; [by split|by intros [_ ?]].
Qed.

(** The events of the queue, dropped, kept and counted, in one pass. *)
Lemma tick_queue d s now : implements d s ->
  let q := s_events s in
  retry_in (requested now false q) <$> (retry_in (requested now true q) <$> foldl (drop_one now) q q) =
  omap (tick_event now) q.
Proof.
  intros Hs q. rewrite dropped_filter.
  assert (forall l : list MissingEventWithKey, (forall x, x ∈ l -> x ∈ q) ->
    retry_in (requested now false q) <$> (retry_in (requested now true q) <$>
      filter (fun x => Forall (fun y => decide_event now (mk_Event y) = Drop -> event_id x <> event_id y) q) l) =
    omap (tick_event now) l) as Hl; [|by apply Hl].
  induction l as [|x l IH]; intros Hin; [done|]. rewrite filter_cons. cbn [omap list_omap].
  assert (x ∈ q) as Hx by (apply Hin; constructor).
  specialize (IH (fun y Hy => Hin y (list_elem_of_further _ _ _ Hy))).
  pose proof (elem_of_requested d s now true x Hs Hx) as Ht. pose proof (elem_of_requested d s now false x Hs Hx) as Hf.
  fold q in Ht, Hf. unfold tick_event at 1. destruct (decide_event now (mk_Event x)) as [| |m] eqn:E.
  - rewrite decide_False; [exact IH|]. rewrite List.Forall_forall. intros Hall.
    by apply (Hall x); [apply list_elem_of_In|..].
  - rewrite decide_True.
    2:{ apply List.Forall_forall. intros y Hy%list_elem_of_In Hd He. by rewrite (law_once d s x y Hs Hx Hy He), Hd in E. }
    cbn [fmap list_fmap]. rewrite IH. unfold retry_in at 2.
    rewrite decide_False by (by rewrite Ht). unfold retry_in at 1. by rewrite decide_False by (by rewrite Hf).
  - rewrite decide_True.
    2:{ apply List.Forall_forall. intros y Hy%list_elem_of_In Hd He. by rewrite (law_once d s x y Hs Hx Hy He), Hd in E. }
    cbn [fmap list_fmap]. rewrite IH. f_equal. unfold retry_in at 2. destruct m.
    + rewrite decide_True by (by rewrite Ht). unfold retry_in. rewrite decide_False; [done|].
      change (event_id (retried x)) with (event_id x). by rewrite Hf.
    + rewrite decide_False by (by rewrite Ht). unfold retry_in. by rewrite decide_True by (by rewrite Hf).
Qed.

Lemma tick_run n clock d s :
  zlen (s_events s) < EventFetchChunkSize cfg ->
  (forall ids, is_ok (marshalRequest ids) = true) -> (forall m b, is_ok (transportSend m b) = true) ->
  implements d s ->
  exists d', eventTick (Datatypes.S n) clock d = (d', Ok true) /\
    implements d' (with_events (s_eventCounter s) (omap (tick_event (clock n)) (s_events s)) s).
Proof.
  intros Hlen Hm Ht Hs. unfold eventTick. rewrite (law_count d s Hs). cbn [eventLoop].
  pose proof (zlen_nonneg (s_events s)). rewrite (law_events d s None _ Hs) by (done || lia). cbn [page_start].
  rewrite firstn_all2 by (unfold zlen in Hlen; lia).
  destruct (s_events s) as [|first rest] eqn:Hq.
  { exists d. split; [done|]. cbn. rewrite <- Hq. by rewrite with_events_same. }
  cbv beta iota zeta. rewrite <- Hq. set (now := clock n). pose proof (queue_ids_NoDup d s Hs) as HN.
  assert (forall m, NoDup (requested now m (s_events s))) as HNr
    by (intros m; eapply sublist_NoDup; [exact HN|apply requested_sublist]).
  destruct (handlePage_run now (s_events s) d s Hs) as (d1 & E1 & Hs1). run E1. clear E1.
  assert (forall m d0 s0, implements d0 s0 -> exists d0', sendRequests now m (requested now m (s_events s)) d0 = (d0', Ok true) /\
    implements d0' (with_events (s_eventCounter s0) (retry_in (requested now m (s_events s)) <$> s_events s0) s0)) as Hsend.
  { intros m d0 s0 Hs0. destruct (sendRequests_run now m (requested now m (s_events s)) d0 s0 Hs0) as (d0' & ids & E & Hids & Hs0').
    rewrite Hm in Hids. subst ids. rewrite retry_all_map in Hs0' by apply HNr. exists d0'. split; [|exact Hs0'].
    rewrite E. destruct (requested now m (s_events s)) as [|i ids]; [done|]. specialize (Hm (i :: ids)).
    destruct (marshalRequest (i :: ids)); [by rewrite Ht|done..]. }
  destruct (Hsend true d1 _ Hs1) as (d2 & E2 & Hs2). run E2. cbn [negb].
  destruct (Hsend false d2 _ Hs2) as (d3 & E3 & Hs3). run E3. cbn [negb].
  rewrite Hq, (proj2 (Z.ltb_lt _ _)) by done. rewrite <- Hq. exists d3. split; [done|].
  rewrite <- (tick_queue d s now Hs). exact Hs3.
Qed.

(** A round over a queue that fits one page, when requests can be sent,
    treats every event by itself: an event that is stored here or was
    requested as often as allowed is dropped, an event that is too new or
    whose time has not come is kept, and any other is requested and counted. *)
Theorem event_tick_refines n clock d s :
  zlen (s_events s) < EventFetchChunkSize cfg ->
  (forall ids, is_ok (marshalRequest ids) = true) -> (forall m b, is_ok (transportSend m b) = true) ->
  implements d s ->
  exists d', eventTick (Datatypes.S n) clock d = (d', Ok true) /\
    implements d' (with_events (s_eventCounter s) (omap (tick_event (clock n)) (s_events s)) s).
Proof. apply tick_run. Qed.

(** Consecutive rounds, each at its own time. *)
Fixpoint ticks (clocks : list Z) : M S unit :=
  match clocks with
  | [] => m_ret tt
  | now :: rest => do _ <- eventTick 1 (fun _ => now) ;; ticks rest
  end.

(** What a round is meant to make of an event that was last requested at [last],
    or received then if it never was: an event that is stored here is
    forgotten, an event that is too new is left alone, an event that was
    requested as often as allowed is given up, an event that was requested less
    than the retry interval ago waits, and any other is requested. *)
Definition meant_tick (now : Z) (xl : MissingEventWithKey * Z) : option (MissingEventWithKey * Z) :=
  let '(x, last) := xl in
  match GetEventById (event_id x) with
  | Ok true => None
  | Ok false =>
      if too_new now (mk_Event x) then Some (x, last)
      else if EventMaxRetries cfg <=? me_RetryCount (mk_Event x) then None
      else if now <? last + EventRetryInterval cfg then Some (x, last)
      else Some (retried x, now)
  | _ => Some (x, last)
  end.

Fixpoint meant_rounds (times : list Z) (xl : MissingEventWithKey * Z) : option (MissingEventWithKey * Z) :=
  match times with
  | [] => Some xl
  | now :: times => meant_tick now xl ≫= meant_rounds times
  end.

Definition received (x : MissingEventWithKey) : Z := instant (me_ReceivedTime (mk_Event x)).

(** The queue after rounds at these times, none of its events having been
    requested before. *)
Definition meant_queue (times : list Z) (q : list MissingEventWithKey) : list MissingEventWithKey :=
  omap (fun x => fst <$> meant_rounds times (x, received x)) q.

(** The rounds are at least the retry interval apart. *)
Definition spaced : list Z -> Prop := StronglySorted (fun now later => now + EventRetryInterval cfg <= later).

(** The code compares with the time of reception; that makes no difference when
    the last request is at least an interval after it and an interval ago. *)
Definition last_request (times : list Z) (xl : MissingEventWithKey * Z) : Prop :=
  xl.2 = received xl.1 \/
  (received xl.1 + EventRetryInterval cfg <= xl.2 /\ Forall (fun now => xl.2 + EventRetryInterval cfg <= now) times).

Section Spaced.
Hypothesis Hinterval : 0 <= EventRetryInterval cfg.

Lemma meant_tick_code times now xl : spaced (now :: times) ->
  MissingEventCodec.stored_event (mk_Event xl.1) = mk_Event xl.1 -> last_request (now :: times) xl ->
  fst <$> meant_tick now xl = tick_event now xl.1 /\
  forall xl', meant_tick now xl = Some xl' -> last_request times xl' /\ event_id xl'.1 = event_id xl.1.
Proof.
  destruct xl as [x last]. cbn [fst]. intros Hsp Hst Hl. apply StronglySorted_inv in Hsp as [_ Hnow].
  assert (last_request times (x, last)) as Hl'
    by (destruct Hl as [?|[? Hf]]; [by left|right; split; [done|by apply Forall_cons_1 in Hf as [_ ?]]]).
  assert (retried_recently now (mk_Event x) = (now <? last + EventRetryInterval cfg)) as Hr.
  { unfold retried_recently. rewrite <- Hst at 1. cbn [MissingEventCodec.stored_event me_LastRetryTime]. fold (received x).
    destruct Hl as [Hl|[Hle Hf]]; cbn in *; [by rewrite Hl|]. apply Forall_cons_1 in Hf as [Hf _].
    rewrite !(proj2 (Z.ltb_ge _ _)) by lia. done. }
  unfold meant_tick, tick_event, decide_event.
  assert (forall xl', Some (x, last) = Some xl' -> last_request times xl' /\ event_id xl'.1 = event_id x) as Hsame
    by (intros xl' [= <-]; by split).
  unfold event_id in *.
  destruct (GetEventById (me_EventId (mk_Event x))) as [[]| |]; [by split| |split; [done|exact Hsame]|split; [done|exact Hsame]].
  destruct (too_new now (mk_Event x)); [by split|]. destruct (EventMaxRetries cfg <=? _); [by split|]. rewrite Hr.
  destruct (Z.ltb_spec now (last + EventRetryInterval cfg)); [by split|].
  split; [done|]. intros xl' [= <-]. split; [|done]. right. cbn [fst snd]. change (received (retried x)) with (received x).
  split; [destruct Hl as [Hl|[? _]]; cbn in *; lia|done].
Qed.

Lemma meant_id times : forall xl xl', meant_rounds times xl = Some xl' -> event_id xl'.1 = event_id xl.1.
Proof.
  induction times as [|now times IH]; intros [x last] xl' E; cbn [meant_rounds] in E; [by injection E as <-|].
  apply bind_Some in E as (yl & Ey & E). rewrite (IH _ _ E). unfold meant_tick in Ey.
  repeat (case_match; try done); by injection Ey as <-.
Qed.

(** An event that nobody has, and that is old enough at every round. *)
Definition due (now : Z) (x : MissingEventWithKey) : Prop :=
  received x + NewEventIgnoreThreshold cfg <= now /\ received x + EventRetryInterval cfg <= now.

Lemma meant_gives_up times : forall x last, spaced times -> last_request times (x, last) -> times <> [] ->
  GetEventById (event_id x) = Ok false -> Forall (fun now => due now x) times ->
  MissingEventCodec.event_fits (mk_Event x) -> EventMaxRetries cfg < 2 ^ 63 ->
  EventMaxRetries cfg < me_RetryCount (mk_Event x) + zlen times -> meant_rounds times (x, last) = None.
Proof.
  induction times as [|now times IH]; intros x last Hsp Hl Hne Hg Hdue Hf Hmax Hc; [done|].
  cbn [meant_rounds]. unfold meant_tick. rewrite Hg.
  apply Forall_cons_1 in Hdue as [[Hn1 Hn2] Hdue]. unfold too_new. fold (received x). rewrite (proj2 (Z.ltb_ge _ _)) by lia.
  destruct (Z.leb_spec (EventMaxRetries cfg) (me_RetryCount (mk_Event x))); [done|].
  apply StronglySorted_inv in Hsp as [Hsp Hnow].
  rewrite (proj2 (Z.ltb_ge now _)) by (destruct Hl as [Hl|[_ Hl]]; cbn in Hl; [lia|by apply Forall_cons_1 in Hl as [? _]]).
  cbn [mbind option_bind]. rewrite zlen_cons in Hc. destruct Hf as (Hf1 & Hf2 & Hf3 & Hf4). unfold in_s in Hf4. cbn in Hf4.
  assert (me_RetryCount (mk_Event (retried x)) = me_RetryCount (mk_Event x) + 1) as Hrc
    by (cbn; rewrite swrap_id by (unfold in_s; lia); done).
  apply IH; [done| |intros ->; rewrite zlen_nil in Hc; lia|done|done| |done|by rewrite Hrc; lia].
  - right. cbn [fst snd]. change (received (retried x)) with (received x). split; [lia|done].
  - split_and!; [done..|]. rewrite Hrc. unfold in_s. cbn. lia.
Qed.

(** The events with the times of their last requests. *)
Lemma rounds_run times : forall d s xls,
  (forall ids, is_ok (marshalRequest ids) = true) -> (forall m b, is_ok (transportSend m b) = true) ->
  implements d s -> zlen (s_events s) < EventFetchChunkSize cfg -> spaced times ->
  s_events s = xls.*1 -> Forall (last_request times) xls ->
  exists d' s', ticks times d = (d', Ok tt) /\ implements d' s' /\ s_blocks s' = s_blocks s /\
    s_events s' = (omap (meant_rounds times) xls).*1.
Proof.
  induction times as [|now times IH]; intros d s xls Hm Ht Hs Hlen Hsp Hq Hl.
  { exists d, s. split_and!; [done..|]. rewrite Hq. clear. induction xls; [done|]. cbn in *. by f_equal. }
  destruct (tick_run 0 (fun _ => now) d s Hlen Hm Ht Hs) as (d1 & E1 & Hs1). cbn [ticks]. run E1.
  assert (Forall (fun xl => MissingEventCodec.stored_event (mk_Event xl.1) = mk_Event xl.1) xls) as Hst.
  { apply List.Forall_forall. intros xl Hxl%list_elem_of_In. apply (law_stored d s); [done|]. rewrite Hq. by apply list_elem_of_fmap_2. }
  assert (omap (tick_event now) (s_events s) = (omap (meant_tick now) xls).*1 /\ Forall (last_request times) (omap (meant_tick now) xls)) as [Hq1 Hl1].
  { rewrite Hq. clear -Hl Hst Hsp Hinterval. induction Hl as [|xl xls Hxl Hl IHl]; [by split|]. apply Forall_cons_1 in Hst as [Hx Hst].
    destruct (IHl Hst) as [E1 E2]. destruct (meant_tick_code times now xl Hsp Hx Hxl) as [Ec Hn]. cbn [fmap list_fmap omap list_omap].
    rewrite <- Ec. destruct (meant_tick now xl) as [xl'|]; cbn; [|by split]. split; [by rewrite E1|].
    constructor; [by apply (Hn xl')|done]. }
  destruct (IH d1 _ (omap (meant_tick now) xls) Hm Ht Hs1) as (d2 & s2 & E2 & Hs2 & Hb2 & Hq2); [|by apply StronglySorted_inv in Hsp as [? _]|done|done|].
  - cbn [with_events s_events]. eapply Z.le_lt_trans; [|exact Hlen]. unfold zlen. clear.
    induction (s_events s) as [|x q IHq]; [done|]. cbn [omap list_omap]. destruct (tick_event now x); cbn [length]; lia.
  - exists d2, s2. split_and!; [done..|]. rewrite Hq2. f_equal. clear. induction xls as [|xl xls IHx]; [done|].
    cbn [omap list_omap meant_rounds]. destruct (meant_tick now xl) as [xl'|]; cbn [omap list_omap mbind option_bind]; [|done].
    by rewrite IHx.
Qed.


End Spaced.

End Harmoniser.
End Harmoniser.
