(* ===== verification/HarmoniserWitness.v ===== *)
(** * The harmoniser on a concrete store

    The hypotheses of the theorems of [Harmoniser] hold for the reference
    database with a handful of blocks and events, and a pool of nodes that
    answer searches. *)

From S2P Require Import Prelude Types Platform JsonPlatform Reference StateStore StateStoreFacts StateStoreWitness StoreInterface Pool BlockchainClient Harmoniser.
From Corelib Require Import Init.Byte.
Import Harmoniser LevelDBStore MissingEventCodec.

Abbreviation Db := (gmap bytes bytes).

Definition wConfig : Backfill := mkBackfill 2 100 (5 * 60 * 10 ^ 9) 1 (30 * 60 * 10 ^ 9) true.

Lemma no_block_forgotten_witness :
  exists (d' : Db) s', onBlockHeights [5; 3; 9] (∅ : Db) = (d', Ok tt) /\ implements d' s' /\
    accounted (fun h => False \/ h ∈ [5; 3; 9]) s'.
Proof.
  destruct (no_block_forgotten [5; 3; 9] (∅ : Db) emptyStore (fun _ => False)) as (d' & s' & E & Hs & _ & Ha & _).
  - exact empty_represents.
  - repeat constructor; lia.
  - by split; vm_compute.
  - by intros last h [=].
  - exists d', s'. split; [exact E|]. split; [exact Hs|exact Ha].
Defined.

(** A store with one missing range, and the events of that range. *)
Definition wRange : BlockRangeWithId := NewBlockRangeWithId (mkBlockRange 3 8) (getNextKey zeroKey).
Definition wPending : Store := with_blocks (getNextKey zeroKey) [wRange] emptyStore.

Lemma wPending_reached : exists d : Db, implements d wPending.
Proof.
  destruct (AddMissingBlocks_run (∅ : Db) emptyStore (mkBlockRange 3 8) empty_represents) as (d & _ & Hd);
    [by split; vm_compute|by split; vm_compute|]. exists d. exact Hd.
Qed.

(** The transactions of that range: three that created an event and, between
    them, one whose result cannot be decoded. *)
Definition wResult (id : string) (height : Z) : ResultTx :=
  mkResultTx height (match Marshal (mkCreateResponse (mkMetadata (bz id) wTime (bz "root"))) with Ok b => b | _ => [] end).
Definition wTxs : list ResultTx := [wResult "a" 5; mkResultTx 6 (bz "?"); wResult "b" 7; wResult "c" 7].

Example wTxs_created : created wTxs = [bz "a"; bz "b"; bz "c"].
Proof. vm_compute. reflexivity. Qed.

#[local] Instance wRpc : ChainRpc Z := {|
  rpc_Tx _ _ := RpcError (bz "tx not found");
  rpc_ABCIQuery _ _ _ _ _ := Err (NewError (bz "down"));
  rpc_TxSearch _ query page limit :=
    if bool_decide (query = Client.searchQuery 3 8) then tx_search wTxs page limit else Err (NewError (bz "query"))
|}.

(** The connections are tested every time; the third one fails. *)
Definition wCalls (_ : BlockRangeWithId) (page : Z) : Call (C := Z) := mkCall (Pool.always (10 ^ 12 + page) [3]) (fun _ => wTime).
Definition wNodes : Pool.Pool Z := Pool.wPool 0.

Lemma wRange_ok : range_fits (br_Range wRange) /\ - 2 ^ 63 < High (br_Range wRange).
Proof. split; [by split; vm_compute|done]. Qed.

Lemma wTxs_sorted : StronglySorted tx_le wTxs.
Proof. repeat constructor; unfold tx_le; cbn; lia. Qed.

Lemma a_fits h : in_s 64 h -> tx_fits (wResult "a" h).
Proof. split; [done|]. intros decoded E. vm_compute in E. injection E as <-. reflexivity. Qed.
Lemma b_fits h : in_s 64 h -> tx_fits (wResult "b" h).
Proof. split; [done|]. intros decoded E. vm_compute in E. injection E as <-. reflexivity. Qed.
Lemma c_fits h : in_s 64 h -> tx_fits (wResult "c" h).
Proof. split; [done|]. intros decoded E. vm_compute in E. injection E as <-. reflexivity. Qed.

Lemma undecodable_fits : tx_fits (mkResultTx 6 (bz "?")).
Proof. split; [by vm_compute|]. intros decoded E. vm_compute in E. discriminate. Qed.

Lemma wTxs_fit : Forall tx_fits wTxs.
Proof.
  unfold wTxs. apply List.Forall_cons; [by apply a_fits; vm_compute|]. apply List.Forall_cons; [exact undecodable_fits|].
  apply List.Forall_cons; [by apply b_fits; vm_compute|]. apply List.Forall_cons; [by apply c_fits; vm_compute|constructor].
Qed.

Lemma wTime_fits : Codec.binary_time wTime.
Proof. by repeat split; vm_compute. Qed.

Lemma wNodes_serving : serving wRange wCalls wTxs wNodes.
Proof.
  split; [intros c page limit _; cbn; by rewrite bool_decide_true|].
  exists 2. split; [apply (bool_decide_unpack _); by vm_compute|done].
Qed.


(** The second page is not answered; two of the three events arrive on the
    first, which ends in block 7. *)
Definition wLate : list ResultTx := [wResult "a" 5; wResult "b" 7; wResult "c" 7].
Lemma wLate_fit : Forall tx_fits wLate.
Proof.
  unfold wLate. apply List.Forall_cons; [by apply a_fits; vm_compute|]. apply List.Forall_cons; [by apply b_fits; vm_compute|].
  apply List.Forall_cons; [by apply c_fits; vm_compute|constructor].
Qed.

Definition failing_rpc : ChainRpc Z := {|
  rpc_Tx _ _ := RpcError (bz "tx not found");
  rpc_ABCIQuery _ _ _ _ _ := Err (NewError (bz "down"));
  rpc_TxSearch _ query page limit := if page =? 1 then tx_search wLate page limit else Err (NewError (bz "timeout"))
|}.

Lemma failed_page_loses_events_witness :
  exists (d d' : Db) p' s', implements d wPending /\
    backfillRange (H1 := failing_rpc) wConfig wCalls wRange (d, wNodes) = ((d', p'), Ok tt) /\
    implements d' s' /\ s_blocks s' = [] /\ ~ known s' (bz "c").
Proof.
  destruct wPending_reached as [d Hd].
  set (es := Client.missingEvents (fun _ => wTime) 0 (take 2 wLate)).
  assert (exists p1 p2, searchPage (H1 := failing_rpc) wConfig wCalls wRange 1 (d, wNodes) = ((d, p1), Ok (es, 3)) /\
    forall d' : Db, searchPage (H1 := failing_rpc) wConfig wCalls wRange 2 (d', p1) = ((d', p2), Err (NewError (bz "timeout")))) as (p1 & p2 & E1 & E2).
  { eexists _, _. split; [vm_compute; reflexivity|]. intros d'. vm_compute. reflexivity. }
  destruct (failed_page_loses_events (H1 := failing_rpc) wConfig wRange wRange_ok wCalls d wPending wNodes p1 p2 es
    (NewMissingEvent (bz "b") wTime 7) 3 (NewError (bz "timeout"))) as (d' & s' & E & Hs & Hb & Hk).
  - exact Hd.
  - constructor.
  - apply missingEvents_fit; [intros _; exact wTime_fits|]. apply Forall_take. exact wLate_fit.
  - by split; vm_compute.
  - exact E1.
  - reflexivity.
  - by vm_compute.
  - by vm_compute.
  - by vm_compute.
  - exact E2.
  - exists d, d', p2, s'. split; [exact Hd|]. split; [exact E|]. split; [exact Hs|]. split; [exact Hb|].
    rewrite Hk. unfold known. intros [Hc|Hc]; revert Hc; apply (bool_decide_unpack _); by vm_compute.
Defined.

(** A hundred and one events and a page size of 200: the last one is lost. *)
Definition wMany : list ResultTx := replicate 100 (wResult "a" 5) ++ [wResult "b" 7].
Definition many_rpc : ChainRpc Z := {|
  rpc_Tx _ _ := RpcError (bz "tx not found");
  rpc_ABCIQuery _ _ _ _ _ := Err (NewError (bz "down"));
  rpc_TxSearch _ query page limit := tx_search wMany page limit
|}.
Definition wLarge : Backfill := mkBackfill 200 100 (5 * 60 * 10 ^ 9) 1 (30 * 60 * 10 ^ 9) true.

Lemma oversized_page_loses_events_witness :
  exists (d d' : Db) p' s', implements d wPending /\
    backfillRange (H1 := many_rpc) wLarge wCalls wRange (d, wNodes) = ((d', p'), Ok tt) /\
    implements d' s' /\ s_blocks s' = [] /\ ~ known s' (bz "b").
Proof.
  destruct wPending_reached as [d Hd].
  destruct (oversized_page_loses_events (H1 := many_rpc) wLarge wRange wRange_ok wCalls wMany) with (d := d) (s := wPending) (p := wNodes)
    as (d' & p' & s' & E & Hs & Hb & Hk).
  - unfold wMany. apply Forall_app. split; [by apply Forall_replicate, a_fits; vm_compute|apply List.Forall_cons; [by apply b_fits; vm_compute|constructor]].
  - intros page i. exact wTime_fits.
  - by vm_compute.
  - by vm_compute.
  - exact Hd.
  - split; [done|]. exists 2. split; [apply (bool_decide_unpack _); by vm_compute|done].
  - constructor.
  - by split; vm_compute.
  - exists d, d', p', s'. split; [exact Hd|]. split; [exact E|]. split; [exact Hs|]. split; [exact Hb|].
    rewrite Hk. unfold known. intros [Hc|Hc]; revert Hc; apply (bool_decide_unpack _); by vm_compute.
Defined.

Definition wNobody (id : bytes) : result bool := Ok false.
Definition wMarshal (ids : list bytes) : result bytes := Ok (concat ids).
Definition wSend (multicast : bool) (b : bytes) : result unit := Ok tt.


(** An hour after the reception all three events are requested by unicast. *)
Lemma event_tick_refines_witness :
  exists (d d' : Db), implements d wStore /\
    eventTick wConfig wNobody wMarshal wSend 1 (fun _ => instant wTime + 3600 * 10 ^ 9) d = (d', Ok true) /\
    implements d' (with_events (List.last wIds zeroKey) (retried <$> wQueue) wStore).
Proof.
  destruct wStore_reached as [d Hd].
  destruct (event_tick_refines wConfig wNobody wMarshal wSend (fun _ => eq_refl) (fun _ => eq_refl) (fun _ _ => eq_refl) 0
    (fun _ => instant wTime + 3600 * 10 ^ 9) d wStore) as (d' & E & Hs).
  - by vm_compute.
  - done.
  - done.
  - exact Hd.
  - exists d, d'. split; [exact Hd|]. split; [exact E|exact Hs].
Defined.

(** With a page size of zero the round never ends. *)
Definition wNoPage : Backfill := mkBackfill 2 0 (5 * 60 * 10 ^ 9) 1 (30 * 60 * 10 ^ 9) true.

Lemma event_tick_never_ends_witness :
  exists d : Db, implements d wStore /\ eventTick wNoPage wNobody wMarshal wSend 1000 (fun _ => instant wTime) d = (d, Ok false).
Proof.
  destruct wStore_reached as [d Hd]. exists d. split; [exact Hd|].
  by apply (event_tick_never_ends wNoPage wNobody wMarshal wSend _ d wStore).
Defined.

(** One retry is allowed: at their reception the events are too new, half
    an hour later they are requested, and half an hour after that they are given
    up. *)
Definition half_hours (n : Z) : Z := instant wTime + n * (30 * 60 * 10 ^ 9).

