(* ===== verification/OffchainNode.v ===== *)
(** * The off-chain node

    Models what an off-chain node does with event data: the messages nodes
    exchange ([pkg/transport/payload]), the HTTP handlers that accept and
    return events ([internal/server]), and the handlers of broadcasts, requests
    and backfilled events ([payload/handlers]).  The client of the chain, the
    repository and the state store are interfaces; the state of a node is made
    of theirs and the events it has handed to the viewer. *)

From S2P Require Import Prelude Types Text Platform EventsApp StateStore StateStoreFacts StoreInterface Repository BlockchainClient.

(** ** Messages ([payload/types.go], [payload.go], [types/offchain]) *)

Record SubmitRequest : Type := mkSubmitRequest {
  sr_EventId : EventHash;
  sr_TxHash : TxHash;
  sr_EventData : EventData;
  sr_Principal : bytes;
  sr_Signature : bytes (* hex encoded *)
}.

Record EventRequest : Type := mkEventRequest { EventIds : list EventHash }.

Record EventBackfillResponseData : Type := mkEventBackfillResponseData {
  bd_EventId : EventHash;
  bd_TxHash : TxHash;
  bd_EventData : EventData
}.

Record EventBackfillResponse : Type := mkEventBackfillResponse { Events : list EventBackfillResponseData }.

Module Payload.

Definition TypeBroadcastEvent : Z := 0.
Definition TypeRequestEvent : Z := 1.
Definition TypeBackfillResponse : Z := 2.

Record Payload : Type := mkPayload {
  Type_ : Z; (* uint8 *)
  Data : RawMessage
}.

Definition NewEventRequest (eventIds : list EventHash) : EventRequest := mkEventRequest eventIds.
Definition response_EventIds (r : EventBackfillResponse) : list EventHash := bd_EventId <$> Events r.

(** The codecs of the messages. *)
Class PayloadJson : Type := {
  pj_Payload :: Json Payload;
  pj_SubmitRequest :: Json SubmitRequest;
  pj_EventRequest :: Json EventRequest;
  pj_EventBackfillResponse :: Json EventBackfillResponse
}.

Section Ops.
Context `{PayloadJson}.

Definition NewPayload {A} `{Json A} (t : Z) (data : A) : result Payload :=
  let* rawData := Marshal data in Ok (mkPayload t rawData).

Definition NewPayloadMarshalled {A} `{Json A} (t : Z) (data : A) : result bytes :=
  let* p := NewPayload t data in Marshal p.

(** The handlers are started in goroutines; [A] is what they do. *)
Record Decoder (A : Type) : Type := mkDecoder {
  broadcastHandler : option (bytes -> SubmitRequest -> A);
  eventRequestHandler : option (bytes -> EventRequest -> A);
  eventBackfillResponseHandler : option (bytes -> EventBackfillResponse -> A)
}.
Arguments mkDecoder {A}.
Arguments broadcastHandler {A}.
Arguments eventRequestHandler {A}.
Arguments eventBackfillResponseHandler {A}.

Definition NewDecoder {A} : Decoder A := mkDecoder None None None.
Definition SetBroadcastHandler {A} (h : bytes -> SubmitRequest -> A) (d : Decoder A) : Decoder A :=
  mkDecoder (Some h) (eventRequestHandler d) (eventBackfillResponseHandler d).
Definition SetRequestHandler {A} (h : bytes -> EventRequest -> A) (d : Decoder A) : Decoder A :=
  mkDecoder (broadcastHandler d) (Some h) (eventBackfillResponseHandler d).
Definition SetEventBackfillResponseHandler {A} (h : bytes -> EventBackfillResponse -> A) (d : Decoder A) : Decoder A :=
  mkDecoder (broadcastHandler d) (eventRequestHandler d) (Some h).

Definition decodePayload (b : bytes) : result Payload := Unmarshal b.

(** Decode the data and start the handler, if there is one. *)
Definition start {A B} `{Json B} (handler : option (bytes -> B -> A)) (sourceName raw : bytes) : result (option A) :=
  let* data := Unmarshal raw in
  Ok ((fun h => h sourceName data) <$> handler).

Definition HandleMessage {A} (d : Decoder A) (sourceName message : bytes) : result (option A) :=
  let* payload := decodePayload message in
  if Type_ payload =? TypeBroadcastEvent then start (broadcastHandler d) sourceName (Data payload)
  else if Type_ payload =? TypeRequestEvent then start (eventRequestHandler d) sourceName (Data payload)
  else if Type_ payload =? TypeBackfillResponse then
    start (eventBackfillResponseHandler d) sourceName (Data payload)
  else Err (NewError (bz "unknown payload type " ++ Strconv.FormatUint (Type_ payload))).

End Ops.
Arguments mkDecoder {A}.
Arguments broadcastHandler {A}.
Arguments eventRequestHandler {A}.
Arguments eventBackfillResponseHandler {A}.
End Payload.

(** ** The client, as the node uses it *)

Class ChainClient (K : Type) : Type := {
  cc_GetIdentity : Principal -> M K IdentityData;
  cc_GetEventByTx : TxHash -> M K EventWithMetadata
}.

(** ** The node *)
Module Node.
Import Payload Client.

Section Node.
Context `{Ed25519} `{PayloadJson}.
Context {K R S : Type} `{ChainClient K} `{EventRepository R} `{StateStore S}.

(** [streamed] are the events sent on [eventBroadcastCh], when there is one. *)
Record Node : Type := mkNode {
  client : K;
  repo : R;
  store : S;
  streamed : list StoredEvent
}.

Definition put_client (k : K) (n : Node) : Node := mkNode k (repo n) (store n) (streamed n).
Definition put_repo (r : R) (n : Node) : Node := mkNode (client n) r (store n) (streamed n).
Definition put_store (s : S) (n : Node) : Node := mkNode (client n) (repo n) s (streamed n).

Definition on_client {A} (c : M K A) : M Node A := m_zoom client put_client c.
Definition on_repo {A} (c : M R A) : M Node A := m_zoom repo put_repo c.
Definition on_store {A} (c : M S A) : M Node A := m_zoom store put_store c.

(** A call whose error is examined by the caller. *)
Definition attempt {A} (c : M Node A) : M Node (A + error) := fun n =>
  match c n with
  | (n, Ok a) => (n, Ok (inl a))
  | (n, Err e) => (n, Ok (inr e))
  | (n, Panic w) => (n, Panic w)
  end.

Record HttpError : Type := NewHttpError { ResponseCode : Z; message : bytes }.

(** A handler that has failed with a response. *)
Definition http (code : Z) (text : string) : M Node (option HttpError) :=
  m_ret (Some (NewHttpError code (bz text))).

Definition full_event (event : EventWithMetadata) (data : EventData) (tx : TxHash) : StoredEvent :=
  mkStoredEvent (mkEventWithData (se_Event (em_ScrubbedEvent event)) data) (em_Metadata event) tx.

(** [eventBroadcastCh] is nil unless the viewer streams events. *)
Definition stream (viewer : bool) (e : StoredEvent) : M Node unit :=
  m_modify (fun n => if viewer then mkNode (client n) (repo n) (store n) (streamed n ++ [e]) else n).

(** Storing the event, once it has been verified. *)
Definition storeVerified (viewer : bool) (event : EventWithMetadata) (fullEvent : StoredEvent) : M Node (option HttpError) :=
  do stored <- attempt (on_repo (er_Store fullEvent)) ;;
  let continue :=
    do _ <- attempt (on_store (st_RemoveMissingEvent (EventId (em_Metadata event)))) ;;
    do _ <- stream viewer fullEvent ;;
    m_ret None in
  match stored with
  | inl _ => continue
  | inr err =>
      if errors_Is err ErrEventAlreadyStored then continue
      else http 500 "failed to store event"
  end.

Definition StoreEvent (viewer : bool) (req : SubmitRequest) : M Node (option HttpError) :=
  do principal <- attempt (on_client (cc_GetIdentity (sr_Principal req))) ;;
  match principal with
  | inr err =>
      if errors_Is err ErrPrincipalNotFound then http 401 "principal not found"
      else http 500 "failed to get identity"
  | inl principal =>
      do signature <- attempt (m_lift (fun _ => Hex.DecodeString (sr_Signature req))) ;;
      match signature with
      | inr _ => http 400 "invalid signature"
      | inl signature =>
          let hash := EventHash.EventData_Hash (sr_EventData req) in
          do signatureValid <- m_lift (fun _ => ed25519_Verify (PublicKey principal) hash signature) ;;
          if negb signatureValid then http 403 "signature is invalid"
          else
            do event <- attempt (on_client (cc_GetEventByTx (sr_TxHash req))) ;;
            match event with
            | inr err =>
                if errors_Is err ErrEventNotFound then http 404 "event not found"
                else http 500 "failed to get event by tx"
            | inl event =>
                if negb (bool_decide (EventId (em_Metadata event) = sr_EventId req))
                then http 400 "event id does not match"
                else if negb (bool_decide (md_Principal (em_Metadata event) = sr_Principal req))
                then http 403 "principal does not match"
                else if negb (bool_decide (OffChainHash (em_ScrubbedEvent event) = Hex.EncodeToString hash))
                then http 400 "event data does not match"
                else storeVerified viewer event (full_event event (sr_EventData req) (sr_TxHash req))
            end
      end
  end.

(** ** HTTP handlers *)

(** The status of the response; [body] is what [ShouldBindJSON] made of the
    request, [Broadcast] is the transport's. *)
Definition HandleSubmit (viewer : bool) (Broadcast : bytes -> result unit) (body : option SubmitRequest) : M Node Z :=
  match body with
  | None => m_ret 400
  | Some req =>
      do err <- StoreEvent viewer req ;;
      match err with
      | Some err => m_ret (ResponseCode err)
      | None =>
          do sent <- attempt (m_lift (fun _ =>
            let* marshalled := NewPayloadMarshalled TypeBroadcastEvent req in Broadcast marshalled)) ;;
          match sent with
          | inl _ => m_ret 201
          | inr _ => m_ret 500
          end
      end
  end.

(** The status and the event, if there is one. *)
Definition HandleGetEvent (event_id : bytes) : M Node (Z * option StoredEvent) :=
  if negb (Hex.is_sha256_hex event_id) then m_ret (400, None)
  else
    do eventId <- attempt (m_lift (fun _ => Hex.DecodeString event_id)) ;;
    match eventId with
    | inr _ => m_ret (400, None)
    | inl eventId =>
        do ev <- attempt (m_lift (fun n => er_GetEventById eventId (repo n))) ;;
        match ev with
        | inr _ => m_ret (500, None)
        | inl None => m_ret (404, None)
        | inl (Some ev) => m_ret (200, Some ev)
        end
    end.

(** ** Message handlers *)

(** Errors are logged. *)
Definition BroadcastHandler (viewer : bool) (request : SubmitRequest) : M Node unit :=
  do _ <- StoreEvent viewer request ;; m_ret tt.

Definition backfill_data (event : StoredEvent) : EventBackfillResponseData :=
  mkEventBackfillResponseData (EventId (st_Metadata event)) (st_TxHash event) (ed_EventData (st_EventWithData event)).

(** The message to send back, if any.  An error of marshalling is not looked
    at, and an empty message is sent. *)
Definition EventRequestHandler (nodeName sourceName : bytes) (request : EventRequest) (r : R) : result (option bytes) :=
  if bool_decide (nodeName = sourceName) then Ok None
  else
    match er_GetEventsById (EventIds request) r with
    | Panic w => Panic w
    | Err _ => Ok None
    | Ok [] => Ok None
    | Ok events =>
        match NewPayloadMarshalled TypeBackfillResponse (mkEventBackfillResponse (backfill_data <$> (events : list StoredEvent))) with
        | Panic w => Panic w
        | Err _ => Ok (Some [])
        | Ok marshalled => Ok (Some marshalled)
        end
    end.

(** One round of the loop that processes backfilled events: [true] when the
    loop goes on, [false] when the goroutine returns. *)
Definition processBackfill (event : EventBackfillResponseData) : M Node bool :=
  do tx <- attempt (on_client (cc_GetEventByTx (bd_TxHash event))) ;;
  match tx with
  | inr _ => m_ret false
  | inl tx =>
      let hash := EventHash.EventData_Hash (bd_EventData event) in
      if negb (bool_decide (OffChainHash (em_ScrubbedEvent tx) = Hex.EncodeToString hash)) then m_ret false
      else if negb (bool_decide (EventId (em_Metadata tx) = bd_EventId event)) then m_ret false
      else
        do stored <- attempt (on_repo (er_Store (full_event tx (bd_EventData event) (bd_TxHash event)))) ;;
        let continue :=
          do removed <- attempt (on_store (st_RemoveMissingEvent (EventId (em_Metadata tx)))) ;;
          match removed with inl _ => m_ret true | inr _ => m_ret false end in
        match stored with
        | inl _ => continue
        | inr err => if errors_Is err ErrEventAlreadyStored then continue else m_ret false
        end
  end.

(** The loop over the events that arrive on its channel: the events that nobody
    received, which block their senders for ever. *)
Fixpoint backfillLoop (events : list EventBackfillResponseData) : M Node (list EventBackfillResponseData) :=
  match events with
  | [] => m_ret []
  | event :: rest =>
      do more <- processBackfill event ;;
      if more then backfillLoop rest else m_ret rest
  end.

End Node.
Arguments Node : clear implicits.

End Node.
