(* ===== verification/NodeFacts.v ===== *)
(** * What an off-chain node stores

    Properties of the handlers of [OffchainNode]: every event in the repository
    is the event of a transaction of the chain with data of the recorded hash;
    what a submission must satisfy; and how a missing event travels from one
    node to another.  The module [Submission] shows that submissions that are in order are
    accepted. *)

From S2P Require Import Prelude Types Text Platform EventsApp StateStore StateStoreFacts StoreInterface Repository BlockchainClient OffchainNode.

Module NodeFacts.
Import Payload Node.

(** What the node relies on: the events the client returns are on the chain,
    and the identities are registered there. *)
Class ChainClientLaws (K : Type) `{ChainClient K} : Type := {
  cc_inv : K -> Prop;
  on_chain : TxHash -> EventWithMetadata -> Prop;
  registered : Principal -> IdentityData -> Prop;
  law_cc_event k k' tx r : cc_inv k -> cc_GetEventByTx tx k = (k', r) ->
    cc_inv k' /\ forall ev, r = Ok ev -> on_chain tx ev;
  law_cc_identity k k' p r : cc_inv k -> cc_GetIdentity p k = (k', r) ->
    cc_inv k' /\ forall d, r = Ok d -> registered p d
}.

(** ** Messages between nodes *)

Definition data_ok (d : EventData) : Prop :=
  Forall (fun x => opt_all utf8 (data_Name x) /\ opt_all utf8 (data_Value x)) d.

#[global] Instance rep_Payload `{RawJson} : Representable Payload := fun p => in_u 8 (Type_ p) /\ compact (Data p).
#[global] Instance rep_SubmitRequest : Representable SubmitRequest :=
  fun r => data_ok (sr_EventData r) /\ utf8 (sr_Principal r) /\ utf8 (sr_Signature r).
#[global] Instance rep_EventRequest : Representable EventRequest := fun _ => True.
#[global] Instance rep_EventBackfillResponse : Representable EventBackfillResponse :=
  fun r => Forall (fun b => data_ok (bd_EventData b)) (Events r).

Class PayloadLaws `{PayloadJson, RawJson} : Prop := {
  pl_Payload :: JsonLaws Payload;
  pl_SubmitRequest :: JsonLaws SubmitRequest;
  pl_EventRequest :: JsonLaws EventRequest;
  pl_EventBackfillResponse :: JsonLaws EventBackfillResponse;
  pl_compact_SubmitRequest :: JsonCompact SubmitRequest;
  pl_compact_EventRequest :: JsonCompact EventRequest;
  pl_compact_EventBackfillResponse :: JsonCompact EventBackfillResponse
}.

Section Messages.
Context `{PayloadLaws}.

Lemma message_decodes {A} `{JsonLaws A, !JsonCompact A} (t : Z) (data : A) :
  in_u 8 t -> representable data ->
  exists raw msg, NewPayloadMarshalled t data = Ok msg /\ decodePayload msg = Ok (mkPayload t raw) /\
    Unmarshal raw = Ok data.
Proof.
  intros Ht Hd. destruct (law_round_trip data Hd) as (raw & Hm & _ & Hu).
  assert (representable (mkPayload t raw)) as Hp by (split; [done|by eapply law_compact]).
  destruct (law_round_trip (mkPayload t raw) Hp) as (msg & Hm' & _ & Hu'). exists raw, msg.
  unfold NewPayloadMarshalled, NewPayload. by rewrite Hm, <- Hm'.
Qed.

Lemma message_starts {A B} `{JsonLaws B, !JsonCompact B} (t : Z) (data : B) (source : bytes) (d : Decoder A) :
  in_u 8 t -> representable data ->
  exists raw msg, NewPayloadMarshalled t data = Ok msg /\ Unmarshal raw = Ok data /\
    HandleMessage d source msg =
      (if t =? TypeBroadcastEvent then start (broadcastHandler d) source raw
       else if t =? TypeRequestEvent then start (eventRequestHandler d) source raw
       else if t =? TypeBackfillResponse then start (eventBackfillResponseHandler d) source raw
       else Err (NewError (bz "unknown payload type " ++ Strconv.FormatUint t))).
Proof.
  intros Ht Hd. destruct (message_decodes t data Ht Hd) as (raw & msg & Hm & Hp & Hu). exists raw, msg.
  split; [done|]. split; [done|]. unfold HandleMessage. by rewrite Hp.
Qed.

(** A message that one node marshals starts, at the node that receives it,
    the handler of its kind with the request it was made from and the name of
    its source. *)
Theorem message_reaches_handler {A} (d : Decoder A) source :
  (forall h (req : SubmitRequest), broadcastHandler d = Some h -> representable req ->
     exists msg, NewPayloadMarshalled TypeBroadcastEvent req = Ok msg /\
       HandleMessage d source msg = Ok (Some (h source req))) /\
  (forall h (req : EventRequest), eventRequestHandler d = Some h -> representable req ->
     exists msg, NewPayloadMarshalled TypeRequestEvent req = Ok msg /\
       HandleMessage d source msg = Ok (Some (h source req))) /\
  (forall h (res : EventBackfillResponse), eventBackfillResponseHandler d = Some h -> representable res ->
     exists msg, NewPayloadMarshalled TypeBackfillResponse res = Ok msg /\
       HandleMessage d source msg = Ok (Some (h source res))).
Proof.
  split; [|split]; intros h req Hh Hr.
  1: destruct (message_starts TypeBroadcastEvent req source d) as (raw & msg & Hm & Hu & Hs); [done..|].
  2: destruct (message_starts TypeRequestEvent req source d) as (raw & msg & Hm & Hu & Hs); [done..|].
  3: destruct (message_starts TypeBackfillResponse req source d) as (raw & msg & Hm & Hu & Hs); [done..|].
  all: exists msg; split; [done|]; rewrite Hs; cbn; unfold start; by rewrite Hu, Hh.
Qed.

End Messages.

(** ** The handlers *)

Section Facts.
Context `{Ed25519} `{PayloadJson}.
Context {K R S : Type} `{ChainClientLaws K} `{EventRepositoryLaws R} `{StateStoreLaws S}.
(** The repository can store every event of the chain. *)
Context (chain_storable : forall tx ev data, on_chain tx ev -> er_storable (full_event ev data tx)).
Implicit Types n : Node K R S.

(** An event of the repository that is what the chain says. *)
Definition genuine (e : StoredEvent) : Prop :=
  exists tx ev data, on_chain tx ev /\
    OffChainHash (em_ScrubbedEvent ev) = Hex.EncodeToString (EventHash.EventData_Hash data) /\
    e = er_form (full_event ev data tx).

Record node_ok n : Prop := {
  no_client : cc_inv (client n);
  no_repo : er_wf (repo n);
  no_genuine : Forall genuine (er_events (repo n));
  no_store : exists s, implements (store n) s
}.

(** A call keeps the node well-formed and loses no event, whatever its outcome,
    and what it returns satisfies [Q]. *)
Definition keeps {A} (c : M (Node K R S) A) (Q : A -> Prop) : Prop :=
  forall n, node_ok n ->
    node_ok (c n).1 /\ (er_events (repo n) `prefix_of` er_events (repo (c n).1)) /\
    forall a, (c n).2 = Ok a -> Q a.

Lemma keeps_same {A} (c : M (Node K R S) A) (Q : A -> Prop) :
  (forall n, (c n).1 = n) -> (forall n a, (c n).2 = Ok a -> Q a) -> keeps c Q.
Proof. intros Hs Hq n Hn. rewrite Hs. split; [done|]. split; [done|]. apply Hq. Qed.

Lemma keeps_ret {A} (a : A) (Q : A -> Prop) : Q a -> keeps (m_ret a) Q.
Proof. intros Ha. apply keeps_same; [done|]. by intros n b [= <-]. Qed.

Lemma keeps_lift {A} (f : Node K R S -> result A) : keeps (m_lift f) (fun _ => True).
Proof. by apply keeps_same. Qed.

Lemma keeps_bind {A B} (c : M (Node K R S) A) (f : A -> M (Node K R S) B) Q Q' :
  keeps c Q -> (forall a, Q a -> keeps (f a) Q') -> keeps (m_bind c f) Q'.
Proof.
  intros Hc Hf n Hn. destruct (Hc n Hn) as (Hn1 & Hp1 & Hq). unfold m_bind.
  destruct (c n) as [n1 [a|e|w]]; cbn in *; [|by split..].
  destruct (Hf a (Hq a eq_refl) n1 Hn1) as (Hn2 & Hp2 & Hq'). split; [done|]. split; [|done]. by etrans.
Qed.

Lemma keeps_attempt {A} (c : M (Node K R S) A) Q :
  keeps c Q -> keeps (attempt c) (fun r => match r with inl a => Q a | inr _ => True end).
Proof.
  intros Hc n Hn. destruct (Hc n Hn) as (Hn1 & Hp1 & Hq). unfold attempt.
  destruct (c n) as [n1 [a|e|w]]; cbn in *; split_and!; try done; intros [] [= <-]; auto.
Qed.

Lemma keeps_weaken {A} (c : M (Node K R S) A) (Q Q' : A -> Prop) :
  keeps c Q -> (forall a, Q a -> Q' a) -> keeps c Q'.
Proof. intros Hc Hw n Hn. destruct (Hc n Hn) as (? & ? & ?). eauto. Qed.

Lemma keeps_GetEventByTx tx : keeps (on_client (cc_GetEventByTx tx)) (on_chain tx).
Proof.
  intros n [Hk Hr Hg Hs]. unfold on_client, m_zoom. destruct (cc_GetEventByTx tx (client n)) as [k' r] eqn:E.
  destruct (law_cc_event _ _ _ _ Hk E) as [Hk' Hq]. cbn. by split.
Qed.

Lemma keeps_GetIdentity p : keeps (on_client (cc_GetIdentity p)) (registered p).
Proof.
  intros n [Hk Hr Hg Hs]. unfold on_client, m_zoom. destruct (cc_GetIdentity p (client n)) as [k' r] eqn:E.
  destruct (law_cc_identity _ _ _ _ Hk E) as [Hk' Hq]. cbn. by split.
Qed.

Lemma keeps_Remove id : keeps (on_store (st_RemoveMissingEvent id)) (fun _ => True).
Proof.
  intros n [Hk Hr Hg [s Hs]]. unfold on_store, m_zoom. destruct (law_remove_event _ _ id Hs) as (d' & E & Hd).
  rewrite E. cbn. split; [|done]. by split; eauto.
Qed.

Lemma keeps_Store tx ev data :
  on_chain tx ev -> OffChainHash (em_ScrubbedEvent ev) = Hex.EncodeToString (EventHash.EventData_Hash data) ->
  keeps (on_repo (er_Store (full_event ev data tx))) (fun _ => True).
Proof.
  intros Hc Hh n [Hk Hr Hg Hs]. unfold on_repo, m_zoom.
  destruct (er_Store (full_event ev data tx) (repo n)) as [r' o] eqn:E.
  destruct (law_Store _ _ _ _ Hr (chain_storable _ _ _ Hc) E) as (Hr' & Hev & _). cbn.
  assert (Forall genuine (er_events r') /\ er_events (repo n) `prefix_of` er_events r') as [Hg' Hp].
  { destruct Hev as [->|[_ ->]]; [done|]. split; [|by apply prefix_app_r].
    apply Forall_app. split; [done|]. constructor; [|done]. by exists tx, ev, data. }
  by split.
Qed.

Lemma keeps_stream viewer e : keeps (stream viewer e) (fun _ => True).
Proof. intros n Hn. unfold stream, m_modify. cbn. destruct viewer; cbn; [|done]. split; [|done]. by destruct Hn. Qed.

Lemma keeps_http code text : keeps (http (K := K) (R := R) (S := S) code text) (fun _ => True).
Proof. by apply keeps_ret. Qed.

(** The rest of a handler after an attempt. *)
Ltac attempted H := eapply keeps_bind; [apply keeps_attempt, H|].

Lemma keeps_storeVerified viewer tx ev data :
  on_chain tx ev -> OffChainHash (em_ScrubbedEvent ev) = Hex.EncodeToString (EventHash.EventData_Hash data) ->
  keeps (storeVerified viewer ev (full_event ev data tx)) (fun _ => True).
Proof.
  intros Hc Hh. unfold storeVerified. attempted (keeps_Store tx ev data Hc Hh). intros stored _.
  set (continue := m_bind _ _). assert (keeps continue (fun _ => True)) as Hcont.
  { subst continue. attempted keeps_Remove. intros _ _. eapply keeps_bind; [apply keeps_stream|].
    intros _ _. by apply keeps_ret. }
  destruct stored as [u|err]; [done|]. destruct (errors_Is _ _); [done|]. apply keeps_http.
Qed.

Lemma keeps_StoreEvent viewer req : keeps (StoreEvent viewer req) (fun _ => True).
Proof.
  unfold StoreEvent. attempted keeps_GetIdentity. intros [d|err] _; [|destruct (errors_Is _ _); apply keeps_http].
  attempted @keeps_lift. intros [sig|err] _; [|apply keeps_http].
  eapply keeps_bind; [apply keeps_lift|]. intros [] _; cbn [negb]; [|apply keeps_http].
  attempted keeps_GetEventByTx. intros [ev|err] Hev; [|destruct (errors_Is _ _); apply keeps_http].
  case_bool_decide; cbn [negb]; [|apply keeps_http]. case_bool_decide; cbn [negb]; [|apply keeps_http].
  case_bool_decide as Hh; cbn [negb]; [|apply keeps_http]. by apply keeps_storeVerified.
Qed.

Lemma keeps_processBackfill ev : keeps (processBackfill (K := K) (R := R) (S := S) ev) (fun _ => True).
Proof.
  unfold processBackfill. attempted keeps_GetEventByTx. intros [tx|err] Htx; [|by apply keeps_ret].
  case_bool_decide as Hh; cbn [negb]; [|by apply keeps_ret]. case_bool_decide; cbn [negb]; [|by apply keeps_ret].
  attempted (keeps_Store _ _ _ Htx Hh). intros stored _.
  set (continue := m_bind _ _). assert (keeps continue (fun _ => True)) as Hcont.
  { subst continue. attempted keeps_Remove. intros [] _; by apply keeps_ret. }
  destruct stored as [u|err]; [done|]. destruct (errors_Is _ _); [done|]. by apply keeps_ret.
Qed.

Lemma keeps_backfillLoop evs : keeps (backfillLoop (K := K) (R := R) (S := S) evs) (fun _ => True).
Proof.
  induction evs as [|ev evs IH]; cbn [backfillLoop]; [by apply keeps_ret|].
  eapply keeps_bind; [apply keeps_processBackfill|]. intros [] _; [done|by apply keeps_ret].
Qed.

Lemma keeps_HandleSubmit viewer Broadcast body :
  keeps (HandleSubmit (K := K) (R := R) (S := S) viewer Broadcast body) (fun _ => True).
Proof.
  unfold HandleSubmit. destruct body as [req|]; [|by apply keeps_ret].
  eapply keeps_bind; [apply keeps_StoreEvent|]. intros [err|] _; [by apply keeps_ret|].
  attempted @keeps_lift. intros [] _; by apply keeps_ret.
Qed.

(** What the outside can make a node do to its events. *)
Inductive action : Type :=
| Submit (viewer : bool) (Broadcast : bytes -> result unit) (body : option SubmitRequest)
| Receive (viewer : bool) (request : SubmitRequest)
| Backfill (events : list EventBackfillResponseData).

Definition perform (a : action) : M (Node K R S) unit :=
  match a with
  | Submit viewer Broadcast body => do _ <- HandleSubmit viewer Broadcast body ;; m_ret tt
  | Receive viewer request => BroadcastHandler viewer request
  | Backfill events => do _ <- backfillLoop events ;; m_ret tt
  end.

Lemma keeps_perform a : keeps (perform a) (fun _ => True).
Proof.
  destruct a as [viewer Broadcast body|viewer req|evs]; cbn [perform]; unfold BroadcastHandler.
  1: eapply keeps_bind; [apply keeps_HandleSubmit|]. 2: eapply keeps_bind; [apply keeps_StoreEvent|].
  3: eapply keeps_bind; [apply keeps_backfillLoop|]. all: intros _ _; by apply keeps_ret.
Qed.

(** Actions one after the other, each after whatever the last one left. *)
Inductive acts : Node K R S -> list action -> Node K R S -> Prop :=
| acts_none n : acts n [] n
| acts_more n a n1 r rest n2 : perform a n = (n1, r) -> acts n1 rest n2 -> acts n (a :: rest) n2.

Lemma acts_keep n as_ n' : node_ok n -> acts n as_ n' ->
  node_ok n' /\ (er_events (repo n) `prefix_of` er_events (repo n')).
Proof.
  intros Hn Ha. revert Hn. induction Ha as [n|n a n1 r rest n2 E Ha IH]; intros Hn; [done|].
  destruct (keeps_perform a n Hn) as (Hn1 & Hp & _). rewrite E in *. cbn in *.
  destruct (IH Hn1) as [Hg Hp']. split; [done|]. by etrans.
Qed.

(** Whatever is submitted, broadcast or sent as backfill, whether the
    handlers succeed, fail or panic, every event in the repository is an event
    of the chain together with data of the hash recorded there, and no event
    is lost. *)
Theorem repository_genuine n as_ n' :
  node_ok n -> acts n as_ n' ->
  Forall genuine (er_events (repo n')) /\ (er_events (repo n) `prefix_of` er_events (repo n')).
Proof. intros Hn Ha. destruct (acts_keep n as_ n' Hn Ha) as [[] ?]. done. Qed.

(** *** What a submission must satisfy *)

Lemma attempt_inv {A B} (c : M (Node K R S) A) (f : A + error -> M (Node K R S) B) n n' b :
  m_bind (attempt c) f n = (n', Ok b) ->
  exists n1, (exists a, c n = (n1, Ok a) /\ f (inl a) n1 = (n', Ok b)) \/
             (exists e, c n = (n1, Err e) /\ f (inr e) n1 = (n', Ok b)).
Proof.
  unfold m_bind, attempt. destruct (c n) as [n1 [a|e|w]]; intros E; [exists n1; eauto..|done].
Qed.

Lemma http_not_nil code text n n' : http (K := K) (R := R) (S := S) code text n <> (n', Ok None).
Proof. done. Qed.

(** A missing event is no longer missing. *)
Definition not_missing (id : EventHash) n : Prop :=
  exists s, implements (store n) s /\ (id ∉ event_id <$> s_events s).

Lemma without_not_missing id q : id ∉ event_id <$> without id q.
Proof. intros Hin. apply list_elem_of_fmap in Hin as (x & -> & Hx). by apply elem_of_without in Hx as [? _]. Qed.

Lemma removed_not_missing id n : node_ok n ->
  exists n', on_store (st_RemoveMissingEvent id) n = (n', Ok tt) /\ not_missing id n' /\ repo n' = repo n /\ client n' = client n.
Proof.
  intros Hn. destruct (no_store _ Hn) as [s Hs]. unfold on_store, m_zoom.
  destruct (law_remove_event _ _ id Hs) as (d' & -> & Hd). eexists. split; [done|]. split; [|done].
  eexists. split; [exact Hd|]. apply without_not_missing.
Qed.

(** The repository holds the event after a store that succeeded or reported a
    duplicate. *)
Lemma store_present tx ev data n n1 o : node_ok n -> on_chain tx ev ->
  on_repo (er_Store (full_event ev data tx)) n = (n1, o) ->
  o = Ok tt \/ (exists err, o = Err err /\ errors_Is err ErrEventAlreadyStored = true) ->
  EventId (em_Metadata ev) ∈ stored_id <$> er_events (repo n1).
Proof.
  intros Hn Hc E Ho. unfold on_repo, m_zoom in E.
  destruct (er_Store _ (repo n)) as [r' o'] eqn:Es. injection E as <- <-. cbn.
  destruct (law_Store _ _ _ _ (no_repo _ Hn) (chain_storable _ _ _ Hc) Es) as (_ & Hev & Hok & Hdup).
  destruct Ho as [->|(err & -> & Herr)].
  - rewrite (Hok eq_refl), fmap_app, elem_of_app. right. apply list_elem_of_singleton. symmetry.
    apply (law_form (full_event ev data tx)).
  - specialize (Hdup err eq_refl Herr). destruct Hev as [->|[Hnew _]]; [exact Hdup|]. by destruct Hnew.
Qed.

Lemma keeps_run {A} (c : M (Node K R S) A) Q n n' a : keeps c Q -> node_ok n -> c n = (n', Ok a) -> node_ok n' /\ Q a.
Proof. intros Hc Hn E. destruct (Hc n Hn) as (Hn' & _ & Hq). rewrite E in *. auto. Qed.

Lemma keeps_run_err {A} (c : M (Node K R S) A) Q n n' e : keeps c Q -> node_ok n -> c n = (n', Err e) -> node_ok n'.
Proof. intros Hc Hn E. destruct (Hc n Hn) as (Hn' & _). by rewrite E in Hn'. Qed.

Lemma stream_run viewer e n : exists n', stream viewer e n = (n', Ok tt) /\ store n' = store n /\ repo n' = repo n.
Proof. unfold stream, m_modify. destruct viewer; eauto. Qed.

(** After the store: the marker of the missing event is removed. *)
Lemma after_store viewer ev full n n' : node_ok n ->
  (do _ <- attempt (on_store (st_RemoveMissingEvent (EventId (em_Metadata ev)))) ;;
   do _ <- stream viewer full ;; m_ret (@None HttpError)) n = (n', Ok None) ->
  not_missing (EventId (em_Metadata ev)) n' /\ repo n' = repo n.
Proof.
  intros Hn E. destruct (removed_not_missing (EventId (em_Metadata ev)) n Hn) as (n1 & E1 & Hm & Hr & _).
  unfold m_bind at 1, attempt in E. rewrite E1 in E. destruct (stream_run viewer full n1) as (n2 & E2 & Hs2 & Hr2).
  rewrite (m_bind_ok _ _ _ _ _ E2) in E. injection E as <-. unfold not_missing. rewrite Hs2, Hr2. done.
Qed.

Lemma storeVerified_spec viewer tx ev data n n' :
  node_ok n -> on_chain tx ev ->
  OffChainHash (em_ScrubbedEvent ev) = Hex.EncodeToString (EventHash.EventData_Hash data) ->
  storeVerified viewer ev (full_event ev data tx) n = (n', Ok None) ->
  EventId (em_Metadata ev) ∈ stored_id <$> er_events (repo n') /\ not_missing (EventId (em_Metadata ev)) n'.
Proof.
  intros Hn Hc Hh E. unfold storeVerified in E. apply attempt_inv in E as (n1 & [(u & E1 & E)|(err & E1 & E)]).
  - destruct u. destruct (keeps_run _ _ _ _ _ (keeps_Store tx ev data Hc Hh) Hn E1) as [Hn1 _].
    destruct (after_store _ _ _ _ _ Hn1 E) as [Hm ->]. split; [|done].
    eapply store_present; [exact Hn|exact Hc|exact E1|by left].
  - pose proof (keeps_run_err _ _ _ _ _ (keeps_Store tx ev data Hc Hh) Hn E1) as Hn1. cbn in E.
    destruct (errors_Is err ErrEventAlreadyStored) eqn:Ei; [|done].
    destruct (after_store _ _ _ _ _ Hn1 E) as [Hm ->]. split; [|done].
    eapply store_present; [exact Hn|exact Hc|exact E1|right; eauto].
Qed.

(** What has been checked of a request that is accepted. *)
Record authentic (req : SubmitRequest) (d : IdentityData) (ev : EventWithMetadata) : Prop := {
  au_registered : registered (sr_Principal req) d;
  au_key : zlen (PublicKey d) = PublicKeySize;
  au_signature : exists sig, Hex.DecodeString (sr_Signature req) = Ok sig /\
    ed_verify (PublicKey d) (EventHash.EventData_Hash (sr_EventData req)) sig = true;
  au_chain : on_chain (sr_TxHash req) ev;
  au_id : EventId (em_Metadata ev) = sr_EventId req;
  au_principal : md_Principal (em_Metadata ev) = sr_Principal req;
  au_hash : OffChainHash (em_ScrubbedEvent ev) = Hex.EncodeToString (EventHash.EventData_Hash (sr_EventData req))
}.

Lemma StoreEvent_inv viewer req n n' : node_ok n -> StoreEvent viewer req n = (n', Ok None) ->
  exists d ev n1, authentic req d ev /\ node_ok n1 /\
    storeVerified viewer ev (full_event ev (sr_EventData req) (sr_TxHash req)) n1 = (n', Ok None).
Proof.
  intros Hn E. unfold StoreEvent in E.
  apply attempt_inv in E as (n1 & [(d & E1 & E)|(err & E1 & E)]); [|by cbn in E; destruct (errors_Is _ _)].
  destruct (keeps_run _ _ _ _ _ (keeps_GetIdentity _) Hn E1) as [Hn1 Hd]. cbn in E.
  apply attempt_inv in E as (n2 & [(sig & E2 & E)|(err & E2 & E)]); [|done].
  unfold m_lift in E2. injection E2 as <- Esig.
  unfold m_bind at 1, m_lift in E. destruct (ed25519_Verify _ _ sig) as [valid|e|w] eqn:Ev; [|done..].
  unfold ed25519_Verify in Ev. destruct (Z.eqb_spec (zlen (PublicKey d)) PublicKeySize) as [Hlen|]; [|done].
  cbn [negb] in Ev. injection Ev as Ev. destruct valid; cbn [negb] in E; [|done].
  apply attempt_inv in E as (n3 & [(ev & E3 & E)|(err & E3 & E)]); [|by cbn in E; destruct (errors_Is _ _)].
  destruct (keeps_run _ _ _ _ _ (keeps_GetEventByTx _) Hn1 E3) as [Hn3 Hev]. cbn in E.
  do 3 (case_bool_decide; cbn [negb] in E; [|done]). exists d, ev, n3. split; [|done]. split; eauto.
Qed.

(** C14. A submission is accepted only if its data is signed by a registered
    principal, the transaction holds the event it names, that principal
    created the event, and the data has the hash recorded on the chain; then
    the event is in the repository and no longer counted as missing. *)
Theorem submission_authentic viewer req n n' :
  node_ok n -> StoreEvent viewer req n = (n', Ok None) ->
  (exists d ev, authentic req d ev) /\
  sr_EventId req ∈ stored_id <$> er_events (repo n') /\ not_missing (sr_EventId req) n'.
Proof.
  intros Hn E. destruct (StoreEvent_inv _ _ _ _ Hn E) as (d & ev & n1 & Ha & Hn1 & E1).
  split; [by exists d, ev|]. rewrite <- (au_id _ _ _ Ha).
  by apply (storeVerified_spec _ _ _ _ _ _ Hn1 (au_chain _ _ _ Ha) (au_hash _ _ _ Ha) E1).
Qed.

(** *** Backfill *)

(** The client reaches the chain, and the database accepts events. *)
Definition client_up : Prop := forall tx ev k, on_chain tx ev -> cc_inv k ->
  exists k', cc_GetEventByTx tx k = (k', Ok ev).
Definition database_up : Prop := forall r e, er_wf r -> er_storable e ->
  exists r' o, er_Store e r = (r', o) /\
    (o = Ok tt \/ exists err, o = Err err /\ errors_Is err ErrEventAlreadyStored = true).

(** The data of an event of the chain. *)
Definition matching (b : EventBackfillResponseData) : Prop :=
  exists ev, on_chain (bd_TxHash b) ev /\ EventId (em_Metadata ev) = bd_EventId b /\
    OffChainHash (em_ScrubbedEvent ev) = Hex.EncodeToString (EventHash.EventData_Hash (bd_EventData b)).

Definition none_missing (ids : list EventHash) n : Prop :=
  exists s, implements (store n) s /\ Forall (fun id => id ∉ event_id <$> s_events s) ids.

Lemma none_missing_remove ids id n : none_missing ids n ->
  exists n', on_store (st_RemoveMissingEvent id) n = (n', Ok tt) /\ none_missing (id :: ids) n' /\
    repo n' = repo n /\ client n' = client n.
Proof.
  intros (s & Hs & Hids). unfold on_store, m_zoom. destruct (law_remove_event _ _ id Hs) as (d' & -> & Hd).
  eexists. split; [done|]. split; [|done]. eexists. split; [exact Hd|]. cbn. constructor; [apply without_not_missing|].
  eapply List.Forall_impl; [|exact Hids]. intros x Hx Hin. apply Hx. apply list_elem_of_fmap in Hin as (y & -> & Hy).
  apply elem_of_without in Hy as [_ Hy]. apply list_elem_of_fmap. eauto.
Qed.

Lemma processBackfill_ok b ids n : client_up -> database_up -> matching b -> node_ok n -> none_missing ids n ->
  exists n', processBackfill b n = (n', Ok true) /\ node_ok n' /\ none_missing (bd_EventId b :: ids) n' /\
    bd_EventId b ∈ stored_id <$> er_events (repo n').
Proof.
  intros Hup Hdb (ev & Hc & Hid & Hh) Hn Hm.
  destruct (Hup _ _ _ Hc (no_client _ Hn)) as (k' & Ek).
  assert (on_client (cc_GetEventByTx (bd_TxHash b)) n = (put_client k' n, Ok ev)) as E1.
  { unfold on_client, m_zoom. by rewrite Ek. }
  destruct (keeps_run _ _ _ _ _ (keeps_GetEventByTx _) Hn E1) as [Hn1 _].
  destruct (Hdb (repo n) _ (no_repo _ Hn) (chain_storable _ ev (bd_EventData b) Hc)) as (r' & o & Es & Ho).
  set (n2 := put_repo r' (put_client k' n)).
  assert (on_repo (er_Store (full_event ev (bd_EventData b) (bd_TxHash b))) (put_client k' n) = (n2, o)) as E2.
  { unfold on_repo, m_zoom. cbn. by rewrite Es. }
  pose proof (store_present _ _ _ _ _ _ Hn1 Hc E2 Ho) as Hin.
  assert (node_ok n2) as Hn2.
  { destruct (keeps_Store _ _ _ Hc Hh _ Hn1) as (Hk & _). by rewrite E2 in Hk. }
  destruct (none_missing_remove ids (EventId (em_Metadata ev)) n2) as (n3 & E3 & Hm3 & Hr3 & _); [exact Hm|].
  exists n3. split.
  { unfold processBackfill. unfold m_bind at 1, attempt at 1. rewrite E1.
    rewrite !bool_decide_true by done. cbn [negb]. unfold m_bind at 1, attempt at 1. rewrite E2.
    assert ((do removed <- attempt (on_store (st_RemoveMissingEvent (EventId (em_Metadata ev)))) ;;
             match removed with inl _ => m_ret true | inr _ => m_ret false end) n2 = (n3, Ok true)) as E4.
    { unfold m_bind, attempt. by rewrite E3. }
    destruct Ho as [->|(err & -> & ->)]; exact E4. }
  rewrite <- Hid, Hr3. split; [|done]. by destruct (keeps_run _ _ _ _ _ (keeps_Remove _) Hn2 E3).
Qed.

Lemma prefix_ids (l l' : list StoredEvent) id : l `prefix_of` l' -> id ∈ stored_id <$> l -> id ∈ stored_id <$> l'.
Proof. intros [k ->] Hin. rewrite fmap_app, elem_of_app. by left. Qed.

Lemma backfillLoop_ok bs : forall ids n, client_up -> database_up -> Forall matching bs -> node_ok n -> none_missing ids n ->
  exists n', backfillLoop bs n = (n', Ok []) /\ node_ok n' /\
    (forall b, b ∈ bs -> bd_EventId b ∈ stored_id <$> er_events (repo n')) /\
    (none_missing (rev (bd_EventId <$> bs) ++ ids) n').
Proof.
  induction bs as [|b bs IH]; intros ids n Hup Hdb Hall Hn Hm.
  { exists n. split_and!; try done. by intros b ?%elem_of_nil. }
  apply List.Forall_cons_iff in Hall as [Hb Hall]. cbn [backfillLoop].
  destruct (processBackfill_ok b ids n Hup Hdb Hb Hn Hm) as (n1 & E1 & Hn1 & Hm1 & Hin1). run E1.
  destruct (IH _ _ Hup Hdb Hall Hn1 Hm1) as (n' & E & Hn' & Hin & Hmiss). exists n'.
  split; [exact E|]. split; [done|]. split.
  - intros x Hx. apply elem_of_cons in Hx as [->|Hx]; [|auto]. eapply prefix_ids, Hin1.
    destruct (keeps_backfillLoop bs n1 Hn1) as (_ & Hp & _). by rewrite E in Hp.
  - cbn [fmap list_fmap rev]. by rewrite <- app_assoc.
Qed.

Lemma genuine_matching e : genuine e -> matching (backfill_data e).
Proof.
  intros (tx & ev & data & Hc & Hh & ->). destruct (law_form (full_event ev data tx)) as (Hid & _ & Hdata & Htx).
  exists ev. unfold backfill_data. cbn. unfold stored_id in Hid. rewrite Htx, Hid, Hdata. done.
Qed.

(** C13. An event that one node misses and another one has arrives: the node that
    is asked answers with the events it has, and the one that asked verifies
    them against the chain, stores them all and no longer counts them as
    missing, provided its client and its database work. *)
Theorem backfill_delivers `{RawJson} `{!PayloadLaws} (d : Decoder (M (Node K R S) (list EventBackfillResponseData)))
    nameA nameB ids (rB : R) es n :
  nameB <> nameA -> client_up -> database_up -> node_ok n ->
  er_wf rB -> Forall genuine (er_events rB) -> er_GetEventsById ids rB = Ok es -> es <> [] ->
  Forall (fun e => data_ok (ed_EventData (st_EventWithData e))) es ->
  eventBackfillResponseHandler d = Some (fun _ res => backfillLoop (Events res)) ->
  exists msg loop n', EventRequestHandler nameB nameA (NewEventRequest ids) rB = Ok (Some msg) /\
    HandleMessage d nameB msg = Ok (Some loop) /\ loop n = (n', Ok []) /\
    (forall e, e ∈ er_events rB -> stored_id e ∈ ids ->
       stored_id e ∈ stored_id <$> er_events (repo n') /\ not_missing (stored_id e) n').
Proof.
  intros Hname Hup Hdb Hn Hwf Hgen Hget Hne Hok Hdec.
  pose proof (law_GetEventsById _ _ _ Hwf Hget) as Hperm.
  assert (forall e, e ∈ es <-> stored_id e ∈ ids /\ e ∈ er_events rB) as Hes.
  { intros e. by rewrite Hperm, list_elem_of_filter. }
  set (res := mkEventBackfillResponse (backfill_data <$> es)).
  assert (representable res) as Hrep by (apply Forall_fmap; exact Hok).
  destruct (message_starts TypeBackfillResponse res nameB d) as (raw & msg & Hm & Hu & Hs); [done..|].
  assert (Forall matching (backfill_data <$> es)) as Hmat.
  { apply Forall_fmap, List.Forall_forall. intros e He. apply genuine_matching.
    apply (proj1 (List.Forall_forall _ _) Hgen), list_elem_of_In, Hes, list_elem_of_In, He. }
  destruct (no_store _ Hn) as [s Hst].
  destruct (backfillLoop_ok (backfill_data <$> es) [] n Hup Hdb Hmat Hn) as (n' & El & _ & Hin & Hmiss); [by exists s|].
  exists msg, (backfillLoop (backfill_data <$> es)), n'. split_and!; [| |done|].
  - unfold EventRequestHandler. rewrite bool_decide_false by done. cbn [EventIds NewEventRequest]. rewrite Hget.
    fold res. rewrite Hm. by destruct es.
  - rewrite Hs. cbn. unfold start. by rewrite Hu, Hdec.
  - intros e He Hid. assert (backfill_data e ∈ backfill_data <$> es) as Hb.
    { apply list_elem_of_fmap. exists e. split; [done|]. by apply Hes. }
    split; [exact (Hin _ Hb)|]. destruct Hmiss as (s' & Hs' & Hall). exists s'. split; [done|].
    apply (proj1 (List.Forall_forall _ _) Hall). apply list_elem_of_In. rewrite app_nil_r.
    apply elem_of_rev, list_elem_of_fmap. by exists (backfill_data e).
Qed.

(** *** Failures *)

(** One backfilled event whose transaction the client cannot find ends the
    loop: none of the events after it, in this message or any later one, is
    ever processed. *)
Theorem bad_event_stops_backfill bad rest n k' err :
  cc_GetEventByTx (bd_TxHash bad) (client n) = (k', Err err) ->
  backfillLoop (bad :: rest) n = (put_client k' n, Ok rest).
Proof.
  intros E. cbn [backfillLoop]. unfold processBackfill, m_bind, attempt, on_client, m_zoom. by rewrite E.
Qed.

(** A broadcast in the name of a principal whose registered key does not
    have 32 bytes makes the node panic, whatever the signature says. *)
Theorem bad_key_crashes_node viewer req n k' d sig :
  cc_GetIdentity (sr_Principal req) (client n) = (k', Ok d) ->
  Hex.DecodeString (sr_Signature req) = Ok sig -> zlen (PublicKey d) <> PublicKeySize ->
  exists w, BroadcastHandler viewer req n = (put_client k' n, Panic w).
Proof.
  intros E Es Hl. exists (bz "ed25519: bad public key length").
  unfold BroadcastHandler, StoreEvent, m_bind, attempt, on_client, m_zoom, m_lift. rewrite E. cbn. rewrite Es.
  unfold ed25519_Verify. by rewrite (proj2 (Z.eqb_neq _ _) Hl).
Qed.

End Facts.
End NodeFacts.

(** * Submissions that are in order are accepted

    The converse of what [NodeFacts] shows of submissions: data with the hash
    recorded on the chain, signed by the principal that created the event, is
    accepted, stored and passed on, when the client, the database and the
    transport work. *)

Module Submission.
Import Payload Node NodeFacts.

Section Facts.
Context `{Ed25519} `{PayloadJson}.
Context {K R S : Type} `{ChainClientLaws K} `{EventRepositoryLaws R} `{StateStoreLaws S}.
Context (chain_storable : forall tx ev data, on_chain tx ev -> er_storable (full_event ev data tx)).
Implicit Types n : Node K R S.

(** The client finds registered principals. *)
Definition identities_up : Prop := forall p d k, registered p d -> cc_inv k ->
  exists k', cc_GetIdentity p k = (k', Ok d).

Lemma run_client {A} (c : M K A) n k' a : c (client n) = (k', Ok a) -> attempt (on_client c) n = (put_client k' n, Ok (inl a)).
Proof. intros E. unfold attempt, on_client, m_zoom. by rewrite E. Qed.

(** After the store. *)
Lemma continue_runs viewer id full n : node_ok n -> exists n',
  (do _ <- attempt (on_store (st_RemoveMissingEvent id)) ;; do _ <- stream viewer full ;; m_ret (@None HttpError)) n = (n', Ok None) /\
  repo n' = repo n.
Proof.
  intros Hn. destruct (removed_not_missing id n Hn) as (n1 & E1 & _ & Hr & _). destruct (stream_run viewer full n1) as (n2 & E2 & _ & Hr2).
  exists n2. split; [|by rewrite Hr2]. unfold m_bind at 1, attempt. rewrite E1. by rewrite (m_bind_ok _ _ _ _ _ E2).
Qed.

Lemma storeVerified_runs viewer tx ev data n : database_up -> node_ok n -> on_chain tx ev ->
  OffChainHash (em_ScrubbedEvent ev) = Hex.EncodeToString (EventHash.EventData_Hash data) ->
  exists n', storeVerified viewer ev (full_event ev data tx) n = (n', Ok None).
Proof.
  intros Hdb Hn Hc Hh. destruct (Hdb (repo n) _ (no_repo _ Hn) (chain_storable _ ev data Hc)) as (r' & o & Es & Ho).
  assert (on_repo (er_Store (full_event ev data tx)) n = (put_repo r' n, o)) as E by (unfold on_repo, m_zoom; by rewrite Es).
  assert (node_ok (put_repo r' n)) as Hn1.
  { destruct (keeps_Store chain_storable tx ev data Hc Hh n Hn) as (Hk & _). by rewrite E in Hk. }
  destruct (continue_runs viewer (EventId (em_Metadata ev)) (full_event ev data tx) _ Hn1) as (n' & En & _).
  exists n'. unfold storeVerified. unfold m_bind at 1, attempt at 1. rewrite E.
  destruct Ho as [->|(err & -> & Herr)]; [exact En|]. rewrite Herr. exact En.
Qed.

(** A submission with everything that is checked of it is accepted: it is
    answered with 201, the event is in the repository and no longer counted as
    missing, and the submission is passed on to the other nodes. *)
Theorem authentic_submission_accepted viewer Broadcast req d ev msg n : client_up -> identities_up -> database_up -> node_ok n ->
  authentic req d ev -> NewPayloadMarshalled TypeBroadcastEvent req = Ok msg -> Broadcast msg = Ok tt ->
  exists n', HandleSubmit viewer Broadcast (Some req) n = (n', Ok 201) /\
    sr_EventId req ∈ stored_id <$> er_events (repo n') /\ not_missing (sr_EventId req) n'.
Proof.
  intros Hup Hid Hdb Hn Ha Hmsg Hbc. destruct Ha as [Hreg Hkey (sig & Hsig & Hver) Hc Hev Hpr Hh].
  destruct (Hid _ _ _ Hreg (no_client _ Hn)) as (k1 & E1). set (n1 := put_client k1 n).
  assert (node_ok n1) as Hn1.
  { destruct (keeps_GetIdentity (sr_Principal req) n Hn) as (Hk & _). unfold on_client, m_zoom in Hk. by rewrite E1 in Hk. }
  destruct (Hup _ _ k1 Hc (no_client _ Hn1)) as (k2 & E2). set (n2 := put_client k2 n1).
  assert (node_ok n2) as Hn2.
  { destruct (keeps_GetEventByTx (sr_TxHash req) n1 Hn1) as (Hk & _). unfold on_client, m_zoom in Hk. cbn in Hk. by rewrite E2 in Hk. }
  destruct (storeVerified_runs viewer (sr_TxHash req) ev (sr_EventData req) n2 Hdb Hn2 Hc Hh) as (n' & E3).
  assert (StoreEvent viewer req n = (n', Ok None)) as E.
  { unfold StoreEvent. unfold m_bind at 1. rewrite (run_client _ _ _ _ E1). unfold m_bind at 1, attempt at 1, m_lift at 1. rewrite Hsig.
    unfold m_bind at 1, m_lift at 1, ed25519_Verify. rewrite Hkey, Z.eqb_refl, Hver. cbn [negb].
    unfold m_bind at 1. fold n1. rewrite (run_client _ n1 _ _ E2). fold n2. rewrite !bool_decide_true by done. exact E3. }
  exists n'. split.
  - unfold HandleSubmit. unfold m_bind at 1. rewrite E. unfold m_bind, attempt, m_lift. by rewrite Hmsg; cbn; rewrite Hbc.
  - rewrite <- Hev. exact (storeVerified_spec chain_storable _ _ _ _ _ _ Hn2 Hc Hh E3).
Qed.

End Facts.
End Submission.
