(* ===== verification/JsonOffchain.v ===== *)
(** * The JSON of the messages between off-chain nodes

    The struct tags of [payload/types.go], [payload/payload.go] and of
    [offchain.SubmitRequest], over the model of [encoding/json]; every law the
    node is proved against holds of them. *)

From S2P Require Import Prelude Types Text JsonText JsonScan JsonCompact JsonCodec JsonCodecFacts Platform JsonTypes JsonTypesFacts JsonDecoded JsonPlatform EventsApp OffchainNode NodeFacts.

Module JsonOffchain.
Import JsonText JsonScan JsonCompact JsonCodec JsonCodecFacts JsonTypes JsonTypesFacts JsonDecoded JsonPlatform.
Import Payload NodeFacts.

(** ** Codecs *)

(** A number that has to fit into a byte. *)
Definition dec_uint8 : decoder Z := fun old v =>
  let* n := dec_uint64 old v in if 255 <? n then Err UnmarshalTypeError else Ok n.

Definition enc_Data : encoder EvData := fun d =>
  enc_struct [(bz "name", enc_ptr enc_string (data_Name d)); (bz "value", enc_ptr enc_string (data_Value d))].
Definition dec_Data : decoder EvData := dec_struct
  [(bz "name", set_field data_Name (fun x d => mkEvData x (data_Value d)) (dec_ptr [] dec_string));
   (bz "value", set_field data_Value (fun x d => mkEvData (data_Name d) x) (dec_ptr [] dec_string))].

Definition enc_EventData : encoder EventData := enc_slice enc_Data.
Definition dec_EventData : decoder EventData := dec_slice (mkEvData None None) dec_Data.

Definition enc_Message : encoder Payload := fun p =>
  enc_struct [(bz "t", enc_uint (Type_ p)); (bz "d", enc_raw (Data p))].
Definition dec_Message : decoder Payload := dec_struct
  [(bz "t", set_field Type_ (fun x p => mkPayload x (Data p)) dec_uint8);
   (bz "d", set_field Data (fun x p => mkPayload (Type_ p) x) dec_raw)].

Definition enc_SubmitRequest : encoder SubmitRequest := fun r =>
  enc_struct [(bz "event_id", JsonTypes.Events.enc_hash (sr_EventId r)); (bz "tx_hash", JsonTypes.Events.enc_hash (sr_TxHash r));
    (bz "event_data", enc_EventData (sr_EventData r)); (bz "principal", enc_string (sr_Principal r));
    (bz "signature", enc_string (sr_Signature r))].
Definition dec_SubmitRequest : decoder SubmitRequest := dec_struct
  [(bz "event_id", set_field sr_EventId (fun x r => mkSubmitRequest x (sr_TxHash r) (sr_EventData r) (sr_Principal r) (sr_Signature r)) JsonTypes.Events.dec_hash);
   (bz "tx_hash", set_field sr_TxHash (fun x r => mkSubmitRequest (sr_EventId r) x (sr_EventData r) (sr_Principal r) (sr_Signature r)) JsonTypes.Events.dec_hash);
   (bz "event_data", set_field sr_EventData (fun x r => mkSubmitRequest (sr_EventId r) (sr_TxHash r) x (sr_Principal r) (sr_Signature r)) dec_EventData);
   (bz "principal", set_field sr_Principal (fun x r => mkSubmitRequest (sr_EventId r) (sr_TxHash r) (sr_EventData r) x (sr_Signature r)) dec_string);
   (bz "signature", set_field sr_Signature (fun x r => mkSubmitRequest (sr_EventId r) (sr_TxHash r) (sr_EventData r) (sr_Principal r) x) dec_string)].

Definition enc_EventRequest : encoder EventRequest := fun r =>
  enc_struct [(bz "e", enc_slice JsonTypes.Events.enc_hash (EventIds r))].
Definition dec_EventRequest : decoder EventRequest := dec_struct
  [(bz "e", set_field EventIds (fun x _ => mkEventRequest x) (dec_slice [] JsonTypes.Events.dec_hash))].

Definition enc_BackfillData : encoder EventBackfillResponseData := fun r =>
  enc_struct [(bz "e", JsonTypes.Events.enc_hash (bd_EventId r)); (bz "h", JsonTypes.Events.enc_hash (bd_TxHash r));
    (bz "d", enc_EventData (bd_EventData r))].
Definition dec_BackfillData : decoder EventBackfillResponseData := dec_struct
  [(bz "e", set_field bd_EventId (fun x r => mkEventBackfillResponseData x (bd_TxHash r) (bd_EventData r)) JsonTypes.Events.dec_hash);
   (bz "h", set_field bd_TxHash (fun x r => mkEventBackfillResponseData (bd_EventId r) x (bd_EventData r)) JsonTypes.Events.dec_hash);
   (bz "d", set_field bd_EventData (fun x r => mkEventBackfillResponseData (bd_EventId r) (bd_TxHash r) x) dec_EventData)].

Definition enc_BackfillResponse : encoder EventBackfillResponse := fun r =>
  enc_struct [(bz "e", enc_slice enc_BackfillData (Events r))].
Definition dec_BackfillResponse : decoder EventBackfillResponse := dec_struct
  [(bz "e", set_field Events (fun x _ => mkEventBackfillResponse x) (dec_slice (mkEventBackfillResponseData [] [] []) dec_BackfillData))].

(** ** Round trips *)

Lemma codable_uint8 n : in_u 8 n -> codable enc_uint dec_uint8 n.
Proof.
  intros Hn. destruct (codable_uint n) as (v & He & Hc & Hd); [unfold in_u in *; lia|].
  exists v. split_and!; [done|done|]. intros old. unfold dec_uint8. rewrite Hd. cbn [res_bind].
  by rewrite (proj2 (Z.ltb_ge _ _)) by (unfold in_u in Hn; lia).
Qed.

Lemma codable_Data d : opt_all utf8 (data_Name d) -> opt_all utf8 (data_Value d) -> codable enc_Data dec_Data d.
Proof.
  intros Hn Hv. field (codable_opt_string _ Hn). field (codable_opt_string _ Hv).
  struct enc_Data d [(bz "name", v); (bz "value", v0)].
Qed.

Lemma codable_EventData d : data_ok d -> codable enc_EventData dec_EventData d.
Proof.
  intros Hd. apply codable_slice. eapply List.Forall_impl; [|exact Hd]. intros x [Hn Hv]. by apply codable_Data.
Qed.

Lemma codable_Message p : in_u 8 (Type_ p) -> compact_value (Data p) -> codable enc_Message dec_Message p.
Proof.
  intros Ht Hd. field (codable_uint8 _ Ht). field (codable_raw _ Hd). struct enc_Message p [(bz "t", v); (bz "d", v0)].
Qed.

Lemma codable_SubmitRequest r : representable r -> codable enc_SubmitRequest dec_SubmitRequest r.
Proof.
  intros (Hd & Hp & Hs). field (codable_hash (sr_EventId r)). field (codable_hash (sr_TxHash r)).
  field (codable_EventData _ Hd). field (codable_string _ Hp). field (codable_string _ Hs).
  struct enc_SubmitRequest r [(bz "event_id", v); (bz "tx_hash", v0); (bz "event_data", v1); (bz "principal", v2); (bz "signature", v3)].
Qed.

Lemma codable_EventRequest r : codable enc_EventRequest dec_EventRequest r.
Proof.
  assert (Forall (codable JsonTypes.Events.enc_hash JsonTypes.Events.dec_hash) (EventIds r)) as Hf
    by (apply List.Forall_forall; intros h _; apply codable_hash).
  field (codable_slice [] _ _ _ Hf). struct enc_EventRequest r [(bz "e", v)].
Qed.

Lemma codable_BackfillData r : data_ok (bd_EventData r) -> codable enc_BackfillData dec_BackfillData r.
Proof.
  intros Hd. field (codable_hash (bd_EventId r)). field (codable_hash (bd_TxHash r)). field (codable_EventData _ Hd).
  struct enc_BackfillData r [(bz "e", v); (bz "h", v0); (bz "d", v1)].
Qed.

Lemma codable_BackfillResponse r : representable r -> codable enc_BackfillResponse dec_BackfillResponse r.
Proof.
  intros Hr. assert (Forall (codable enc_BackfillData dec_BackfillData) (Events r)) as Hf
    by (eapply List.Forall_impl; [|exact Hr]; intros b; apply codable_BackfillData).
  field (codable_slice (mkEventBackfillResponseData [] [] []) _ _ _ Hf). struct enc_BackfillResponse r [(bz "e", v)].
Qed.

(** ** Panics and compactness *)

Lemma safe_uint8 old v : safe (dec_uint8 old v).
Proof. apply safe_bind; [apply safe_dec_uint64|]. intros n. by destruct (255 <? n). Qed.
Lemma safe_Data old v : safe (dec_Data old v).
Proof. safe_fields; apply safe_dec_ptr, safe_dec_string. Qed.
Lemma safe_EventData old v : safe (dec_EventData old v).
Proof. apply safe_slices, safe_Data. Qed.
#[local] Hint Resolve safe_uint8 safe_EventData : json_safe.
Lemma safe_Message old v : safe (dec_Message old v).
Proof. safe_fields. Qed.
Lemma safe_SubmitRequest old v : safe (dec_SubmitRequest old v).
Proof. safe_fields. Qed.
Lemma safe_EventRequest old v : safe (dec_EventRequest old v).
Proof. safe_fields. apply safe_slices, safe_dec_hash. Qed.
Lemma safe_BackfillData old v : safe (dec_BackfillData old v).
Proof. safe_fields. Qed.
Lemma safe_BackfillResponse old v : safe (dec_BackfillResponse old v).
Proof. safe_fields. apply safe_slices, safe_BackfillData. Qed.

Lemma safe_enc_Data d : safe (enc_Data d).
Proof. safe_struct. Qed.
Lemma safe_enc_EventData d : safe (enc_EventData d).
Proof. apply safe_enc_slice, safe_enc_Data. Qed.
#[local] Hint Resolve safe_enc_EventData : json_safe.
Lemma safe_enc_Message p : safe (enc_Message p).
Proof. safe_struct. Qed.
Lemma safe_enc_SubmitRequest r : safe (enc_SubmitRequest r).
Proof. safe_struct. Qed.
Lemma safe_enc_EventRequest r : safe (enc_EventRequest r).
Proof. safe_struct. apply safe_enc_slice, safe_enc_hash. Qed.
Lemma safe_enc_BackfillData r : safe (enc_BackfillData r).
Proof. safe_struct. Qed.
Lemma safe_enc_BackfillResponse r : safe (enc_BackfillResponse r).
Proof. safe_struct. apply safe_enc_slice, safe_enc_BackfillData. Qed.

Lemma slice_compact {A} (enc : encoder A) l : (forall a, writes_compact (enc a)) -> writes_compact (enc_slice enc l).
Proof.
  intros He v (vs & Hvs & [= <-])%res_bind_ok. apply compact_array.
  revert vs Hvs. induction l as [|a l IH]; intros vs Hvs; [injection Hvs as <-; constructor|].
  cbn in Hvs. apply res_bind_ok in Hvs as (v & Hv & (rest & Hr & [= <-])%res_bind_ok).
  constructor; [by eapply He|by apply IH].
Qed.

Lemma hash_compact h : writes_compact (JsonTypes.Events.enc_hash h).
Proof. apply marshaler_compact. Qed.
Lemma EventData_compact d : writes_compact (enc_EventData d).
Proof. apply slice_compact. intros x. compact_struct. Qed.
#[local] Hint Resolve hash_compact EventData_compact slice_compact : json_compact.

(** ** The interface of the node *)

#[export] Instance payload_json : PayloadJson := {|
  pj_Payload := json enc_Message dec_Message (mkPayload 0 []) safe_enc_Message safe_Message;
  pj_SubmitRequest := json enc_SubmitRequest dec_SubmitRequest (mkSubmitRequest [] [] [] [] []) safe_enc_SubmitRequest safe_SubmitRequest;
  pj_EventRequest := json enc_EventRequest dec_EventRequest (mkEventRequest []) safe_enc_EventRequest safe_EventRequest;
  pj_EventBackfillResponse := json enc_BackfillResponse dec_BackfillResponse (mkEventBackfillResponse []) safe_enc_BackfillResponse safe_BackfillResponse
|}.

#[export] Instance payload_laws : PayloadLaws.
Proof.
  split.
  - apply json_laws. intros p [Ht Hd]. by apply codable_Message.
  - apply json_laws, codable_SubmitRequest.
  - apply json_laws. intros r _. apply codable_EventRequest.
  - apply json_laws, codable_BackfillResponse.
  - constructor. intros r b. compact_struct.
  - constructor. intros r b. compact_struct.
  - constructor. intros r b. apply enc_struct_compact. fields. apply slice_compact. intros x. compact_struct.
Qed.

End JsonOffchain.
