(* ===== verification/Retention.v ===== *)
(** * Enforcing the retention policy

    Models [offchain-interface/pkg/repository/mongodb/retention.go], which
    turns a policy into an aggregation pipeline, [DropExpiredEvents] of
    [event.go], which runs it and deletes what it finds, and
    [pkg/retention/agent.go], which does so with the policy of the chain.  What
    the stages of a pipeline do is stated by a relation, after the manual of
    MongoDB, and is a law of the database. *)

From S2P Require Import Prelude Types Text Policy Bson Repository.
From Corelib Require Import Init.Byte.

(** ** The pipeline ([retention.go]) *)
Module Aggregate.
Import Policy MongoEvents.

Definition ErrInvalidPolicyType : error := Sentinel (bz "invalid policy type in context").
Definition ErrInvalidRuleGrouping : error := Sentinel (bz "invalid rule grouping").

Definition dollar (path : bytes) : bson := BStr (bz "$" ++ path).

Definition stageExtractIds : bson :=
  single (bz "$group") (BDoc [(bz "_id", BNull);
                              (bz "events", single (bz "$push") (dollar KeyEventId))]).

Definition stageProjectEventsOnly : bson :=
  single (bz "$project") (BDoc [(bz "_id", BInt 0); (bz "events", BInt 1)]).

Definition isMatchEmpty (m : Match) : bool :=
  bool_decide (m_Channel m = None) && bool_decide (m_EventId m = None) && bool_decide (m_ProviderGuid m = None).

Definition isGlobal (f : Filter) : bool :=
  bool_decide (pa_Type (f_PolicyAction f) = PolicyTypeTimestamp) &&
  (bool_decide (pa_RuleGroup (f_PolicyAction f) = RuleGroupingGlobal) ||
   bool_decide (pa_RuleGroup (f_PolicyAction f) = [])).

Definition getCountFilter (p : RetentionPolicy) : option Filter :=
  List.find (fun f => bool_decide (pa_Type (f_PolicyAction f) = PolicyTypeCount)) (Filters p).

(** [strings.ToLower]; letters outside ASCII, which no GUID has, are left as
    they are. *)
Definition ToLower (s : bytes) : bytes :=
  (fun b => if (65 <=? b2z b) && (b2z b <=? 90) then z2b (b2z b + 32) else b) <$> s.

(** [primitive.NewDateTimeFromTime(time.Now().Add(-period))]. *)
Definition cutoff (now period : Z) : Z := EventDoc.to_ms (mkTime (now + i64 (- period)) 0).

(** The properties a filter demands, as pairs of a path and a value. *)
Definition demands (m : Match) : list (bytes * bson) :=
  match m_Channel m with Some c => [(KeyChannel, BStr c)] | None => [] end ++
  match m_EventId m with Some i => [(KeyEventTypeId, BInt i)] | None => [] end ++
  match m_ProviderGuid m with
  | Some g => [(KeyProvider, BStr (bz "{" ++ ToLower g ++ bz "}"))]
  | None => []
  end.

Definition orClause (m : Match) : list bson :=
  (fun '(k, v) => single k (single (bz "$ne") v)) <$> demands m.

Definition andClause (now : Z) (f : Filter) : list bson :=
  single KeyTimestamp (single (bz "$lt") (BDate (cutoff now (pa_RetentionPeriod (f_PolicyAction f))))) ::
  ((fun '(k, v) => single k v) <$> demands (f_Match f)).

Definition filterClause (now : Z) (f : Filter) : bson :=
  single (bz "$or") (BArr (orClause (f_Match f) ++ [single (bz "$and") (BArr (andClause now f))])).

(** The clauses of the global filters; [clock i] is the time at the [i]-th
    filter. *)
Fixpoint matcher (clock : nat -> Z) (i : nat) (fs : list Filter) : result (list bson) :=
  match fs with
  | [] => Ok []
  | f :: rest =>
      if negb (isGlobal f) then matcher clock (S i) rest
      else if negb (bool_decide (pa_Type (f_PolicyAction f) = PolicyTypeTimestamp))
      then Err (WrapError (bz "policy type: " ++ pa_Type (f_PolicyAction f)) ErrInvalidPolicyType)
      else let* clauses := matcher clock (S i) rest in Ok (filterClause (clock i) f :: clauses)
  end.

(** The identifiers of a group after the first [volume]. *)
Definition eventIds : bson :=
  single (bz "$map") (BDoc [(bz "input", dollar (bz "events")); (bz "as", BStr (bz "event"));
                            (bz "in", single (bz "event_id") (BStr (bz "$$event.event_id")))]).
Definition groupSize : bson := single (bz "$size") (dollar (bz "events")).
Definition afterVolume (volume : Z) : bson := single (bz "$slice") (BArr [eventIds; BInt volume; groupSize]).

(** The stages that keep the newest events of every principal. *)
Definition perPrincipal (volume : Z) : list bson :=
  [single (bz "$group") (BDoc [(bz "_id", dollar KeyPrincipal);
     (bz "events", single (bz "$push") (BDoc [(bz "event_id", dollar KeyEventId);
                                              (bz "principal", dollar KeyPrincipal)]))]);
   single (bz "$project") (BDoc [(bz "principal", dollar (bz "_id"));
     (bz "events", afterVolume volume)]);
   single (bz "$unwind") (dollar (bz "events"));
   single (bz "$replaceRoot") (single (bz "newRoot") (dollar (bz "events")));
   single (bz "$group") (BDoc [(bz "_id", BNull); (bz "events", single (bz "$push") (dollar (bz "event_id")))]);
   stageProjectEventsOnly].

Definition buildAggregate (clock : nat -> Z) (policy : RetentionPolicy) : result (list bson) :=
  match Validate policy with
  | Some err => Err (WrapError (bz "policy validation failed: ") err)
  | None =>
      let* clauses := matcher clock 0 (Filters policy) in
      let aggregate := match clauses with
                       | [] => []
                       | _ => [single (bz "$match") (single (bz "$and") (BArr clauses))]
                       end in
      match getCountFilter policy with
      | None => Ok (aggregate ++ [stageExtractIds; stageProjectEventsOnly])
      | Some countFilter =>
          let group := pa_RuleGroup (f_PolicyAction countFilter) in
          let volume := pa_Volume (f_PolicyAction countFilter) in
          let aggregate := aggregate ++ [single (bz "$sort") (single KeyTimestamp (BInt (-1)))] in
          if bool_decide (group = RuleGroupingGlobal) || bool_decide (group = [])
          then Ok (aggregate ++ [single (bz "$skip") (BInt volume); stageExtractIds; stageProjectEventsOnly])
          else if bool_decide (group = RuleGroupingPrincipal) then Ok (aggregate ++ perPrincipal volume)
          else Err (WrapError (bz "rule grouping: " ++ group) ErrInvalidRuleGrouping)
      end
  end.

End Aggregate.

(** ** What the stages of a pipeline do *)
Module Stages.
Import Query.

(** Field paths start with a dollar sign, paths into the variable of [$map]
    with two. *)
Definition variable : bytes := bz "$$event.".

(** The value of an expression for a document. *)
Fixpoint eval (var : option bson) (doc e : bson) : option bson :=
  match e with
  | BStr s =>
      if bool_decide (take (length variable) s = variable)
      then v ← var; at_path (drop (length variable) s) v
      else if bool_decide (take 1 s = bz "$") then at_path (drop 1 s) doc
      else Some e
  | BDoc [(op, arg)] =>
      if bool_decide (op = bz "$size") then
        match eval var doc arg with Some (BArr l) => Some (BInt (zlen l)) | _ => None end
      else if bool_decide (op = bz "$slice") then
        match arg with
        | BArr [a; p; n] =>
            match eval var doc a, eval var doc p, eval var doc n with
            | Some (BArr l), Some (BInt p), Some (BInt n) =>
                if (0 <=? p) && (0 <? n) then Some (BArr (take (Z.to_nat n) (drop (Z.to_nat p) l))) else None
            | _, _, _ => None
            end
        | _ => None
        end
      else if bool_decide (op = bz "$map") then
        match arg with
        | BDoc [(_, input); (_, _); (_, body)] =>
            match eval var doc input with
            | Some (BArr l) => BArr <$> mapM (fun x => eval (Some x) doc body) l
            | _ => None
            end
        | _ => None
        end
      else (fun v => single op v) <$> eval var doc arg
  | BDoc fs => BDoc <$> mapM (fun '(k, x) => (fun v => (k, v)) <$> eval var doc x) fs
  | _ => Some e
  end.

(** [$project]: fields with 1 are kept, others are computed; the identifier is
    kept unless it has 0. *)
Definition project (spec : list (bytes * bson)) (doc : bson) : option bson :=
  let id := match EventDoc.lookup_field (bz "_id") spec with
            | Some (BInt 0) => []
            | _ => match at_path (bz "_id") doc with Some v => [(bz "_id", v)] | None => [] end
            end in
  let others := filter (fun f => f.1 <> bz "_id") spec in
  fs ← mapM (fun '(k, x) =>
    match x with
    | BInt 1 => (fun v => (k, v)) <$> at_path k doc
    | _ => (fun v => (k, v)) <$> eval None doc x
    end) others;
  Some (BDoc (id ++ fs)).

(** [$unwind]: one document for each element of the array. *)
Definition set_field (k : bytes) (v : bson) (doc : bson) : bson :=
  match doc with
  | BDoc fs => BDoc ((fun f => if bool_decide (f.1 = k) then (k, v) else f) <$> fs)
  | _ => doc
  end.

Definition unwind (k : bytes) (doc : bson) : list bson :=
  match at_path k doc with
  | Some (BArr l) => (fun v => set_field k v doc) <$> l
  | _ => []
  end.

(** The values of the key of a group, each once. *)
Fixpoint distinct (vs : list bson) : list bson :=
  match vs with
  | [] => []
  | v :: rest => v :: filter (fun w => scalar_eqb w v = false) (distinct rest)
  end.

(** The document of a group: the pushed values in the order of the input. *)
Definition group_doc (key acc : bson) (docs : list bson) (v : bson) : option bson :=
  l ← mapM (fun doc => eval None doc acc)
        (filter (fun doc => equals (eval None doc key) v = true) docs);
  Some (BDoc [(bz "_id", v); (bz "events", BArr l)]).

(** [a] is not before [b]. *)
Definition not_before (path : bytes) (a b : bson) : Prop :=
  match at_path path a, at_path path b with
  | Some (BDate x), Some (BDate y) => y <= x
  | _, _ => True
  end.

Inductive stage : bson -> list bson -> list bson -> Prop :=
| stage_match q docs :
    stage (single (bz "$match") q) docs (filter (fun doc => matches q doc = true) docs)
| stage_sort path docs docs' :
    docs' ≡ₚ docs -> Sorted.StronglySorted (not_before path) docs' ->
    stage (single (bz "$sort") (single path (BInt (-1)))) docs docs'
| stage_skip k docs :
    0 <= k -> stage (single (bz "$skip") (BInt k)) docs (drop (Z.to_nat k) docs)
| stage_group key acc docs keys groups out :
    mapM (fun doc => eval None doc key) docs = Some keys ->
    mapM (group_doc key acc docs) (distinct keys) = Some groups -> out ≡ₚ groups ->
    stage (single (bz "$group") (BDoc [(bz "_id", key); (bz "events", single (bz "$push") acc)])) docs out
| stage_project spec docs out :
    mapM (project spec) docs = Some out -> stage (single (bz "$project") (BDoc spec)) docs out
| stage_unwind k docs :
    stage (single (bz "$unwind") (BStr (bz "$" ++ k))) docs (concat (unwind k <$> docs))
| stage_replaceRoot e docs out :
    mapM (fun doc => eval None doc e) docs = Some out ->
    stage (single (bz "$replaceRoot") (single (bz "newRoot") e)) docs out.

Inductive pipeline : list bson -> list bson -> list bson -> Prop :=
| pipeline_end docs : pipeline [] docs docs
| pipeline_stage s rest docs docs' out :
    stage s docs docs' -> pipeline rest docs' out -> pipeline (s :: rest) docs out.

End Stages.

Class AggregateLaws (D : Type) `{MongoLaws D} : Prop := {
  law_Aggregate pl d out : mongo_Aggregate pl d = Ok out -> Stages.pipeline pl (documents d) out
}.

(** ** Dropping expired events ([event.go]) *)
Module Expiry.
Import Policy Aggregate MongoEvents.

Section Ops.
Context {D : Type} `{MongoCollection D}.

(** The identifiers of a [policyScanResult]. *)
Definition scan_events (doc : bson) : result (list EventHash) :=
  let* fs := EventDoc.doc_fields doc in
  EventDoc.field fs (bz "events") [] (EventDoc.dec_array TxHash.UnmarshalBSONValue).

Definition DropExpiredEvents (clock : nat -> Z) (policy : RetentionPolicy) : M D unit := fun m =>
  match Validate policy with
  | Some err => (m, Err err)
  | None =>
      match (let* aggregate := buildAggregate clock policy in
             let* docs := mongo_Aggregate aggregate m in
             EventDoc.dec_list scan_events docs) with
      | Panic w => (m, Panic w)
      | Err err => (m, Err err)
      | Ok [] => (m, Ok tt)
      | Ok (events :: _) => (do _ <- mongo_DeleteMany (idFilter events) ;; m_ret tt) m
      end
  end.

End Ops.
End Expiry.

(** ** The agent ([agent.go]) *)
Module Agent.

Section Ops.
Context {D : Type} `{MongoCollection D}.

Record Agent : Type := mkAgent {
  ag_repository : D;
  ag_policy : option StoredPolicy
}.

Definition put_repository (d : D) (a : Agent) : Agent := mkAgent d (ag_policy a).
Definition put_policy (p : option StoredPolicy) (a : Agent) : Agent := mkAgent (ag_repository a) p.

Definition drop_with (clock : nat -> Z) (policy : StoredPolicy) : M Agent unit :=
  m_zoom ag_repository put_repository (Expiry.DropExpiredEvents clock (spol_Policy policy)).

(** [GetRetentionPolicy] is the client's; it is called until a policy is set. *)
Definition scanAndDrop (GetRetentionPolicy : result (option StoredPolicy)) (clock : nat -> Z) : M Agent unit := fun a =>
  match ag_policy a with
  | Some policy => drop_with clock policy a
  | None =>
      match GetRetentionPolicy with
      | Panic w => (a, Panic w)
      | Err err => (a, Err err)
      | Ok policy =>
          match policy with
          | None => (put_policy None a, Ok tt)
          | Some p => drop_with clock p (put_policy (Some p) a)
          end
      end
  end.

End Ops.
Arguments Agent D : clear implicits.
End Agent.
