(* ===== verification/Viewer.v ===== *)
(** * Logging in to the viewer

    Models the authentication of [offchain-interface/internal/viewer]: an
    administrator asks for a challenge ([challenge.go]), signs it
    ([challengeresponse.go]) and receives a token that the other routes demand
    ([authenticate.go]); and the repository of challenges
    ([repository/mongodb/challenge.go]).  Tokens are those of [lestrrat-go/jwx],
    a parameter; random bytes and the clock are arguments. *)

From S2P Require Import Prelude Types Text Platform Bson Retention BlockchainClient OffchainNode NodeFacts Repository.

(** ** Challenges in the database *)

Record challengeRecord : Type := mkChallengeRecord {
  cr_Principal : Principal;
  cr_Challenge : bytes;
  cr_Timestamp : time
}.

Inductive find_and_delete : Type :=
| FoundRecord (r : challengeRecord)
| NoRecord
| FindError (e : error).

(** What the code uses of the driver: [FindOneAndDelete] by principal and
    challenge, [Find] by time, and [DeleteMany] by identifier. *)
Class ChallengeDriver (CH : Type) : Type := {
  ch_InsertOne : challengeRecord -> M CH unit;
  ch_FindOneAndDelete : Principal -> bytes -> CH -> CH * find_and_delete;
  ch_FindBefore : Z -> CH -> result (list (Z * challengeRecord));
  ch_DeleteIds : list Z -> M CH unit
}.

Module Challenges.
Section Ops.
Context {CH : Type} `{ChallengeDriver CH}.

Definition AddChallenge (now : time) (principal : Principal) (challenge : bytes) : M CH unit :=
  ch_InsertOne (mkChallengeRecord principal challenge now).

(** [record.Timestamp.After(time.Now().Add(-challengeLifetime))]. *)
Definition GetAndRemoveChallenge (now : time) (principal : Principal) (challenge : bytes) (challengeLifetime : Z) : M CH bool := fun h =>
  match ch_FindOneAndDelete principal challenge h with
  | (h, NoRecord) => (h, Ok false)
  | (h, FindError e) => (h, Err e)
  | (h, FoundRecord record) => (h, Ok (instant now + i64 (- challengeLifetime) <? instant (cr_Timestamp record)))
  end.

Definition DropExpiredChallenges (now : time) (challengeLifetime : Z) : M CH unit := fun h =>
  match ch_FindBefore (EventDoc.to_ms (mkTime (instant now + i64 (- challengeLifetime)) 0)) h with
  | Panic w => (h, Panic w)
  | Err e => (h, Err e)
  | Ok [] => (h, Ok tt)
  | Ok results => ch_DeleteIds (fst <$> results) h
  end.

End Ops.
End Challenges.

(** ** Tokens ([github.com/lestrrat-go/jwx]) *)

Class Jwt : Type := {
  (* secret, subject, time of issue *)
  jwt_Sign : bytes -> bytes -> time -> result bytes;
  (* the subject of a token with a valid signature *)
  jwt_Parse : bytes -> bytes -> result bytes
}.

(** ** The handlers *)
Module Viewer.
Import Challenges Client.

Record ViewerServer : Type := mkViewerServer {
  ChallengeLifetime : Z;
  JWTAlgorithm : bytes;
  JWTSecret : bytes
}.

Definition HS256 : bytes := bz "HS256".

(** [strings.ToUpper], on ASCII letters. *)
Definition ToUpper (s : bytes) : bytes :=
  (fun b => if (97 <=? b2z b) && (b2z b <=? 122) then z2b (b2z b - 32) else b) <$> s.

(** The status and what is returned with it. *)
Abbreviation response := (Z * option bytes)%type.

Section Handlers.
Context `{Ed25519} `{Jwt}.
Context {K CH : Type} `{ChainClient K} `{ChallengeDriver CH}.
Variable config : ViewerServer.

Record Server : Type := mkServer {
  blockchainClient : K;
  challenges : CH
}.

Definition put_client (k : K) (s : Server) : Server := mkServer k (challenges s).
Definition put_challenges (h : CH) (s : Server) : Server := mkServer (blockchainClient s) h.

Definition attempt {A} (c : M Server A) : M Server (A + error) := fun s =>
  match c s with
  | (s, Ok a) => (s, Ok (inl a))
  | (s, Err e) => (s, Ok (inr e))
  | (s, Panic w) => (s, Panic w)
  end.

Definition on_client {A} (c : M K A) : M Server A := m_zoom blockchainClient put_client c.
Definition on_challenges {A} (c : M CH A) : M Server A := m_zoom challenges put_challenges c.

(** [random] is what the random source returns for 256 bytes. *)
Definition challengeFor (now : time) (random : result bytes) (principal : Principal) : M Server response :=
  do identity <- attempt (on_client (cc_GetIdentity principal)) ;;
  match identity with
  | inr err => m_ret (if errors_Is err ErrPrincipalNotFound then 404 else 500, None)
  | inl identity =>
      if negb (IsAdmin identity) then m_ret (401, None)
      else
        do challenge <- attempt (m_lift (fun _ => random)) ;;
        match challenge with
        | inr _ => m_ret (500, None)
        | inl challenge =>
            do added <- attempt (on_challenges (AddChallenge now principal challenge)) ;;
            match added with
            | inr _ => m_ret (500, None)
            | inl _ => m_ret (200, Some challenge)
            end
        end
  end.

(** The body is what [ShouldBindJSON] made of the request. *)
Definition challengeHandler (now : time) (random : result bytes) (body : option Principal) : M Server response :=
  match body with
  | None => m_ret (400, None)
  | Some principal => challengeFor now random principal
  end.

Definition issueToken (now : time) (principal : Principal) : M Server response :=
  if bool_decide (JWTAlgorithm config = HS256) then
    do signed <- attempt (m_lift (fun _ => jwt_Sign (JWTSecret config) principal now)) ;;
    match signed with
    | inr _ => m_ret (500, None)
    | inl token => m_ret (200, Some token)
    end
  else m_ret (500, None).

Definition respond (now : time) (principal : Principal) (challenge response_ : bytes) : M Server response :=
  do identity <- attempt (on_client (cc_GetIdentity principal)) ;;
  match identity with
  | inr _ => m_ret (500, None)
  | inl identity =>
      if negb (IsAdmin identity) then m_ret (401, None)
      else
        do valid <- m_lift (fun _ => ed25519_Verify (PublicKey identity) challenge response_) ;;
        if negb valid then m_ret (401, None)
        else
          do valid <- attempt (on_challenges (GetAndRemoveChallenge now principal challenge (ChallengeLifetime config))) ;;
          match valid with
          | inr _ => m_ret (500, None)
          | inl valid => if negb valid then m_ret (401, None) else issueToken now principal
          end
  end.

Definition challengeResponseHandler (now : time) (body : option (Principal * bytes * bytes)) : M Server response :=
  match body with
  | None => m_ret (400, None)
  | Some (principal, challenge, response_) => respond now principal challenge response_
  end.

(** The subject of a token that is accepted. *)
Definition validateToken (token : bytes) : option bytes :=
  if bool_decide (ToUpper (JWTAlgorithm config) = HS256) then
    match jwt_Parse (JWTSecret config) token with Ok subject => Some subject | _ => None end
  else None.

(** The middleware: the principal for the handlers that follow, or a refusal. *)
Definition authenticate (header : bytes) : Z + Principal :=
  match header with
  | [] => inl 401
  | _ => match validateToken header with None => inl 401 | Some subject => inr subject end
  end.

(** The route that returns an event ([getevent.go]); a malformed identifier is
    not found. *)
Definition getEventHandler {R} `{EventRepository R} (id : bytes) (r : R) : result (Z * option StoredEvent) :=
  match Hex.DecodeString id with
  | Panic w => Panic w
  | Err _ => Ok (404, None)
  | Ok id =>
      match er_GetEventById id r with
      | Panic w => Panic w
      | Err _ => Ok (500, None)
      | Ok None => Ok (404, None)
      | Ok (Some event) => Ok (200, Some event)
      end
  end.

(** A route behind the middleware. *)
Definition authenticated {A} (header : bytes) (handler : Principal -> result (Z * option A)) : result (Z * option A) :=
  match authenticate header with
  | inl status => Ok (status, None)
  | inr principal => handler principal
  end.

End Handlers.
Arguments Server : clear implicits.

(** ** Properties *)

(** What the code relies on in the driver: records are kept in a list with
    identifiers, times in milliseconds. *)
Class ChallengeLaws (CH : Type) `{ChallengeDriver CH} : Type := {
  records : CH -> list (Z * challengeRecord);
  law_ch_insert r h h' o : ch_InsertOne r h = (h', o) ->
    let r' := mkChallengeRecord (cr_Principal r) (cr_Challenge r) (EventDoc.stored_time (cr_Timestamp r)) in
    (records h' = records h \/ exists id, records h' = records h ++ [(id, r')]) /\
    (o = Ok tt -> exists id, records h' = records h ++ [(id, r')]);
  law_ch_take p c h h' o : ch_FindOneAndDelete p c h = (h', o) ->
    match o with
    | FoundRecord r => cr_Principal r = p /\ cr_Challenge r = c /\ exists id, records h ≡ₚ (id, r) :: records h'
    | NoRecord => records h' = records h /\ Forall (fun x => ~ (cr_Principal x.2 = p /\ cr_Challenge x.2 = c)) (records h)
    | FindError _ => exists gone, records h ≡ₚ gone ++ records h'
    end;
  law_ch_delete ids h h' o : ch_DeleteIds ids h = (h', o) -> exists gone, records h ≡ₚ gone ++ records h'
}.

Section Facts.
Context `{Ed25519} `{Jwt}.
Context {K CH : Type} `{NodeFacts.ChainClientLaws K} `{ChallengeLaws CH}.
Variable config : ViewerServer.
Implicit Types s : Server K CH.

Lemma viewer_attempt_inv {A B} (c : M (Server K CH) A) (f : A + error -> M (Server K CH) B) s s' b :
  m_bind (attempt c) f s = (s', Ok b) ->
  exists s1, (exists a, c s = (s1, Ok a) /\ f (inl a) s1 = (s', Ok b)) \/
             (exists e, c s = (s1, Err e) /\ f (inr e) s1 = (s', Ok b)).
Proof.
  unfold m_bind, attempt. destruct (c s) as [s1 [a|e|w]]; intros E; [exists s1; eauto..|done].
Qed.

Lemma issueToken_inv now principal s s' token :
  issueToken config now principal s = (s', Ok (200, Some token)) ->
  s' = s /\ JWTAlgorithm config = HS256 /\ jwt_Sign (JWTSecret config) principal now = Ok token.
Proof.
  unfold issueToken. case_bool_decide; [|done]. intros E. apply viewer_attempt_inv in E as (s1 & [(t & E1 & E)|(e & _ & E)]); [|done].
  injection E1 as <- ->. by injection E as <- ->.
Qed.

(** What a token is issued for. *)
Record granted (now : time) (principal : Principal) (challenge response_ : bytes) s s' : Prop := {
  gr_admin : exists d, NodeFacts.registered principal d /\ IsAdmin d = true /\
    zlen (PublicKey d) = PublicKeySize /\ ed_verify (PublicKey d) challenge response_ = true;
  gr_challenge : exists id r, records (challenges s) ≡ₚ (id, r) :: records (challenges s') /\
    cr_Principal r = principal /\ cr_Challenge r = challenge /\
    instant now + i64 (- ChallengeLifetime config) < instant (cr_Timestamp r)
}.

Lemma response_inv now principal challenge response_ s s' token :
  NodeFacts.cc_inv (blockchainClient s) ->
  challengeResponseHandler config now (Some (principal, challenge, response_)) s = (s', Ok (200, Some token)) ->
  granted now principal challenge response_ s s' /\
  JWTAlgorithm config = HS256 /\ jwt_Sign (JWTSecret config) principal now = Ok token.
Proof.
  intros Hinv E. unfold challengeResponseHandler, respond in E.
  apply viewer_attempt_inv in E as (s1 & [(d & E1 & E)|(e & _ & E)]); [|done].
  unfold on_client, m_zoom in E1. destruct (cc_GetIdentity principal (blockchainClient s)) as [k r] eqn:Ek.
  injection E1 as <- ->. destruct (NodeFacts.law_cc_identity _ _ _ _ Hinv Ek) as [_ Hreg].
  destruct (IsAdmin d) eqn:Ha; cbn [negb] in E; [|done].
  unfold m_bind at 1, m_lift in E. destruct (ed25519_Verify _ _ _) as [valid|e|w] eqn:Ev; [|done..].
  unfold ed25519_Verify in Ev. destruct (Z.eqb_spec (zlen (PublicKey d)) PublicKeySize) as [Hlen|]; [|done].
  cbn [negb] in Ev. injection Ev as Ev. destruct valid; cbn [negb] in E; [|done].
  apply viewer_attempt_inv in E as (s2 & [(fresh & E2 & E)|(e & _ & E)]); [|done].
  destruct fresh; cbn [negb] in E; [|done]. apply issueToken_inv in E as (-> & Halg & Hsign). split; [|done].
  unfold on_challenges, m_zoom, GetAndRemoveChallenge in E2. cbn [challenges put_client] in E2.
  destruct (ch_FindOneAndDelete principal challenge (challenges s)) as [h o] eqn:Ef.
  pose proof (law_ch_take _ _ _ _ _ Ef) as Ht. destruct o as [rec| |e]; [|by injection E2|done].
  destruct Ht as (Hp & Hc & id & Hperm). injection E2 as <- Hvalid. apply Z.ltb_lt in Hvalid. split; [by exists d; auto|].
  exists id, rec. by split.
Qed.

(** C29. A token is issued only to a registered administrator who signed, with
    the registered key, a challenge that was stored for that principal and has
    not expired; the challenge is used up, and the token names the principal. *)
Theorem token_requires_challenge now principal challenge response_ s s' token :
  NodeFacts.cc_inv (blockchainClient s) ->
  challengeResponseHandler config now (Some (principal, challenge, response_)) s = (s', Ok (200, Some token)) ->
  granted now principal challenge response_ s s' /\ jwt_Sign (JWTSecret config) principal now = Ok token.
Proof. intros Hi E. by destruct (response_inv _ _ _ _ _ _ _ Hi E) as (? & _ & ?). Qed.

(** *** A challenge buys one token *)

Inductive call : Type :=
| CallChallenge (now : time) (random : result bytes) (body : option Principal)
| CallResponse (now : time) (body : option (Principal * bytes * bytes))
| CallDrop (now : time).

Definition serve (c : call) : M (Server K CH) response :=
  match c with
  | CallChallenge now random body => challengeHandler now random body
  | CallResponse now body => challengeResponseHandler config now body
  | CallDrop now => do _ <- on_challenges (DropExpiredChallenges now (ChallengeLifetime config)) ;; m_ret (0, None)
  end.

(** A sequence of calls, each with the state it found and its outcome. *)
Abbreviation moment := (Server K CH * call * result response)%type.

Inductive served : Server K CH -> list moment -> Server K CH -> Prop :=
| served_none s : served s [] s
| served_more s c s1 r rest s2 : serve c s = (s1, r) -> served s1 rest s2 -> served s ((s, c, r) :: rest) s2.

Definition is_for (p : Principal) (c : bytes) (x : Z * challengeRecord) : Prop :=
  cr_Principal x.2 = p /\ cr_Challenge x.2 = c.
#[local] Instance is_for_dec p c x : Decision (is_for p c x).
Proof. unfold is_for. apply _. Defined.

Definition outstanding (p : Principal) (c : bytes) (s : Server K CH) : nat :=
  length (filter (is_for p c) (records (challenges s))).

(** The calls that returned the challenge, those for which the database reported
    that it could not be stored, and those that returned a token for it. *)
Definition returned (p : Principal) (c : bytes) (x : moment) : nat :=
  match x with
  | (_, CallChallenge _ _ (Some p'), Ok (200, Some c')) => if decide (p' = p /\ c' = c) then 1 else 0
  | _ => 0
  end.
Definition failed_insert (p : Principal) (c : bytes) (x : moment) : nat :=
  match x with
  | (s, CallChallenge now (Ok c') (Some p'), _) =>
      if decide (p' = p /\ c' = c) then if is_ok (AddChallenge now p' c' (challenges s)).2 then 0 else 1 else 0
  | _ => 0
  end.
Definition grants (p : Principal) (c : bytes) (x : moment) : nat :=
  match x with
  | (_, CallResponse _ (Some (p', c', _)), Ok (200, Some _)) => if decide (p' = p /\ c' = c) then 1 else 0
  | _ => 0
  end.
Fixpoint total (f : moment -> nat) (tr : list moment) : nat :=
  match tr with
  | [] => 0
  | x :: rest => f x + total f rest
  end.

Lemma outstanding_perm p c (l l' gone : list (Z * challengeRecord)) :
  l ≡ₚ gone ++ l' -> (length (filter (is_for p c) l') <= length (filter (is_for p c) l))%nat.
Proof. intros ->. rewrite list.filter_app, length_app. lia. Qed.

Lemma challenge_step p c now random principal s s1 r :
  NodeFacts.cc_inv (blockchainClient s) -> challengeFor now random principal s = (s1, r) ->
  let x := (s, CallChallenge now random (Some principal), r) in
  NodeFacts.cc_inv (blockchainClient s1) /\
  (outstanding p c s1 <= returned p c x + failed_insert p c x + outstanding p c s)%nat.
Proof.
  intros Hi E. unfold challengeFor, m_bind, attempt, on_client, m_zoom, m_lift in E.
  destruct (cc_GetIdentity principal (blockchainClient s)) as [k o] eqn:Ek.
  destruct (NodeFacts.law_cc_identity _ _ _ _ Hi Ek) as [Hk _].
  destruct o as [d|e|w]; [|injection E as <- <-; split; [exact Hk|unfold outstanding; cbn; lia]..].
  destruct (negb (IsAdmin d)); [injection E as <- <-; split; [exact Hk|unfold outstanding; cbn; lia]|].
  destruct random as [ch|e|w]; [|injection E as <- <-; split; [exact Hk|unfold outstanding; cbn; lia]..].
  unfold on_challenges, m_zoom in E. cbn [challenges put_client] in E.
  unfold failed_insert. destruct (AddChallenge now principal ch (challenges s)) as [h o] eqn:Eh.
  destruct (law_ch_insert _ _ _ _ Eh) as [Hrec _]. cbn in Hrec.
  assert (NodeFacts.cc_inv (blockchainClient s1) /\ challenges s1 = h /\ (o = Ok tt -> r = Ok (200, Some ch))) as (Hk1 & Ec & Hr).
  { destruct o as [[]|e|w]; injection E as <- <-; by split_and!. }
  split; [done|]. unfold outstanding. rewrite Ec. destruct Hrec as [->|[id ->]]; [lia|].
  rewrite list.filter_app, length_app, filter_cons. unfold is_for at 2. cbn.
  destruct (decide (principal = p /\ ch = c)) as [Hpc|Hpc]; cbn; [|lia].
  destruct o as [[]|e|w]; cbn; [|lia..]. rewrite Hr by done. cbn. rewrite decide_True by done. lia.
Qed.

Lemma response_step p c now principal challenge response_ s s1 r :
  NodeFacts.cc_inv (blockchainClient s) -> challengeResponseHandler config now (Some (principal, challenge, response_)) s = (s1, r) ->
  NodeFacts.cc_inv (blockchainClient s1) /\
  (grants p c (s, CallResponse now (Some (principal, challenge, response_)), r) + outstanding p c s1 <= outstanding p c s)%nat.
Proof.
  intros Hi E. pose proof E as E0.
  unfold challengeResponseHandler, respond, m_bind, attempt, on_client, m_zoom, m_lift in E.
  destruct (cc_GetIdentity principal (blockchainClient s)) as [k o] eqn:Ek.
  destruct (NodeFacts.law_cc_identity _ _ _ _ Hi Ek) as [Hk _].
  destruct o as [d|e|w]; [|injection E as <- <-; split; [exact Hk|unfold outstanding; cbn; lia]..].
  destruct (negb (IsAdmin d)); [injection E as <- <-; split; [exact Hk|unfold outstanding; cbn; lia]|].
  destruct (ed25519_Verify _ _ _) as [valid|e|w]; [|injection E as <- <-; split; [exact Hk|unfold outstanding; cbn; lia]..].
  destruct (negb valid); [injection E as <- <-; split; [exact Hk|unfold outstanding; cbn; lia]|].
  unfold on_challenges, m_zoom, GetAndRemoveChallenge in E. cbn [challenges put_client] in E.
  destruct (ch_FindOneAndDelete principal challenge (challenges s)) as [h o] eqn:Ef.
  pose proof (law_ch_take _ _ _ _ _ Ef) as Ht.
  assert (NodeFacts.cc_inv (blockchainClient s1) /\ challenges s1 = h) as [Hk1 Eh].
  { destruct o as [rec| |e]; [|injection E as <- _; by split..]. destruct (negb _); [injection E as <- _; by split|].
    unfold issueToken, m_bind, attempt, m_lift in E. case_bool_decide; [|injection E as <- _; by split].
    destruct (jwt_Sign _ _ _); injection E as <- _; by split. }
  split; [done|]. destruct (decide (grants p c (s, CallResponse now (Some (principal, challenge, response_)), r) = 0%nat)) as [->|Hg].
  - unfold outstanding. rewrite Eh. destruct o as [rec| |e].
    + destruct Ht as (_ & _ & id & Hp). by eapply (outstanding_perm _ _ _ _ [_]).
    + destruct Ht as [-> _]. lia.
    + destruct Ht as [gone Hp]. by eapply outstanding_perm.
  - destruct r as [[code [tok|]]|e|w]; cbn in Hg; try done; [|by repeat case_match].
    assert (code = 200) as ->. { by repeat case_match. }
    destruct (response_inv _ _ _ _ _ _ _ Hi E0) as ([_ (id & rec & Hp & <- & <- & _)] & _ & _).
    unfold outstanding, grants. rewrite Hp, filter_cons.
    destruct (decide (is_for p c (id, rec))) as [Hf|Hf],
      (decide (cr_Principal rec = p /\ cr_Challenge rec = c)) as [Hd|Hd]; cbn [length]; [lia..|by destruct (Hf Hd)|lia].
Qed.

Lemma drop_step p c now s s1 r :
  serve (CallDrop now) s = (s1, r) ->
  blockchainClient s1 = blockchainClient s /\ (outstanding p c s1 <= outstanding p c s)%nat.
Proof.
  cbn [serve]. unfold m_bind, on_challenges, m_zoom, DropExpiredChallenges. intros E.
  assert (exists gone, records (challenges s) ≡ₚ gone ++ records (challenges s1) /\ blockchainClient s1 = blockchainClient s)
    as (gone & Hp & Hc); [|by split; [|eapply outstanding_perm]].
  destruct (ch_FindBefore _ _) as [[|x xs]|e|w]; try (injection E as <- _; by exists []).
  destruct (ch_DeleteIds _ _) as [h o] eqn:Ed. destruct (law_ch_delete _ _ _ _ Ed) as [gone Hp].
  exists gone. destruct o; injection E as <- _; by split.
Qed.

(** C31. A challenge buys at most one token.  Over any sequence of calls of the
    handlers and of the clean-up, the tokens issued for a challenge of a
    principal, and the copies of it that are left, are no more than the requests
    that returned it, the requests for which the database reported a failed
    insertion, and the copies that were there before. *)
Theorem challenge_used_once s tr s' p c :
  NodeFacts.cc_inv (blockchainClient s) -> served s tr s' ->
  (total (grants p c) tr + outstanding p c s' <=
   total (returned p c) tr + total (failed_insert p c) tr + outstanding p c s)%nat.
Proof.
  intros Hi Hs. revert Hi. induction Hs as [s|s x s1 r rest s2 E Hs IH]; intros Hi; [cbn; lia|].
  assert (NodeFacts.cc_inv (blockchainClient s1) /\
    (grants p c (s, x, r) + outstanding p c s1 <= returned p c (s, x, r) + failed_insert p c (s, x, r) + outstanding p c s)%nat)
    as [Hi1 Hstep].
  { destruct x as [now random [q|]|now [[[q ch] resp]|]|now].
    - cbn [serve challengeHandler] in E. by apply (challenge_step p c) in E.
    - injection E as <- <-. split; [done|]. cbn [grants]. lia.
    - cbn [serve] in E. apply (response_step p c) in E as [? ?]; [|done]. split; [done|]. cbn [returned failed_insert]. lia.
    - injection E as <- <-. split; [done|]. cbn. lia.
    - apply (drop_step p c) in E as [-> ?]. split; [done|]. cbn. lia. }
  specialize (IH Hi1). cbn [total]. lia.
Qed.

(** The configured algorithm is compared exactly when a token is issued, and
    without regard to case when one is checked, so with a lower-case setting
    the server accepts tokens but never issues any. *)
Lemma lower_case_never_issues now principal challenge response_ s s' token :
  NodeFacts.cc_inv (blockchainClient s) -> JWTAlgorithm config = bz "hs256" ->
  challengeResponseHandler config now (Some (principal, challenge, response_)) s <> (s', Ok (200, Some token)).
Proof. intros Hi Ha E. destruct (response_inv _ _ _ _ _ _ _ Hi E) as (_ & E' & _). by rewrite Ha in E'. Qed.

(** A signed token is not empty and carries its subject. *)
Class JwtLaws : Prop := {
  law_jwt secret subject now token : jwt_Sign secret subject now = Ok token ->
    token <> [] /\ jwt_Parse secret token = Ok subject
}.

Lemma issued_authenticates `{!JwtLaws} now principal challenge response_ s s' token :
  NodeFacts.cc_inv (blockchainClient s) ->
  challengeResponseHandler config now (Some (principal, challenge, response_)) s = (s', Ok (200, Some token)) ->
  authenticate config token = inr principal.
Proof.
  intros Hi E. destruct (response_inv _ _ _ _ _ _ _ Hi E) as (_ & Ha & Hs). destruct (law_jwt _ _ _ _ Hs) as [Hne Hp].
  unfold authenticate, validateToken. rewrite Ha, Hp. by destruct token.
Qed.

End Facts.
End Viewer.
