(* ===== verification/Search.v ===== *)
(** * Searching events

    Models the filters of the viewer ([pkg/repository/filter.go]), the query
    the repository makes of them ([buildFilter] and [SearchEvents] of
    [mongodb/event.go]) and the route that uses it
    ([internal/viewer/searchevents.go]).  The case-insensitive collation of the
    search is a parameter: strings are equal when their primary keys are. *)

From S2P Require Import Prelude Types Text TimeText Bson Repository Retention.
From Corelib Require Import Init.Byte.

Definition ErrInvalidFilter : error := Sentinel (bz "invalid filter").

(** ** Filters ([filter.go]) *)
Module Filters.
Import Aggregate.

Record Filter : Type := mkFilter {
  Property : bytes;
  Operator : bytes;
  Value : bytes
}.

Inductive FilterProperty : Type :=
| PropertyEventId | PropertyTxHash | PropertyPrincipal | PropertyEventType | PropertyTimestamp
| ProviderName | PropertyProviderGuid | PropertyCorrelation | PropertyChannel.

#[global] Instance FilterProperty_eq_dec : EqDecision FilterProperty.
Proof. solve_decision. Defined.

Definition property_text (p : FilterProperty) : bytes :=
  match p with
  | PropertyEventId => bz "event_id"
  | PropertyTxHash => bz "tx_hash"
  | PropertyPrincipal => bz "principal"
  | PropertyEventType => bz "event_type_id"
  | PropertyTimestamp => bz "timestamp"
  | ProviderName => bz "provider_name"
  | PropertyProviderGuid => bz "provider_guid"
  | PropertyCorrelation => bz "correlation"
  | PropertyChannel => bz "channel"
  end.

Definition properties : list FilterProperty :=
  [PropertyEventId; PropertyTxHash; PropertyPrincipal; PropertyEventType; PropertyTimestamp;
   ProviderName; PropertyProviderGuid; PropertyCorrelation; PropertyChannel].

(** The case of the [switch] a filter takes. *)
Definition property (f : Filter) : option FilterProperty :=
  List.find (fun p => bool_decide (Property f = property_text p)) properties.

Definition OperatorEqual : bytes := bz "eq".
Definition OperatorAfter : bytes := bz "after".
Definition OperatorBefore : bytes := bz "before".

Section Matches.
Context `{UuidText}.

(** A comparison with [eq], the only operator of most properties. *)
Definition equal (f : Filter) (outcome : result bool) : result bool :=
  if negb (bool_decide (Operator f = OperatorEqual)) then Err ErrInvalidFilter else outcome.

Definition guid_matches (value : bytes) (guid : option bytes) (text : string) : result bool :=
  match uuid_Parse value with
  | Ok uuid => Ok (bool_decide (guid = Some uuid))
  | Err _ => Err (WrapError (bz text) ErrInvalidFilter)
  | Panic w => Panic w
  end.

(** [strings.ToLower] is [Aggregate.ToLower], which lowers ASCII letters. *)
Definition Matches (f : Filter) (event : StoredEvent) : result bool :=
  let system := ev_System (ed_Event (st_EventWithData event)) in
  match property f with
  | Some PropertyEventId => equal f (Ok (bool_decide (Value f = Hex.EncodeToString (EventId (st_Metadata event)))))
  | Some PropertyTxHash => equal f (Ok (bool_decide (Value f = Hex.EncodeToString (st_TxHash event))))
  | Some PropertyPrincipal => equal f (Ok (bool_decide (Value f = md_Principal (st_Metadata event))))
  | Some PropertyEventType =>
      equal f (let* eventType := Strconv.Atoi (Value f) in Ok (eventType =? sys_EventId system))
  | Some PropertyTimestamp =>
      match DateTime.Parse (Value f) with
      | Ok timestamp =>
          if bool_decide (Operator f = OperatorAfter) then Ok (instant timestamp <? instant (ReceivedTime (st_Metadata event)))
          else if bool_decide (Operator f = OperatorBefore) then Ok (instant (ReceivedTime (st_Metadata event)) <? instant timestamp)
          else Err ErrInvalidFilter
      | Err _ => Err (WrapError (bz "invalid timestamp: ") ErrInvalidFilter)
      | Panic w => Panic w
      end
  | Some ProviderName =>
      equal f (Ok (match prov_Name (sys_Provider system) with
                   | Some name => bool_decide (ToLower (Value f) = ToLower name)
                   | None => false
                   end))
  | Some PropertyProviderGuid =>
      equal f (guid_matches (Value f) (prov_Guid (sys_Provider system)) "invalid provider GUID: ")
  | Some PropertyCorrelation =>
      equal f (guid_matches (Value f) (sys_ActivityId system) "invalid correlation GUID: ")
  | Some PropertyChannel => equal f (Ok (bool_decide (ToLower (Value f) = ToLower (sys_Channel system))))
  | None => Err ErrInvalidFilter
  end.

(** [streambroadcaster.go]: the first filter that fails or does not match
    decides. *)
Fixpoint filtersMatch (event : StoredEvent) (filters : list Filter) : result bool :=
  match filters with
  | [] => Ok true
  | filter :: rest =>
      let* matches := Matches filter event in
      if matches then filtersMatch event rest else Ok false
  end.

End Matches.
End Filters.

(** ** The query ([event.go]) *)
Module Search.
Import Filters MongoEvents.

(** The keys of the query. *)
Definition key_of (p : FilterProperty) : bytes :=
  match p with
  | PropertyEventId => KeyEventId
  | PropertyTxHash => KeyTxHash
  | PropertyPrincipal => KeyPrincipal
  | PropertyEventType => KeyEventTypeId
  | PropertyTimestamp => KeyTimestamp
  | ProviderName => bz "event.event.system.provider.name"
  | PropertyProviderGuid => KeyProvider
  | PropertyCorrelation => bz "event.event.system.correlation.activity_id"
  | PropertyChannel => KeyChannel
  end.

(** Assignment to a key of a [bson.M]. *)
Fixpoint set_key (k : bytes) (v : bson) (m : list (bytes * bson)) : list (bytes * bson) :=
  match m with
  | [] => [(k, v)]
  | (k', v') :: rest => if bool_decide (k' = k) then (k, v) :: rest else (k', v') :: set_key k v rest
  end.

Section Build.
Context `{UuidText}.

(** The text follows the sentinel in the message of the code. *)
Definition invalid {A} (text : string) : result A := Err (WrapError (bz text) ErrInvalidFilter).

(** An error of a library function is replaced. *)
Definition checked {A B} (r : result A) (text : string) (f : A -> B) : result B :=
  match r with
  | Ok a => Ok (f a)
  | Err _ => invalid text
  | Panic w => Panic w
  end.

(** The value a property is compared with. *)
Definition operand (p : FilterProperty) (value : bytes) : result bson :=
  match p with
  | PropertyEventId => checked (Hex.DecodeString value) "invalid event ID: " TxHash.MarshalBSONValue
  | PropertyTxHash => checked (Hex.DecodeString value) "invalid tx hash: " TxHash.MarshalBSONValue
  | PropertyEventType => checked (Strconv.Atoi value) "invalid event type ID: " BInt
  | PropertyProviderGuid | PropertyCorrelation => checked (uuid_Parse value) "invalid provider GUID: " Guid.MarshalBSONValue
  | PropertyPrincipal | ProviderName | PropertyChannel => Ok (BStr value)
  | PropertyTimestamp => Ok BNull (* not compared *)
  end.

(** The text for an operator other than [eq]. *)
Definition operator_error (p : FilterProperty) : string :=
  match p with
  | PropertyEventId => "invalid operator for event ID: "
  | PropertyTxHash => "invalid operator for tx hash: "
  | PropertyPrincipal => "invalid operator for principal: "
  | PropertyEventType => "invalid operator for event type ID: "
  | PropertyTimestamp => "invalid operator for timestamp: "
  | ProviderName | PropertyProviderGuid | PropertyCorrelation => "invalid operator for provider: "
  | PropertyChannel => "invalid operator for channel: "
  end.

(** The conditions on the time of reception so far. *)
Definition time_ops (m : list (bytes * bson)) : list (bytes * bson) :=
  match EventDoc.lookup_field KeyTimestamp m with Some (BDoc ops) => ops | _ => [] end.

Definition add_time (f : Filter) (m : list (bytes * bson)) : result (list (bytes * bson)) :=
  let* dateTime := checked (DateTime.Parse (Value f)) "invalid timestamp: " EventDoc.to_ms in
  if bool_decide (Operator f = OperatorBefore)
  then Ok (set_key KeyTimestamp (BDoc (set_key (bz "$lt") (BDate dateTime) (time_ops m))) m)
  else if bool_decide (Operator f = OperatorAfter)
  then Ok (set_key KeyTimestamp (BDoc (set_key (bz "$gt") (BDate dateTime) (time_ops m))) m)
  else invalid (operator_error PropertyTimestamp).

(** One round of the loop; a property that is not known is passed over. *)
Definition add_filter (f : Filter) (m : list (bytes * bson)) : result (list (bytes * bson)) :=
  match property f with
  | None => Ok m
  | Some PropertyTimestamp => add_time f m
  | Some p =>
      if negb (bool_decide (Operator f = OperatorEqual)) then invalid (operator_error p)
      else let* c := operand p (Value f) in Ok (set_key (key_of p) c m)
  end.

Fixpoint add_filters (filters : list Filter) (m : list (bytes * bson)) : result (list (bytes * bson)) :=
  match filters with
  | [] => Ok m
  | f :: rest => let* m := add_filter f m in add_filters rest m
  end.

Definition first_id (first : option Z) : list (bytes * bson) :=
  match first with Some id => [(bz "_id", single (bz "$lte") (BObjectId id))] | None => [] end.

Definition buildFilter (filters : list Filter) (first : option Z) : result bson :=
  let* m := add_filters filters (first_id first) in Ok (BDoc m).

End Build.

(** ** Collation *)

(** The primary key of a string for the locale "en". *)
Class Collation : Type := { primary : bytes -> bytes }.

Fixpoint fold_strings (key : bytes -> bytes) (v : bson) : bson :=
  match v with
  | BStr s => BStr (key s)
  | BArr l => BArr (fold_strings key <$> l)
  | BDoc fs => BDoc ((fun '(k, x) => (k, fold_strings key x)) <$> fs)
  | _ => v
  end.

(** What a query selects when strings are compared by their primary keys. *)
Definition collated `{Collation} (q doc : bson) : bool :=
  Query.matches (fold_strings primary q) (fold_strings primary doc).

Record FindOptions : Type := mkFindOptions {
  fo_Sort : bytes; (* descending *)
  fo_Limit : Z;
  fo_Skip : Z
}.

(** [Find] with options, under the collation. *)
Class MongoSearch (D : Type) : Type := {
  mongo_FindWith : bson -> FindOptions -> D -> result (list bson)
}.

Section Ops.
Context `{UuidText} {D : Type} `{MongoCollection D} `{MongoSearch D}.

(** The object identifier of a document. *)
Definition object_id (doc : bson) : result Z :=
  match Query.at_path (bz "_id") doc with
  | Some (BObjectId id) => Ok id
  | Some _ => EventDoc.type_error
  | None => Ok 0
  end.

Definition firstObjectId (first : option EventHash) (m : D) : result (option Z) :=
  match first with
  | None => Ok None
  | Some id =>
      match mongo_FindOne (single KeyEventId (TxHash.MarshalBSONValue id)) m with
      | ErrNoDocuments => Ok None
      | FindFailed e => Err e
      | Found doc => let* id := object_id doc in let* _ := EventDoc.dec_event doc in Ok (Some id)
      end
  end.

Definition SearchEvents (filters : list Filter) (limit page : Z) (first : option EventHash) (m : D) : result (list StoredEvent) :=
  let* firstObjectId := firstObjectId first m in
  let* filter := buildFilter filters firstObjectId in
  let* docs := mongo_FindWith filter (mkFindOptions KeyTimestamp limit (i64 (page * limit))) m in
  EventDoc.dec_list EventDoc.dec_event docs.

(** The route ([searchevents.go]); the body is what [ShouldBindJSON] made of
    the request, [first] and [page] are query parameters. *)
Definition searchEventsHandler (SearchPageLimit : Z) (body : option (list Filter)) (first page : option bytes) (m : D)
  : result (Z * option (list StoredEvent)) :=
  match body with
  | None => Ok (400, None)
  | Some filters =>
      match match first with None => Ok None | Some id => let* id := Hex.DecodeString id in Ok (Some id) end with
      | Panic w => Panic w
      | Err _ => Ok (400, None)
      | Ok firstEventId =>
          let page := match page with
                      | Some pageStr => match Strconv.Atoi pageStr with Ok pageNum => i64 (pageNum - 1) | _ => 0 end
                      | None => 0
                      end in
          match SearchEvents filters SearchPageLimit page firstEventId m with
          | Panic w => Panic w
          | Err err => Ok (if errors_Is err ErrInvalidFilter then 400 else 500, None)
          | Ok results => Ok (200, Some results)
          end
      end
  end.

End Ops.
End Search.
