(* ===== verification/Stream.v ===== *)
(** * The event stream

    Models the websocket stream of [offchain-interface/internal/viewer]:
    clients present a token and set filters ([streamclient.go]), the broadcaster
    hands each new event to the clients that may see it
    ([streambroadcaster.go]).  Every client has a reading and a writing
    goroutine and the broadcaster has one; they meet at unbuffered channels, at
    the mutex of the set of clients and at the mutex of each client.  The
    goroutines are interleaved by a step relation.

    A client is identified by its pointer, here a number.  [Filters] reads the
    length of the list of filters before it takes the mutex, so reading the
    length and copying are separate steps. *)

From S2P Require Import Prelude Types Text Platform Bson Repository TimeText Viewer Search.

Module Stream.
Import Filters Viewer.

(** ** Clients ([streamclient.go]) *)

Record streamClient : Type := mkStreamClient {
  isAuthenticated : bool;
  filters : list Filter
}.

Record websocketMessage : Type := mkWebsocketMessage {
  ws_Type : bytes;
  ws_Payload : bytes (* raw JSON *)
}.

Record websocketErrorPayload : Type := mkWebsocketErrorPayload { ws_Message : bytes }.
Record authPayload : Type := mkAuthPayload { Token : bytes }.

Definition wsMessageTypeAuth : bytes := bz "auth".
Definition wsMessageTypeSetFilters : bytes := bz "subscribe".
Definition wsMessageTypeError : bytes := bz "error".
Definition wsMessageTypeEvent : bytes := bz "event".

Definition newStreamClient : streamClient := mkStreamClient false [].

(** The codecs of the messages. *)
Class StreamJson : Type := {
  sj_Message :: Json websocketMessage;
  sj_Error :: Json websocketErrorPayload;
  sj_Auth :: Json authPayload;
  sj_Filters :: Json (list Filter);
  sj_Event :: Json StoredEvent
}.

Section Handlers.
Context `{StreamJson} `{Jwt} `{UuidText}.
Variable config : ViewerServer.

(** [WriteJSON] up to the blocking [Write]: the bytes to write. *)
Definition WriteJSON {A} `{Json A} (messageType : bytes) (data : A) : result bytes :=
  let* dataBytes := Marshal data in
  Marshal (mkWebsocketMessage messageType dataBytes).

(** What is written before the socket is closed; nothing is written, and the
    socket stays open, when the message cannot be marshalled. *)
Definition WriteErrorAndClose (message : bytes) : option bytes :=
  match WriteJSON wsMessageTypeError (mkWebsocketErrorPayload message) with
  | Ok b => Some b
  | _ => None
  end.

Definition refusal : option bytes := WriteErrorAndClose (bz "invalid token").

(** The handlers change the client; they return what is to be written before
    the socket is closed, if anything. *)
Definition handleAuth (payload : bytes) (c : streamClient) : streamClient * option bytes :=
  match Unmarshal payload with
  | Ok auth =>
      match validateToken config (Token auth) with
      | None => (c, refusal)
      | Some _ => (mkStreamClient true (filters c), None)
      end
  | _ => (c, None)
  end.

Definition handleSetFilters (payload : bytes) (c : streamClient) : streamClient * option bytes :=
  match Unmarshal payload with
  | Ok fs => (mkStreamClient (isAuthenticated c) fs, None)
  | _ => (c, None)
  end.

Definition handleMessage (b : bytes) (c : streamClient) : streamClient * option bytes :=
  match Unmarshal b with
  | Ok message =>
      if bool_decide (ws_Type message = wsMessageTypeAuth) then handleAuth (ws_Payload message) c
      else if bool_decide (ws_Type message = wsMessageTypeSetFilters) then handleSetFilters (ws_Payload message) c
      else (c, None)
  | _ => (c, None)
  end.

(** [Filters]: the copy has the length that was read before the mutex was
    taken. *)
Definition copy_filters (n : nat) (fs : list Filter) : list Filter :=
  take n fs ++ replicate (n - length fs) (mkFilter [] [] []).

(** ** The broadcaster ([streambroadcaster.go]) *)

Definition event_message (event : StoredEvent) : result bytes := WriteJSON wsMessageTypeEvent event.

(** A writing goroutine waits for bytes, writes them to the socket, or has
    returned; a reading goroutine reads, is blocked in [Write] with a refusal,
    is about to close the socket, waits for the mutex to unregister, or has
    returned. *)
Inductive writer : Type := WriterIdle | WriterSending (m : bytes) | WriterStopped.
Inductive reader : Type := Reading | Refusing (m : bytes) | Closing | Leaving | Gone.

Record conn : Type := mkConn {
  client : streamClient;
  reads : reader;
  writes : writer;
  ws_open : bool
}.

(** The loop of the broadcaster: waiting for an event; with the read lock,
    before the next client, before [client.Filters()], after it has read the
    length, blocked in [client.Write]; or it has returned. *)
Inductive loop_state : Type :=
| Waiting
| Visiting (event : StoredEvent) (payload : bytes) (rest : gset nat)
| Measuring (event : StoredEvent) (payload : bytes) (c : nat) (rest : gset nat)
| Copying (event : StoredEvent) (payload : bytes) (c : nat) (n : nat) (rest : gset nat)
| Writing (event : StoredEvent) (payload : bytes) (c : nat) (rest : gset nat)
| LoopStopped.

Record streamBroadcaster : Type := mkStreamBroadcaster {
  conns : gmap nat conn;
  clients : gset nat;
  loop : loop_state
}.

Definition newStreamBroadcaster : streamBroadcaster := mkStreamBroadcaster ∅ ∅ Waiting.

(** No read lock is held, so [Register] and [Unregister] get the mutex. *)
Definition unlocked (s : streamBroadcaster) : Prop := loop s = Waiting \/ loop s = LoopStopped.

Definition put_conn (c : nat) (k : conn) (s : streamBroadcaster) : streamBroadcaster :=
  mkStreamBroadcaster (<[c := k]> (conns s)) (clients s) (loop s).
Definition put_loop (l : loop_state) (s : streamBroadcaster) : streamBroadcaster :=
  mkStreamBroadcaster (conns s) (clients s) l.

Definition Register (c : nat) (s : streamBroadcaster) : streamBroadcaster :=
  mkStreamBroadcaster (conns s) ({[c]} ∪ clients s) (loop s).
Definition Unregister (c : nat) (s : streamBroadcaster) : streamBroadcaster :=
  mkStreamBroadcaster (conns s) (clients s ∖ {[c]}) (loop s).

(** [eventWebsocketHandler] ([websocket.go]), after the upgrade. *)
Definition eventWebsocketHandler (c : nat) (s : streamBroadcaster) : streamBroadcaster :=
  put_conn c (mkConn newStreamClient Reading WriterIdle true) (Register c s).

Definition set_reads (r : reader) (k : conn) : conn := mkConn (client k) r (writes k) (ws_open k).
Definition set_writes (w : writer) (k : conn) : conn := mkConn (client k) (reads k) w (ws_open k).

Inductive label : Type :=
| Connected (c : nat)
| Received (c : nat) (b : bytes)      (* a message of the client *)
| Took (e : StoredEvent)              (* an event from the node *)
| Handed (c : nat) (e : StoredEvent)  (* an event to the writing goroutine *)
| Sent (c : nat) (m : bytes)          (* bytes to the socket *)
| Internal
| Left (c : nat)
| Stopped (c : nat).                  (* a writing goroutine returns *)

(** What the loop does after it compared the copied filters. *)
Definition matched (event : StoredEvent) (payload : bytes) (c : nat) (fs : list Filter) (rest : gset nat) : loop_state :=
  match filtersMatch event fs with
  | Ok true => Writing event payload c rest
  | Ok false | Err _ => Visiting event payload rest
  | Panic _ => LoopStopped
  end.

Inductive step : streamBroadcaster -> label -> streamBroadcaster -> Prop :=
| step_connect s c : conns s !! c = None -> unlocked s -> step s (Connected c) (eventWebsocketHandler c s)
(* the reading goroutine *)
| step_receive s c k b k' out : conns s !! c = Some k -> reads k = Reading -> ws_open k = true ->
    handleMessage b (client k) = (k', out) ->
    step s (Received c b)
      (put_conn c (mkConn k' (match out with Some m => Refusing m | None => Reading end) (writes k) (ws_open k)) s)
| step_refuse s c k m : conns s !! c = Some k -> reads k = Refusing m -> writes k = WriterIdle ->
    step s Internal (put_conn c (set_reads Closing (set_writes (WriterSending m) k)) s)
| step_close s c k : conns s !! c = Some k -> reads k = Closing ->
    step s Internal (put_conn c (mkConn (client k) Reading (writes k) false) s)
| step_read_fails s c k : conns s !! c = Some k -> reads k = Reading ->
    step s Internal (put_conn c (mkConn (client k) Leaving (writes k) false) s)
| step_unregister s c k : conns s !! c = Some k -> reads k = Leaving -> unlocked s ->
    step s (Left c) (put_conn c (set_reads Gone k) (Unregister c s))
(* the writing goroutine *)
| step_send s c k m : conns s !! c = Some k -> writes k = WriterSending m -> ws_open k = true ->
    step s (Sent c m) (put_conn c (set_writes WriterIdle k) s)
| step_send_fails s c k m : conns s !! c = Some k -> writes k = WriterSending m ->
    step s (Stopped c) (put_conn c (set_writes WriterStopped k) s)
| step_ping_fails s c k : conns s !! c = Some k -> writes k = WriterIdle ->
    step s (Stopped c) (put_conn c (set_writes WriterStopped k) s)
(* the loop *)
| step_take s e p : loop s = Waiting -> event_message e = Ok p ->
    step s (Took e) (put_loop (Visiting e p (clients s)) s)
| step_take_fails s e err : loop s = Waiting -> event_message e = Err err -> step s (Took e) s
| step_skip s e p c k rest : loop s = Visiting e p rest -> c ∈ rest -> conns s !! c = Some k ->
    isAuthenticated (client k) = false -> step s Internal (put_loop (Visiting e p (rest ∖ {[c]})) s)
| step_authenticated s e p c k rest : loop s = Visiting e p rest -> c ∈ rest -> conns s !! c = Some k ->
    isAuthenticated (client k) = true -> step s Internal (put_loop (Measuring e p c (rest ∖ {[c]})) s)
| step_measure s e p c k rest : loop s = Measuring e p c rest -> conns s !! c = Some k ->
    step s Internal (put_loop (Copying e p c (length (filters (client k))) rest) s)
| step_copy s e p c k n rest : loop s = Copying e p c n rest -> conns s !! c = Some k ->
    step s Internal (put_loop (matched e p c (copy_filters n (filters (client k))) rest) s)
| step_hand s e p c k rest : loop s = Writing e p c rest -> conns s !! c = Some k -> writes k = WriterIdle ->
    step s (Handed c e) (put_loop (Visiting e p rest) (put_conn c (set_writes (WriterSending p) k) s))
| step_round s e p : loop s = Visiting e p ∅ -> step s Internal (put_loop Waiting s)
| step_shutdown s : loop s = Waiting -> step s Internal (put_loop LoopStopped s).

Inductive run : streamBroadcaster -> list label -> streamBroadcaster -> Prop :=
| run_nil s : run s [] s
| run_snoc s tr s' l s'' : run s tr s' -> step s' l s'' -> run s (tr ++ [l]) s''.

End Handlers.
End Stream.
