(* ===== verification/JsonViewer.v ===== *)
(** * The JSON of the event viewer

    The struct tags of [repository.Filter], of the messages of the stream
    ([internal/viewer/streamclient.go]) and of stored events. *)

From S2P Require Import Prelude Types Text JsonText JsonScan JsonCompact JsonCodec JsonCodecFacts Platform Bson JsonTypes JsonTypesFacts JsonDecoded JsonPlatform OffchainNode NodeFacts JsonOffchain Repository TimeText Viewer Search Stream.

Module JsonViewer.
Import JsonText JsonScan JsonCompact JsonCodec JsonCodecFacts JsonTypes JsonTypesFacts JsonDecoded JsonPlatform JsonOffchain.
Import Filters Stream.

(** ** Codecs *)

Definition enc_Filter : encoder Filter := fun f =>
  enc_struct [(bz "property", enc_string (Property f)); (bz "operator", enc_string (Operator f)); (bz "value", enc_string (Value f))].
Definition dec_Filter : decoder Filter := dec_struct
  [(bz "property", set_field Property (fun x f => mkFilter x (Operator f) (Value f)) dec_string);
   (bz "operator", set_field Operator (fun x f => mkFilter (Property f) x (Value f)) dec_string);
   (bz "value", set_field Value (fun x f => mkFilter (Property f) (Operator f) x) dec_string)].

Definition enc_Filters : encoder (list Filter) := enc_slice enc_Filter.
Definition dec_Filters : decoder (list Filter) := dec_slice (mkFilter [] [] []) dec_Filter.

Definition enc_websocketMessage : encoder websocketMessage := fun m =>
  enc_struct [(bz "type", enc_string (ws_Type m)); (bz "data", enc_raw (ws_Payload m))].
Definition dec_websocketMessage : decoder websocketMessage := dec_struct
  [(bz "type", set_field ws_Type (fun x m => mkWebsocketMessage x (ws_Payload m)) dec_string);
   (bz "data", set_field ws_Payload (fun x m => mkWebsocketMessage (ws_Type m) x) dec_raw)].

Definition enc_websocketErrorPayload : encoder websocketErrorPayload := fun p =>
  enc_struct [(bz "message", enc_string (ws_Message p))].
Definition dec_websocketErrorPayload : decoder websocketErrorPayload := dec_struct
  [(bz "message", set_field ws_Message (fun x _ => mkWebsocketErrorPayload x) dec_string)].

Definition enc_authPayload : encoder authPayload := fun p => enc_struct [(bz "token", enc_string (Token p))].
Definition dec_authPayload : decoder authPayload := dec_struct
  [(bz "token", set_field Token (fun x _ => mkAuthPayload x) dec_string)].

Section StoredEvents.
Context `{UuidText}.

(** The embedded [Event] has no tag: its field is a field of the event. *)
Definition enc_EventWithData : encoder EventWithData := fun e =>
  enc_struct [(bz "system", Events.enc_System (ev_System (ed_Event e))); (bz "event_data", enc_EventData (ed_EventData e))].
Definition dec_EventWithData : decoder EventWithData := dec_struct
  [(bz "system", set_field (fun e => ev_System (ed_Event e)) (fun x e => mkEventWithData (mkEvent x) (ed_EventData e)) Events.dec_System);
   (bz "event_data", set_field ed_EventData (fun x e => mkEventWithData (ed_Event e) x) dec_EventData)].

Definition enc_StoredEvent : encoder StoredEvent := fun e =>
  enc_struct [(bz "event", enc_EventWithData (st_EventWithData e)); (bz "metadata", Events.enc_Metadata (st_Metadata e));
    (bz "tx_hash", Events.enc_hash (st_TxHash e))].
Definition dec_StoredEvent : decoder StoredEvent := dec_struct
  [(bz "event", set_field st_EventWithData (fun x e => mkStoredEvent x (st_Metadata e) (st_TxHash e)) dec_EventWithData);
   (bz "metadata", set_field st_Metadata (fun x e => mkStoredEvent (st_EventWithData e) x (st_TxHash e)) Events.dec_Metadata);
   (bz "tx_hash", set_field st_TxHash (fun x e => mkStoredEvent (st_EventWithData e) (st_Metadata e) x) Events.dec_hash)].

End StoredEvents.

(** ** Round trips *)

Lemma codable_repository_Filter f : utf8 (Property f) -> utf8 (Operator f) -> utf8 (Value f) -> codable enc_Filter dec_Filter f.
Proof.
  intros Hp Ho Hv. field (codable_string _ Hp). field (codable_string _ Ho). field (codable_string _ Hv).
  struct enc_Filter f [(bz "property", v); (bz "operator", v0); (bz "value", v1)].
Qed.

Lemma codable_websocketMessage m : utf8 (ws_Type m) -> raw_ok (ws_Payload m) ->
  codable enc_websocketMessage dec_websocketMessage m.
Proof.
  intros Ht Hd. field (codable_string _ Ht). field (codable_raw _ Hd).
  struct enc_websocketMessage m [(bz "type", v); (bz "data", v0)].
Qed.

Lemma safe_Filter_fields old v : safe (dec_Filter old v).
Proof. safe_fields. Qed.
Lemma safe_Filters old v : safe (dec_Filters old v).
Proof. apply safe_slices, safe_Filter_fields. Qed.
Lemma safe_websocketMessage old v : safe (dec_websocketMessage old v).
Proof. safe_fields. Qed.
Lemma safe_websocketErrorPayload old v : safe (dec_websocketErrorPayload old v).
Proof. safe_fields. Qed.
Lemma safe_authPayload old v : safe (dec_authPayload old v).
Proof. safe_fields. Qed.

Lemma safe_enc_Filters l : safe (enc_Filters l).
Proof. apply safe_enc_slice. intros f. safe_struct. Qed.
Lemma safe_enc_websocketMessage m : safe (enc_websocketMessage m).
Proof. safe_struct. Qed.
Lemma safe_enc_websocketErrorPayload m : safe (enc_websocketErrorPayload m).
Proof. safe_struct. Qed.
Lemma safe_enc_authPayload m : safe (enc_authPayload m).
Proof. safe_struct. Qed.

Section Instances.
Context `{UuidLaws}.

Definition stored_ok (e : StoredEvent) : Prop :=
  representable (ed_Event (st_EventWithData e)) /\ NodeFacts.data_ok (ed_EventData (st_EventWithData e)) /\
  representable (st_Metadata e).

Lemma codable_EventWithData e : representable (ed_Event e) -> NodeFacts.data_ok (ed_EventData e) ->
  codable enc_EventWithData dec_EventWithData e.
Proof.
  intros He Hd. field (codable_System _ He). field (codable_EventData _ Hd).
  struct enc_EventWithData e [(bz "system", v); (bz "event_data", v0)].
Qed.

Lemma codable_StoredEvent e : stored_ok e -> codable enc_StoredEvent dec_StoredEvent e.
Proof.
  intros (He & Hd & Hm). field (codable_EventWithData _ He Hd). field (codable_Metadata _ Hm). field (codable_hash (st_TxHash e)).
  struct enc_StoredEvent e [(bz "event", v); (bz "metadata", v0); (bz "tx_hash", v1)].
Qed.

Lemma safe_EventWithData old v : safe (dec_EventWithData old v).
Proof.
  apply safe_dec_struct. unfold JsonCodecFacts.safe_fields. fields; intros ? ?; apply safe_set_field; intros ? ?;
    [apply safe_System|apply safe_EventData].
Qed.
Lemma safe_StoredEvent old v : safe (dec_StoredEvent old v).
Proof.
  apply safe_dec_struct. unfold JsonCodecFacts.safe_fields. fields; intros ? ?; apply safe_set_field; intros ? ?;
    [apply safe_EventWithData|apply safe_Metadata|apply safe_dec_hash].
Qed.
Lemma safe_enc_StoredEvent e : safe (enc_StoredEvent e).
Proof.
  apply safe_enc_struct. fields; cbn [snd]; [|apply safe_enc_Metadata|apply safe_enc_hash].
  apply safe_enc_struct. fields; cbn [snd]; [apply safe_enc_System|apply safe_enc_EventData].
Qed.

#[export] Instance stream_json : StreamJson := {|
  sj_Message := json enc_websocketMessage dec_websocketMessage (mkWebsocketMessage [] []) safe_enc_websocketMessage safe_websocketMessage;
  sj_Error := json enc_websocketErrorPayload dec_websocketErrorPayload (mkWebsocketErrorPayload []) safe_enc_websocketErrorPayload safe_websocketErrorPayload;
  sj_Auth := json enc_authPayload dec_authPayload (mkAuthPayload []) safe_enc_authPayload safe_authPayload;
  sj_Filters := json enc_Filters dec_Filters [] safe_enc_Filters safe_Filters;
  sj_Event := json enc_StoredEvent dec_StoredEvent
    (mkStoredEvent (mkEventWithData (mkEvent Events.zero_System) []) Events.zero_Metadata []) safe_enc_StoredEvent safe_StoredEvent
|}.

(** An event that is handed to a client can be written, and the client reads it
    back from the message. *)
Theorem event_message_round_trip e : stored_ok e ->
  exists msg raw, WriteJSON wsMessageTypeEvent e = Ok msg /\
    Unmarshal msg = Ok (mkWebsocketMessage wsMessageTypeEvent raw) /\ Unmarshal raw = Ok e.
Proof.
  intros He. destruct (codable_StoredEvent e He) as (raw & Hm & Hc & Hd).
  destruct (codable_websocketMessage (mkWebsocketMessage wsMessageTypeEvent raw)) as (msg & Hm' & Hc' & Hd'); [done..|].
  exists msg, raw. unfold WriteJSON. split_and!.
  - change (Marshal e) with (enc_StoredEvent e). rewrite Hm. exact Hm'.
  - unfold Unmarshal. cbn. by rewrite Unmarshal_value.
  - unfold Unmarshal. cbn. by rewrite Unmarshal_value.
Qed.

End Instances.
End JsonViewer.
