(* ===== verification/MongoReference.v ===== *)
(** * A reference database

    A list of documents with the operations of the MongoDB driver.  The instances satisfy the laws of
    [Repository] and [Retention], so the hypotheses of the theorems about the
    off-chain node can hold, and the pipelines can be run. *)

From S2P Require Import Prelude Types Text Bson UuidReference Repository Retention.
From Corelib Require Import Init.Byte.

(** ** Running a pipeline *)
Module Run.
Import Query Stages.

Definition date_at (path : bytes) (doc : bson) : Z :=
  match at_path path doc with Some (BDate ms) => ms | _ => 0 end.

(** Insertion into a list, newest first. *)
Fixpoint insert_doc (path : bytes) (doc : bson) (docs : list bson) : list bson :=
  match docs with
  | [] => [doc]
  | d :: rest => if date_at path d <=? date_at path doc then doc :: docs else d :: insert_doc path doc rest
  end.
Definition sort_docs (path : bytes) (docs : list bson) : list bson := fold_right (insert_doc path) [] docs.

Lemma insert_doc_perm path doc docs : insert_doc path doc docs ≡ₚ doc :: docs.
Proof.
  induction docs as [|d docs IH]; [done|]. cbn. case_match; [done|]. rewrite IH. apply Permutation_swap.
Qed.

Lemma sort_docs_perm path docs : sort_docs path docs ≡ₚ docs.
Proof. induction docs as [|d docs IH]; [done|]. cbn. by rewrite insert_doc_perm, IH. Qed.

Definition newer (path : bytes) (a b : bson) : Prop := date_at path b <= date_at path a.

Lemma insert_doc_sorted path doc docs :
  Sorted.StronglySorted (newer path) docs -> Sorted.StronglySorted (newer path) (insert_doc path doc docs).
Proof.
  induction 1 as [|d docs Hs IH Hd]; cbn; [by repeat constructor|].
  destruct (Z.leb_spec (date_at path d) (date_at path doc)) as [Hle|Hgt].
  - constructor; [by constructor|]. constructor; [done|]. eapply List.Forall_impl; [|exact Hd].
    unfold newer. intros x Hx. lia.
  - constructor; [done|]. rewrite insert_doc_perm. constructor; [unfold newer; lia|done].
Qed.

Lemma sort_docs_sorted path docs : Sorted.StronglySorted (not_before path) (sort_docs path docs).
Proof.
  assert (Sorted.StronglySorted (newer path) (sort_docs path docs)) as Hs.
  { induction docs as [|d docs IH]; cbn; [constructor|]. by apply insert_doc_sorted. }
  induction Hs as [|d l Hs IH Hd]; constructor; [done|]. eapply List.Forall_impl; [|exact Hd].
  intros x. unfold newer, not_before, date_at. repeat case_match; done.
Qed.

(** One stage; [None] for one that is not understood. *)
Definition run_stage (s : bson) (docs : list bson) : option (list bson) :=
  match s with
  | BDoc [(op, arg)] =>
      if bool_decide (op = bz "$match") then Some (filter (fun doc => matches arg doc = true) docs)
      else if bool_decide (op = bz "$sort") then
        match arg with BDoc [(path, BInt (-1))] => Some (sort_docs path docs) | _ => None end
      else if bool_decide (op = bz "$skip") then
        match arg with BInt k => if 0 <=? k then Some (drop (Z.to_nat k) docs) else None | _ => None end
      else if bool_decide (op = bz "$group") then
        match arg with
        | BDoc [(k1, key); (k2, BDoc [(k3, acc)])] =>
            if bool_decide (k1 = bz "_id") && bool_decide (k2 = bz "events") && bool_decide (k3 = bz "$push") then
              keys ← mapM (fun doc => eval None doc key) docs; mapM (group_doc key acc docs) (distinct keys)
            else None
        | _ => None
        end
      else if bool_decide (op = bz "$project") then
        match arg with BDoc spec => mapM (project spec) docs | _ => None end
      else if bool_decide (op = bz "$unwind") then
        match arg with
        | BStr (c :: k) => if bool_decide (c = "$"%byte) then Some (concat (unwind k <$> docs)) else None
        | _ => None
        end
      else if bool_decide (op = bz "$replaceRoot") then
        match arg with
        | BDoc [(k, e)] => if bool_decide (k = bz "newRoot") then mapM (fun doc => eval None doc e) docs else None
        | _ => None
        end
      else None
  | _ => None
  end.

Lemma run_stage_sound s docs out : run_stage s docs = Some out -> stage s docs out.
Proof.
  intros E. unfold run_stage in E. destruct s as [| | | | | |[|[op arg] [|]]]; try (by repeat case_match).
  repeat (case_bool_decide as Hop; [subst op|clear Hop]); [..|done].
  - injection E as <-. apply stage_match.
  - destruct arg as [| | | | | |[|[path v] [|]]]; try (by repeat case_match). destruct v as [|z| | | | |]; try (by repeat case_match).
    destruct z as [| |p]; try (by repeat case_match). destruct p; try (by repeat case_match). injection E as <-.
    apply (stage_sort path); [apply sort_docs_perm|apply sort_docs_sorted].
  - destruct arg as [|k| | | | |]; try (by repeat case_match). destruct (Z.leb_spec 0 k); [|done]. injection E as <-. by apply stage_skip.
  - destruct arg as [| | | | | |[|[k1 key] [|[k2 v] [|]]]]; try (by repeat case_match). destruct v as [| | | | | |[|[k3 acc] [|]]]; try (by repeat case_match).
    do 3 (case_bool_decide; cbn [andb] in E; [subst|done]).
    destruct (mapM _ docs) as [keys|] eqn:Ek; [|done]. by eapply stage_group; [exact Ek|exact E|].
  - destruct arg as [| | | | | |spec]; try (by repeat case_match). by apply stage_project.
  - destruct arg as [| |[|c k]| | | |]; try (by repeat case_match). case_bool_decide; [subst c|done]. injection E as <-. apply stage_unwind.
  - destruct arg as [| | | | | |[|[k e] [|]]]; try (by repeat case_match). case_bool_decide; [subst k|done]. by apply stage_replaceRoot.
Qed.

Fixpoint run_pipeline (pl : list bson) (docs : list bson) : option (list bson) :=
  match pl with
  | [] => Some docs
  | s :: rest => docs ← run_stage s docs; run_pipeline rest docs
  end.

Lemma run_pipeline_sound pl : forall docs out, run_pipeline pl docs = Some out -> pipeline pl docs out.
Proof.
  induction pl as [|s pl IH]; intros docs out E; cbn in E; [injection E as <-; constructor|].
  destruct (run_stage s docs) as [docs'|] eqn:Es; [|done]. econstructor; [by apply run_stage_sound|by apply IH].
Qed.

End Run.

(** ** The collection *)

Definition bad_pipeline : error := NewError (bz "unrecognized pipeline stage").

#[global] Instance ref_mongo : MongoCollection (list bson) := {|
  mongo_FindOne q d := match filter (fun doc => Query.matches q doc = true) d with doc :: _ => Found doc | [] => ErrNoDocuments end;
  mongo_Find q d := Ok (filter (fun doc => Query.matches q doc = true) d);
  mongo_InsertOne doc d :=
    if existsb (same_key doc) d then (d, WriteException [MongoEvents.duplicateKey])
    else (d ++ [with_id (zlen d) doc], Inserted);
  mongo_DeleteMany q d :=
    (filter (fun doc => Query.matches q doc = false) d, Ok (zlen (filter (fun doc => Query.matches q doc = true) d)));
  mongo_Aggregate pl d := match Run.run_pipeline pl d with Some out => Ok out | None => Err bad_pipeline end;
  mongo_CountDocuments d := Ok (zlen d)
|}.

#[global] Instance ref_mongo_laws : MongoLaws (list bson).
Proof.
  refine {| documents := id |}; unfold id; cbn.
  - intros q d. destruct (filter _ d) as [|doc l] eqn:E.
    + apply List.Forall_forall. intros doc Hin. apply not_true_is_false. intros Hm.
      apply (not_elem_of_nil doc). rewrite <- E. apply list_elem_of_filter. split; [done|]. by apply list_elem_of_In.
    + assert (doc ∈ filter (fun doc => Query.matches q doc = true) d) as Hin by (rewrite E; apply list_elem_of_here).
      apply list_elem_of_filter in Hin as [? ?]. done.
  - by intros q d docs [= <-].
  - intros doc d d' o E. destruct (existsb (same_key doc) d) eqn:Ex; injection E as <- <-.
    + split; [by left|]. split; [done|]. split; [|done]. intros rest _. apply List.Exists_exists.
      apply existsb_exists in Ex as (x & Hin & Hk). by exists x.
    + split; [right; split; [|by eexists]|split; [by eexists|by split]].
      apply List.Forall_forall. intros x Hin. apply not_true_is_false. intros Hk.
      rewrite (proj2 (existsb_exists _ _)) in Ex; [done|]. by exists x.
  - by intros q d d' o [= <- <-].
Defined.

#[global] Instance ref_aggregate_laws : AggregateLaws (list bson).
Proof.
  constructor. intros pl d out E. cbn in E. destruct (Run.run_pipeline pl d) as [o|] eqn:Er; [|done].
  injection E as <-. by apply Run.run_pipeline_sound.
Qed.
