(* ===== verification/ClientChain.v ===== *)
(** * Reading the chain through the client

    The off-chain client composed with the node: what [GetEventById] and
    [GetIdentity] return when every connection leads to a node that has
    executed the same blocks. *)

From S2P Require Import Prelude Types Text Platform Abci MerkleProof IdentityApp EventsApp RetentionApp Multiplexer Chain Pool BlockchainClient.

Module ClientChain.
Import Multiplexer Chain Client.

(** A request without data is read as one with the data [null]. *)
Class RoutedLaw (P : Platform) : Prop := {
  law_routed app : utf8 app ->
    exists b d, Marshal (mkMuxedRequest app []) = Ok b /\ Unmarshal b = Ok (mkMuxedRequest app d)
}.

Section Served.
Context `{L : PlatformLaws} `{!RoutedLaw P} {C : Type} `{Countable C} `{ChainRpc C}.
Implicit Types m : MultiplexedApplication (W := World).

(** A connection whose queries the application of the node answers. *)
Definition serves (c : C) m : Prop :=
  forall path data height prove,
    rpc_ABCIQuery c path data height prove = Query m (mkRequestQuery data path height prove).

(** Every connection of a pool leads to a node that is at rest in [s]. *)
Definition synced (p : Pool.Pool C) (s : ChainState) : Prop :=
  Forall (fun c => exists m, serves c m /\ at_rest m s) (Pool.conns p).


Lemma node_events : node_apps !! AppNameEvents = Some events_app.
Proof. by rewrite node_apps_lookup. Qed.
Lemma node_identity : node_apps !! AppNameIdentity = Some identity_app.
Proof. by rewrite node_apps_lookup. Qed.

(** What the routing makes of a query. *)
Lemma routed_query c m s app : at_rest m s -> serves c m -> utf8 app ->
  exists b, routed app = Ok b /\ forall path height prove,
    rpc_ABCIQuery c path b height prove =
      match node_apps !! app with
      | None => Ok (IntoQueryResponse (muxError MuxCode.CodeUnknownApp "unknown app name"))
      | Some a => app_Query a (world m) (mkRequestQuery b path height prove)
      end.
Proof.
  intros Hr Hs Hu. destruct (law_routed app Hu) as (b & d & Hm & Hb). exists b. split; [exact Hm|].
  intros path height prove. rewrite Hs. unfold Query. cbn [rq_Data]. by rewrite Hb, (ar_apps _ _ Hr).
Qed.

(** The answer about an event: an absent one is reported as not found, but for
    a chain without any events, where no proof can be given. *)
Definition event_answer (s : ChainState) (id : EventHash) (r : result EventWithMetadata) : Prop :=
  match c_evs s !! id with
  | Some e => r = Ok e
  | None => if decide (c_evs s = ∅) then exists log, r = Err (WrapError log ErrABCIQueryFailed)
            else r = Err ErrEventNotFound
  end.

Lemma map_repr_empty (w : gmap bytes bytes) (s : EventsApp.EvState) : EventsApp.map_repr w s -> w = ∅ <-> s = ∅.
Proof.
  intros Hr. split; intros ->; apply map_empty; intros id; specialize (Hr id).
  - destruct (s !! id); [|done]. destruct Hr as (b & Hb & _). by rewrite lookup_empty in Hb.
  - by rewrite lookup_empty in Hr.
Qed.

Lemma event_query c m s id : at_rest m s -> serves c m -> length id = 32%nat ->
  (forall e, c_evs s !! id = Some e -> representable e) ->
  event_answer s id (let* b := routed AppNameEvents in
                     let* res := rpc_ABCIQuery c (eventPath id) b 0 true in eventAnswer res).
Proof.
  intros Hr Hs Hl Hrep. destruct (routed_query c m s AppNameEvents Hr Hs eq_refl) as (b & -> & Hq).
  cbn [res_bind]. rewrite Hq, node_events. cbn [app_Query events_app].
  pose proof (ib_evs _ _ _ (ar_world _ _ Hr)) as Hib.
  destruct (EventsApp.Query_by_id _ _ _ id (mkRequestQuery b (eventPath id) 0 true) Hib Hl Hrep eq_refl)
    as (r & E & Ha).
  rewrite E. cbn [res_bind]. unfold event_answer.
  pose proof (map_repr_empty _ _ (EventsApp.ib_repr _ _ _ Hib)) as He.
  destruct (decide (working _ = ∅)) as [Hw|Hw].
  - apply He in Hw as ->. rewrite lookup_empty. rewrite decide_True by done.
    unfold eventAnswer. rewrite Ha. eexists. cbn [negb Z.eqb EventsCode.CodeTreeUninitialized EventsCode.CodeEventNotFound].
    by rewrite andb_false_r.
  - destruct Ha as (_ & Hv & Hcs & Ha). unfold eventAnswer.
    destruct (c_evs s !! id) as [e|]; destruct Ha as [-> Ha]; cbn [negb Z.eqb EventsCode.CodeOk EventsCode.CodeEventNotFound].
    + by rewrite Ha, Hv.
    + rewrite decide_False by tauto. by rewrite Hcs.
Qed.

(** Likewise for a principal. *)
Definition identity_answer (s : ChainState) (principal : Principal) (r : result IdentityData) : Prop :=
  match IdentityApp.ids (c_ids s) !! principal with
  | Some d => r = Ok d
  | None => r = Err ErrPrincipalNotFound \/ exists log, r = Err (NewError log)
  end.

Lemma identity_query c m s principal : at_rest m s -> serves c m ->
  (forall d, IdentityApp.ids (c_ids s) !! principal = Some d -> representable d) ->
  identity_answer s principal (let* b := routed AppNameIdentity in
                               let* res := rpc_ABCIQuery c (identityPath principal) b 0 false in identityAnswer res).
Proof.
  intros Hr Hs Hrep. destruct (routed_query c m s AppNameIdentity Hr Hs eq_refl) as (b & -> & Hq).
  cbn [res_bind]. rewrite Hq, node_identity. cbn [app_Query identity_app].
  pose proof (ib_ids _ _ _ (ar_world _ _ Hr)) as Hib.
  destruct (IdentityApp.Query_principal _ _ principal (mkRequestQuery b (identityPath principal) 0 false) Hib Hrep eq_refl)
    as (r & E & Ha).
  rewrite E. cbn [res_bind]. unfold identity_answer, identityAnswer.
  destruct (decide (working _ = ∅)) as [Hw|Hw].
  - rewrite Ha. cbn [negb Z.eqb Pos.eqb IdentityCode.CodeTreeUninitialized IdentityCode.CodeOk IdentityCode.CodeNotFound].
    rewrite andb_false_r. destruct (IdentityApp.ids (c_ids s) !! principal) as [d|] eqn:Ed; [|right; by eexists].
    destruct Hib as [_ Hi]. pose proof (IdentityApp.repr_ids _ _ Hi principal) as Hp. rewrite Ed in Hp.
    destruct Hp as (x & Hx & _). unfold identities in Hx. by rewrite Hw, lookup_empty in Hx.
  - destruct Ha as (_ & Hv & Hcs & Ha).
    destruct (IdentityApp.ids (c_ids s) !! principal) as [d|]; destruct Ha as [-> Ha];
      cbn [negb Z.eqb Pos.eqb IdentityCode.CodeOk IdentityCode.CodeNotFound].
    + by rewrite Ha, Hv.
    + left. by rewrite Hcs.
Qed.

(** A call that takes a connection and asks it. *)
Lemma ask_synced {A} (Q : result A -> Prop) env p s (ask : C -> result A) :
  synced p s -> (forall c m, at_rest m s -> serves c m -> Q (ask c)) ->
  exists p', Pool.moved env p p' /\
    (((do conn <- Pool.Get env ;; m_lift (fun _ => ask conn)) p = (p', Err Pool.ErrPoolEmpty) /\ Pool.conns p' = []) \/
     exists r, (do conn <- Pool.Get env ;; m_lift (fun _ => ask conn)) p = (p', r) /\ Q r).
Proof.
  intros Hs Hask. destruct (Pool.Get_from_spec env (S (length (Pool.conns p))) 0 p) as (p' & Hm & Hr); [lia|].
  exists p'. split; [done|]. fold (Pool.Get env p) in Hr. unfold m_bind.
  destruct Hr as [(c & -> & Hc & _)|[-> ->]]; [right|by left].
  pose proof (Pool.moved_conns _ _ _ _ Hm Hc) as Hin.
  destruct (proj1 (List.Forall_forall _ _) Hs c (proj1 (list_elem_of_In _ _) Hin)) as (m & Hsv & Hrest).
  exists (ask c). split; [done|]. by eapply Hask.
Qed.

(** C32. Through connections to nodes that are at the same block, the client
    reads the chain: it returns the event recorded under an identifier and the
    identity registered for a principal, and an error, which is not-found once
    the chain holds any event, for those that are absent; only a pool without
    usable connections prevents the answer. *)
Theorem client_reads_chain env p s :
  synced p s ->
  (forall id, length id = 32%nat -> (forall e, c_evs s !! id = Some e -> representable e) ->
    exists p', Pool.moved env p p' /\
      ((GetEventById env id p = (p', Err Pool.ErrPoolEmpty) /\ Pool.conns p' = []) \/
       exists r, GetEventById env id p = (p', r) /\ event_answer s id r)) /\
  (forall principal, (forall d, IdentityApp.ids (c_ids s) !! principal = Some d -> representable d) ->
    exists p', Pool.moved env p p' /\
      ((GetIdentity env principal p = (p', Err Pool.ErrPoolEmpty) /\ Pool.conns p' = []) \/
       exists r, GetIdentity env principal p = (p', r) /\ identity_answer s principal r)).
Proof.
  intros Hs. split.
  - intros id Hl Hrep. apply ask_synced with s; [done|]. intros c m Hr Hsv. by apply (event_query c m s id).
  - intros principal Hrep. apply ask_synced with s; [done|]. intros c m Hr Hsv. by apply (identity_query c m s principal).
Qed.

End Served.
End ClientChain.
