(* ===== verification/ClientWitness.v ===== *)
(** * The client of the chain on concrete connections

    Connections to the node of [ChainWitness], and connections with fixed
    answers: the hypotheses of the theorems of [BlockchainClient] and
    [ClientChain] hold for them. *)

From S2P Require Import Prelude Types Text Sha256 Platform Abci MerkleProof IdentityApp EventsApp RetentionApp Policy Multiplexer Chain JsonPlatform Reference ChainWitness Pool BlockchainClient ClientChain.

Module ClientWitness.
Import Multiplexer Chain Reference ChainWitness Client ClientChain Pool.

#[global] Instance ref_routed : RoutedLaw platform.
Proof. constructor. exact JsonPlatform.routed_json. Qed.

(** ** Connections to a node *)

Definition served_by (m : MultiplexedApplication (W := World)) : ChainRpc Z := {|
  rpc_Tx _ tx := if bool_decide (tx = bz "tx")
    then RpcOk (mkResultTx 3 (encoded (mkCreateResponse (em_Metadata some_event)))) else RpcError (bz "tx not found");
  rpc_ABCIQuery _ path data height prove := Query m (mkRequestQuery data path height prove);
  rpc_TxSearch _ _ _ _ := Ok ([], 0)
|}.

Definition some_id : EventHash := EventId (em_Metadata some_event).

Lemma sample_event : c_evs sample !! some_id = Some some_event.
Proof. cbn. apply lookup_insert_eq. Qed.

Lemma sample_events_ok id e : c_evs sample !! id = Some e -> representable e.
Proof. cbn. intros [[_ <-]|[_ He]]%lookup_insert_Some; [exact some_event_ok|done]. Qed.

Lemma sample_identities_ok p d : IdentityApp.ids (c_ids sample) !! p = Some d -> representable d.
Proof. cbn. by intros [[_ <-]|[_ Hd]]%lookup_insert_Some. Qed.

Lemma client_reads_chain_witness : exists m : MultiplexedApplication (W := World),
  at_rest m sample /\ exists p', moved (always 5 []) (wPool 0) p' /\
    ((GetEventById (H0 := served_by m) (always 5 []) some_id (wPool 0) = (p', Err ErrPoolEmpty) /\ conns p' = []) \/
     exists r, GetEventById (H0 := served_by m) (always 5 []) some_id (wPool 0) = (p', r) /\ event_answer sample some_id r).
Proof.
  destruct sample_node as (m & Hr & _). exists m. split; [exact Hr|].
  apply (client_reads_chain (H0 := served_by m) (always 5 []) (wPool 0) sample).
  - repeat constructor; by exists m.
  - unfold some_id. cbn. apply Sha256.Sum256_length.
  - apply sample_events_ok.
Defined.

(** ** Connections with fixed answers *)

Definition answering (r : ResponseQuery) : ChainRpc Z := {|
  rpc_Tx _ _ := RpcError (bz "tx not found");
  rpc_ABCIQuery _ _ _ _ _ := Ok r;
  rpc_TxSearch _ _ _ _ := Ok ([], 0)
|}.

Definition policy_response : ResponseQuery :=
  mkResponseQuery RetentionCode.CodeOk [] 0 [] (encoded some_policy) None 1 RetentionCode.Codespace.

Lemma policy_answered c : getRetentionPolicyForClient (H0 := answering policy_response) c = Ok (Some some_policy).
Proof.
  unfold getRetentionPolicyForClient. cbn [routed Marshal res_bind rpc_ABCIQuery answering].
  unfold policyAnswer. cbn [q_Codespace q_Code q_Value policy_response].
  rewrite bool_decide_true by done. cbn [andb Z.eqb RetentionCode.CodeOk].
  assert (Unmarshal (encoded some_policy) = Ok some_policy) as ->; [|done].
  vm_compute. reflexivity.
Qed.

Lemma single_node_satisfies_two_witness :
  let p := mkPool 0 [1] [] {[1 := 0]} 10 None in
  GetRetentionPolicy (H0 := answering policy_response) (always 5 []) 2 p = (p, Ok (Some some_policy)).
Proof.
  apply (single_node_satisfies_two (H0 := answering policy_response) (always 5 []) (mkPool 0 [1] [] {[1 := 0]} 10 None) 1);
    [done|done|done|apply policy_answered].
Defined.

(** Three nodes that agree. *)
Lemma policy_agreed : GetRetentionPolicy (H0 := answering policy_response) (always 60 []) 3 (wPool 0) =
  (wPool 0, Ok (Some some_policy)).
Proof.
  unfold GetRetentionPolicy.
  assert (GetAll (always 60 []) false (wPool 0) = (wPool 0, Ok [1; 2; 3])) as Eg by by vm_compute.
  run Eg. unfold m_lift. cbn [collect]. rewrite !policy_answered. cbn.
  rewrite !Policy.StoredPolicy_Equal_eq, bool_decide_true by done. done.
Qed.

Lemma policy_agreement_witness : exists clients policies,
  GetAll (always 60 []) false (wPool 0) = (wPool 0, Ok clients) /\
  collect (H0 := answering policy_response) clients = Ok policies /\ 3 <= zlen policies /\
  Some some_policy ∈ policies /\
  (forall c q, c ∈ clients -> getRetentionPolicyForClient (H0 := answering policy_response) c = Ok q ->
     same_policy (Some some_policy) q).
Proof.
  apply (policy_agreement (H0 := answering policy_response) (always 60 []) 3 (wPool 0) (wPool 0) (Some some_policy)).
  exact policy_agreed.
Defined.

(** ** A forged event *)

Definition other_event : EventWithMetadata :=
  mkEventWithMetadata (em_ScrubbedEvent some_event) (mkMetadata (bz "forged") ChainWitness.now root).

(** An answer with a proof for an unrelated tree. *)
Lemma proved_answer : exists res, eventAnswer res = Ok some_event.
Proof.
  destruct (MerkleProof.ProofOpForTree_ok small_tree (bz "absent")) as (op & _ & _ & Hv); [done..|].
  exists (mkResponseQuery 0 [] 0 [] (encoded some_event) (MerkleProof.ProofOps op) 1 EventsCode.Codespace).
  unfold eventAnswer. cbn [q_Code q_Value q_ProofOps negb Z.eqb].
  assert (Unmarshal (encoded some_event) = Ok some_event) as -> by (vm_compute; reflexivity).
  cbn. by rewrite Hv.
Qed.

Lemma forged_event_accepted_witness : exists res,
  eventAnswer res = Ok some_event /\ eventAnswer (with_value (encoded other_event) res) = Ok other_event.
Proof.
  destruct proved_answer as [res Hres]. exists res. split; [exact Hres|].
  apply (forged_event_accepted res some_event (encoded other_event) other_event Hres).
  vm_compute. reflexivity.
Defined.

End ClientWitness.
