(* ===== verification/System.v ===== *)
(** * The whole off-chain node

    The parts of an off-chain node put together: the round-robin client over
    connections to nodes of the chain, the MongoDB repository and the state
    store, under the handlers of [OffchainNode]. *)

From S2P Require Import Prelude Types Text Platform Abci MerkleProof IdentityApp EventsApp RetentionApp Multiplexer Chain Pool BlockchainClient ClientChain Bson Repository StateStore StateStoreFacts StoreInterface OffchainNode NodeFacts.

(** ** The client *)

Definition RoundRobin `{P : Platform} {C : Type} `{Countable C} `{ChainRpc C}
    (env env' : nat -> Pool.Moment C) : ChainClient (Pool.Pool C) := {|
  cc_GetIdentity := Client.GetIdentity env;
  cc_GetEventByTx := Client.GetEventByTx env env'
|}.

Module System.
Import Multiplexer Chain ClientChain.

Section Client.
Context `{L : PlatformLaws} `{!RoutedLaw P} {C : Type} `{Countable C} `{ChainRpc C}.
Context (env env' : nat -> Pool.Moment C) (s : ChainState).

(** Records that can be written and read back. *)
Definition readable (t : ChainState) : Prop :=
  (forall id e, c_evs t !! id = Some e -> representable e) /\
  (forall p d, IdentityApp.ids (c_ids t) !! p = Some d -> representable d).

(** A connection to a node that has executed a part of the blocks of [s]. *)
Definition follows (c : C) : Prop :=
  exists m t, serves c m /\ at_rest m t /\ readable t /\ c_evs t ⊆ c_evs s /\
    IdentityApp.ids (c_ids t) ⊆ IdentityApp.ids (c_ids s).

(** An identifier of another length is refused. *)
Lemma event_query_bad_id c m t id : at_rest m t -> serves c m -> length id <> 32%nat ->
  exists e, (let* b := Client.routed AppNameEvents in
             let* res := rpc_ABCIQuery c (Client.eventPath id) b 0 true in Client.eventAnswer res) = Err e.
Proof.
  intros Hr Hs Hl. destruct (routed_query c m t AppNameEvents Hr Hs eq_refl) as (b & -> & Hq).
  cbn [res_bind]. rewrite Hq, node_events. cbn [app_Query events_app]. unfold EventsApp.Query.
  cbn [rq_Path]. rewrite bool_decide_false by done.
  assert (EventsApp.pathRegex (Client.eventPath id) = None) as ->; [|by eexists].
  unfold EventsApp.pathRegex, Client.eventPath. change (bz "/event-by-id/") with EventsApp.pathPrefix.
  rewrite drop_app_length. unfold Hex.is_sha256_hex. rewrite Hex.length_encode.
  rewrite (bool_decide_false (2 * length id = 64)%nat) by lia. by rewrite andb_false_r.
Qed.

Lemma follows_event c id ev : follows c ->
  (let* b := Client.routed AppNameEvents in
   let* res := rpc_ABCIQuery c (Client.eventPath id) b 0 true in Client.eventAnswer res) = Ok ev ->
  c_evs s !! id = Some ev.
Proof.
  intros (m & t & Hs & Hr & [Hrd _] & Hsub & _) E. destruct (decide (length id = 32%nat)) as [Hl|Hl].
  - pose proof (event_query c m t id Hr Hs Hl (Hrd id)) as Ha. rewrite E in Ha. unfold event_answer in Ha.
    destruct (c_evs t !! id) as [e|] eqn:Ee; [injection Ha as ->; by eapply lookup_weaken|].
    destruct (decide (c_evs t = ∅)); [by destruct Ha as [? ?]|done].
  - destruct (event_query_bad_id c m t id Hr Hs Hl) as [e Ee]. congruence.
Qed.

Lemma follows_identity c p d : follows c ->
  (let* b := Client.routed AppNameIdentity in
   let* res := rpc_ABCIQuery c (Client.identityPath p) b 0 false in Client.identityAnswer res) = Ok d ->
  IdentityApp.ids (c_ids s) !! p = Some d.
Proof.
  intros (m & t & Hs & Hr & [_ Hrd] & _ & Hsub) E.
  pose proof (identity_query c m t p Hr Hs (Hrd p)) as Ha. rewrite E in Ha. unfold identity_answer in Ha.
  destruct (IdentityApp.ids (c_ids t) !! p) as [e|] eqn:Ee; [injection Ha as ->; by eapply lookup_weaken|].
  destruct Ha as [|[? ?]]; done.
Qed.

(** The connections of a pool all lead to such nodes. *)
Definition connected (p : Pool.Pool C) : Prop := Forall follows (Pool.conns p).

Lemma connected_moved e p p' : Pool.moved e p p' -> connected p -> connected p'.
Proof.
  intros Hm Hc. apply List.Forall_forall. intros c Hin. apply (proj1 (List.Forall_forall _ _) Hc).
  apply list_elem_of_In. eapply Pool.moved_conns; [done|]. by apply list_elem_of_In.
Qed.

(** A call that asks one connection. *)
Lemma ask_connected {A} (Q : A -> Prop) e p p' r (ask : C -> result A) :
  connected p -> (forall c a, follows c -> ask c = Ok a -> Q a) ->
  (do conn <- Pool.Get e ;; m_lift (fun _ => ask conn)) p = (p', r) ->
  connected p' /\ forall a, r = Ok a -> Q a.
Proof.
  intros Hc Hask E. destruct (Pool.Get_from_spec e (S (length (Pool.conns p))) 0 p) as (p1 & Hm & Hr); [lia|].
  fold (Pool.Get e p) in Hr. unfold m_bind in E. pose proof (connected_moved _ _ _ Hm Hc) as Hc1.
  destruct Hr as [(c & Eg & Hin & _)|[Eg _]]; rewrite Eg in E; injection E as <- <-; [|by split].
  split; [done|]. intros a. apply Hask.
  apply (proj1 (List.Forall_forall _ _) Hc1). by apply list_elem_of_In.
Qed.

(** The interface of the node, discharged by the round-robin client: the chain
    is [s]. *)
#[local] Instance client : ChainClient (Pool.Pool C) := RoundRobin env env'.

#[local] Program Instance client_laws : NodeFacts.ChainClientLaws (Pool.Pool C) := {|
  NodeFacts.cc_inv := connected;
  NodeFacts.on_chain _ ev := exists id, c_evs s !! id = Some ev;
  NodeFacts.registered p d := IdentityApp.ids (c_ids s) !! p = Some d
|}.
Next Obligation.
  intros k k' tx r Hk E. cbn in E. unfold Client.GetEventByTx, m_bind at 1 in E.
  destruct (Client.GetEventMetadataByTx env tx k) as [k1 r1] eqn:E1.
  destruct (ask_connected (fun _ => True) env k k1 r1 (fun c => Client.metadataOf (rpc_Tx c tx)) Hk ltac:(done) E1) as [Hk1 _].
  destruct r1 as [md|e|w]; [|injection E as <- <-; by split..].
  eapply (ask_connected (fun ev => exists id, c_evs s !! id = Some ev)); [exact Hk1| |exact E].
  intros c ev Hf Ha. exists (EventId md). exact (follows_event c _ ev Hf Ha).
Qed.
Next Obligation.
  intros k k' p r Hk E. eapply (ask_connected (fun d => IdentityApp.ids (c_ids s) !! p = Some d)); [exact Hk| |exact E].
  intros c d Hf Ha. exact (follows_identity c p d Hf Ha).
Qed.

(** ** The node *)

Context (s_readable : readable s).
Context `{Payload.PayloadJson} `{UuidLaws} {D St : Type} `{MongoLaws D} `{StateStoreLaws St}.

Lemma chain_storable tx ev data :
  NodeFacts.on_chain tx ev -> er_storable (EventRepositoryLaws := MongoFacts.Mongo_EventRepositoryLaws) (Node.full_event ev data tx).
Proof.
  intros [id Hid]. destruct (proj1 s_readable id ev Hid) as [[_ (Hp & _ & _ & _ & Ha & _)] _].
  destruct Hp as (_ & Hg & _). split; intros g Hgu; cbn in Hgu; [rewrite Hgu in Hg; exact Hg|rewrite Hgu in Ha; exact Ha].
Qed.

(** C2. The off-chain node over the MongoDB repository and connections to nodes
    of the chain, honest but possibly behind: whatever it is sent, its
    database only ever holds events recorded on the chain, each with data of
    the recorded hash, rounded to what the database can store. *)
Theorem database_matches_chain (n n' : Node.Node (Pool.Pool C) D St) as_ :
  NodeFacts.node_ok n -> NodeFacts.acts n as_ n' ->
  Forall (fun e => exists id ev data tx, c_evs s !! id = Some ev /\
      OffChainHash (em_ScrubbedEvent ev) = Hex.EncodeToString (EventHash.EventData_Hash data) /\
      e = EventDoc.stored_form (Node.full_event ev data tx))
    (MongoFacts.decoded (documents (Node.repo n'))) /\
  (MongoFacts.decoded (documents (Node.repo n)) `prefix_of` MongoFacts.decoded (documents (Node.repo n'))).
Proof.
  intros Hn Ha. destruct (NodeFacts.acts_keep chain_storable n as_ n' Hn Ha) as [Hn' Hp]. split; [|exact Hp].
  eapply List.Forall_impl; [|exact (NodeFacts.no_genuine _ Hn')].
  intros e (tx & ev & data & [id Hid] & Hh & ->). by exists id, ev, data, tx.
Qed.

End Client.
End System.
