(* ===== verification/OffchainWitness.v ===== *)
(** * An off-chain node on concrete data

    A client with one identity and one event, the reference database and the
    reference state store: the theorems about the handlers of an off-chain
    node apply to them, and the handlers run. *)

From S2P Require Import Prelude Types Text Sha256 Platform Abci MerkleProof IdentityApp EventsApp RetentionApp Multiplexer Chain Reference ChainWitness StateStore StateStoreFacts StateStoreWitness StoreInterface Pool BlockchainClient ClientChain ClientWitness Bson Repository OffchainNode NodeFacts JsonOffchain System Retention MongoReference.

Module OffchainWitness.
Import Reference ChainWitness Payload Node NodeFacts.

Abbreviation Db := (gmap bytes bytes).

(** ** Codecs *)

#[global] Instance ref_payload_json : PayloadJson := JsonOffchain.payload_json.
#[global] Instance ref_payload_laws : PayloadLaws := JsonOffchain.payload_laws.

(** ** A chain with one event *)

Definition wData : EventData := [mkEvData (Some (bz "SubjectUserName")) (Some (bz "alice"))].
Definition wTx : TxHash := bz "tx".
Definition wEv : EventWithMetadata :=
  mkEventWithMetadata (mkScrubbedEvent (Hex.EncodeToString (EventHash.EventData_Hash wData)) (mkEvent some_system))
    (mkMetadata (bz "event") now root).

#[local] Instance toy_client : ChainClient unit := {|
  cc_GetIdentity p := m_lift (fun _ => if bool_decide (p = root) then Ok root_data else Err Client.ErrPrincipalNotFound);
  cc_GetEventByTx tx := m_lift (fun _ => if bool_decide (tx = wTx) then Ok wEv else Err Client.ErrEventNotFound)
|}.

#[local] Program Instance toy_client_laws : ChainClientLaws unit := {|
  cc_inv _ := True;
  on_chain tx ev := tx = wTx /\ ev = wEv;
  registered p d := p = root /\ d = root_data
|}.
Next Obligation. intros k k' tx r _ [= _ <-]. split; [done|]. intros ev. case_bool_decide; [|done]. by intros [= <-]. Qed.
Next Obligation. intros k k' p r _ [= _ <-]. split; [done|]. intros d. case_bool_decide; [|done]. by intros [= <-]. Qed.

Lemma wEv_storable tx ev data : on_chain tx ev -> er_storable (full_event ev data tx).
Proof. intros [-> ->]. by split. Qed.

Lemma wClient_up : client_up.
Proof. intros tx ev k [-> ->] _. by exists k. Qed.

Lemma wDatabase_up : database_up (R := list bson).
Proof.
  intros r e _ _. cbn [er_Store MongoEvents.Mongo_EventRepository]. unfold MongoEvents.Store. cbn [mongo_InsertOne ref_mongo].
  destruct (existsb _ _); do 2 eexists; (split; [reflexivity|]); [right; eexists; by split|by left].
Qed.

(** A node without events. *)
Definition wNode : Node unit (list bson) Db := mkNode tt [] ∅ [].

Lemma empty_holds : MongoFacts.holds [] [].
Proof. split; [constructor..|apply NoDup_nil_2]. Qed.

Lemma wNode_ok : node_ok wNode.
Proof. split; [done|by exists []; exact empty_holds|constructor|exists emptyStore; exact empty_represents]. Qed.

Definition wSubmit : SubmitRequest :=
  mkSubmitRequest (bz "event") wTx wData root
    (Hex.EncodeToString (ed_sign root_key (EventHash.EventData_Hash wData))).

Definition wAfter : Node unit (list bson) Db := (StoreEvent true wSubmit wNode).1.

Lemma wSubmit_accepted : StoreEvent true wSubmit wNode = (wAfter, Ok None).
Proof.
  assert (Hr : (StoreEvent true wSubmit wNode).2 = Ok None) by (vm_compute; reflexivity).
  rewrite (surjective_pairing (StoreEvent true wSubmit wNode)), Hr. reflexivity.
Qed.

Lemma wReceive : acts wNode [Receive true wSubmit] wAfter.
Proof.
  apply (acts_more _ _ wAfter (Ok tt) [] wAfter); [|apply acts_none].
  exact (m_bind_ok _ (fun _ => m_ret tt) _ _ _ wSubmit_accepted).
Qed.

Lemma wAfter_ok : node_ok wAfter.
Proof. by destruct (acts_keep wEv_storable _ _ _ wNode_ok wReceive). Qed.

(** ** The handlers *)

Lemma repository_genuine_witness :
  Forall genuine (er_events (repo wAfter)) /\ (er_events (repo wNode) `prefix_of` er_events (repo wAfter)).
Proof. exact (repository_genuine wEv_storable wNode [Receive true wSubmit] wAfter wNode_ok wReceive). Defined.

Lemma submission_authentic_witness :
  (exists d ev, authentic wSubmit d ev) /\
  bz "event" ∈ stored_id <$> er_events (repo wAfter) /\ not_missing (bz "event") wAfter.
Proof. exact (submission_authentic wEv_storable true wSubmit wNode wAfter wNode_ok wSubmit_accepted). Defined.

(** The node that has the event answers the one that misses it. *)
Definition wStored : list StoredEvent :=
  match er_GetEventsById [bz "event"] (repo wAfter) with Ok es => es | _ => [] end.

Lemma wStored_found : er_GetEventsById [bz "event"] (repo wAfter) = Ok wStored.
Proof. vm_compute. reflexivity. Qed.

Definition wDecoder : Decoder (M (Node unit (list bson) Db) (list EventBackfillResponseData)) :=
  SetEventBackfillResponseHandler (fun _ res => backfillLoop (Events res)) NewDecoder.

Lemma backfill_delivers_witness : exists msg loop n',
  EventRequestHandler (bz "b") (bz "a") (NewEventRequest [bz "event"]) (repo wAfter) = Ok (Some msg) /\
  HandleMessage wDecoder (bz "b") msg = Ok (Some loop) /\ loop wNode = (n', Ok []) /\
  (forall e, e ∈ er_events (repo wAfter) -> stored_id e ∈ [bz "event"] ->
     stored_id e ∈ stored_id <$> er_events (repo n') /\ not_missing (stored_id e) n').
Proof.
  apply (backfill_delivers wEv_storable wDecoder (bz "a") (bz "b") [bz "event"] (repo wAfter) wStored wNode).
  - done.
  - exact wClient_up.
  - exact wDatabase_up.
  - exact wNode_ok.
  - exact (no_repo _ wAfter_ok).
  - exact (no_genuine _ wAfter_ok).
  - exact wStored_found.
  - by vm_compute.
  - vm_compute. repeat constructor.
  - reflexivity.
Defined.

Lemma message_reaches_handler_witness : exists msg,
  NewPayloadMarshalled TypeBroadcastEvent wSubmit = Ok msg /\
  HandleMessage (SetBroadcastHandler (fun _ req => sr_EventId req) NewDecoder) (bz "a") msg = Ok (Some (bz "event")).
Proof.
  apply (proj1 (message_reaches_handler (SetBroadcastHandler (fun _ req => sr_EventId req) NewDecoder) (bz "a"))
    (fun _ req => sr_EventId req) wSubmit); [reflexivity|vm_compute; repeat constructor].
Defined.

(** ** Failures *)

Definition wBad : EventBackfillResponseData := mkEventBackfillResponseData (bz "event") (bz "unknown") wData.
Definition wGood : EventBackfillResponseData := mkEventBackfillResponseData (bz "event") wTx wData.

Lemma bad_event_stops_backfill_witness : backfillLoop [wBad; wGood] wNode = (wNode, Ok [wGood]).
Proof. exact (bad_event_stops_backfill wBad [wGood] wNode tt Client.ErrEventNotFound eq_refl). Defined.

(** A principal that was registered with a short key. *)
#[local] Instance bad_key_client : ChainClient bool := {|
  cc_GetIdentity p := m_lift (fun _ => Ok (mkIdentityData (bz "short") RoleUser));
  cc_GetEventByTx tx := m_lift (fun _ => Err Client.ErrEventNotFound)
|}.

Lemma bad_key_crashes_node_witness : exists w,
  BroadcastHandler false wSubmit (mkNode true [] ∅ [] : Node bool (list bson) Db) = (mkNode true [] ∅ [], Panic w).
Proof.
  refine (bad_key_crashes_node false wSubmit (mkNode true [] ∅ [] : Node bool (list bson) Db) true (mkIdentityData (bz "short") RoleUser)
    (ed_sign root_key (EventHash.EventData_Hash wData)) _ _ _).
  - reflexivity.
  - exact (Hex.decode_encode _).
  - by vm_compute.
Defined.

(** ** The node over the chain of [ChainWitness] *)

Lemma sample_readable : System.readable sample.
Proof. split; [exact ClientWitness.sample_events_ok|exact ClientWitness.sample_identities_ok]. Qed.

Definition always5 : nat -> Pool.Moment Z := Pool.always 5 [].

Definition wStart : Node (Pool.Pool Z) (list bson) Db := mkNode (Pool.wPool 0) [] ∅ [].

Lemma database_matches_chain_witness : exists (m : Multiplexer.MultiplexedApplication (W := Chain.World)) n',
  @acts _ _ (Pool.Pool Z) (list bson) Db (RoundRobin (H0 := ClientWitness.served_by m) always5 always5) _ _
    wStart [Receive false wSubmit] n' /\
  Forall (fun e => exists id ev data tx, Chain.c_evs sample !! id = Some ev /\
      OffChainHash (em_ScrubbedEvent ev) = Hex.EncodeToString (EventHash.EventData_Hash data) /\
      e = EventDoc.stored_form (full_event ev data tx))
    (MongoFacts.decoded (documents (repo n'))) /\
  (MongoFacts.decoded (documents (repo wStart)) `prefix_of` MongoFacts.decoded (documents (repo n'))).
Proof.
  destruct sample_node as (m & Hr & _). exists m.
  set (rpc := ClientWitness.served_by m).
  assert (System.connected (H0 := rpc) sample (Pool.wPool 0)) as Hc.
  { assert (System.follows (H0 := rpc) sample 1) as Hf.
    { exists m, sample. split; [intros path data height prove; reflexivity|]. split; [exact Hr|].
      split; [exact sample_readable|]. split; reflexivity. }
    apply List.Forall_cons; [exact Hf|]. apply List.Forall_cons; [exact Hf|]. apply List.Forall_cons; [exact Hf|apply List.Forall_nil]. }
  eexists. split; [econstructor; [apply surjective_pairing|constructor]|].
  eapply (System.database_matches_chain (H0 := rpc) always5 always5 sample sample_readable wStart).
  - split; [exact Hc|by exists []; exact empty_holds|constructor|exists emptyStore; exact empty_represents].
  - econstructor; [apply surjective_pairing|constructor].
Defined.

End OffchainWitness.
