(* ===== verification/RetentionFacts.v ===== *)
(** * What the retention policy keeps

    The specification of [DropExpiredEvents] and the proof that the aggregation
    pipeline implements it: events outside all timestamp filters are
    candidates, and of these the newest are kept if there is a count filter. *)

From S2P Require Import Prelude Types Text Policy Bson Repository Retention.
From Corelib Require Import Init.Byte.

Module RetentionFacts.
Import Policy Aggregate MongoEvents MongoFacts.

Section Spec.
Context `{UuidText}.
Implicit Types e : StoredEvent.

Definition system (e : StoredEvent) : System := ev_System (ed_Event (st_EventWithData e)).
(** The time of reception, in milliseconds. *)
Definition received (e : StoredEvent) : Z := EventDoc.to_ms (ReceivedTime (st_Metadata e)).
Definition principal_of (e : StoredEvent) : Principal := md_Principal (st_Metadata e).

(** The event has the properties a filter names; the channel is compared with
    its case, the GUID in lower case. *)
Definition match_event (m : Match) (e : StoredEvent) : bool :=
  match m_Channel m with Some c => bool_decide (sys_Channel (system e) = c) | None => true end &&
  (match m_EventId m with Some i => sys_EventId (system e) =? i | None => true end &&
   match m_ProviderGuid m with
   | Some g => match prov_Guid (sys_Provider (system e)) with
               | Some u => bool_decide (uuid_String u = ToLower g)
               | None => false
               end
   | None => true
   end).

(** The filter does not keep the event. *)
Definition expired (now : Z) (f : Filter) (e : StoredEvent) : bool :=
  negb (match_event (f_Match f) e) || (received e <? cutoff now (pa_RetentionPeriod (f_PolicyAction f))).

(** No timestamp filter keeps the event. *)
Fixpoint candidate (clock : nat -> Z) (i : nat) (fs : list Filter) (e : StoredEvent) : bool :=
  match fs with
  | [] => true
  | f :: rest => (negb (isGlobal f) || expired (clock i) f e) && candidate clock (S i) rest e
  end.

(** Newest first. *)
Definition newest_first (es : list StoredEvent) : Prop :=
  Sorted.StronglySorted (fun a b => received b <= received a) es.

(** The identifiers of those candidates that a policy drops: all of them, or those
    behind the newest ones. *)
Definition drops_among (policy : RetentionPolicy) (candidates : list StoredEvent) (gone : EventHash -> Prop) : Prop :=
  match getCountFilter policy with
  | None => forall id, gone id <-> id ∈ stored_id <$> candidates
  | Some f =>
      let volume := Z.to_nat (pa_Volume (f_PolicyAction f)) in
      exists sorted, sorted ≡ₚ candidates /\ newest_first sorted /\
        if bool_decide (pa_RuleGroup (f_PolicyAction f) = RuleGroupingPrincipal)
        then forall id, gone id <-> exists p, id ∈ stored_id <$> drop volume (filter (fun e => principal_of e = p) sorted)
        else forall id, gone id <-> id ∈ stored_id <$> drop volume sorted
  end.

(** What the code drops. *)
Definition drops (clock : nat -> Z) (policy : RetentionPolicy) (es : list StoredEvent) (gone : EventHash -> Prop) : Prop :=
  drops_among policy (filter (fun e => candidate clock 0 (Filters policy) e = true) es) gone.

(** *** What a policy means

    The names of channels are compared without regard to case, as in the tests of
    the pipelines ([retention_docker_test.go]). *)

Definition meant_match (m : Match) (e : StoredEvent) : Prop :=
  (forall c, m_Channel m = Some c -> ToLower (sys_Channel (system e)) = ToLower c) /\
  (forall i, m_EventId m = Some i -> sys_EventId (system e) = i) /\
  (forall g, m_ProviderGuid m = Some g -> exists u, prov_Guid (sys_Provider (system e)) = Some u /\ uuid_String u = ToLower g).

(** Some timestamp filter matches the event, and its period has not passed. *)
Definition meant_kept (clock : nat -> Z) (policy : RetentionPolicy) (e : StoredEvent) : Prop :=
  exists i f, Filters policy !! i = Some f /\ isGlobal f = true /\ meant_match (f_Match f) e /\
    cutoff (clock i) (pa_RetentionPeriod (f_PolicyAction f)) <= received e.

Definition meant_drops (clock : nat -> Z) (policy : RetentionPolicy) (es : list StoredEvent) (gone : EventHash -> Prop) : Prop :=
  exists candidates, drops_among policy candidates gone /\ sublist candidates es /\
    forall e, e ∈ es -> e ∈ candidates <-> ~ meant_kept clock policy e.

(** The policy writes the names of the channels as the events do. *)
Definition case_agrees (policy : RetentionPolicy) (es : list StoredEvent) : Prop :=
  forall f c e, f ∈ Filters policy -> m_Channel (f_Match f) = Some c -> e ∈ es ->
    ToLower (sys_Channel (system e)) = ToLower c -> sys_Channel (system e) = c.

Lemma meant_matches policy es f e : case_agrees policy es -> f ∈ Filters policy -> e ∈ es ->
  match_event (f_Match f) e = true <-> meant_match (f_Match f) e.
Proof.
  intros Hc Hf He. unfold match_event, meant_match. rewrite !andb_true_iff.
  destruct (m_Channel (f_Match f)) as [c|] eqn:Ec, (m_EventId (f_Match f)) as [i|], (m_ProviderGuid (f_Match f)) as [g|],
    (prov_Guid (sys_Provider (system e))) as [u|]; rewrite ?bool_decide_eq_true, ?Z.eqb_eq; naive_solver.
Qed.

Lemma candidate_true clock fs e : forall i, candidate clock i fs e = true <->
  forall j f, fs !! j = Some f -> isGlobal f = true -> expired (clock (i + j)%nat) f e = true.
Proof.
  induction fs as [|g fs IH]; intros i; cbn [candidate]; [done|]. rewrite andb_true_iff, orb_true_iff, negb_true_iff, (IH (S i)). split.
  - intros [Hg Hfs] [|j] f; [|rewrite Nat.add_succ_r; apply Hfs]. intros [= <-] E. rewrite Nat.add_0_r. destruct Hg; congruence.
  - intros Hall. split; [|intros j f Hj; specialize (Hall (S j) f Hj); by rewrite Nat.add_succ_r in Hall].
    specialize (Hall 0%nat g eq_refl). rewrite Nat.add_0_r in Hall. destruct (isGlobal g); auto.
Qed.

Lemma meant_candidate clock policy es e : case_agrees policy es -> e ∈ es ->
  candidate clock 0 (Filters policy) e = true <-> ~ meant_kept clock policy e.
Proof.
  intros Hc He. rewrite candidate_true. split.
  - intros Hall (i & f & Hf & Hg & Hm & Hr). specialize (Hall i f Hf Hg). unfold expired in Hall.
    apply (meant_matches policy es) in Hm; [|done|by eapply list_elem_of_lookup_2|done]. rewrite Hm in Hall. cbn in Hall.
    apply Z.ltb_lt in Hall. lia.
  - intros Hn j f Hf Hg. unfold expired. cbn. destruct (match_event (f_Match f) e) eqn:Em; [|done]. cbn. apply Z.ltb_lt, Z.nle_gt. intros Hr.
    apply Hn. exists j, f. split_and!; try done. apply (meant_matches policy es); [done|by eapply list_elem_of_lookup_2|done|done].
Qed.

(** Then the code drops what is meant. *)
Lemma drops_meant clock policy es gone : case_agrees policy es -> drops clock policy es gone -> meant_drops clock policy es gone.
Proof.
  intros Hc Hd. eexists. split; [exact Hd|]. split; [apply sublist_filter|]. intros e He.
  rewrite list_elem_of_filter, (meant_candidate clock policy es e Hc He). naive_solver.
Qed.

End Spec.

(** ** The match stage *)
Section Match.
Context `{UuidLaws}.

Definition doc_of (x : Z * StoredEvent) : bson := EventDoc.stored_doc x.1 x.2.

(** A condition on one path. *)
Lemma matches_single k c doc : k <> bz "$and" -> k <> bz "$or" ->
  Query.matches (single k c) doc = Query.condition (Query.at_path k doc) c.
Proof.
  intros H1 H2. unfold single. cbn [Query.matches forallb]. by rewrite !bool_decide_false, andb_true_r by done.
Qed.

Lemma matches_and qs doc : Query.matches (single (bz "$and") (BArr qs)) doc = forallb (fun q => Query.matches q doc) qs.
Proof. unfold single. cbn [Query.matches forallb]. by rewrite bool_decide_true, andb_true_r by done. Qed.

Lemma matches_or qs doc : Query.matches (single (bz "$or") (BArr qs)) doc = existsb (fun q => Query.matches q doc) qs.
Proof.
  unfold single. cbn [Query.matches forallb]. by rewrite bool_decide_false, bool_decide_true, andb_true_r by done.
Qed.

Definition demand_holds (doc : bson) (kv : bytes * bson) : bool := Query.equals (Query.at_path kv.1 doc) kv.2.

(** What the demands of a filter are like. *)
Definition plain (kv : bytes * bson) : Prop :=
  kv.1 <> bz "$and" /\ kv.1 <> bz "$or" /\ match kv.2 with BDoc _ => False | _ => True end.

Lemma demands_plain m : Forall plain (demands m).
Proof. unfold demands. destruct (m_Channel m), (m_EventId m), (m_ProviderGuid m); repeat constructor; done. Qed.

Lemma demand_eq doc k v : plain (k, v) -> Query.matches (single k v) doc = demand_holds doc (k, v).
Proof. intros (H1 & H2 & H3). rewrite matches_single by done. by destruct v. Qed.

Lemma demand_ne doc k v : plain (k, v) -> Query.matches (single k (single (bz "$ne") v)) doc = negb (demand_holds doc (k, v)).
Proof.
  intros (H1 & H2 & _). rewrite matches_single by done.
  unfold single. cbn [Query.condition forallb]. unfold Query.operator. by rewrite bool_decide_true, andb_true_r by done.
Qed.

(** A filter's clause: some demand fails, or all hold and the event is old. *)
Lemma clause_demands ds doc old : Forall plain ds ->
  existsb (fun q => Query.matches q doc) ((fun '(k, v) => single k (single (bz "$ne") v)) <$> ds) ||
  (old && forallb (fun q => Query.matches q doc) ((fun '(k, v) => single k v) <$> ds)) =
  negb (forallb (demand_holds doc) ds) || old.
Proof.
  intros Hp.
  assert (existsb (fun q => Query.matches q doc) ((fun '(k, v) => single k (single (bz "$ne") v)) <$> ds) =
          negb (forallb (demand_holds doc) ds)) as ->.
  { induction ds as [|[k v] ds IH]; [done|]. apply List.Forall_cons_iff in Hp as [Hkv Hp]. cbn [fmap list_fmap existsb forallb].
    rewrite (demand_ne doc k v Hkv), negb_andb. f_equal. by apply IH. }
  assert (forallb (fun q => Query.matches q doc) ((fun '(k, v) => single k v) <$> ds) =
          forallb (demand_holds doc) ds) as ->.
  { induction ds as [|[k v] ds IH]; [done|]. apply List.Forall_cons_iff in Hp as [Hkv Hp]. cbn [fmap list_fmap forallb].
    rewrite (demand_eq doc k v Hkv). f_equal. by apply IH. }
  by destruct old, (forallb _ ds).
Qed.

Lemma braced_eq u g : bool_decide (Guid.braced u = bz "{" ++ ToLower g ++ bz "}") = bool_decide (uuid_String u = ToLower g).
Proof.
  apply bool_decide_ext. unfold Guid.braced. split; [|by intros ->].
  intros E. apply app_inv_head in E. by apply app_inv_tail in E.
Qed.

Lemma demands_match m x : forallb (demand_holds (doc_of x)) (demands m) = match_event m x.2.
Proof.
  unfold demands, match_event. rewrite !forallb_app. f_equal; [|f_equal].
  - destruct (m_Channel m); [|done]. cbn [forallb]. rewrite andb_true_r. done.
  - destruct (m_EventId m); [|done]. cbn [forallb]. rewrite andb_true_r. done.
  - destruct (m_ProviderGuid m) as [g|]; [|done]. cbn [forallb]. rewrite andb_true_r. unfold demand_holds, fst, snd.
    change (Query.at_path KeyProvider (doc_of x)) with
      (Some (EventDoc.opt_doc Guid.MarshalBSONValue (prov_Guid (sys_Provider (system x.2))))).
    destruct (prov_Guid _) as [u|]; [|done]. apply braced_eq.
Qed.

Lemma matches_clause now f x : Query.matches (filterClause now f) (doc_of x) = expired now f x.2.
Proof.
  unfold filterClause, orClause. rewrite matches_or, existsb_app. cbn [existsb]. rewrite orb_false_r, matches_and.
  unfold andClause. cbn [forallb].
  assert (Query.matches (single KeyTimestamp (single (bz "$lt")
            (BDate (cutoff now (pa_RetentionPeriod (f_PolicyAction f)))))) (doc_of x) =
          (received x.2 <? cutoff now (pa_RetentionPeriod (f_PolicyAction f)))) as ->.
  { rewrite matches_single by done. unfold single. cbn [Query.condition forallb]. unfold Query.operator.
    by rewrite bool_decide_false, bool_decide_true, andb_true_r by done. }
  rewrite clause_demands by apply demands_plain. by rewrite demands_match.
Qed.

Lemma matcher_spec clock fs : forall i, exists clauses, matcher clock i fs = Ok clauses /\
  forall x, forallb (fun q => Query.matches q (doc_of x)) clauses = candidate clock i fs x.2.
Proof.
  induction fs as [|f fs IH]; intros i; [by exists []|]. cbn [matcher candidate].
  destruct (IH (S i)) as (clauses & E & Hc). destruct (isGlobal f) eqn:Hg; cbn [negb orb].
  - unfold isGlobal in Hg. apply andb_true_iff in Hg as [Ht _]. rewrite Ht. cbn [negb]. rewrite E.
    eexists. split; [done|]. intros x. cbn [forallb]. by rewrite matches_clause, Hc.
  - exists clauses. by rewrite E.
Qed.

End Match.
(** ** The other stages *)
Section Pipeline.
Context `{UuidLaws}.
Import Stages.

Lemma pipeline_inv s rest docs out : pipeline (s :: rest) docs out ->
  exists docs', stage s docs docs' /\ pipeline rest docs' out.
Proof. inversion 1; subst. eauto. Qed.

Lemma pipeline_nil docs out : pipeline [] docs out -> out = docs.
Proof. by inversion 1. Qed.

Lemma single_inj k k' v v' : single k v = single k' v' -> k = k' /\ v = v'.
Proof. by intros [= -> ->]. Qed.

(** The operator and the argument of a stage determine its rule. *)
Lemma stage_inv k v docs out : stage (single k v) docs out ->
  (k = bz "$match" /\ out = filter (fun doc => Query.matches v doc = true) docs) \/
  (k = bz "$sort" /\ exists path, v = single path (BInt (-1)) /\ out ≡ₚ docs /\
     Sorted.StronglySorted (not_before path) out) \/
  (k = bz "$skip" /\ exists n, v = BInt n /\ 0 <= n /\ out = drop (Z.to_nat n) docs) \/
  (k = bz "$group" /\ exists key acc keys groups,
     v = BDoc [(bz "_id", key); (bz "events", single (bz "$push") acc)] /\
     mapM (fun doc => eval None doc key) docs = Some keys /\
     mapM (group_doc key acc docs) (distinct keys) = Some groups /\ out ≡ₚ groups) \/
  (k = bz "$project" /\ exists spec, v = BDoc spec /\ mapM (project spec) docs = Some out) \/
  (k = bz "$unwind" /\ exists f, v = BStr (bz "$" ++ f) /\ out = concat (unwind f <$> docs)) \/
  (k = bz "$replaceRoot" /\ exists e, v = single (bz "newRoot") e /\ mapM (fun doc => eval None doc e) docs = Some out).
Proof.
  intros Hs. remember (single k v) as st eqn:Est. destruct Hs; apply single_inj in Est as [<- <-]; naive_solver.
Qed.

(** Only one of the rules is for the operator at hand. *)
Ltac only_rule Hs := apply stage_inv in Hs as [Hs|[Hs|[Hs|[Hs|[Hs|[Hs|Hs]]]]]]; destruct Hs as [Hop Hs]; try discriminate Hop; clear Hop.

Lemma group_inv key acc docs out :
  stage (single (bz "$group") (BDoc [(bz "_id", key); (bz "events", single (bz "$push") acc)])) docs out ->
  exists keys groups, mapM (fun doc => eval None doc key) docs = Some keys /\
    mapM (group_doc key acc docs) (distinct keys) = Some groups /\ out ≡ₚ groups.
Proof. intros Hs. only_rule Hs. destruct Hs as (key' & acc' & keys & groups & [= -> ->] & Hs). eauto. Qed.

Lemma project_inv spec docs out : stage (single (bz "$project") (BDoc spec)) docs out -> mapM (project spec) docs = Some out.
Proof. intros Hs. only_rule Hs. by destruct Hs as (spec' & [= ->] & Hs). Qed.

Lemma unwind_inv f docs out : stage (single (bz "$unwind") (BStr (bz "$" ++ f))) docs out -> out = concat (unwind f <$> docs).
Proof. intros Hs. only_rule Hs. by destruct Hs as (f' & [= ->] & Hs). Qed.

Lemma replaceRoot_inv e docs out : stage (single (bz "$replaceRoot") (single (bz "newRoot") e)) docs out ->
  mapM (fun doc => eval None doc e) docs = Some out.
Proof. intros Hs. only_rule Hs. by destruct Hs as (e' & [= ->] & Hs). Qed.

Lemma sort_inv path docs out : stage (single (bz "$sort") (single path (BInt (-1)))) docs out ->
  out ≡ₚ docs /\ Sorted.StronglySorted (not_before path) out.
Proof. intros Hs. only_rule Hs. by destruct Hs as (path' & [= ->] & Hs). Qed.

Lemma skip_inv n docs out : stage (single (bz "$skip") (BInt n)) docs out -> 0 <= n /\ out = drop (Z.to_nat n) docs.
Proof. intros Hs. only_rule Hs. by destruct Hs as (n' & [= ->] & Hs). Qed.

Lemma match_inv q docs out : stage (single (bz "$match") q) docs out ->
  out = filter (fun doc => Query.matches q doc = true) docs.
Proof. intros Hs. by only_rule Hs. Qed.

(** *** Collecting identifiers *)

Lemma mapM_const {A B} (f : A -> option B) b (l : list A) :
  (forall a, f a = Some b) -> mapM f l = Some (replicate (length l) b).
Proof. intros Hf. induction l as [|a l IH]; [done|]. cbn. rewrite Hf. cbn. cbn in IH. by rewrite IH. Qed.

Lemma mapM_image {A B C} (f : A -> option B) (g : C -> A) (h : C -> B) (l : list C) :
  (forall c, c ∈ l -> f (g c) = Some (h c)) -> mapM f (g <$> l) = Some (h <$> l).
Proof.
  induction l as [|c l IH]; intros Hf; [done|]. cbn. rewrite Hf by apply list_elem_of_here. cbn.
  cbn in IH. rewrite IH; [done|]. intros x Hx. apply Hf. by apply list_elem_of_further.
Qed.

Lemma distinct_nulls n : distinct (replicate n BNull) = match n with O => [] | S _ => [BNull] end.
Proof. induction n as [|n IH]; [done|]. cbn. rewrite IH. by destruct n. Qed.

Lemma filter_all {A} (P : A -> Prop) `{forall a, Decision (P a)} (l : list A) : (forall a, P a) -> filter P l = l.
Proof. intros HP. induction l as [|a l IH]; [done|]. rewrite filter_cons, decide_True by done. by rewrite IH. Qed.

(** Pushing a value of every document into one array, and keeping only that. *)
Lemma extracted_ids {A} (doc : A -> bson) (value : A -> bson) acc (l : list A) out :
  (forall a, eval None (doc a) acc = Some (value a)) ->
  pipeline [single (bz "$group") (BDoc [(bz "_id", BNull); (bz "events", single (bz "$push") acc)]);
            stageProjectEventsOnly] (doc <$> l) out ->
  out = match l with [] => [] | _ => [single (bz "events") (BArr (value <$> l))] end.
Proof.
  intros Hv Hp. apply pipeline_inv in Hp as (docs & Hs & Hp). apply group_inv in Hs as (keys & groups & Hk & Hg & Ho).
  rewrite (mapM_const _ BNull) in Hk by done. injection Hk as <-. rewrite length_fmap, distinct_nulls in Hg.
  apply pipeline_inv in Hp as (docs' & Hs & Hp). apply pipeline_nil in Hp as ->. apply project_inv in Hs.
  destruct l as [|a l].
  { injection Hg as <-. symmetry in Ho. apply Permutation_nil in Ho as ->. by injection Hs. }
  cbn [length] in Hg.
  assert (group_doc BNull acc (doc <$> a :: l) BNull =
          Some (BDoc [(bz "_id", BNull); (bz "events", BArr (value <$> a :: l))])) as E.
  { unfold group_doc. rewrite filter_all by done. by rewrite (mapM_image _ doc value) by done. }
  rewrite (mapM_image _ (fun _ => BNull) (fun _ => BDoc [(bz "_id", BNull); (bz "events", BArr (value <$> a :: l))]) [tt]) in Hg by done.
  injection Hg as <-. symmetry in Ho.
  apply Permutation_singleton_l in Ho. subst docs. by injection Hs as <-.
Qed.

(** *** Sorting *)

Lemma permutation_image {A B} (f : A -> B) (l : list A) k : k ≡ₚ f <$> l -> exists l', l' ≡ₚ l /\ k = f <$> l'.
Proof.
  intros Hp. apply Permutation_map_inv in Hp as (l' & -> & Hl). by exists l'.
Qed.

Lemma sorted_image {A B} (f : A -> B) (Q : B -> B -> Prop) (Q' : A -> A -> Prop) (l : list A) :
  (forall a b, Q (f a) (f b) -> Q' a b) ->
  Sorted.StronglySorted Q (f <$> l) -> Sorted.StronglySorted Q' l.
Proof.
  intros Hq. induction l as [|a l IH]; cbn; intros Hs; [constructor|].
  apply Sorted.StronglySorted_inv in Hs as [Hs Ha]. constructor; [by apply IH|].
  apply (Forall_fmap f) in Ha. eapply List.Forall_impl; [|exact Ha]. intros b. apply Hq.
Qed.

Lemma sorted_snd {A B} (Q : B -> B -> Prop) (l : list (A * B)) :
  Sorted.StronglySorted (fun a b => Q a.2 b.2) l -> Sorted.StronglySorted Q (snd <$> l).
Proof.
  induction 1 as [|x l Hs IH Hx]; cbn; constructor; [done|]. by apply Forall_fmap.
Qed.

Lemma sort_spec xs out : stage (single (bz "$sort") (single KeyTimestamp (BInt (-1)))) (doc_of <$> xs) out ->
  exists ys, ys ≡ₚ xs /\ out = doc_of <$> ys /\ newest_first (snd <$> ys).
Proof.
  intros Hs. apply sort_inv in Hs as [Hp Hsort]. apply permutation_image in Hp as (ys & Hp & ->).
  exists ys. split; [done|]. split; [done|]. apply sorted_snd. by apply (sorted_image doc_of (not_before KeyTimestamp)).
Qed.

(** *** Grouping by principal *)

Fixpoint uniq (ps : list bytes) : list bytes :=
  match ps with
  | [] => []
  | p :: rest => p :: filter (fun q => q <> p) (uniq rest)
  end.

Lemma elem_of_uniq p ps : p ∈ uniq ps <-> p ∈ ps.
Proof.
  induction ps as [|q ps IH]; [done|]. cbn [uniq]. rewrite !elem_of_cons, list_elem_of_filter, IH.
  destruct (decide (p = q)); naive_solver.
Qed.

Lemma distinct_strings ps : distinct (BStr <$> ps) = BStr <$> uniq ps.
Proof.
  induction ps as [|p ps IH]; [done|]. cbn [fmap list_fmap distinct uniq].
  change (list_fmap bytes bson BStr ps) with (BStr <$> ps). rewrite IH. f_equal. clear IH.
  induction (uniq ps) as [|q l IHl]; [done|]. cbn [fmap list_fmap]. rewrite !filter_cons. cbn [Query.scalar_eqb].
  destruct (decide (q = p)) as [->|Hne].
  - rewrite bool_decide_true by done. rewrite decide_False by done. rewrite decide_False by naive_solver. exact IHl.
  - rewrite bool_decide_false by done. rewrite !decide_True by done. cbn [fmap list_fmap]. f_equal. exact IHl.
Qed.

Lemma filter_image {A B} (f : A -> B) (g : B -> bool) (P : A -> Prop) `{forall a, Decision (P a)} (l : list A) :
  (forall a, g (f a) = true <-> P a) -> filter (fun b => g b = true) (f <$> l) = f <$> filter P l.
Proof.
  intros Hg. induction l as [|a l IH]; [done|]. cbn [fmap list_fmap]. rewrite !filter_cons.
  change (list_fmap A B f l) with (f <$> l). rewrite IH. destruct (decide (P a)) as [Ha|Ha].
  - by rewrite decide_True by (by apply Hg).
  - by rewrite decide_False by (by rewrite Hg).
Qed.

Definition hex_of (x : Z * StoredEvent) : bson := BStr (Hex.EncodeToString (stored_id x.2)).
Definition of_principal (p : bytes) (ys : list (Z * StoredEvent)) : list (Z * StoredEvent) :=
  filter (fun x => principal_of x.2 = p) ys.

(** The documents between the stages. *)
Definition pushed (x : Z * StoredEvent) : bson :=
  BDoc [(bz "event_id", hex_of x); (bz "principal", BStr (principal_of x.2))].
Definition id_doc (x : Z * StoredEvent) : bson := single (bz "event_id") (hex_of x).
Definition grouped ys (p : bytes) : bson :=
  BDoc [(bz "_id", BStr p); (bz "events", BArr (pushed <$> of_principal p ys))].
Definition surplus (volume : Z) ys (p : bytes) : list (Z * StoredEvent) := drop (Z.to_nat volume) (of_principal p ys).
Definition projected (volume : Z) ys (p : bytes) : bson :=
  BDoc [(bz "_id", BStr p); (bz "principal", BStr p); (bz "events", BArr (id_doc <$> surplus volume ys p))].
Definition unwound (p : bytes) (x : Z * StoredEvent) : bson :=
  BDoc [(bz "_id", BStr p); (bz "principal", BStr p); (bz "events", id_doc x)].

Lemma group_principal ys p :
  group_doc (dollar KeyPrincipal) (BDoc [(bz "event_id", dollar KeyEventId); (bz "principal", dollar KeyPrincipal)])
    (doc_of <$> ys) (BStr p) = Some (grouped ys p).
Proof.
  unfold group_doc. rewrite (filter_image doc_of _ (fun x => principal_of x.2 = p)).
  - by rewrite (mapM_image _ doc_of pushed) by done.
  - intros x. change (eval None (doc_of x) (dollar KeyPrincipal)) with (Some (BStr (principal_of x.2))).
    cbn [Query.equals Query.scalar_eqb]. apply bool_decide_eq_true.
Qed.

Lemma eval_ids ys p : eval None (grouped ys p) eventIds = Some (BArr (id_doc <$> of_principal p ys)).
Proof.
  unfold eventIds, single at 1. cbn [eval]. rewrite !bool_decide_false by done. rewrite bool_decide_true by done.
  change (eval None (grouped ys p) (dollar (bz "events"))) with (Some (BArr (pushed <$> of_principal p ys))).
  cbn iota. by rewrite (mapM_image _ pushed id_doc) by done.
Qed.

Lemma eval_size ys p : eval None (grouped ys p) groupSize = Some (BInt (zlen (of_principal p ys))).
Proof.
  unfold groupSize, single. cbn [eval]. rewrite bool_decide_true by done.
  change (eval None (grouped ys p) (dollar (bz "events"))) with (Some (BArr (pushed <$> of_principal p ys))).
  unfold zlen. by rewrite length_fmap.
Qed.

Lemma eval_slice doc a (k n : bson) : eval None doc (single (bz "$slice") (BArr [a; k; n])) =
  match eval None doc a, eval None doc k, eval None doc n with
  | Some (BArr l), Some (BInt p), Some (BInt n) =>
      if (0 <=? p) && (0 <? n) then Some (BArr (take (Z.to_nat n) (drop (Z.to_nat p) l))) else None
  | _, _, _ => None
  end.
Proof. reflexivity. Qed.

Lemma eval_surplus volume ys p : 0 <= volume -> of_principal p ys <> [] ->
  eval None (grouped ys p) (afterVolume volume) = Some (BArr (id_doc <$> surplus volume ys p)).
Proof.
  intros Hv Hne. unfold afterVolume. rewrite eval_slice, eval_ids, eval_size. cbn [eval].
  assert (0 < zlen (of_principal p ys)) by (unfold zlen; destruct (of_principal p ys); [done|cbn; lia]).
  rewrite (proj2 (Z.leb_le _ _)), (proj2 (Z.ltb_lt _ _)) by lia. cbn [andb].
  do 2 f_equal. rewrite take_ge; [by rewrite <- fmap_drop|]. rewrite length_drop, length_fmap. unfold zlen. lia.
Qed.

Definition computed (e : bson) : Prop := match e with BInt _ => False | _ => True end.

Lemma project_two k1 e1 v1 k2 e2 v2 id doc :
  k1 <> bz "_id" -> k2 <> bz "_id" -> computed e1 -> computed e2 -> Query.at_path (bz "_id") doc = Some id ->
  eval None doc e1 = Some v1 -> eval None doc e2 = Some v2 ->
  project [(k1, e1); (k2, e2)] doc = Some (BDoc [(bz "_id", id); (k1, v1); (k2, v2)]).
Proof.
  intros H1 H2 C1 C2 Hid E1 E2. unfold project. rewrite !filter_cons. cbn [fst].
  rewrite !decide_True by done. rewrite filter_nil. cbn [EventDoc.lookup_field].
  rewrite !bool_decide_false by done. rewrite Hid.
  rewrite (mapM_image _ (fun b : bool => if b then (k1, e1) else (k2, e2))
             (fun b : bool => if b then (k1, v1) else (k2, v2)) [true; false]); [done|].
  intros [] _; [destruct e1|destruct e2]; try done; by rewrite ?E1, ?E2.
Qed.

Lemma project_principal volume ys p : 0 <= volume -> of_principal p ys <> [] ->
  project [(bz "principal", dollar (bz "_id")); (bz "events", afterVolume volume)] (grouped ys p) =
  Some (projected volume ys p).
Proof. intros Hv Hne. apply project_two; try done. by apply eval_surplus. Qed.

Lemma unwind_principal volume ys p : unwind (bz "events") (projected volume ys p) = unwound p <$> surplus volume ys p.
Proof.
  unfold unwind. change (Query.at_path (bz "events") (projected volume ys p)) with (Some (BArr (id_doc <$> surplus volume ys p))).
  cbn iota. rewrite <- list_fmap_compose. by apply list_fmap_ext.
Qed.

Lemma mapM_concat {A B} (f : A -> option B) (ls : list (list A)) (ks : list (list B)) :
  Forall2 (fun l k => mapM f l = Some k) ls ks -> mapM f (concat ls) = Some (concat ks).
Proof.
  induction 1 as [|l k ls ks E Hs IH]; [done|]. cbn [concat]. apply mapM_Some. apply Forall2_app; by apply mapM_Some.
Qed.

(** The pipeline of a count filter that applies to principals. *)
Lemma perPrincipal_spec volume ys out : 0 <= volume -> pipeline (perPrincipal volume) (doc_of <$> ys) out ->
  exists ps, (forall p, p ∈ ps <-> p ∈ (fun x => principal_of x.2) <$> ys) /\
    let l := concat (surplus volume ys <$> ps) in
    out = match l with [] => [] | _ => [single (bz "events") (BArr (hex_of <$> l))] end.
Proof.
  intros Hv Hp. unfold perPrincipal in Hp.
  apply pipeline_inv in Hp as (d1 & Hs & Hp). apply group_inv in Hs as (keys & groups & Hk & Hg & Ho).
  rewrite (mapM_image _ doc_of (fun x => BStr (principal_of x.2))) in Hk by done. injection Hk as <-.
  change ((fun x => BStr (principal_of x.2)) <$> ys) with ((BStr ∘ (fun x => principal_of x.2)) <$> ys) in Hg.
  rewrite list_fmap_compose, distinct_strings in Hg.
  rewrite (mapM_image _ BStr (grouped ys)) in Hg by (intros; apply group_principal). injection Hg as <-.
  apply permutation_image in Ho as (ps & Hps & ->). exists ps. split; [intros p; rewrite Hps; apply elem_of_uniq|]. intros l.
  apply pipeline_inv in Hp as (d2 & Hs & Hp). apply project_inv in Hs.
  rewrite (mapM_image _ (grouped ys) (projected volume ys)) in Hs.
  2: { intros p Hin. apply project_principal; [done|]. rewrite Hps in Hin. apply elem_of_uniq, list_elem_of_fmap in Hin.
    destruct Hin as (x & -> & Hx). intros E. apply (not_elem_of_nil x). rewrite <- E.
    by apply list_elem_of_filter. }
  injection Hs as <-.
  apply pipeline_inv in Hp as (d3 & Hs & Hp). apply (unwind_inv (bz "events")) in Hs as ->.
  apply pipeline_inv in Hp as (d4 & Hs & Hp). apply replaceRoot_inv in Hs.
  rewrite (mapM_concat _ _ ((fun p => id_doc <$> surplus volume ys p) <$> ps)) in Hs.
  2: { rewrite <- list_fmap_compose. apply Forall2_fmap_2. apply Forall_Forall2_diag, List.Forall_forall. intros p _. unfold compose.
    rewrite unwind_principal. by apply (mapM_image _ (unwound p) id_doc). }
  injection Hs as <-.
  change ((fun p => id_doc <$> surplus volume ys p) <$> ps) with ((fmap id_doc ∘ surplus volume ys) <$> ps) in Hp.
  rewrite list_fmap_compose, <- (concat_map id_doc (surplus volume ys <$> ps)) in Hp.
  by apply (extracted_ids id_doc hex_of) in Hp.
Qed.

(** *** The whole pipeline *)

Definition ids_of (gone : list (Z * StoredEvent)) : list EventHash := (fun x => stored_id x.2) <$> gone.

(** The result of a scan that found some events. *)
Definition scan_result (gone : list (Z * StoredEvent)) : list bson :=
  match gone with [] => [] | _ => [single (bz "events") (BArr (hex_of <$> gone))] end.

Lemma ids_of_snd gone : ids_of gone = stored_id <$> (snd <$> gone).
Proof. unfold ids_of. rewrite <- list_fmap_compose. done. Qed.

Lemma filter_snd (P : StoredEvent -> Prop) `{forall e, Decision (P e)} (xs : list (Z * StoredEvent)) :
  filter P (snd <$> xs) = snd <$> filter (fun x => P x.2) xs.
Proof.
  induction xs as [|x xs IH]; [done|]. rewrite fmap_cons, !filter_cons, IH. by case_decide.
Qed.

Lemma match_spec clock fs clauses xs rest out :
  matcher clock 0 fs = Ok clauses ->
  pipeline (match clauses with [] => [] | _ => [single (bz "$match") (single (bz "$and") (BArr clauses))] end ++ rest)
    (doc_of <$> xs) out ->
  pipeline rest (doc_of <$> filter (fun x => candidate clock 0 fs x.2 = true) xs) out.
Proof.
  intros Em Hp. destruct (matcher_spec clock fs 0) as (clauses' & Em' & Hc). rewrite Em in Em'. injection Em' as <-.
  destruct clauses as [|c clauses].
  - rewrite (filter_all (fun x => candidate clock 0 fs x.2 = true)); [done|]. intros x. by rewrite <- Hc.
  - apply pipeline_inv in Hp as (docs & Hs & Hp). apply match_inv in Hs as ->.
    rewrite (filter_image doc_of _ (fun x => candidate clock 0 fs x.2 = true)) in Hp; [done|].
    intros x. by rewrite matches_and, Hc.
Qed.

Lemma count_filter_group policy f : well_formed policy -> getCountFilter policy = Some f ->
  pa_RuleGroup (f_PolicyAction f) = RuleGroupingGlobal \/ pa_RuleGroup (f_PolicyAction f) = RuleGroupingPrincipal.
Proof.
  intros (_ & Hwf & _) Hf. apply find_some in Hf as [Hin Ht]. apply bool_decide_eq_true in Ht.
  destruct (proj1 (List.Forall_forall _ _) Hwf f Hin) as [(_ & _ & _ & Hg)|(Ht' & _)]; [done|].
  rewrite Ht in Ht'. done.
Qed.

Lemma skip_spec ys volume out :
  pipeline [single (bz "$skip") (BInt volume); stageExtractIds; stageProjectEventsOnly] (doc_of <$> ys) out ->
  out = scan_result (drop (Z.to_nat volume) ys).
Proof.
  intros Hp. apply pipeline_inv in Hp as (d & Hs & Hp). apply skip_inv in Hs as [_ ->].
  rewrite <- fmap_drop in Hp. by apply (extracted_ids doc_of hex_of) in Hp.
Qed.

Lemma elem_of_surplus volume ys ps id :
  (forall p, p ∈ ps <-> p ∈ (fun x => principal_of x.2) <$> ys) ->
  id ∈ ids_of (concat (surplus volume ys <$> ps)) <->
  exists p, id ∈ stored_id <$> drop (Z.to_nat volume) (filter (fun e => principal_of e = p) (snd <$> ys)).
Proof.
  intros Hps. rewrite ids_of_snd. split.
  - intros Hin. apply list_elem_of_fmap in Hin as (e & -> & Hin). apply list_elem_of_fmap in Hin as (x & -> & Hin).
    apply list_elem_of_In, in_concat in Hin as (l & Hl & Hx). apply list_elem_of_In, list_elem_of_fmap in Hl as (p & -> & _).
    exists p. rewrite filter_snd, <- fmap_drop. apply list_elem_of_fmap. exists x.2. split; [done|].
    apply list_elem_of_fmap. exists x. split; [done|]. by apply list_elem_of_In.
  - intros [p Hin]. rewrite filter_snd, <- fmap_drop in Hin.
    apply list_elem_of_fmap in Hin as (e & -> & Hin). apply list_elem_of_fmap in Hin as (x & -> & Hin).
    apply list_elem_of_fmap. exists x.2. split; [done|]. apply list_elem_of_fmap. exists x. split; [done|].
    apply list_elem_of_In, in_concat. exists (surplus volume ys p). split; [|by apply list_elem_of_In].
    apply list_elem_of_In, list_elem_of_fmap. exists p. split; [done|]. apply Hps.
    assert (x ∈ of_principal p ys) as Hx. { rewrite <- (take_drop (Z.to_nat volume) (of_principal p ys)), elem_of_app. by right. }
    apply list_elem_of_filter in Hx as [Hp Hx]. apply list_elem_of_fmap. eauto.
Qed.

Lemma aggregate_spec clock policy xs pl out :
  (forall f, f ∈ Filters policy -> 0 <= pa_Volume (f_PolicyAction f)) ->
  buildAggregate clock policy = Ok pl -> pipeline pl (doc_of <$> xs) out ->
  exists gone, out = scan_result gone /\ drops clock policy (snd <$> xs) (fun id => id ∈ ids_of gone).
Proof.
  intros Hvol Hb Hp. unfold buildAggregate in Hb. destruct (Validate policy) eqn:Hval; [done|]. apply Validate_wf in Hval.
  apply res_bind_ok in Hb as (clauses & Em & Hb). unfold drops, drops_among. rewrite filter_snd.
  set (cs := filter (fun x => candidate clock 0 (Filters policy) x.2 = true) xs).
  destruct (getCountFilter policy) as [f|] eqn:Ec.
  2: { injection Hb as <-. apply (match_spec _ _ _ _ _ _ Em), (extracted_ids doc_of hex_of) in Hp; [|done].
       exists cs. split; [exact Hp|]. intros id. by rewrite ids_of_snd. }
  assert (0 <= pa_Volume (f_PolicyAction f)) as Hv.
  { apply Hvol, list_elem_of_In. by apply find_some in Ec as [Hin _]. }
  destruct (count_filter_group policy f Hval Ec) as [Hg|Hg]; rewrite Hg in Hb |- *; cbn in Hb;
    injection Hb as <-; rewrite <- app_assoc in Hp; apply (match_spec _ _ _ _ _ _ Em) in Hp;
    apply pipeline_inv in Hp as (d & Hs & Hp); apply sort_spec in Hs as (ys & Hperm & -> & Hsort).
  - apply skip_spec in Hp. exists (drop (Z.to_nat (pa_Volume (f_PolicyAction f))) ys). split; [done|].
    exists (snd <$> ys). split; [by rewrite Hperm|]. split; [done|]. cbn. intros id. by rewrite ids_of_snd, fmap_drop.
  - apply perPrincipal_spec in Hp as (ps & Hps & Hout); [|done].
    exists (concat (surplus (pa_Volume (f_PolicyAction f)) ys <$> ps)). split; [exact Hout|].
    exists (snd <$> ys). split; [by rewrite Hperm|]. split; [done|]. cbn. intros id. by apply elem_of_surplus.
Qed.

End Pipeline.

(** ** Dropping events *)
Section Drop.
Context `{UuidLaws} {D : Type} `{AggregateLaws D}.

Lemma dec_hexes gone : EventDoc.dec_list TxHash.UnmarshalBSONValue (hex_of <$> gone) = Ok (ids_of gone).
Proof.
  induction gone as [|x gone IH]; [done|]. rewrite fmap_cons. cbn [EventDoc.dec_list].
  change (TxHash.UnmarshalBSONValue (hex_of x)) with (Hex.DecodeString (Hex.EncodeToString (stored_id x.2))).
  rewrite Hex.decode_encode. cbn [res_bind]. by rewrite IH.
Qed.

Lemma dec_scan gone : EventDoc.dec_list Expiry.scan_events (scan_result gone) =
  Ok (match gone with [] => [] | _ => [ids_of gone] end).
Proof.
  destruct gone as [|x gone]; [done|]. cbn [scan_result EventDoc.dec_list].
  assert (Expiry.scan_events (single (bz "events") (BArr (hex_of <$> x :: gone))) = Ok (ids_of (x :: gone))) as ->.
  { unfold Expiry.scan_events, single. cbn [EventDoc.doc_fields res_bind]. rewrite EventDoc.field_here. apply dec_hexes. }
  done.
Qed.

Lemma holds_pairs docs evs : holds docs evs -> exists xs, docs = doc_of <$> xs /\ evs = snd <$> xs.
Proof.
  intros [Hd _ _]. induction Hd as [|doc e docs evs [oid ->] _ (xs & -> & ->)]; [by exists []|].
  by exists ((oid, e) :: xs).
Qed.

(** Deleting by identifier. *)
Lemma holds_delete docs evs gone : holds docs evs ->
  holds (filter (fun doc => Query.matches (idFilter gone) doc = false) docs) (filter (fun e => stored_id e ∉ gone) evs).
Proof.
  intros Hh. pose proof (filter_docs (fun doc => negb (Query.matches (idFilter gone) doc))
    (fun e => negb (bool_decide (stored_id e ∈ gone))) docs evs) as Hf.
  destruct Hh as [Hd Hok Hnd]. split.
  - specialize (Hf (fun oid e => f_equal negb (matches_ids oid e gone)) Hd).
    rewrite (list_filter_iff _ (fun doc => negb (Query.matches (idFilter gone) doc) = true) docs)
      by (intros; symmetry; apply negb_true_iff).
    rewrite (list_filter_iff _ (fun e => negb (bool_decide (stored_id e ∈ gone)) = true) evs); [exact Hf|].
    intros e. rewrite negb_true_iff, bool_decide_eq_false. reflexivity.
  - apply List.Forall_forall. intros e He. apply list_elem_of_In, list_elem_of_filter in He as [_ He].
    by apply (proj1 (List.Forall_forall _ _) Hok), list_elem_of_In.
  - eapply sublist_NoDup; [exact Hnd|]. apply fmap_sublist, sublist_filter.
Qed.

Lemma drop_spec d d' evs clock policy :
  holds (documents d) evs -> (forall f, f ∈ Filters policy -> 0 <= pa_Volume (f_PolicyAction f)) ->
  Expiry.DropExpiredEvents clock policy d = (d', Ok tt) ->
  exists gone : list EventHash, drops clock policy evs (fun id => id ∈ gone) /\
    holds (documents d') (filter (fun e => stored_id e ∉ gone) evs).
Proof.
  intros Hh Hvol E. unfold Expiry.DropExpiredEvents in E. destruct (Validate policy); [done|].
  destruct (buildAggregate clock policy) as [pl|err|w] eqn:Eb; cbn [res_bind] in E; [|done..].
  destruct (mongo_Aggregate pl d) as [docs|err|w] eqn:Ea; cbn [res_bind] in E; [|done..].
  apply law_Aggregate in Ea. destruct (holds_pairs _ _ Hh) as (xs & Exs & ->). rewrite Exs in Ea.
  destruct (aggregate_spec clock policy xs pl docs Hvol Eb Ea) as (gone & -> & Hdrops).
  rewrite dec_scan in E. exists (ids_of gone). split; [done|]. destruct gone as [|x gone].
  - injection E as <-. rewrite filter_all; [done|]. intros e. apply not_elem_of_nil.
  - unfold m_bind in E. destruct (mongo_DeleteMany _ d) as [d1 [z|err|w]] eqn:Ed; [|done..].
    injection E as <-. apply law_DeleteMany in Ed. rewrite Ed. by apply holds_delete.
Qed.


(** An event that a filter keeps is no candidate. *)
Lemma kept_not_candidate clock fs e : forall i j f, fs !! j = Some f -> isGlobal f = true ->
  expired (clock (i + j)%nat) f e = false -> candidate clock i fs e = false.
Proof.
  induction fs as [|g fs IH]; intros i j f Hj Hg He; [done|]. cbn [candidate]. destruct j as [|j].
  - injection Hj as ->. rewrite Nat.add_0_r in He. by rewrite Hg, He.
  - rewrite (IH (S i) j f Hj Hg); [apply andb_false_r|]. by rewrite Nat.add_succ_comm.
Qed.

Lemma drops_candidates clock policy es gone id : drops clock policy es gone -> gone id ->
  id ∈ stored_id <$> filter (fun e => candidate clock 0 (Filters policy) e = true) es.
Proof.
  unfold drops, drops_among. set (cs := filter _ es). destruct (getCountFilter policy) as [f|]; [|by intros H'; apply H'].
  intros (sorted & Hp & _ & Hg) Hid. rewrite <- Hp.
  assert (forall v l, l `sublist_of` sorted -> id ∈ stored_id <$> drop v l -> id ∈ stored_id <$> sorted) as Hsub.
  { intros v l Hl Hin. apply list_elem_of_fmap in Hin as (e & -> & He). apply list_elem_of_fmap. exists e. split; [done|].
    eapply elem_of_submseteq; [exact He|]. apply sublist_submseteq. etrans; [apply sublist_drop|done]. }
  case_bool_decide.
  - apply Hg in Hid as [p Hid]. eapply Hsub, Hid. apply sublist_filter.
  - apply Hg in Hid. by eapply Hsub, Hid.
Qed.

(** An event is never dropped before its time: if some timestamp filter of
    the policy matches it and the filter's period has not passed since it was
    received, it is still there after a scan. *)
Theorem recent_event_kept d d' evs clock policy e i f :
  holds (documents d) evs -> (forall f, f ∈ Filters policy -> 0 <= pa_Volume (f_PolicyAction f)) ->
  Expiry.DropExpiredEvents clock policy d = (d', Ok tt) ->
  e ∈ evs -> Filters policy !! i = Some f -> isGlobal f = true -> match_event (f_Match f) e = true ->
  cutoff (clock i) (pa_RetentionPeriod (f_PolicyAction f)) <= received e ->
  exists oid, EventDoc.stored_doc oid e ∈ documents d'.
Proof.
  intros Hh Hvol E He Hf Hg Hm Hr. destruct (drop_spec d d' evs clock policy Hh Hvol E) as (gone & Hd & Hh').
  eapply holds_event; [exact Hh'|]. apply list_elem_of_filter. split; [|done]. intros Hin.
  apply (drops_candidates _ _ _ _ _ Hd) in Hin. apply list_elem_of_fmap in Hin as (e' & Hid & Hin).
  apply list_elem_of_filter in Hin as [Hc Hin]. assert (e' = e) as ->.
  { destruct Hh as [_ _ Hnd]. apply list_elem_of_lookup_1 in He as [a Ha]. apply list_elem_of_lookup_1 in Hin as [b Hb].
    assert (a = b) as ->; [|congruence].
    eapply (NoDup_lookup (stored_id <$> evs)); [done|rewrite list_lookup_fmap, Ha; done|rewrite list_lookup_fmap, Hb; cbn; by rewrite Hid]. }
  rewrite (kept_not_candidate clock (Filters policy) e 0 i f Hf Hg) in Hc; [done|].
  unfold expired. rewrite Hm. apply Z.ltb_ge. exact Hr.
Qed.

(** The agent applies the policy the client reports, once and for all: when a
    policy is known the client's answer does not matter and the policy stays;
    without one nothing is dropped. *)
Lemma scanAndDrop_policy answer clock (a a' : Agent.Agent D) r :
  Agent.scanAndDrop answer clock a = (a', r) ->
  match Agent.ag_policy a with
  | Some p => Agent.drop_with clock p a = (a', r) /\ Agent.ag_policy a' = Some p
  | None =>
      match answer with
      | Ok (Some p) => Agent.drop_with clock p (Agent.put_policy (Some p) a) = (a', r) /\ Agent.ag_policy a' = Some p
      | _ => Agent.ag_repository a' = Agent.ag_repository a /\ Agent.ag_policy a' = None
      end
  end.
Proof.
  assert (forall p b b' r', Agent.ag_policy b = Some p -> Agent.drop_with clock p b = (b', r') ->
            Agent.ag_policy b' = Some p) as Hkeep.
  { intros p b b' r' Hb. unfold Agent.drop_with, m_zoom. destruct (Expiry.DropExpiredEvents _ _ _). by intros [= <- _]. }
  unfold Agent.scanAndDrop. destruct (Agent.ag_policy a) as [p|] eqn:Ea; [intros E; split; [exact E|by eapply Hkeep]|].
  destruct answer as [[p|]|e|w]; [intros E; split; [exact E|by eapply Hkeep, E]|by intros [= <- _]..].
Qed.

End Drop.
End RetentionFacts.
