(* ===== verification/ViewerHost.v ===== *)
(** * The host of the event viewer

    Models [viewer]: the settings and the start of the process
    ([internal/config/config.go], [cmd/viewer/main.go]), and which file of the disk
    a request opens ([internal/server/server.go]), over [path.Clean], [path.Join]
    and the file server of [net/http].  The front end that is served is not part of
    the model. *)

From S2P Require Import Prelude Types Text JsonText JsonCodec JsonTypes Repository Startup.

(** ** Slash-separated paths ([path]) *)
Module Path.

Definition slash : byte := z2b 47.

Fixpoint split (p : bytes) : list bytes :=
  match p with
  | [] => [[]]
  | c :: p =>
      if bool_decide (c = slash) then [] :: split p
      else match split p with s :: ss => (c :: s) :: ss | [] => [[c]] end
  end.

Fixpoint joined (ss : list bytes) : bytes :=
  match ss with
  | [] => []
  | [s] => s
  | s :: ss => s ++ slash :: joined ss
  end.

Definition dot : bytes := bz ".".
Definition dotdot : bytes := bz "..".

Definition rooted (p : bytes) : bool := match p with c :: _ => bool_decide (c = slash) | [] => false end.

(** One element of the path; [out] is what has been written, the last element first. *)
Definition push (r : bool) (out : list bytes) (seg : bytes) : list bytes :=
  if bool_decide (seg = []) || bool_decide (seg = dot) then out
  else if bool_decide (seg = dotdot) then
    match out with
    | [] => if r then [] else [dotdot]
    | top :: rest => if bool_decide (top = dotdot) then dotdot :: out else rest
    end
  else seg :: out.

Definition cleaned (r : bool) (ss : list bytes) : list bytes := foldl (push r) [] ss.

Definition Clean (p : bytes) : bytes :=
  if bool_decide (p = []) then dot
  else
    let body := joined (rev (cleaned (rooted p) (split p))) in
    if rooted p then slash :: body else if bool_decide (body = []) then dot else body.

Definition Join (a b : bytes) : bytes :=
  if bool_decide (a = []) then (if bool_decide (b = []) then [] else Clean b) else Clean (a ++ slash :: b).

(** *** Elements *)

(** The elements of a path, without ["."] and with [".."] resolved. *)
Definition parts (p : bytes) : list bytes := rev (cleaned (rooted p) (split p)).

(** The name of an entry of a directory. *)
Definition plain (s : bytes) : Prop := s <> [] /\ s <> dot /\ s <> dotdot /\ slash ∉ s.

(** What can have been written. *)
Inductive written (r : bool) : list bytes -> Prop :=
| written_nil : written r []
| written_plain s out : plain s -> written r out -> written r (s :: out)
| written_up out : r = false -> Forall (eq dotdot) out -> written r (dotdot :: out).

Lemma split_noslash p : Forall (fun s => slash ∉ s) (split p).
Proof.
  induction p as [|c p IH]; cbn; [by constructor; [apply not_elem_of_nil|]|].
  case_bool_decide; [constructor; [apply not_elem_of_nil|done]|].
  destruct IH as [|s ss Hs IH]; (constructor; [|done]); apply not_elem_of_cons; (split; [congruence|]); [apply not_elem_of_nil|done].
Qed.

Lemma split_app a b : split (a ++ slash :: b) = split a ++ split b.
Proof.
  induction a as [|c a IH]; cbn [app split]; [by rewrite bool_decide_true|]. rewrite IH.
  case_bool_decide; [done|]. destruct (split a) as [|s ss] eqn:E; [|done]. destruct a as [|c' a]; cbn in E; [done|].
  by destruct (bool_decide (c' = slash)), (split a).
Qed.

Lemma split_plain s : slash ∉ s -> split s = [s].
Proof.
  induction s as [|c s IH]; [done|]. intros [Hc Hs]%not_elem_of_cons. cbn. rewrite bool_decide_false by congruence.
  by rewrite IH.
Qed.

Lemma split_joined ss : ss <> [] -> Forall (fun s => slash ∉ s) ss -> split (joined ss) = ss.
Proof.
  intros Hne Hf. induction Hf as [|s ss Hs Hf IH]; [done|]. destruct ss as [|s' ss]; [by apply split_plain|].
  change (joined (s :: s' :: ss)) with (s ++ slash :: joined (s' :: ss)). rewrite split_app, split_plain by done. by rewrite IH.
Qed.

Lemma push_plain r out s : plain s -> push r out s = s :: out.
Proof. intros (Hn & Hd & Hdd & _). unfold push. by rewrite !bool_decide_false. Qed.

Lemma push_written r out s : slash ∉ s -> written r out -> written r (push r out s).
Proof.
  intros Hs Hw. unfold push. destruct (bool_decide (s = [])) eqn:En; [done|]. destruct (bool_decide (s = dot)) eqn:Ed; [done|].
  apply bool_decide_eq_false in En, Ed. cbn. case_bool_decide as Hdd; [|by constructor]. subst s.
  destruct Hw as [|s out Hp Hw|out -> Ha].
  - destruct r; [constructor|by constructor].
  - rewrite bool_decide_false; [done|]. apply Hp.
  - rewrite bool_decide_true by done. constructor; [done|by constructor].
Qed.

Lemma foldl_written r ss out : Forall (fun s => slash ∉ s) ss -> written r out -> written r (foldl (push r) out ss).
Proof. intros Hf. revert out. induction Hf as [|s ss Hs _ IH]; intros out Hw; [done|]. cbn. by apply IH, push_written. Qed.

Lemma parts_written p : written (rooted p) (rev (parts p)).
Proof. unfold parts. rewrite rev_involutive. apply foldl_written; [apply split_noslash|constructor]. Qed.

Lemma written_rooted out : written true out -> Forall plain out.
Proof. intros Hw. by induction Hw; [constructor|constructor|]. Qed.

Lemma push_up out : Forall (eq dotdot) out -> push false out dotdot = dotdot :: out.
Proof. by intros [|? out' <- _]. Qed.

(** Cleaning what has been written changes nothing. *)
Lemma foldl_rev r out : written r out -> foldl (push r) [] (rev out) = out.
Proof.
  intros Hw. induction Hw as [|s out Hp _ IH|out -> Ha].
  - done.
  - cbn. rewrite foldl_app, IH. by apply push_plain.
  - cbn. rewrite foldl_app. cbn. assert (foldl (push false) [] (rev out) = out) as ->; [|by apply push_up].
    induction Ha as [|? out <- Ha IH]; [done|]. cbn. rewrite foldl_app, IH. by apply push_up.
Qed.

Lemma foldl_plain r out ss : Forall plain ss -> foldl (push r) out ss = rev ss ++ out.
Proof.
  intros Hf. revert out. induction Hf as [|s ss Hs _ IH]; intros out; [done|]. cbn. rewrite push_plain by done.
  rewrite IH. by rewrite <- app_assoc.
Qed.

Lemma written_segments r out : written r out -> Forall (fun s => slash ∉ s /\ s <> []) out.
Proof.
  intros Hw. induction Hw as [|s out (?&?&?&?) _ IH|out _ Ha]; [constructor|by constructor|].
  assert (slash ∉ dotdot) as Hd by (apply (bool_decide_unpack _); exact I).
  constructor; [done|]. eapply Forall_impl; [|exact Ha]. by intros ? <-.
Qed.

Lemma joined_nil ss : Forall (fun s => slash ∉ s /\ s <> []) ss -> joined ss = [] -> ss = [].
Proof. intros [|s ss' [_ Hs] _]; [done|]. destruct ss' as [|s' ss']; [done|]. by destruct s. Qed.

Lemma split_written r out : written r out -> out <> [] -> split (joined (rev out)) = rev out.
Proof.
  intros Hw Hne. apply split_joined; [by intros E%(f_equal (@rev _)); rewrite rev_involutive in E|].
  apply List.Forall_rev. eapply Forall_impl; [|exact (written_segments _ _ Hw)]. by intros s [? _].
Qed.

Lemma rooted_joined out r : written r out -> rooted (joined (rev out)) = false.
Proof.
  intros Hw. apply written_segments, List.Forall_rev in Hw. destruct Hw as [|s ss [Hs Hn] _]; [done|].
  destruct s as [|c s]; [done|]. apply not_elem_of_cons in Hs as [Hc _].
  destruct ss; cbn; apply bool_decide_eq_false; congruence.
Qed.

(** A cleaned path has the same elements. *)
Lemma rooted_Clean p : rooted (Clean p) = rooted p.
Proof.
  unfold Clean. case_bool_decide as Hp; [by subst|]. destruct (rooted p) eqn:Er; [done|].
  case_bool_decide; [done|]. eapply rooted_joined. pose proof (parts_written p) as Hw. rewrite Er in Hw.
  unfold parts in Hw. rewrite rev_involutive, Er in Hw. exact Hw.
Qed.

Lemma parts_Clean p : parts (Clean p) = parts p.
Proof.
  unfold parts at 1. rewrite rooted_Clean. pose proof (parts_written p) as Hw. unfold parts in Hw. rewrite rev_involutive in Hw.
  unfold parts. f_equal. set (out := cleaned _ _) in *. unfold Clean. fold out. case_bool_decide as Hp; [by subst|].
  assert (forall pre, Forall (eq []) pre -> out <> [] -> cleaned (rooted p) (pre ++ split (joined (rev out))) = out) as Hout.
  { intros pre Hpre Hne. rewrite (split_written (rooted p)) by done. unfold cleaned. rewrite foldl_app.
    assert (foldl (push (rooted p)) [] pre = []) as -> by (clear -Hpre; by induction Hpre as [|? ? <- _ IH]).
    by apply foldl_rev. }
  destruct out as [|top out'] eqn:Eo; [by destruct (rooted p)|]. rewrite <- Eo in *.
  destruct (rooted p) eqn:Er.
  - cbn [split]. rewrite bool_decide_true by done. apply (Hout [[]]); [by constructor|congruence].
  - rewrite bool_decide_false; [apply (Hout []); [constructor|congruence]|].
    intros E. apply joined_nil in E; [apply (f_equal (@rev _)) in E; rewrite rev_involutive in E; cbn in E; congruence|].
    by eapply List.Forall_rev, written_segments.
Qed.

(** Elements that are plain names are added to a path. *)
Lemma parts_Join a b : a <> [] -> Forall plain (parts (slash :: b)) ->
  parts (Join a (joined (parts (slash :: b)))) = parts a ++ parts (slash :: b).
Proof.
  intros Ha Hb. unfold Join. rewrite bool_decide_false, parts_Clean by done. set (ss := parts (slash :: b)) in *.
  assert (rooted (a ++ slash :: joined ss) = rooted a) as Hr by (by destruct a). unfold parts at 1. rewrite Hr, split_app.
  unfold cleaned. rewrite foldl_app. fold (cleaned (rooted a) (split a)).
  assert (foldl (push (rooted a)) (cleaned (rooted a) (split a)) (split (joined ss)) = rev ss ++ cleaned (rooted a) (split a)) as ->;
    [|by rewrite rev_app_distr, rev_involutive].
  destruct ss as [|s ss'] eqn:E; [done|]. rewrite <- E in *. rewrite split_joined; [by apply foldl_plain|congruence|].
  eapply Forall_impl; [|exact Hb]. by intros s' (_ & _ & _ & ?).
Qed.

Lemma parts_rooted b : Forall plain (parts (slash :: b)).
Proof.
  pose proof (parts_written (slash :: b)) as Hw. cbn in Hw. rewrite bool_decide_true in Hw by done.
  apply written_rooted, List.Forall_rev in Hw. by rewrite rev_involutive in Hw.
Qed.

End Path.

Module ViewerHost.
Import JsonCodec JsonTypes Path.

(** ** Settings ([config.go]) *)

Record Server : Type := mkServer { sv_Address : bytes }.

Record Frontend : Type := mkFrontend {
  fe_BuildPath : bytes;
  fe_IndexFile : bytes
}.

Record Config : Type := mkConfig {
  c_Production : bool;
  c_PrettyLogs : bool;
  c_LogLevel : bytes;
  c_Server : Server;
  c_Frontend : Frontend
}.

Definition dec_Server : decoder Server := dec_struct
  [(bz "address", set_field sv_Address (fun x _ => mkServer x) dec_string)].

Definition dec_Frontend : decoder Frontend := dec_struct
  [(bz "build_path", set_field fe_BuildPath (fun x f => mkFrontend x (fe_IndexFile f)) dec_string);
   (bz "index_file", set_field fe_IndexFile (fun x f => mkFrontend (fe_BuildPath f) x) dec_string)].

Definition dec_Config : decoder Config := dec_struct
  [(bz "production", set_field c_Production
      (fun x c => mkConfig x (c_PrettyLogs c) (c_LogLevel c) (c_Server c) (c_Frontend c)) Config.dec_bool);
   (bz "pretty_logs", set_field c_PrettyLogs
      (fun x c => mkConfig (c_Production c) x (c_LogLevel c) (c_Server c) (c_Frontend c)) Config.dec_bool);
   (bz "log_level", set_field c_LogLevel
      (fun x c => mkConfig (c_Production c) (c_PrettyLogs c) x (c_Server c) (c_Frontend c)) dec_string);
   (bz "server", set_field c_Server
      (fun x c => mkConfig (c_Production c) (c_PrettyLogs c) (c_LogLevel c) x (c_Frontend c)) dec_Server);
   (bz "frontend", set_field c_Frontend
      (fun x c => mkConfig (c_Production c) (c_PrettyLogs c) (c_LogLevel c) (c_Server c) x) dec_Frontend)].

Definition zero_Config : Config := mkConfig false false [] (mkServer []) (mkFrontend [] []).

Section Env.
Context `{Config.EnvLib}.

Definition env_Config (get : bytes -> option bytes) : result Config :=
  let* production := Config.env_bool get (bz "PRODUCTION") (Some (bz "false")) in
  let* pretty := Config.env_bool get (bz "PRETTY_LOGS") (Some (bz "false")) in
  let* logLevel := Config.env_string get (bz "LOG_LEVEL") (Some (bz "info")) in
  let* address := Config.env_string get (bz "SERVER_ADDRESS") None in
  let* build := Config.env_string get (bz "FRONTEND_BUILD_PATH") None in
  let* index := Config.env_string get (bz "FRONTEND_INDEX_FILE") None in
  Ok (mkConfig production pretty logLevel (mkServer address) (mkFrontend build index)).

(** As in the off-chain node, the file comes first. *)
Definition Load (file : option (result bytes)) (get : bytes -> option bytes) : result Config :=
  match file with
  | Some read => let* bytes := read in Unmarshal_into dec_Config zero_Config bytes
  | None => env_Config get
  end.

End Env.

Definition buildLogger (cfg : Config) : Startup.logConfig :=
  if c_Production cfg
  then Startup.mkLogConfig true (c_PrettyLogs cfg) (c_PrettyLogs cfg) (Startup.logLevel (c_LogLevel cfg))
  else Startup.mkLogConfig false true false (Startup.logLevel (c_LogLevel cfg)).

(** ** Files ([server.go]) *)

Inductive handler : Type := Assets | Stylesheet.

(** What [Start] registers with the router; everything else is [NoRoute]. *)
Definition routes : list (bytes * bytes * handler) :=
  [(bz "GET", bz "/_app/*filepath", Assets); (bz "HEAD", bz "/_app/*filepath", Assets);
   (bz "GET", bz "/style.css", Stylesheet); (bz "HEAD", bz "/style.css", Stylesheet)].

Definition assets (cfg : Config) : bytes := Join (fe_BuildPath (c_Frontend cfg)) (bz "/_app").
Definition stylesheet (cfg : Config) : bytes := Join (fe_BuildPath (c_Frontend cfg)) (bz "/style.css").
Definition index (cfg : Config) : bytes := Join (fe_BuildPath (c_Frontend cfg)) (fe_IndexFile (c_Frontend cfg)).

(** [http.Dir(dir).Open(name)]. *)
Definition dir_Open (dir name : bytes) : bytes := Join dir (tail (Clean (slash :: name))).

(** The file that a request opens.  [pattern] is the route that matches, with the
    rest of the path as [filepath]; an asset that is not [there] leads to the
    handler of [NoRoute]. *)
Definition opened (cfg : Config) (there : bytes -> bool) (method pattern filepath : bytes) : bytes :=
  match List.find (fun x => bool_decide (fst x = (method, pattern))) routes with
  | Some (_, Assets) => let f := dir_Open (assets cfg) filepath in if there f then f else index cfg
  | Some (_, Stylesheet) => stylesheet cfg
  | None => index cfg
  end.

(** [main]: a server on the configured address, until [Run] fails. *)
Definition main `{Config.EnvLib} (file : option (result bytes)) (get : bytes -> option bytes) (Build : Startup.logConfig -> result unit)
  (Run : bytes -> result unit) : result (Config * Startup.logConfig) :=
  let* cfg := match Load file get with Err e => Panic (Error e) | r => r end in
  let* _ := match Build (buildLogger cfg) with Err e => Panic (Error e) | r => r end in
  match Run (sv_Address (c_Server cfg)) with
  | Err _ => Err (NewError (bz "Failed to start server"))
  | Panic w => Panic w
  | Ok _ => Ok (cfg, buildLogger cfg)
  end.

(** ** Properties *)

Lemma Clean_not_nil p : Clean p <> [].
Proof. unfold Clean. case_bool_decide; [done|]. destruct (rooted p); [done|]. by case_bool_decide. Qed.

Lemma Clean_rooted name : Clean (slash :: name) = slash :: joined (parts (slash :: name)).
Proof. done. Qed.

(** The name of an asset resolves to a path below the directory, whatever it
    contains. *)
Lemma dir_Open_inside dir name : dir <> [] -> exists names, Forall plain names /\
  parts (dir_Open dir name) = parts dir ++ names /\ rooted (dir_Open dir name) = rooted dir.
Proof.
  intros Hd. exists (parts (slash :: name)). split_and!; [apply parts_rooted| |].
  - unfold dir_Open. rewrite Clean_rooted. apply parts_Join; [done|apply parts_rooted].
  - unfold dir_Open, Join. rewrite bool_decide_false, rooted_Clean by done. by destruct dir.
Qed.

(** No request opens a file outside what is configured: it is the index, the
    stylesheet, or below the directory of the assets. *)
Theorem host_stays_inside cfg there method pattern filepath :
  opened cfg there method pattern filepath = index cfg \/ opened cfg there method pattern filepath = stylesheet cfg \/
  exists names, Forall plain names /\ parts (opened cfg there method pattern filepath) = parts (assets cfg) ++ names /\
    rooted (opened cfg there method pattern filepath) = rooted (assets cfg).
Proof.
  unfold opened. destruct (List.find _ routes) as [[? []]|]; [|by auto..].
  cbn zeta. destruct (there _); [|by auto]. right. right. apply dir_Open_inside.
  unfold assets, Join. case_bool_decide; [|apply Clean_not_nil]. vm_compute. done.
Qed.

(** A file whose name is given in elements is found under that name. *)
Lemma asset_found cfg there names : Forall plain names -> names <> [] ->
  there (Join (assets cfg) (joined names)) = true ->
  opened cfg there (bz "GET") (bz "/_app/*filepath") (slash :: joined names) = Join (assets cfg) (joined names).
Proof.
  intros Hp Hne Ht. unfold opened. cbn [List.find routes fst]. rewrite bool_decide_true by done. cbn zeta.
  assert (dir_Open (assets cfg) (slash :: joined names) = Join (assets cfg) (joined names)) as ->; [|by rewrite Ht].
  unfold dir_Open. rewrite Clean_rooted. cbn [tail]. do 2 f_equal. unfold parts. cbn [rooted split].
  rewrite bool_decide_true by done. rewrite split_joined; [|done|eapply Forall_impl; [|exact Hp]; by intros ? (_ & _ & _ & ?)].
  unfold cleaned. cbn [foldl]. change (push true (push true [] []) []) with (@nil bytes). rewrite foldl_plain by done.
  by rewrite app_nil_r, rev_involutive.
Qed.

Definition sample : Config := mkConfig true false (bz "info") (mkServer (bz ":80")) (mkFrontend (bz "../build/") (bz "index.html")).

Example climbing_out : opened sample (fun _ => true) (bz "GET") (bz "/_app/*filepath") (bz "/../../a/./../secret") = bz "../build/_app/secret".
Proof. vm_compute. reflexivity. Qed.

Example front_page : opened sample (fun _ => false) (bz "GET") (bz "/_app/*filepath") (bz "/missing.js") = bz "../build/index.html".
Proof. vm_compute. reflexivity. Qed.

(** Without a build path the files are looked for at the root of the disk. *)
Example no_build_path : assets zero_Config = bz "/_app" /\ stylesheet zero_Config = bz "/style.css" /\ index zero_Config = [].
Proof. vm_compute. done. Qed.

End ViewerHost.
