(* ===== verification/AgentLoop.v ===== *)
(** * The loop of the retention agent

    Models [StartLoop] of [pkg/retention/agent.go]: scans at the start and at
    every tick, between which other parts of the process store events, until the
    shutdown.  A scan may fail at any point, also in the middle of a deletion. *)

From S2P Require Import Prelude Types Text Policy Bson Repository Retention RetentionFacts Startup.

Module AgentLoop.
Import Policy Aggregate MongoEvents MongoFacts RetentionFacts Agent.

Section Loop.
Context {D : Type} `{MongoCollection D}.

(** The answer of the client for the policy, and the clock during the scan. *)
Record Scan : Type := mkScan {
  sc_policy : result (option StoredPolicy);
  sc_clock : nat -> Z
}.

Inductive loop_input : Type :=
| Tick (s : Scan)
| Others (f : D -> D)       (* what the rest of the process does to the database *)
| ShutdownRequest.

Inductive loop_status : Type := Waiting | Answered | Crashed (w : bytes).

(** A scan that fails is logged. *)
Definition scan_once (s : Scan) (a : Agent D) : Agent D * loop_status :=
  match scanAndDrop (sc_policy s) (sc_clock s) a with
  | (a, Panic w) => (a, Crashed w)
  | (a, _) => (a, Waiting)
  end.

Fixpoint loop (inputs : list loop_input) (a : Agent D) : Agent D * loop_status :=
  match inputs with
  | [] => (a, Waiting)
  | ShutdownRequest :: _ => (a, Answered)
  | Others f :: inputs => loop inputs (put_repository (f (ag_repository a)) a)
  | Tick s :: inputs =>
      match scan_once s a with
      | (a, Waiting) => loop inputs a
      | stopped => stopped
      end
  end.

(** [first] is the scan at the start, when [RunAtStartup] is set. *)
Definition StartLoop (ScanInterval : Z) (first : option Scan) (inputs : list loop_input) (a : Agent D) : Agent D * loop_status :=
  match Startup.NewTicker ScanInterval with
  | Ok _ => loop (match first with Some s => Tick s :: inputs | None => inputs end) a
  | Err err => (a, Crashed (Error err))
  | Panic w => (a, Crashed w)
  end.

End Loop.
Arguments loop_input D : clear implicits.

(** ** Properties *)
Section Facts.
Context `{UuidLaws} {D : Type} `{AggregateLaws D}.
Implicit Types a : Agent D.

(** A timestamp filter of the policy that keeps an event. *)
Definition protected (policy : RetentionPolicy) (clock : nat -> Z) (e : StoredEvent) : Prop :=
  exists i f, Filters policy !! i = Some f /\ isGlobal f = true /\ match_event (f_Match f) e = true /\
    cutoff (clock i) (pa_RetentionPeriod (f_PolicyAction f)) <= received e.

Lemma protected_not_dropped clock policy evs e gone : NoDup (stored_id <$> evs) -> e ∈ evs -> protected policy clock e ->
  drops clock policy evs gone -> ~ gone (stored_id e).
Proof.
  intros Hnd He (i & f & Hf & Hg & Hm & Hr) Hd Hin.
  apply (drops_candidates _ _ _ _ _ Hd) in Hin. apply list_elem_of_fmap in Hin as (e' & Hid & Hin).
  apply list_elem_of_filter in Hin as [Hc Hin].
  apply list_elem_of_lookup_1 in He as [m Ha]. apply list_elem_of_lookup_1 in Hin as [n Hb].
  assert (m = n) as <-.
  { eapply (NoDup_lookup (stored_id <$> evs)); [done|rewrite list_lookup_fmap, Ha; done|rewrite list_lookup_fmap, Hb; cbn; by rewrite Hid]. }
  assert (e' = e) as -> by congruence.
  rewrite (kept_not_candidate clock (Filters policy) e 0 i f Hf Hg) in Hc; [done|].
  unfold expired. rewrite Hm. apply Z.ltb_ge. exact Hr.
Qed.

(** What is left when documents disappear. *)
Lemma holds_filter docs evs (P : bson -> Prop) `{forall doc, Decision (P doc)} : holds docs evs ->
  exists evs', holds (filter P docs) evs' /\ (forall e, e ∈ evs' -> e ∈ evs) /\
    forall e, e ∈ evs -> (forall oid, P (EventDoc.stored_doc oid e)) -> e ∈ evs'.
Proof.
  intros Hh. destruct (holds_pairs _ _ Hh) as (xs & -> & ->). exists (snd <$> filter (fun x => P (doc_of x)) xs).
  assert (filter P (doc_of <$> xs) = doc_of <$> filter (fun x => P (doc_of x)) xs) as Hf.
  { clear Hh. induction xs as [|x xs IH]; [done|]. cbn [fmap list_fmap]. rewrite !filter_cons.
    destruct (decide (P (doc_of x))); cbn [fmap list_fmap]; by rewrite IH. }
  destruct Hh as [_ Hok Hnd]. split; [split|split].
  - rewrite Hf. clear. induction (filter _ xs) as [|x l IH]; constructor; [by exists x.1|exact IH].
  - apply List.Forall_forall. intros e He. apply list_elem_of_In, list_elem_of_fmap in He as (x & -> & Hx).
    apply list_elem_of_filter in Hx as [_ Hx]. eapply (proj1 (List.Forall_forall _ _) Hok), list_elem_of_In, list_elem_of_fmap_2, Hx.
  - eapply sublist_NoDup; [exact Hnd|]. apply fmap_sublist, fmap_sublist, sublist_filter.
  - intros e He. apply list_elem_of_fmap in He as (x & -> & Hx). apply list_elem_of_filter in Hx as [_ Hx]. by apply list_elem_of_fmap_2.
  - intros e He HP. apply list_elem_of_fmap in He as (x & -> & Hx). apply list_elem_of_fmap_2, list_elem_of_filter. split; [apply HP|done].
Qed.

Definition volumes_ok (policy : RetentionPolicy) : Prop := forall f, f ∈ Filters policy -> 0 <= pa_Volume (f_PolicyAction f).

(** Whatever becomes of a scan, it removes nothing but what the policy drops. *)
Lemma drop_bounded clock policy d d' evs r : holds (documents d) evs -> volumes_ok policy ->
  Expiry.DropExpiredEvents clock policy d = (d', r) ->
  exists evs', holds (documents d') evs' /\ (forall e, e ∈ evs' -> e ∈ evs) /\
    forall e, e ∈ evs -> protected policy clock e -> e ∈ evs'.
Proof.
  intros Hh Hvol E. assert (d' = d -> exists evs', holds (documents d') evs' /\ (forall e, e ∈ evs' -> e ∈ evs) /\
    forall e, e ∈ evs -> protected policy clock e -> e ∈ evs') as Hsame by (intros ->; eauto).
  unfold Expiry.DropExpiredEvents in E. destruct (Validate policy); [injection E as <- _; auto|].
  destruct (buildAggregate clock policy) as [pl|err|w] eqn:Eb; cbn [res_bind] in E; [|by injection E as <- _; auto..].
  destruct (mongo_Aggregate pl d) as [docs|err|w] eqn:Ea; cbn [res_bind] in E; [|by injection E as <- _; auto..].
  apply law_Aggregate in Ea. destruct (holds_pairs _ _ Hh) as (xs & Exs & Eevs). rewrite Exs in Ea.
  destruct (aggregate_spec clock policy xs pl docs Hvol Eb Ea) as (gone & -> & Hdrops). rewrite <- Eevs in Hdrops.
  rewrite dec_scan in E. destruct gone as [|x gone]; [injection E as <- _; auto|].
  unfold m_bind in E. destruct (mongo_DeleteMany _ d) as [d1 o] eqn:Ed. assert (d1 = d') as -> by (by destruct o; injection E).
  apply law_DeleteMany in Ed. clear Hsame E.
  assert (forall e oid, e ∈ evs -> protected policy clock e ->
            Query.matches (idFilter (ids_of (x :: gone))) (EventDoc.stored_doc oid e) = false) as Hkeep.
  { intros e oid He Hp. rewrite matches_ids. apply bool_decide_false.
    exact (protected_not_dropped _ _ _ _ _ (hd_unique _ _ Hh) He Hp Hdrops). }
  destruct o as [z|err|w]; [|destruct Ed as (g & Ed & Hg)|done]; rewrite Ed;
    match goal with |- context [filter ?P (documents d)] => destruct (holds_filter (documents d) evs P Hh) as (evs' & Hl & Hsub & Hstay) end;
    exists evs'; (split; [done|]); (split; [done|]); intros e He Hp; apply Hstay; auto.
  intros oid. destruct (g _) eqn:E; [|done]. apply Hg in E. by rewrite Hkeep in E.
Qed.

(** ** What the loop is given *)

(** The client reports the policy of the chain, once it is set. *)
Definition reports (p : StoredPolicy) (answer : result (option StoredPolicy)) : Prop :=
  match answer with Ok (Some q) => q = p | _ => True end.

(** The rest of the process only adds events. *)
Definition adds (f : D -> D) : Prop := forall d evs, holds (documents d) evs -> exists new, holds (documents (f d)) (evs ++ new).

Definition input_ok (p : StoredPolicy) (e : StoredEvent) (i : loop_input D) : Prop :=
  match i with
  | Tick s => reports p (sc_policy s) /\ protected (spol_Policy p) (sc_clock s) e
  | Others f => adds f
  | ShutdownRequest => True
  end.

Definition knows (p : StoredPolicy) a : Prop := ag_policy a = None \/ ag_policy a = Some p.

Definition has (e : StoredEvent) a : Prop := exists evs, holds (documents (ag_repository a)) evs /\ e ∈ evs.

Lemma scan_keeps p e s a : volumes_ok (spol_Policy p) -> reports p (sc_policy s) -> protected (spol_Policy p) (sc_clock s) e ->
  knows p a -> has e a -> knows p (scan_once s a).1 /\ has e (scan_once s a).1.
Proof.
  intros Hvol Hr Hp Hk (evs & Hh & He). unfold scan_once.
  destruct (scanAndDrop (sc_policy s) (sc_clock s) a) as [a' r] eqn:E.
  replace (match r with Ok _ => (a', Waiting) | Err _ => (a', Waiting) | Panic w => (a', Crashed w) end).1 with a' by (by destruct r).
  assert (forall b, ag_repository b = ag_repository a -> drop_with (sc_clock s) p b = (a', r) -> has e a') as Hdrop.
  { intros b Hb Eb. unfold drop_with, m_zoom in Eb. rewrite Hb in Eb.
    destruct (Expiry.DropExpiredEvents (sc_clock s) (spol_Policy p) (ag_repository a)) as [d' r'] eqn:Ed. injection Eb as <- _.
    destruct (drop_bounded _ _ _ _ _ _ Hh Hvol Ed) as (evs' & Hl & _ & Hstay). exists evs'. split; [exact Hl|auto]. }
  pose proof (scanAndDrop_policy _ _ _ _ _ E) as Hs. destruct Hk as [Hk|Hk]; rewrite Hk in Hs.
  - destruct (sc_policy s) as [[q|]|err|w]; cbn in Hr; [subst q|..].
    + destruct Hs as [Hs Hpol]. split; [by right|by eapply Hdrop, Hs].
    + destruct Hs as [Hs Hpol]. split; [by left|exists evs; by rewrite Hs].
    + destruct Hs as [Hs Hpol]. split; [by left|exists evs; by rewrite Hs].
    + destruct Hs as [Hs Hpol]. split; [by left|exists evs; by rewrite Hs].
  - destruct Hs as [Hs Hpol]. split; [by right|by eapply Hdrop, Hs].
Qed.

(** C12. The agent never removes an event before its time: through all scans, failed
    and interrupted ones included, and whatever is stored meanwhile, an event
    that a timestamp filter of the policy on the chain keeps at every scan stays
    in the database. *)
Theorem agent_keeps_protected ScanInterval first inputs p e a : volumes_ok (spol_Policy p) ->
  Forall (input_ok p e) (match first with Some s => Tick s :: inputs | None => inputs end) -> knows p a -> has e a ->
  has e (StartLoop ScanInterval first inputs a).1.
Proof.
  intros Hvol Hall Hk He. unfold StartLoop. destruct (Startup.NewTicker ScanInterval); [|done..].
  revert a Hk He. induction Hall as [|i l Hi Hl IH]; intros a Hk He; [done|]. cbn [loop]. destruct i as [s|f|].
  - destruct Hi as [Hr Hp]. destruct (scan_keeps p e s a Hvol Hr Hp Hk He) as [Hk' He'].
    destruct (scan_once s a) as [a' []]; [by apply IH|done|done].
  - apply IH; [exact Hk|]. destruct He as (evs & Hh & Hin). destruct (Hi _ _ Hh) as (new & Hnew).
    exists (evs ++ new). split; [exact Hnew|]. apply elem_of_app. by left.
  - done.
Qed.

End Facts.
End AgentLoop.
