(* ===== verification/AgentWitness.v ===== *)
(** * Retention and the viewer on concrete data

    A database of three events under a policy with a timestamp and a count
    filter, and a viewer with one administrator and a list of challenges. *)

From S2P Require Import Prelude Types Text Sha256 Duration Policy Platform Abci IdentityApp EventsApp RetentionApp Multiplexer Chain Reference ChainWitness BlockchainClient Bson Repository OffchainNode NodeFacts Retention RetentionFacts Viewer MongoReference Startup AgentLoop.

Module AgentWitness.
Import Reference ChainWitness MongoFacts RetentionFacts.

(** ** Documents *)

Definition wGuid : bytes := replicate 16 (z2b 171).

Definition wSystem (channel : bytes) : System :=
  mkSystem (mkProvider (Some (bz "Security")) (Some wGuid) None) 4624 now 17 None (Some 4) None channel (bz "HOST-1").

Definition wEvent (name channel : bytes) (age : Z) : StoredEvent :=
  mkStoredEvent (mkEventWithData (mkEvent (wSystem channel)) [])
    (mkMetadata name (mkTime (instant now - age) 0) root) (bz "tx").

Lemma event_document_round_trip_witness :
  EventDoc.dec_event (EventDoc.stored_doc 7 (wEvent (bz "a") (bz "Security") 5)) =
  Ok (EventDoc.stored_form (wEvent (bz "a") (bz "Security") 5)).
Proof. apply (EventDoc.event_document_round_trip 7). by split; intros g [= <-]. Defined.

(** ** A policy *)

Definition day : Z := 24 * Duration.Hour.

(** Security events are kept for thirty days; of the others, and of those that
    are older, the newest one. *)
Definition wSecurity : Filter :=
  mkFilter (bz "security") (mkMatch (Some (bz "Security")) None None)
    (mkPolicyAction Policy.PolicyTypeTimestamp [] (30 * day) 0).
Definition wNewest : Filter :=
  mkFilter (bz "newest") (mkMatch None None None) (mkPolicyAction Policy.PolicyTypeCount Policy.RuleGroupingGlobal 0 1).
Definition wPolicy : RetentionPolicy := mkRetentionPolicy [wSecurity; wNewest].

Definition wRecent : StoredEvent := wEvent (bz "recent") (bz "Security") day.
Definition wOld : StoredEvent := wEvent (bz "old") (bz "Security") (40 * day).
Definition wOther : StoredEvent := wEvent (bz "other") (bz "Application") (2 * day).
Definition wEvs : list StoredEvent := [wOld; wRecent; wOther].

Definition wDb : list bson :=
  [EventDoc.stored_doc 0 wOld; EventDoc.stored_doc 1 wRecent; EventDoc.stored_doc 2 wOther].
Definition wDb' : list bson := [EventDoc.stored_doc 1 wRecent; EventDoc.stored_doc 2 wOther].

Definition wClock (_ : nat) : Z := instant now.

Lemma wDb_holds : holds (documents wDb) wEvs.
Proof.
  split.
  - repeat constructor; by eexists.
  - repeat constructor; intros g [= <-]; reflexivity.
  - cbn. repeat (apply list.NoDup_cons; split; [intros Hin; by vm_compute in Hin; repeat (apply elem_of_cons in Hin as [Hin|Hin]; [discriminate Hin|]); apply elem_of_nil in Hin|]). apply NoDup_nil_2.
Qed.

(** The scan drops the old event: the other one is newer. *)
Lemma wDb_dropped : Expiry.DropExpiredEvents wClock wPolicy wDb = (wDb', Ok tt).
Proof. vm_compute. reflexivity. Qed.

Lemma wPolicy_volumes f : f ∈ Filters wPolicy -> 0 <= pa_Volume (f_PolicyAction f).
Proof.
  intros Hf. apply elem_of_cons in Hf as [->|Hf]; [done|]. apply elem_of_cons in Hf as [->|Hf]; [done|].
  by apply elem_of_nil in Hf.
Qed.

Lemma wPolicy_case : case_agrees wPolicy wEvs.
Proof.
  intros f c e Hf Hc He. repeat (apply elem_of_cons in Hf as [->|Hf]; [|]); [|done|by apply elem_of_nil in Hf].
  injection Hc as <-. repeat (apply elem_of_cons in He as [->|He]; [vm_compute; congruence|]). by apply elem_of_nil in He.
Qed.


(** A policy for the channel security, in lower case, keeps none of the events of the
    channel Security. *)
Example other_case_dropped : Expiry.DropExpiredEvents wClock (mkRetentionPolicy [mkFilter (bz "security")
    (mkMatch (Some (bz "security")) None None) (mkPolicyAction Policy.PolicyTypeTimestamp [] (30 * day) 0)]) wDb = ([], Ok tt).
Proof. vm_compute. reflexivity. Qed.

Lemma recent_event_kept_witness : exists oid, EventDoc.stored_doc oid wRecent ∈ documents wDb'.
Proof.
  apply (recent_event_kept wDb wDb' wEvs wClock wPolicy wRecent 0 wSecurity wDb_holds wPolicy_volumes wDb_dropped).
  - apply list_elem_of_further, list_elem_of_here.
  - reflexivity.
  - reflexivity.
  - reflexivity.
  - by vm_compute.
Defined.

(** *** The loop: no policy at first, a node that does not answer, then two scans *)

Definition wStored : StoredPolicy := mkStoredPolicy wPolicy root now.
Definition wScan (answer : result (option StoredPolicy)) : AgentLoop.Scan := AgentLoop.mkScan answer wClock.
Definition wTicks : list (AgentLoop.loop_input (list bson)) :=
  [AgentLoop.Tick (wScan (Err (NewError (bz "timeout")))); AgentLoop.Tick (wScan (Ok (Some wStored))); AgentLoop.Others id;
   AgentLoop.Tick (wScan (Ok None)); AgentLoop.ShutdownRequest].

Example wLoop : AgentLoop.StartLoop Duration.Hour (Some (wScan (Ok None))) wTicks (Agent.mkAgent wDb None) =
  (Agent.mkAgent wDb' (Some wStored), AgentLoop.Answered).
Proof. vm_compute. reflexivity. Qed.

Lemma agent_keeps_protected_witness : AgentLoop.has wRecent
  (AgentLoop.StartLoop Duration.Hour (Some (wScan (Ok None))) wTicks (Agent.mkAgent wDb None)).1.
Proof.
  assert (AgentLoop.protected wPolicy wClock wRecent) as Hp.
  { exists 0%nat, wSecurity. split; [reflexivity|]. split; [reflexivity|]. split; [reflexivity|]. by vm_compute. }
  apply (AgentLoop.agent_keeps_protected Duration.Hour (Some (wScan (Ok None))) wTicks wStored wRecent (Agent.mkAgent wDb None)).
  - exact wPolicy_volumes.
  - apply List.Forall_cons; [exact (conj I Hp)|]. apply List.Forall_cons; [exact (conj I Hp)|].
    apply List.Forall_cons; [exact (conj eq_refl Hp)|]. apply List.Forall_cons.
    { intros d evs Hh. exists []. by rewrite app_nil_r. }
    apply List.Forall_cons; [exact (conj I Hp)|]. apply List.Forall_cons; [exact I|]. apply List.Forall_nil.
  - by left.
  - exists wEvs. split; [exact wDb_holds|]. apply list_elem_of_further, list_elem_of_here.
Defined.

(** ** The viewer *)
Import Viewer.

Abbreviation Records := (list (Z * challengeRecord)).

(** The first record of a principal with a challenge, and the others. *)
Fixpoint take_record (p c : bytes) (l : Records) : option (challengeRecord * Records) :=
  match l with
  | [] => None
  | x :: rest =>
      if bool_decide (is_for p c x) then Some (x.2, rest)
      else match take_record p c rest with Some (r, rest') => Some (r, x :: rest') | None => None end
  end.

Lemma take_record_spec p c l : match take_record p c l with
  | Some (r, l') => cr_Principal r = p /\ cr_Challenge r = c /\ exists id, l ≡ₚ (id, r) :: l'
  | None => Forall (fun x => ~ (cr_Principal x.2 = p /\ cr_Challenge x.2 = c)) l
  end.
Proof.
  induction l as [|[id r] l IH]; cbn [take_record]; [constructor|]. case_bool_decide as Hf.
  - destruct Hf as [Hp Hc]. split; [exact Hp|]. split; [exact Hc|]. by exists id.
  - destruct (take_record p c l) as [[r' l']|]; [|by constructor].
    destruct IH as (Hp & Hc & id' & IH). split; [exact Hp|]. split; [exact Hc|]. exists id'.
    rewrite IH. apply Permutation_swap.
Qed.

#[local] Instance list_driver : ChallengeDriver Records := {|
  ch_InsertOne r := m_modify (fun h => h ++ [(zlen h, mkChallengeRecord (cr_Principal r) (cr_Challenge r) (EventDoc.stored_time (cr_Timestamp r)))]);
  ch_FindOneAndDelete p c h := match take_record p c h with Some (r, h') => (h', FoundRecord r) | None => (h, NoRecord) end;
  ch_FindBefore ms h := Ok (filter (fun x => EventDoc.to_ms (cr_Timestamp x.2) < ms) h);
  ch_DeleteIds ids := m_modify (filter (fun x => x.1 ∉ ids))
|}.

#[local] Instance list_laws : ChallengeLaws Records.
Proof.
  refine {| records h := h |}.
  - intros r h h' o [= <- <-]. cbn. split; [right|intros _]; by eexists.
  - intros p c h h' o. cbn. pose proof (take_record_spec p c h) as Ht.
    destruct (take_record p c h) as [[r l']|]; intros [= <- <-]; [exact Ht|by split].
  - intros ids h h' o [= <- _]. exists (filter (fun x => ~ (x.1 ∉ ids)) h).
    rewrite Permutation_app_comm. symmetry. apply filter_app_complement.
Defined.

(** A token is its subject under the secret. *)
#[local] Instance toy_jwt : Jwt := {|
  jwt_Sign secret subject _ := Ok (secret ++ subject);
  jwt_Parse secret token :=
    if bool_decide (take (length secret) token = secret) then Ok (drop (length secret) token)
    else Err (NewError (bz "invalid signature"))
|}.

#[local] Instance root_client : ChainClient unit := {|
  cc_GetIdentity p := m_lift (fun _ => if bool_decide (p = root) then Ok root_data else Err Client.ErrPrincipalNotFound);
  cc_GetEventByTx _ := m_lift (fun _ => Err Client.ErrEventNotFound)
|}.

#[local] Program Instance root_client_laws : NodeFacts.ChainClientLaws unit := {|
  NodeFacts.cc_inv _ := True;
  NodeFacts.on_chain _ _ := False;
  NodeFacts.registered p d := p = root /\ d = root_data
|}.
Next Obligation. by intros k k' tx r _ [= _ <-]. Qed.
Next Obligation. intros k k' p r _ [= _ <-]. split; [done|]. intros d. case_bool_decide; [|done]. by intros [= <-]. Qed.

Definition wConfig : ViewerServer := mkViewerServer (5 * 60 * 10 ^ 9) HS256 (bz "secret").
Definition wChallenge : bytes := bz "random bytes".
Definition wRecord : challengeRecord := mkChallengeRecord root wChallenge now.
Definition wServer : Server unit Records := mkServer tt [(0, wRecord)].
Definition wSignature : bytes := ed_sign root_key wChallenge.

Lemma wLogin : challengeResponseHandler wConfig now (Some (root, wChallenge, wSignature)) wServer =
  (mkServer tt [], Ok (200, Some (bz "secretroot"))).
Proof. vm_compute. reflexivity. Qed.

Lemma token_requires_challenge_witness :
  granted wConfig now root wChallenge wSignature wServer (mkServer tt []) /\
  jwt_Sign (JWTSecret wConfig) root now = Ok (bz "secretroot").
Proof. exact (token_requires_challenge wConfig now root wChallenge wSignature wServer (mkServer tt []) _ I wLogin). Defined.

(** The challenge is returned, buys a token, and a second time it is refused. *)
Definition wEmpty : Server unit Records := mkServer tt [].
Definition wTrace : list (Server unit Records * call * result (Z * option bytes)) :=
  [(wEmpty, CallChallenge now (Ok wChallenge) (Some root), Ok (200, Some wChallenge));
   (wServer, CallResponse now (Some (root, wChallenge, wSignature)), Ok (200, Some (bz "secretroot")));
   (wEmpty, CallResponse now (Some (root, wChallenge, wSignature)), Ok (401, None))].

Lemma wTwice : served wConfig wEmpty wTrace wEmpty.
Proof.
  eapply served_more; [vm_compute; reflexivity|]. eapply served_more; [exact wLogin|].
  eapply served_more; [|apply served_none]. vm_compute. reflexivity.
Qed.

Example wTrace_counts : total (grants root wChallenge) wTrace = 1%nat /\ total (returned root wChallenge) wTrace = 1%nat /\
  total (failed_insert root wChallenge) wTrace = 0%nat.
Proof. vm_compute. by split. Qed.

Lemma challenge_used_once_witness :
  (total (grants root wChallenge) wTrace + outstanding root wChallenge wEmpty <=
   total (returned root wChallenge) wTrace + total (failed_insert root wChallenge) wTrace + outstanding root wChallenge wEmpty)%nat.
Proof. exact (challenge_used_once wConfig wEmpty wTrace wEmpty root wChallenge I wTwice). Defined.

End AgentWitness.
