(* ===== verification/SearchFacts.v ===== *)
(** * What a search selects

    The query built from filters agrees with the filters of the event stream,
    where both are defined; the pages of a search are consecutive and do not
    move when later events arrive. *)

From S2P Require Import Prelude Types Text TimeText Bson Repository Retention RetentionFacts Search.
From Corelib Require Import Init.Byte.

Module SearchFacts.
Import Filters MongoEvents Search Aggregate.

(** ** Documented behaviour *)

Definition printable (s : bytes) : Prop := Forall (fun b => 32 <= b2z b <= 126) s.

(** Strength 1 ignores case; among printable ASCII characters it ignores
    nothing else. *)
Class CollationLaws `{Collation} : Prop := {
  law_primary a b : printable a -> printable b -> primary a = primary b <-> ToLower a = ToLower b
}.

Class SearchLaws (D : Type) `{MongoLaws D} `{Collation} `{MongoSearch D} : Prop := {
  law_FindWith q o d out : mongo_FindWith q o d = Ok out -> 0 < fo_Limit o -> 0 <= fo_Skip o ->
    exists sorted, sorted ≡ₚ filter (fun doc => collated q doc = true) (documents d) /\
      Sorted.StronglySorted (Stages.not_before (fo_Sort o)) sorted /\
      out = take (Z.to_nat (fo_Limit o)) (drop (Z.to_nat (fo_Skip o)) sorted)
}.

(** ** Assignment *)

Lemma set_key_fresh k v m : k ∉ m.*1 -> set_key k v m = m ++ [(k, v)].
Proof.
  induction m as [|[k' v'] m IH]; intros Hk; [done|]. cbn. rewrite bool_decide_false by (intros ->; apply Hk, list_elem_of_here).
  f_equal. apply IH. intros Hin. by apply Hk, list_elem_of_further.
Qed.

Lemma lookup_split k m c : EventDoc.lookup_field k m = Some c ->
  exists m1 m2, m = m1 ++ (k, c) :: m2 /\ (k ∉ m1.*1).
Proof.
  induction m as [|[k' v'] m IH]; [done|]. cbn. case_bool_decide as Hk.
  - intros [= ->]. subst. exists [], m. split; [done|]. apply not_elem_of_nil.
  - intros E. destruct (IH E) as (m1 & m2 & -> & Hn). exists ((k', v') :: m1), m2. split; [done|].
    cbn. intros [->|Hin]%elem_of_cons; done.
Qed.

Lemma lookup_none k m : EventDoc.lookup_field k m = None -> k ∉ m.*1.
Proof.
  induction m as [|[k' v'] m IH]; [intros _; apply not_elem_of_nil|]. cbn. case_bool_decide; [done|].
  intros E [->|Hin]%elem_of_cons; [done|]. by apply (IH E).
Qed.

Lemma lookup_app_here k c m1 m2 : k ∉ m1.*1 -> EventDoc.lookup_field k (m1 ++ (k, c) :: m2) = Some c.
Proof.
  induction m1 as [|[k' v'] m1 IH]; intros Hk; cbn.
  - by rewrite bool_decide_true.
  - rewrite bool_decide_false by (intros ->; apply Hk, list_elem_of_here). apply IH. intros Hin.
    by apply Hk, list_elem_of_further.
Qed.

Lemma set_key_split k v c m1 m2 : k ∉ m1.*1 -> set_key k v (m1 ++ (k, c) :: m2) = m1 ++ (k, v) :: m2.
Proof.
  induction m1 as [|[k' v'] m1 IH]; intros Hk; cbn.
  - by rewrite bool_decide_true.
  - rewrite bool_decide_false by (intros ->; apply Hk, list_elem_of_here). f_equal. apply IH. intros Hin.
    by apply Hk, list_elem_of_further.
Qed.

(** ** Folding strings *)

Section Collated.
Context `{Collation}.

Lemma lookup_field_fold k fs :
  EventDoc.lookup_field k ((fun '(k, x) => (k, fold_strings primary x)) <$> fs) =
  fold_strings primary <$> EventDoc.lookup_field k fs.
Proof. induction fs as [|[k' v] fs IH]; [done|]. cbn. case_bool_decide; [done|]. apply IH. Qed.

Lemma lookup_path_fold path : forall v,
  Query.lookup_path path (fold_strings primary v) = fold_strings primary <$> Query.lookup_path path v.
Proof.
  induction path as [|k path IH]; intros v; [done|]. destruct v as [| | | | | |fs]; try done.
  cbn [fold_strings Query.lookup_path]. rewrite lookup_field_fold.
  destruct (EventDoc.lookup_field k fs) as [v|]; [|done]. apply IH.
Qed.

Lemma at_path_fold path v :
  Query.at_path path (fold_strings primary v) = fold_strings primary <$> Query.at_path path v.
Proof. apply lookup_path_fold. Qed.

(** The conditions of a flat query. *)
Definition holds_at (doc : bson) (kc : bytes * bson) : bool :=
  Query.condition (fold_strings primary <$> Query.at_path kc.1 doc) (fold_strings primary kc.2).
Definition selects (m : list (bytes * bson)) (doc : bson) : bool := forallb (holds_at doc) m.

Definition plain_key (k : bytes) : Prop := k <> bz "$and" /\ k <> bz "$or".

Lemma collated_flat m doc : Forall (fun kc => plain_key kc.1) m -> collated (BDoc m) doc = selects m doc.
Proof.
  intros Hm. unfold collated, selects. cbn [fold_strings Query.matches].
  induction Hm as [|[k c] m [H1 H2] Hm IH]; [done|]. cbn [fmap list_fmap forallb].
  rewrite !bool_decide_false by done. rewrite IH. unfold holds_at. cbn [fst snd]. by rewrite at_path_fold.
Qed.

Lemma selects_app m1 m2 doc : selects (m1 ++ m2) doc = selects m1 doc && selects m2 doc.
Proof. apply forallb_app. Qed.

(** Assigning to a new key adds its condition; extending the condition of a key
    adds what the new condition demands besides. *)
Lemma selects_fresh k c m doc : k ∉ m.*1 -> selects (set_key k c m) doc = selects m doc && holds_at doc (k, c).
Proof. intros Hk. rewrite set_key_fresh, selects_app by done. cbn. by rewrite andb_true_r. Qed.

Lemma selects_extend k c c' x m doc : EventDoc.lookup_field k m = Some c ->
  holds_at doc (k, c') = holds_at doc (k, c) && x -> selects (set_key k c' m) doc = selects m doc && x.
Proof.
  intros Hl Hx. destruct (lookup_split _ _ _ Hl) as (m1 & m2 & -> & Hn). rewrite set_key_split by done.
  rewrite !selects_app. cbn [selects forallb]. rewrite Hx.
  destruct (selects m1 doc), (holds_at doc (k, c)), x, (forallb (holds_at doc) m2); done.
Qed.

End Collated.

(** ** Strings in lower case *)

Definition lower_case (s : bytes) : Prop := printable s /\ ToLower s = s.

Lemma lower_case_app a b : lower_case a -> lower_case b -> lower_case (a ++ b).
Proof.
  intros [Ha Ea] [Hb Eb]. split; [by apply Forall_app|]. unfold ToLower in *. by rewrite fmap_app, Ea, Eb.
Qed.

Lemma lower_digit_lower c : Hex.lower_hex_digit c = true ->
  32 <= b2z c <= 126 /\ (65 <=? b2z c) && (b2z c <=? 90) = false.
Proof.
  intros Hc. unfold Hex.lower_hex_digit in Hc. apply orb_true_iff in Hc as [Hc|Hc]; apply andb_true_iff in Hc as [H1 H2];
    apply Z.leb_le in H1; apply Z.leb_le in H2; (split; [lia|]); apply andb_false_iff; rewrite !Z.leb_gt; lia.
Qed.

Lemma hex_lower_case b : lower_case (Hex.EncodeToString b).
Proof.
  pose proof (Hex.encode_lower b) as Hl. revert Hl. generalize (Hex.EncodeToString b). intros s Hl. unfold lower_case, printable, ToLower.
  induction s as [|c s IH]; [split; [constructor|done]|]. cbn [forallb] in Hl. apply andb_true_iff in Hl as [Hc Hs].
  destruct (IH Hs) as [IH1 IH2]. cbn [fmap list_fmap]. rewrite IH2.
  destruct (lower_digit_lower c Hc) as [Hp ->]. split; [by constructor|done].
Qed.

Lemma uuid_lower_case `{UuidLaws} u : lower_case (uuid_String u).
Proof.
  pose proof (law_uuid_chars u) as Hl. revert Hl. generalize (uuid_String u). intros s Hl. unfold lower_case, printable, ToLower.
  induction s as [|c s IH]; [split; [constructor|done]|]. cbn [forallb] in Hl. apply andb_true_iff in Hl as [Hc Hs].
  destruct (IH Hs) as [IH1 IH2]. cbn [fmap list_fmap]. rewrite IH2.
  apply orb_true_iff in Hc as [Hc|Hc]; [|apply bool_decide_eq_true in Hc as ->; by split; [constructor|]].
  destruct (lower_digit_lower c Hc) as [Hp ->]. split; [by constructor|done].
Qed.

Section Lower.
Context `{CollationLaws}.

Lemma primary_fold a b : printable a -> printable b ->
  bool_decide (primary a = primary b) = bool_decide (ToLower a = ToLower b).
Proof. intros Ha Hb. apply bool_decide_ext. by apply law_primary. Qed.

Lemma primary_lower a b : lower_case a -> lower_case b -> bool_decide (primary a = primary b) = bool_decide (a = b).
Proof. intros [Ha Ea] [Hb Eb]. rewrite primary_fold by done. by rewrite Ea, Eb. Qed.

Context `{!UuidText} `{!UuidLaws}.

Lemma braced_lower_case u : length u = 16%nat -> lower_case (Guid.braced u).
Proof.
  intros Hu. destruct (uuid_lower_case u). unfold Guid.braced.
  apply lower_case_app; [|apply lower_case_app]; [|by split|]; (split; [|done]); repeat constructor; vm_compute; congruence.
Qed.

Lemma braced_inj u v : length u = 16%nat -> length v = 16%nat -> Guid.braced u = Guid.braced v -> u = v.
Proof.
  intros Hu Hv E. pose proof (Guid.guid_bson_round_trip u Hu) as E1. pose proof (Guid.guid_bson_round_trip v Hv) as E2.
  unfold Guid.MarshalBSONValue in *. rewrite E in E1. congruence.
Qed.

End Lower.
(** ** One filter *)

Definition system_of (e : StoredEvent) : System := ev_System (ed_Event (st_EventWithData e)).

(** Where the search and the stream agree about a filter: hexadecimal values
    are in lower case, as are principals, other text is printable, and times
    after which events are wanted are compared with whole milliseconds. *)
Definition comparable (f : Filter) (e : StoredEvent) : Prop :=
  match property f with
  | Some PropertyEventId | Some PropertyTxHash => exists b, Value f = Hex.EncodeToString b
  | Some PropertyPrincipal => lower_case (Value f) /\ lower_case (md_Principal (st_Metadata e))
  | Some ProviderName => printable (Value f) /\ forall n, prov_Name (sys_Provider (system_of e)) = Some n -> printable n
  | Some PropertyChannel => printable (Value f) /\ printable (sys_Channel (system_of e))
  | Some PropertyTimestamp => Operator f = OperatorAfter -> instant (ReceivedTime (st_Metadata e)) mod 10 ^ 6 = 0
  | _ => True
  end.

Section One.
Context `{CollationLaws} `{UuidLaws}.
Implicit Types e : StoredEvent.

(** The field of a property. *)
Definition value_of (p : FilterProperty) e : bson :=
  match p with
  | PropertyEventId => TxHash.MarshalBSONValue (EventId (st_Metadata e))
  | PropertyTxHash => TxHash.MarshalBSONValue (st_TxHash e)
  | PropertyPrincipal => BStr (md_Principal (st_Metadata e))
  | PropertyEventType => BInt (sys_EventId (system_of e))
  | PropertyTimestamp => EventDoc.time_doc (ReceivedTime (st_Metadata e))
  | ProviderName => EventDoc.opt_doc BStr (prov_Name (sys_Provider (system_of e)))
  | PropertyProviderGuid => EventDoc.opt_doc Guid.MarshalBSONValue (prov_Guid (sys_Provider (system_of e)))
  | PropertyCorrelation => EventDoc.opt_doc Guid.MarshalBSONValue (sys_ActivityId (system_of e))
  | PropertyChannel => BStr (sys_Channel (system_of e))
  end.

Lemma field_of p oid e : Query.at_path (key_of p) (EventDoc.stored_doc oid e) = Some (value_of p e).
Proof. destruct p; reflexivity. Qed.

Lemma hex_condition a b :
  Query.condition (Some (fold_strings primary (TxHash.MarshalBSONValue a))) (fold_strings primary (TxHash.MarshalBSONValue b)) =
  bool_decide (Hex.EncodeToString b = Hex.EncodeToString a).
Proof.
  cbn. rewrite primary_lower by apply hex_lower_case. apply bool_decide_ext. split; by intros ->.
Qed.

Lemma guid_condition (o : option bytes) u : EventDoc.guid_ok o -> length u = 16%nat ->
  Query.condition (Some (fold_strings primary (EventDoc.opt_doc Guid.MarshalBSONValue o))) (fold_strings primary (Guid.MarshalBSONValue u)) =
  bool_decide (o = Some u).
Proof.
  intros Ho Hu. destruct o as [g|]; cbn; [|by rewrite bool_decide_false].
  specialize (Ho g eq_refl). rewrite primary_lower by (by apply braced_lower_case).
  apply bool_decide_ext. split; [by intros ->%braced_inj|by intros [= ->]].
Qed.

(** The condition of a property other than the time. *)
Lemma operand_agrees f p c e oid :
  property f = Some p -> p <> PropertyTimestamp -> Operator f = OperatorEqual -> operand p (Value f) = Ok c ->
  comparable f e -> EventDoc.guids_ok e ->
  Matches f e = Ok (holds_at (EventDoc.stored_doc oid e) (key_of p, c)).
Proof.
  intros Hp Hne Hop Hc Hcmp [Hg Ha]. unfold Matches, comparable in *. rewrite Hp in *. unfold equal, holds_at.
  rewrite (bool_decide_true _ Hop). cbn [negb fst snd]. rewrite field_of. cbn [fmap option_fmap option_map].
  destruct p; cbn [operand value_of] in *.
  - destruct Hcmp as [b Hb]. rewrite Hb in *. rewrite Hex.decode_encode in Hc. injection Hc as <-. f_equal. symmetry.
    exact (hex_condition (EventId (st_Metadata e)) b).
  - destruct Hcmp as [b Hb]. rewrite Hb in *. rewrite Hex.decode_encode in Hc. injection Hc as <-. f_equal. symmetry.
    exact (hex_condition (st_TxHash e) b).
  - injection Hc as <-. destruct Hcmp as [Hv Hx]. f_equal. cbn. rewrite primary_lower by done.
    apply bool_decide_ext. split; by intros ->.
  - destruct (Strconv.Atoi (Value f)) as [n|err|w]; [|done..]. injection Hc as <-. cbn. f_equal. apply Z.eqb_sym.
  - done.
  - injection Hc as <-. destruct Hcmp as [Hv Hx]. f_equal. fold (system_of e).
    destruct (prov_Name _) as [n|]; cbn; [|done]. rewrite primary_fold by auto. apply bool_decide_ext. split; by intros ->.
  - unfold guid_matches. destruct (uuid_Parse (Value f)) as [u|err|w] eqn:Eu; [|done..]. injection Hc as <-. f_equal. symmetry.
    apply (guid_condition (prov_Guid (sys_Provider (system_of e)))); [exact Hg|by eapply law_uuid_parsed].
  - unfold guid_matches. destruct (uuid_Parse (Value f)) as [u|err|w] eqn:Eu; [|done..]. injection Hc as <-. f_equal. symmetry.
    apply (guid_condition (sys_ActivityId (system_of e))); [exact Ha|by eapply law_uuid_parsed].
  - injection Hc as <-. destruct Hcmp as [Hv Hx]. f_equal. cbn. rewrite primary_fold by done.
    apply bool_decide_ext. fold (system_of e). split; intros E; by rewrite E.
Qed.

(** The operator of a condition on the time, and the condition. *)
Definition time_op (f : Filter) : bytes := if bool_decide (Operator f = OperatorBefore) then bz "$lt" else bz "$gt".

Lemma time_agrees f t e oid :
  property f = Some PropertyTimestamp -> Operator f = OperatorBefore \/ Operator f = OperatorAfter ->
  DateTime.Parse (Value f) = Ok t -> comparable f e ->
  Matches f e = Ok (Query.operator (time_op f) (fold_strings primary <$> Query.at_path KeyTimestamp (EventDoc.stored_doc oid e))
                      (BDate (EventDoc.to_ms t))).
Proof.
  intros Hp Hop Ht Hcmp. unfold Matches, comparable, time_op in *. rewrite Hp, Ht in *.
  destruct (DateTime.Parse_minute _ _ Ht) as (n & Hn & _). unfold DateTime.minute in Hn.
  change (Query.at_path KeyTimestamp (EventDoc.stored_doc oid e)) with (Some (BDate (EventDoc.to_ms (ReceivedTime (st_Metadata e))))).
  cbn [fmap option_fmap option_map fold_strings].
  assert (EventDoc.to_ms t = n * 60000) as ->.
  { unfold EventDoc.to_ms. rewrite Hn. symmetry. apply (Z.div_unique_exact _ (10 ^ 6)); lia. }
  unfold EventDoc.to_ms. set (r := instant (ReceivedTime (st_Metadata e))) in *.
  pose proof (Z.div_mod r (10 ^ 6) ltac:(lia)). pose proof (Z.mod_pos_bound r (10 ^ 6) ltac:(lia)).
  set (q := r / 10 ^ 6) in *. set (m := r mod 10 ^ 6) in *. clearbody q m.
  destruct Hop as [Hop|Hop]; rewrite Hop.
  - rewrite bool_decide_false, bool_decide_true by done. f_equal.
    change (Query.operator _ _ _) with (q <? n * 60000). rewrite Hn.
    destruct (Z.ltb_spec r (n * (60 * 10 ^ 9))), (Z.ltb_spec q (n * 60000)); try done; lia.
  - rewrite bool_decide_true, bool_decide_false by done. f_equal.
    change (Query.operator _ _ _) with (n * 60000 <? q). rewrite Hn. specialize (Hcmp Hop).
    destruct (Z.ltb_spec (n * (60 * 10 ^ 9)) r), (Z.ltb_spec (n * 60000) q); try done; lia.
Qed.

End One.

(** ** Building the query *)

Lemma lookup_set k v m : EventDoc.lookup_field k (set_key k v m) = Some v.
Proof.
  induction m as [|[k' v'] m IH]; cbn; [by rewrite bool_decide_true|].
  case_bool_decide as Hk; cbn; [by rewrite bool_decide_true|]. by rewrite bool_decide_false.
Qed.

Lemma lookup_set_ne k k' v m : k' <> k -> EventDoc.lookup_field k' (set_key k v m) = EventDoc.lookup_field k' m.
Proof.
  intros Hne. induction m as [|[a b] m IH]; cbn; [by rewrite bool_decide_false|].
  case_bool_decide as Hk; cbn; [subst; by rewrite !bool_decide_false|]. by rewrite IH.
Qed.

Lemma keys_set k v m k' : k' ∈ (set_key k v m).*1 -> k' = k \/ k' ∈ m.*1.
Proof.
  induction m as [|[a b] m IH]; cbn; [by intros ->%list_elem_of_singleton; left|].
  case_bool_decide as Hk; cbn; rewrite !elem_of_cons; [subst; tauto|]. intros [->|Hin]; [by right; left|]. destruct (IH Hin); tauto.
Qed.

Lemma key_of_inj p q : key_of p = key_of q -> p = q.
Proof. by destruct p, q. Qed.

Lemma key_of_plain p : plain_key (key_of p) /\ key_of p <> bz "_id".
Proof. by destruct p. Qed.

(** What a filter occupies: its property, and the bound of the time it sets. *)
Definition slot (f : Filter) : option FilterProperty * bytes :=
  (property f, if bool_decide (property f = Some PropertyTimestamp) then Operator f else []).

(** The query after some filters. *)
Record built (done : list Filter) (m : list (bytes * bson)) : Prop := {
  bt_keys k : k ∈ m.*1 -> k = bz "_id" \/ exists f p, f ∈ done /\ property f = Some p /\ k = key_of p;
  bt_time c : EventDoc.lookup_field KeyTimestamp m = Some c -> exists ops, c = BDoc ops /\
    forall op, op ∈ ops.*1 -> exists f, f ∈ done /\ property f = Some PropertyTimestamp /\ op = time_op f /\
      (Operator f = OperatorBefore \/ Operator f = OperatorAfter)
}.

Lemma built_start first : built [] (first_id first).
Proof.
  destruct first as [id|]; split; cbn; try done; intros k; [|by intros ?%elem_of_nil].
  intros ->%list_elem_of_singleton. by left.
Qed.

Lemma fresh_key done m f p : built done m -> property f = Some p -> p <> PropertyTimestamp ->
  slot f ∉ slot <$> done -> key_of p ∉ m.*1.
Proof.
  intros Hb Hp Hne Hs Hin. destruct (bt_keys _ _ Hb _ Hin) as [E|(f' & p' & Hf' & Hp' & E)]; [by apply key_of_plain in E|].
  apply key_of_inj in E as <-. apply Hs, list_elem_of_fmap. exists f'. split; [|done].
  unfold slot. rewrite Hp, Hp'. by rewrite !bool_decide_false by congruence.
Qed.

Lemma built_set done m f p c : built done m -> property f = Some p ->
  (p = PropertyTimestamp -> exists ops, c = BDoc ops /\ forall op, op ∈ ops.*1 -> exists f', f' ∈ f :: done /\
     property f' = Some PropertyTimestamp /\ op = time_op f' /\ (Operator f' = OperatorBefore \/ Operator f' = OperatorAfter)) ->
  built (f :: done) (set_key (key_of p) c m).
Proof.
  intros [Hk Ht] Hp Hc. split.
  - intros k [->|Hin]%keys_set; [right; exists f, p; split; [apply list_elem_of_here|done]|].
    destruct (Hk k Hin) as [->|(f' & p' & Hf' & Hp' & ->)]; [by left|right]. exists f', p'. split; [by apply list_elem_of_further|done].
  - intros c'. change KeyTimestamp with (key_of PropertyTimestamp). destruct (decide (p = PropertyTimestamp)) as [->|Hne].
    + rewrite lookup_set. intros [= <-]. by apply Hc.
    + rewrite lookup_set_ne by (intros E; by apply key_of_inj in E). intros E. destruct (Ht c' E) as (ops & -> & Hops).
      exists ops. split; [done|]. intros op Hop. destruct (Hops op Hop) as (f' & Hf' & Hr). exists f'.
      split; [by apply list_elem_of_further|done].
Qed.

(** The new bound is not among those already set. *)
Lemma fresh_bound done m f ops : built done m -> property f = Some PropertyTimestamp ->
  Operator f = OperatorBefore \/ Operator f = OperatorAfter -> slot f ∉ slot <$> done ->
  EventDoc.lookup_field KeyTimestamp m = Some (BDoc ops) -> time_op f ∉ ops.*1.
Proof.
  intros Hb Hp Hop Hs Hl Hin. destruct (bt_time _ _ Hb _ Hl) as (ops' & [= <-] & Hops).
  destruct (Hops _ Hin) as (f' & Hf' & Hp' & Ht & Hop'). apply Hs, list_elem_of_fmap. exists f'. split; [|done].
  unfold slot, time_op in *. rewrite Hp, Hp'. rewrite !bool_decide_true by done. f_equal.
  destruct Hop as [E|E], Hop' as [E'|E']; rewrite E, E' in *; try done.
Qed.

Section Build.
Context `{CollationLaws} `{UuidLaws}.
Implicit Types e : StoredEvent.

Lemma time_condition v ops op x :
  Query.condition v (fold_strings primary (BDoc (ops ++ [(op, BDate x)]))) =
  Query.condition v (fold_strings primary (BDoc ops)) && Query.operator op v (BDate x).
Proof. cbn [fold_strings Query.condition]. rewrite fmap_app, forallb_app. cbn. by rewrite andb_true_r. Qed.

Lemma add_time_agrees done m m' f e oid :
  built done m -> property f = Some PropertyTimestamp -> slot f ∉ slot <$> done -> add_time f m = Ok m' -> comparable f e ->
  exists b, Matches f e = Ok b /\
    selects m' (EventDoc.stored_doc oid e) = selects m (EventDoc.stored_doc oid e) && b /\ built (f :: done) m'.
Proof.
  intros Hb Hp Hs E Hcmp. unfold add_time, checked in E.
  destruct (DateTime.Parse (Value f)) as [t|err|w] eqn:Et; [|done..]. cbn [res_bind] in E.
  assert ((Operator f = OperatorBefore \/ Operator f = OperatorAfter) /\
    m' = set_key KeyTimestamp (BDoc (set_key (time_op f) (BDate (EventDoc.to_ms t)) (time_ops m))) m) as [Hop ->].
  { unfold time_op. case_bool_decide as Ho1; [split; [by left|congruence]|].
    case_bool_decide as Ho2; [split; [by right|congruence]|done]. }
  eexists. split; [by apply (time_agrees f t e oid)|]. clear E. unfold time_ops.
  change KeyTimestamp with (key_of PropertyTimestamp) at 3.
  destruct (EventDoc.lookup_field KeyTimestamp m) as [c|] eqn:El.
  - destruct (bt_time _ _ Hb _ El) as (ops & -> & Hops).
    rewrite (set_key_fresh (time_op f)) by (by eapply fresh_bound). split.
    + eapply selects_extend; [exact El|]. unfold holds_at. cbn [fst snd]. apply time_condition.
    + apply (built_set done m f PropertyTimestamp); [done..|]. intros _. eexists. split; [done|]. intros op.
      rewrite fmap_app, elem_of_app. intros [Hin|Hin].
      * destruct (Hops op Hin) as (f' & Hf' & Hr). exists f'. split; [by apply list_elem_of_further|done].
      * apply list_elem_of_singleton in Hin as ->. exists f. split; [apply list_elem_of_here|done].
  - split.
    + rewrite selects_fresh by (by apply lookup_none). f_equal. unfold holds_at. cbn [fst snd set_key].
      exact (time_condition _ [] _ _).
    + apply (built_set done m f PropertyTimestamp); [done..|]. intros _. eexists. split; [done|]. intros op.
      intros ->%list_elem_of_singleton. exists f. split; [apply list_elem_of_here|done].
Qed.

Lemma add_filter_agrees done m m' f e oid :
  built done m -> property f <> None -> slot f ∉ slot <$> done -> add_filter f m = Ok m' -> comparable f e -> EventDoc.guids_ok e ->
  exists b, Matches f e = Ok b /\
    selects m' (EventDoc.stored_doc oid e) = selects m (EventDoc.stored_doc oid e) && b /\ built (f :: done) m'.
Proof.
  intros Hb Hknown Hs E Hcmp Hg. destruct (property f) as [p|] eqn:Hp; [|done].
  destruct (decide (p = PropertyTimestamp)) as [->|Hne].
  { unfold add_filter in E. rewrite Hp in E. by eapply add_time_agrees. }
  assert (Operator f = OperatorEqual /\ exists c, operand p (Value f) = Ok c /\ m' = set_key (key_of p) c m) as (Hop & c & Hc & ->).
  { unfold add_filter in E. rewrite Hp in E. destruct p; try done;
      (case_bool_decide as Ho; cbn [negb] in E; [|done]); apply res_bind_ok in E as (c & Hc & [= <-]); eauto. }
  eexists. split; [by apply (operand_agrees f p c e oid)|]. split.
  - apply selects_fresh. by eapply fresh_key.
  - by apply built_set.
Qed.

Lemma add_filters_agree fs : forall done m m' e oid,
  built done m -> Forall (fun f => property f <> None) fs -> NoDup (slot <$> fs) ->
  (forall f, f ∈ fs -> slot f ∉ slot <$> done) -> add_filters fs m = Ok m' ->
  Forall (fun f => comparable f e) fs -> EventDoc.guids_ok e ->
  (exists done', built done' m') /\ exists b, filtersMatch e fs = Ok b /\
    selects m' (EventDoc.stored_doc oid e) = selects m (EventDoc.stored_doc oid e) && b.
Proof.
  induction fs as [|f fs IH]; intros done m m' e oid Hb Hknown Hnd Hs E Hcmp Hg; cbn [add_filters] in E.
  { injection E as <-. split; [by exists done|]. exists true. by rewrite andb_true_r. }
  apply List.Forall_cons_iff in Hknown as [Hk Hknown]. apply List.Forall_cons_iff in Hcmp as [Hc Hcmp].
  cbn [fmap list_fmap] in Hnd. apply list.NoDup_cons in Hnd as [Hnew Hnd]. apply res_bind_ok in E as (m1 & E1 & E).
  destruct (add_filter_agrees done m m1 f e oid Hb Hk (Hs f (list_elem_of_here _ _)) E1 Hc Hg) as (b & Hm & Hsel & Hb1).
  destruct (IH (f :: done) m1 m' e oid Hb1 Hknown Hnd) as (Hd & b' & Hm' & Hsel'); [|done..|].
  - intros f' Hf' Hin. cbn [fmap list_fmap] in Hin. apply elem_of_cons in Hin as [Heq|Hin].
    + apply Hnew. rewrite <- Heq. by apply list_elem_of_fmap_2.
    + by apply (Hs f' (list_elem_of_further _ _ _ Hf')).
  - split; [done|]. cbn [filtersMatch]. rewrite Hm. cbn [res_bind]. exists (b && b'). split; [by destruct b|].
    by rewrite Hsel', Hsel, andb_assoc.
Qed.

(** The events a search starts from. *)
Definition visible (first : option Z) (oid : Z) : bool :=
  match first with Some id => oid <=? id | None => true end.

Lemma query_agrees fs first q oid e :
  buildFilter fs first = Ok q -> Forall (fun f => property f <> None) fs -> NoDup (slot <$> fs) ->
  Forall (fun f => comparable f e) fs -> EventDoc.guids_ok e ->
  exists b, filtersMatch e fs = Ok b /\ collated q (EventDoc.stored_doc oid e) = visible first oid && b.
Proof.
  intros E Hknown Hnd Hcmp Hg. unfold buildFilter in E. apply res_bind_ok in E as (m & E & [= <-]).
  destruct (add_filters_agree fs [] (first_id first) m e oid (built_start first) Hknown Hnd
    (fun f _ => not_elem_of_nil (slot f)) E Hcmp Hg) as ([before Hb] & b & Hm & Hsel).
  exists b. split; [done|]. rewrite collated_flat.
  - rewrite Hsel. f_equal. destruct first as [id|]; [|done].
    transitivity (((oid <=? id) && true) && true); [reflexivity|by rewrite !andb_true_r].
  - apply List.Forall_forall. intros [k c] Hin. apply list_elem_of_In in Hin.
    destruct (bt_keys _ _ Hb k) as [->|(f & p & _ & _ & ->)]; [by apply list_elem_of_fmap; exists (k, c)|done|apply key_of_plain].
Qed.

(** C16. The search and the stream agree: for filters of different properties
    that both can compare, a query selects the document of an event exactly
    when the stream would deliver the event to a client with these filters. *)
Theorem search_agrees_with_stream fs q oid e :
  buildFilter fs None = Ok q -> Forall (fun f => property f <> None) fs -> NoDup (slot <$> fs) ->
  Forall (fun f => comparable f e) fs -> EventDoc.guids_ok e ->
  filtersMatch e fs = Ok (collated q (EventDoc.stored_doc oid e)).
Proof.
  intros E Hknown Hnd Hcmp Hg. destruct (query_agrees fs None q oid e E Hknown Hnd Hcmp Hg) as (b & Hm & Hc). by rewrite Hm, Hc.
Qed.

End Build.

(** ** Differences

    The stream refuses a filter of an unknown property, which a search passes
    over; of two filters of one property a search keeps the last. *)
Section Differences.
Context `{UuidText}.

Lemma unknown_property_ignored f fs first e : property f = None ->
  buildFilter (f :: fs) first = buildFilter fs first /\ filtersMatch e (f :: fs) = Err ErrInvalidFilter.
Proof.
  intros Hf. unfold buildFilter. cbn [add_filters filtersMatch]. unfold add_filter, Matches. by rewrite Hf.
Qed.

Lemma set_key_twice k v v' m : set_key k v' (set_key k v m) = set_key k v' m.
Proof.
  induction m as [|[k' x] m IH]; cbn; [by rewrite bool_decide_true|].
  case_bool_decide; cbn; [by rewrite bool_decide_true|]. rewrite bool_decide_false by done. by f_equal.
Qed.

Lemma last_filter_wins p f g fs first : property f = Some p -> property g = Some p -> p <> PropertyTimestamp ->
  Operator f = OperatorEqual -> (exists c, operand p (Value f) = Ok c) ->
  buildFilter (f :: g :: fs) first = buildFilter (g :: fs) first.
Proof.
  intros Hf Hg Hp Hop [c Hc]. unfold buildFilter. f_equal. cbn [add_filters]. unfold add_filter. rewrite Hf, Hg.
  destruct p; try done; rewrite (bool_decide_true _ Hop); cbn [negb]; rewrite Hc; cbn [res_bind];
    case_bool_decide; cbn [negb]; try done; destruct (operand _ (Value g)); cbn [res_bind]; try done; by rewrite set_key_twice.
Qed.

End Differences.

(** ** Pages *)

Section Pages.
Context `{CollationLaws} `{UuidLaws}.
Context {D : Type} `{!MongoCollection D} `{!MongoLaws D} `{!MongoSearch D} `{!SearchLaws D}.
Implicit Types (d : D) (x : Z * StoredEvent) (xs ys : list (Z * StoredEvent)).

(** An event that a search is about: not younger than the event [first], and
    matched by the filters. *)
Definition wanted (fs : list Filter) (first : option EventHash) xs x : bool :=
  match first with
  | Some id => forallb (fun y => negb (bool_decide (stored_id y.2 = id)) || (x.1 <=? y.1)) xs
  | None => true
  end &&
  match filtersMatch x.2 fs with Ok b => b | _ => false end.

(** Filters that both sides can compare, for the events of a database. *)
Record searchable (fs : list Filter) xs : Prop := {
  se_known : Forall (fun f => property f <> None) fs;
  se_slots : NoDup (slot <$> fs);
  se_comparable : Forall (fun x => Forall (fun f => comparable f x.2) fs) xs
}.

Definition newer (x y : Z * StoredEvent) : Prop := RetentionFacts.received y.2 <= RetentionFacts.received x.2.

Lemma holds_id_unique docs xs x y : MongoFacts.holds docs (snd <$> xs) -> x ∈ xs -> y ∈ xs ->
  stored_id x.2 = stored_id y.2 -> x = y.
Proof.
  intros [_ _ Hnd] Hx Hy E. rewrite <- list_fmap_compose in Hnd.
  apply list_elem_of_lookup_1 in Hx as [i Hi]. apply list_elem_of_lookup_1 in Hy as [j Hj].
  assert (i = j) as ->; [|congruence].
  eapply (NoDup_lookup _ _ _ (stored_id y.2) Hnd); rewrite list_lookup_fmap.
  - rewrite Hi. cbn. by rewrite E.
  - by rewrite Hj.
Qed.

Lemma firstObjectId_spec d xs first o x : documents d = RetentionFacts.doc_of <$> xs ->
  MongoFacts.holds (documents d) (snd <$> xs) -> firstObjectId first d = Ok o -> x ∈ xs ->
  visible o x.1 = match first with
                  | Some id => forallb (fun y => negb (bool_decide (stored_id y.2 = id)) || (x.1 <=? y.1)) xs
                  | None => true
                  end.
Proof.
  intros Ed Hh E Hx. unfold firstObjectId in E. destruct first as [id|]; [|by injection E as <-].
  pose proof (law_FindOne (single KeyEventId (TxHash.MarshalBSONValue id)) d) as Hf. rewrite Ed in Hf.
  destruct (mongo_FindOne _ d) as [doc| |err]; [| |done].
  - destruct Hf as [Hin Hm]. apply list_elem_of_fmap in Hin as (y & -> & Hy).
    unfold RetentionFacts.doc_of in Hm. rewrite MongoFacts.matches_id in Hm. apply bool_decide_eq_true in Hm.
    change (object_id (RetentionFacts.doc_of y)) with (Ok y.1) in E. cbn [res_bind] in E.
    apply res_bind_ok in E as (ev & _ & [= <-]). cbn [visible].
    apply eq_true_iff_eq. rewrite forallb_forall. split.
    + intros Hle z Hz. case_bool_decide as Hid; [cbn|done].
      assert (z = y) as -> by (eapply holds_id_unique; [exact Hh|by apply list_elem_of_In|done|congruence]). done.
    + intros Hall. specialize (Hall y (proj1 (list_elem_of_In _ _) Hy)). by rewrite bool_decide_true in Hall.
  - injection E as <-. cbn [visible]. symmetry. apply forallb_forall. intros y Hy.
    rewrite bool_decide_false; [done|]. intros Hid.
    apply (proj1 (List.Forall_forall _ _)) with (x := RetentionFacts.doc_of y) in Hf.
    + unfold RetentionFacts.doc_of in Hf. rewrite MongoFacts.matches_id in Hf. by rewrite bool_decide_true in Hf.
    + apply list_elem_of_In, list_elem_of_fmap. exists y. split; [done|]. by apply list_elem_of_In.
Qed.

Lemma elem_of_drop_take {A} (x : A) n k l : x ∈ take n (drop k l) -> x ∈ l.
Proof.
  intros Hx. rewrite <- (take_drop k l), elem_of_app. right. rewrite <- (take_drop n (drop k l)), elem_of_app. by left.
Qed.

Lemma dec_docs xs : (forall x, x ∈ xs -> EventDoc.guids_ok x.2) ->
  EventDoc.dec_list EventDoc.dec_event (RetentionFacts.doc_of <$> xs) = Ok (EventDoc.stored_form <$> (snd <$> xs)).
Proof.
  induction xs as [|x xs IH]; intros Hok; [done|]. cbn [fmap list_fmap EventDoc.dec_list].
  unfold RetentionFacts.doc_of at 1. rewrite EventDoc.dec_stored_doc by (apply Hok, list_elem_of_here). cbn [res_bind].
  change (list_fmap _ _ RetentionFacts.doc_of xs) with (RetentionFacts.doc_of <$> xs).
  rewrite IH; [done|]. intros y Hy. by apply Hok, list_elem_of_further.
Qed.

(** Events that were stored after the first one of a search are not wanted. *)
Lemma later_unwanted fs id xs new y : MongoFacts.holds (RetentionFacts.doc_of <$> (xs ++ new)) (snd <$> (xs ++ new)) ->
  y ∈ xs -> stored_id y.2 = id -> Forall (fun x => y.1 < x.1) new ->
  filter (fun x => wanted fs (Some id) (xs ++ new) x = true) (xs ++ new) =
  filter (fun x => wanted fs (Some id) xs x = true) xs.
Proof.
  intros Hh Hy Hid Hnew. rewrite list.filter_app.
  assert (filter (fun x => wanted fs (Some id) (xs ++ new) x = true) new = []) as ->.
  { apply elem_of_nil_inv. intros x Hx. apply list_elem_of_filter in Hx as [Hw Hx]. unfold wanted in Hw. apply andb_true_iff in Hw as [Hw _].
    rewrite forallb_app in Hw. apply andb_true_iff in Hw as [Hw _].
    apply (proj1 (forallb_forall _ _)) with (x := y) in Hw; [|by apply list_elem_of_In]. rewrite bool_decide_true in Hw by done.
    apply (proj1 (List.Forall_forall _ _)) with (x := x) in Hnew; [|by apply list_elem_of_In]. apply Z.leb_le in Hw. cbn in Hw. lia. }
  rewrite app_nil_r. apply filter_iff_list. intros x Hx. unfold wanted. rewrite forallb_app.
  assert (forallb (fun z => negb (bool_decide (stored_id z.2 = id)) || (x.1 <=? z.1)) new = true) as ->; [|by rewrite andb_true_r].
  apply forallb_forall. intros z Hz. case_bool_decide as Hzid; [|done]. exfalso.
  assert (z = y) as ->.
  { eapply holds_id_unique; [exact Hh|apply elem_of_app; right; by apply list_elem_of_In|apply elem_of_app; by left|congruence]. }
  apply (proj1 (List.Forall_forall _ _)) with (x := y) in Hnew; [lia|done].
Qed.

(** What one page holds. *)
Lemma search_spec d xs fs limit page first es :
  documents d = RetentionFacts.doc_of <$> xs -> MongoFacts.holds (documents d) (snd <$> xs) -> searchable fs xs ->
  0 < limit -> 0 <= page -> page * limit < 2 ^ 63 -> SearchEvents fs limit page first d = Ok es ->
  exists ys, ys ≡ₚ filter (fun x => wanted fs first xs x = true) xs /\ Sorted.StronglySorted newer ys /\
    es = EventDoc.stored_form <$> (snd <$> take (Z.to_nat limit) (drop (Z.to_nat (page * limit)) ys)).
Proof.
  intros Ed Hh [Hk Hs Hc] Hl Hp Hov E. unfold SearchEvents in E. apply res_bind_ok in E as (o & Eo & E).
  apply res_bind_ok in E as (q & Eq & E). apply res_bind_ok in E as (docs & Ef & E).
  rewrite swrap_id in Ef by (unfold in_s; lia || nia).
  destruct (law_FindWith _ _ _ _ Ef) as (sorted & Hperm & Hsort & ->); [done|cbn; nia|]. cbn [fo_Limit fo_Skip fo_Sort] in *.
  rewrite Ed in Hperm. rewrite (RetentionFacts.filter_image RetentionFacts.doc_of _
    (fun x => collated q (RetentionFacts.doc_of x) = true)) in Hperm by done.
  rewrite (filter_iff_list _ (fun x => wanted fs first xs x = true)) in Hperm.
  2: { intros x Hx. destruct (query_agrees fs o q x.1 x.2 Eq Hk Hs) as (b & Hm & Hq).
       - by apply (proj1 (List.Forall_forall _ _) Hc), list_elem_of_In.
       - apply (proj1 (List.Forall_forall _ _) (MongoFacts.hd_ok _ _ Hh)), list_elem_of_In, list_elem_of_fmap. by exists x.
       - unfold RetentionFacts.doc_of, wanted. by rewrite Hq, Hm, (firstObjectId_spec d xs first o x). }
  apply RetentionFacts.permutation_image in Hperm as (ys & Hys & ->). exists ys. split; [exact Hys|]. split.
  - by apply (RetentionFacts.sorted_image RetentionFacts.doc_of (Stages.not_before KeyTimestamp)).
  - rewrite <- fmap_drop, <- fmap_take, dec_docs in E; [by injection E as <-|].
    intros x Hx%elem_of_drop_take. rewrite Hys in Hx. apply list_elem_of_filter in Hx as [_ Hx].
    apply (proj1 (List.Forall_forall _ _) (MongoFacts.hd_ok _ _ Hh)), list_elem_of_In, list_elem_of_fmap. by exists x.
Qed.

(** A page is read when the driver answers and the filters are valid. *)
Definition answers d : Prop :=
  (forall q err, mongo_FindOne q d <> FindFailed err) /\
  forall q o, 0 < fo_Limit o -> 0 <= fo_Skip o -> exists out, mongo_FindWith q o d = Ok out.

Lemma add_filter_ok f m m0 m' : add_filter f m = Ok m' -> exists m1, add_filter f m0 = Ok m1.
Proof.
  unfold add_filter, add_time. intros E. destruct (property f) as [p|]; [|by eexists].
  destruct p; try (destruct (checked _ _ _); [cbn [res_bind] in *|done..]); repeat case_match; try done; try (by eexists);
    apply res_bind_ok in E as (c & -> & _); by eexists.
Qed.

Lemma add_filters_ok fs : forall m m0 m', add_filters fs m = Ok m' -> exists m1, add_filters fs m0 = Ok m1.
Proof.
  induction fs as [|f fs IH]; intros m m0 m' E; cbn [add_filters] in *; [by eexists|].
  apply res_bind_ok in E as (m1 & E1 & E). destruct (add_filter_ok f m m0 m1 E1) as [m2 ->]. cbn [res_bind]. by eapply IH.
Qed.

Lemma search_total d xs fs limit page first q :
  documents d = RetentionFacts.doc_of <$> xs -> MongoFacts.holds (documents d) (snd <$> xs) -> answers d ->
  buildFilter fs None = Ok q -> 0 < limit -> 0 <= page -> page * limit < 2 ^ 63 ->
  exists es, SearchEvents fs limit page first d = Ok es.
Proof.
  intros Ed Hh [H1' H2'] Hb Hl Hp Hov. unfold SearchEvents.
  assert (forall x, x ∈ xs -> EventDoc.guids_ok x.2) as Hok.
  { intros x Hx. apply (proj1 (List.Forall_forall _ _) (MongoFacts.hd_ok _ _ Hh)), list_elem_of_In, list_elem_of_fmap. by exists x. }
  assert (exists o, firstObjectId first d = Ok o) as [o ->].
  { unfold firstObjectId. destruct first as [id|]; [|by eexists].
    pose proof (law_FindOne (single KeyEventId (TxHash.MarshalBSONValue id)) d) as Hf. rewrite Ed in Hf.
    destruct (mongo_FindOne _ d) as [doc| |err] eqn:Eo; [|by eexists|by destruct (H1' _ _ Eo)].
    destruct Hf as [Hin _]. apply list_elem_of_fmap in Hin as (y & -> & Hy).
    change (object_id (RetentionFacts.doc_of y)) with (Ok y.1). cbn [res_bind]. unfold RetentionFacts.doc_of.
    rewrite EventDoc.dec_stored_doc by (by apply Hok). by eexists. }
  cbn [res_bind]. unfold buildFilter in *. apply res_bind_ok in Hb as (m & Hb & _).
  destruct (add_filters_ok fs _ (first_id o) m Hb) as [m1 ->]. cbn [res_bind].
  rewrite swrap_id by (unfold in_s; lia || nia).
  destruct (H2' (BDoc m1) (mkFindOptions KeyTimestamp limit (page * limit))) as [docs Ef]; [done|cbn; nia|]. rewrite Ef. cbn [res_bind].
  destruct (law_FindWith _ _ _ _ Ef) as (sorted & Hperm & _ & ->); [done|cbn; nia|]. rewrite Ed in Hperm.
  rewrite (RetentionFacts.filter_image RetentionFacts.doc_of _ (fun x => collated (BDoc m1) (RetentionFacts.doc_of x) = true)) in Hperm by done.
  apply RetentionFacts.permutation_image in Hperm as (ys & Hys & ->).
  rewrite <- fmap_drop, <- fmap_take, dec_docs; [by eexists|].
  intros x Hx%elem_of_drop_take. rewrite Hys in Hx. apply list_elem_of_filter in Hx as [_ Hx]. by apply Hok.
Qed.

(** Sorting is unambiguous when no two events were received in the same
    millisecond. *)
Lemma sorted_unique ys ys' : Sorted.StronglySorted newer ys -> Sorted.StronglySorted newer ys' -> ys ≡ₚ ys' ->
  (forall x y, x ∈ ys -> y ∈ ys -> RetentionFacts.received x.2 = RetentionFacts.received y.2 -> x = y) -> ys = ys'.
Proof.
  intros H1' H2' Hp Hinj. apply (StronglySorted_unique_strong newer); [|done..].
  intros x y Hx Hy Hxy Hyx. apply Hinj; [done|by rewrite Hp|]. unfold newer in *. lia.
Qed.

Definition distinct_times xs : Prop :=
  forall x y, x ∈ xs -> y ∈ xs -> RetentionFacts.received x.2 = RetentionFacts.received y.2 -> x = y.

#[local] Instance newer_dec x y : Decision (newer x y).
Proof. unfold newer. apply _. Defined.
#[local] Instance newer_total : Total newer.
Proof. intros x y. unfold newer. lia. Qed.
#[local] Instance newer_trans : Transitive newer.
Proof. intros x y z. unfold newer. lia. Qed.


(** Paging is stable: while a user pages through the results that start at
    an event, events that arrive later do not move what is on the pages. *)
Theorem search_stable d d' xs new fs limit page id y es es' :
  documents d = RetentionFacts.doc_of <$> xs -> MongoFacts.holds (documents d) (snd <$> xs) ->
  documents d' = RetentionFacts.doc_of <$> (xs ++ new) -> MongoFacts.holds (documents d') (snd <$> (xs ++ new)) ->
  searchable fs (xs ++ new) -> distinct_times xs -> y ∈ xs -> stored_id y.2 = id -> Forall (fun x => y.1 < x.1) new ->
  0 < limit -> 0 <= page -> page * limit < 2 ^ 63 ->
  SearchEvents fs limit page (Some id) d = Ok es -> SearchEvents fs limit page (Some id) d' = Ok es' -> es' = es.
Proof.
  intros Ed Hh Ed' Hh' Hs Ht Hy Hid Hnew Hl Hp Hov E E'.
  assert (searchable fs xs) as Hs0. { destruct Hs as [Hk Hsl Hc]. split; [done..|]. by apply Forall_app in Hc as [? _]. }
  destruct (search_spec d xs fs limit page _ es Ed Hh Hs0 Hl Hp Hov E) as (ys & Hys & Hsort & ->).
  destruct (search_spec d' _ fs limit page _ es' Ed' Hh' Hs Hl Hp Hov E') as (ys' & Hys' & Hsort' & ->).
  rewrite Ed' in Hh'. rewrite (later_unwanted fs id xs new y Hh' Hy Hid Hnew) in Hys'.
  assert (ys' = ys) as ->; [|done]. symmetry. apply sorted_unique; [done..|by rewrite Hys, Hys'|].
  intros a b Ha Hb. rewrite Hys in Ha, Hb. apply list_elem_of_filter in Ha as [_ Ha]. apply list_elem_of_filter in Hb as [_ Hb].
  by apply Ht.
Qed.

End Pages.
End SearchFacts.
