(* ===== verification/Schema.v ===== *)
(** * The indexes of the off-chain database

    Models [InitSchema] of [pkg/repository/mongodb]: the indexes of the two
    collections ([event.go], [challenge.go]) and their creation ([mongo.go]).
    [Repository] assumes of the collection of events that no two of its documents
    have the same event identifier; this is what the unique index is for, and here
    it is derived from it. *)

From S2P Require Import Prelude Types Text Policy Bson Repository Retention Search SearchFacts.

Module Schema.
Import Policy MongoEvents Filters Search.

(** [Keys] are the paths with their direction; the collation, where there is one, is
    that of the searches. *)
Record IndexModel : Type := mkIndexModel {
  im_Keys : list (bytes * Z);
  im_Unique : bool;
  im_CaseInsensitive : bool
}.

Definition event_indexes : list IndexModel :=
  [mkIndexModel [(KeyEventId, 1)] true true;
   mkIndexModel [(KeyTimestamp, -1)] false false;
   mkIndexModel [(KeyPrincipal, 1)] false false;
   mkIndexModel [(KeyChannel, 1)] false true;
   mkIndexModel [(KeyEventTypeId, 1)] false false;
   mkIndexModel [(KeyProvider, 1)] false false].

Definition challenge_indexes : list IndexModel := [mkIndexModel [(bz "principal", 1)] false false].

(** [Indexes().CreateMany]. *)
Class IndexedCollection (D : Type) : Type := { mongo_CreateMany : list IndexModel -> M D unit }.

Section InitSchema.
Context {E C : Type} `{IndexedCollection E} `{IndexedCollection C}.

Definition events_InitSchema : M E unit := mongo_CreateMany event_indexes.
Definition challenges_InitSchema : M C unit := mongo_CreateMany challenge_indexes.

(** [group.Wait]: the error of the goroutine that returned first. *)
Definition Wait (first second : result unit) : result unit :=
  match first, second with
  | Panic w, _ | _, Panic w => Panic w
  | Err e, _ => Err e
  | Ok _, r => r
  end.

(** Both collections at once; [events_first] says which goroutine is done first. *)
Definition InitSchema (events_first : bool) : M (E * C) unit := fun m =>
  let '(e, re) := events_InitSchema m.1 in
  let '(c, rc) := challenges_InitSchema m.2 in
  ((e, c), if events_first then Wait re rc else Wait rc re).

End InitSchema.

(** ** Documented behaviour of indexes *)
Section Laws.
Context `{Collation}.

(** What an index stores for a document; a field that is absent counts as null. *)
Definition entry (i : IndexModel) (doc : bson) : list bson :=
  (fun k => (if im_CaseInsensitive i then fold_strings primary else id) (default BNull (Query.at_path k.1 doc))) <$> im_Keys i.

Definition obeyed (docs : list bson) (i : IndexModel) : Prop := im_Unique i = true -> NoDup (entry i <$> docs).

(** A unique index cannot be created over duplicates, and refuses insertions that
    would make one. *)
Class IndexLaws (D : Type) `{MongoCollection D} `{IndexedCollection D} : Type := {
  contents : D -> list bson;
  indexes : D -> list IndexModel;
  law_CreateMany ms d d' r : mongo_CreateMany ms d = (d', r) ->
    contents d' = contents d /\ (forall i, i ∈ indexes d -> i ∈ indexes d') /\
    (r = Ok tt -> Forall (fun i => i ∈ indexes d' /\ obeyed (contents d) i) ms);
  law_index_Insert doc d d' o : mongo_InsertOne doc d = (d', o) ->
    indexes d' = indexes d /\
    (contents d' = contents d \/ exists oid, contents d' = contents d ++ [with_id oid doc] /\
       forall i, i ∈ indexes d -> im_Unique i = true -> entry i (with_id oid doc) ∉ entry i <$> contents d);
  law_index_Delete q d d' o : mongo_DeleteMany q d = (d', o) ->
    indexes d' = indexes d /\ sublist (contents d') (contents d)
}.

End Laws.

(** ** Properties *)
Section Facts.
Context `{UuidText} {D : Type} `{IndexLaws D}.
Implicit Types d : D.

(** What the process does to the collection afterwards. *)
Inductive operation : Type := Storing (e : StoredEvent) | Dropping (clock : nat -> Z) (policy : RetentionPolicy).

Definition perform (op : operation) (d : D) : D :=
  match op with
  | Storing e => (Store e d).1
  | Dropping clock policy => (Expiry.DropExpiredEvents clock policy d).1
  end.

Definition id_index : IndexModel := mkIndexModel [(KeyEventId, 1)] true true.

Definition guarded d : Prop := id_index ∈ indexes d /\ NoDup (entry id_index <$> contents d).

Lemma delete_guarded q d d' o : mongo_DeleteMany q d = (d', o) -> guarded d -> guarded d'.
Proof.
  intros Ed [Hi Hn]. destruct (law_index_Delete _ _ _ _ Ed) as [Hx Hs]. split; [by rewrite Hx|].
  eapply sublist_NoDup; [exact Hn|]. by apply fmap_sublist.
Qed.

Lemma perform_guarded op d : guarded d -> guarded (perform op d).
Proof.
  intros Hg. destruct op as [e|clock policy]; cbn.
  - unfold Store. destruct (mongo_InsertOne _ d) as [d' o] eqn:E. assert (guarded d') as Hg'; [|by destruct o as [|[|c l]|]; [|cbn|cbn; case_match|]].
    destruct Hg as [Hi Hn], (law_index_Insert _ _ _ _ E) as [Hx Hc]. split; [by rewrite Hx|].
    destruct Hc as [->|(oid & -> & Hnew)]; [done|]. rewrite fmap_app. apply list.NoDup_app. split_and!; [done| |apply NoDup_singleton].
    intros x Hin ->%list_elem_of_singleton. by eapply Hnew.
  - unfold Expiry.DropExpiredEvents. destruct (Validate policy); [done|].
    destruct (let* aggregate := _ in _) as [[|events docs]|err|w]; [done| |done..].
    unfold m_bind. destruct (mongo_DeleteMany _ d) as [d' o] eqn:E. apply delete_guarded in E; [|done]. by destruct o.
Qed.

(** An index that exists is obeyed, from its creation on. *)
Lemma schema_guards d d' ops : events_InitSchema d = (d', Ok tt) -> guarded (foldl (fun d op => perform op d) d' ops).
Proof.
  intros E. destruct (law_CreateMany _ _ _ _ E) as (Hc & _ & Hok). specialize (Hok eq_refl).
  apply List.Forall_cons_iff in Hok as [[Hin Hob] _]. assert (guarded d') as Hg by (split; [exact Hin|rewrite Hc; by apply Hob]).
  clear -Hg. revert d' Hg. induction ops as [|op ops IH]; intros d' Hg; [done|]. cbn. by apply IH, perform_guarded.
Qed.

Lemma guarded_unique d : guarded d -> NoDup (Query.at_path KeyEventId <$> contents d).
Proof.
  intros [_ Hn]. eapply (NoDup_fmap_1 (fun v => [fold_strings primary (default BNull v)])). rewrite <- list_fmap_compose. exact Hn.
Qed.

(** C36. Once the schema has been created, no two documents of the collection ever have the
    same event identifier, whatever is stored and dropped. *)
Theorem ids_stay_unique d d' ops : events_InitSchema d = (d', Ok tt) ->
  NoDup (Query.at_path KeyEventId <$> contents (foldl (fun d op => perform op d) d' ops)).
Proof. intros E. by eapply guarded_unique, schema_guards. Qed.

(** Over duplicates the schema cannot be created, and the process does not start. *)
Lemma duplicates_refuse_schema d d' m n a b : contents d !! m = Some a -> contents d !! n = Some b -> m <> n ->
  Query.at_path KeyEventId a = Query.at_path KeyEventId b -> events_InitSchema d <> (d', Ok tt).
Proof.
  intros Ha Hb Hne Hk E. pose proof (guarded_unique _ (schema_guards d d' [] E)) as Hn. cbn in Hn.
  destruct (law_CreateMany _ _ _ _ E) as (Hc & _). rewrite Hc in Hn. apply Hne.
  apply (NoDup_lookup _ m n (Query.at_path KeyEventId a) Hn); rewrite list_lookup_fmap; [by rewrite Ha|rewrite Hb, Hk; done].
Qed.

End Facts.

(** The identifiers are lower-case digits, so that the case-insensitive index keeps
    apart exactly the events with different identifiers. *)
Theorem index_exact `{UuidText} `{SearchFacts.CollationLaws} oid e oid' e' :
  entry id_index (EventDoc.stored_doc oid e) = entry id_index (EventDoc.stored_doc oid' e') <-> stored_id e = stored_id e'.
Proof.
  unfold entry. cbn [im_Keys id_index im_CaseInsensitive fmap list_fmap fst]. rewrite !MongoFacts.key_of_doc. cbn [default fold_strings].
  pose proof (SearchFacts.primary_lower (Hex.EncodeToString (stored_id e)) (Hex.EncodeToString (stored_id e'))
    (SearchFacts.hex_lower_case _) (SearchFacts.hex_lower_case _)) as Hp.
  split; [|by intros ->]. intros [= E]. rewrite bool_decide_true in Hp by done. symmetry in Hp. apply bool_decide_eq_true in Hp.
  by apply Hex.encode_inj.
Qed.

End Schema.
