(* ===== verification/SearchWitness.v ===== *)
(** * Searching concrete data

    A collation that lowers letters and a search over a list of documents show
    that the hypotheses of the theorems about searching can hold; three events
    are searched and matched, and the ways in which a search and the stream
    differ are recorded. *)

From S2P Require Import Prelude Types Text TimeText Policy Bson Repository Retention RetentionFacts Search SearchFacts Schema MongoReference ChainWitness AgentWitness.
From Corelib Require Import Init.Byte.

Module SearchWitness.
Import Filters MongoEvents Search SearchFacts Aggregate ChainWitness AgentWitness.

(** ** Instances *)

#[local] Instance ref_collation : Collation := {| primary := ToLower |}.

#[local] Instance ref_collation_laws : CollationLaws.
Proof. by constructor. Qed.

#[local] Instance ref_search : MongoSearch (list bson) := {|
  mongo_FindWith q o d :=
    if fo_Skip o <? 0 then Err (NewError (bz "the skip value must be non-negative"))
    else Ok (take (Z.to_nat (fo_Limit o)) (drop (Z.to_nat (fo_Skip o))
           (Run.sort_docs (fo_Sort o) (filter (fun doc => collated q doc = true) d))))
|}.

#[local] Instance ref_search_laws : SearchLaws (list bson).
Proof.
  constructor. intros q o d out E _ Hs. cbn in E. destruct (Z.ltb_spec (fo_Skip o) 0); [lia|]. injection E as <-.
  eexists. split; [apply Run.sort_docs_perm|]. split; [apply Run.sort_docs_sorted|done].
Qed.

(** ** A search *)

Definition wFilters : list Filter :=
  [mkFilter (bz "channel") (bz "eq") (bz "SECURITY");
   mkFilter (bz "timestamp") (bz "after") (bz "1969-12-01T00:00");
   mkFilter (bz "provider_guid") (bz "eq") (uuid_String wGuid)].

Definition wXs : list (Z * StoredEvent) := [(0, wOld); (1, wRecent); (2, wOther)].

Lemma wXs_searchable : searchable wFilters wXs.
Proof.
  split.
  - repeat constructor; discriminate.
  - by apply (bool_decide_unpack _).
  - assert (forall x, x ∈ wXs -> Forall (fun f => comparable f x.2) wFilters) as Hc.
    { intros x Hx. repeat (apply elem_of_cons in Hx as [->|Hx]); [..|by apply elem_of_nil in Hx];
        (constructor; [split; repeat constructor; vm_compute; discriminate|]);
        (constructor; [intros _; vm_compute; reflexivity|]); repeat constructor. }
    apply List.Forall_forall. intros x Hx. apply Hc. by apply list_elem_of_In.
Qed.

Lemma wXs_distinct : distinct_times wXs.
Proof.
  intros x y Hx Hy. repeat (apply elem_of_cons in Hx as [->|Hx]); [..|by apply elem_of_nil in Hx];
    (repeat (apply elem_of_cons in Hy as [->|Hy]); [..|by apply elem_of_nil in Hy]); vm_compute; congruence.
Qed.

Lemma wDb_docs : documents wDb = RetentionFacts.doc_of <$> wXs.
Proof. reflexivity. Qed.

Lemma wDb_answers : answers wDb.
Proof.
  split.
  - intros q err. cbn. by case_match.
  - intros q o _ Hs. cbn. destruct (Z.ltb_spec (fo_Skip o) 0); [lia|]. by eexists.
Qed.


(** Both security events are found, one on each page. *)
Example two_pages : SearchEvents wFilters 1 0 None wDb = Ok [wRecent] /\ SearchEvents wFilters 1 1 None wDb = Ok [wOld] /\
  SearchEvents wFilters 1 2 None wDb = Ok [].
Proof. vm_compute. auto. Qed.

Lemma search_agrees_with_stream_witness : filtersMatch wRecent wFilters = Ok true.
Proof.
  destruct (buildFilter wFilters None) as [q| |] eqn:Eq; [|discriminate Eq..].
  rewrite (search_agrees_with_stream wFilters q 1 wRecent Eq (se_known _ _ wXs_searchable) (se_slots _ _ wXs_searchable)).
  - vm_compute in Eq. injection Eq as <-. vm_compute. reflexivity.
  - apply (proj1 (List.Forall_forall _ _) (se_comparable _ _ wXs_searchable) (1, wRecent)). right. by left.
  - split; by intros g [= <-].
Defined.

(** An event that arrives while the user pages. *)
Definition wLate : StoredEvent := wEvent (bz "late") (bz "Security") 0.
Definition wDb2 : list bson := wDb ++ [EventDoc.stored_doc 3 wLate].

Lemma wDb2_holds : MongoFacts.holds (documents wDb2) (snd <$> (wXs ++ [(3, wLate)])).
Proof.
  split.
  - repeat constructor; by eexists.
  - repeat constructor; intros g [= <-]; reflexivity.
  - by apply (bool_decide_unpack _).
Qed.

Lemma wLate_searchable : searchable wFilters (wXs ++ [(3, wLate)]).
Proof.
  destruct wXs_searchable as [Hk Hs Hc]. split; [done..|]. apply Forall_app. split; [done|]. constructor; [|constructor].
  constructor; [split; repeat constructor; vm_compute; discriminate|].
  constructor; [intros _; vm_compute; reflexivity|]. repeat constructor.
Qed.

Lemma search_stable_witness :
  SearchEvents wFilters 1 0 (Some (bz "recent")) wDb2 = SearchEvents wFilters 1 0 (Some (bz "recent")) wDb.
Proof.
  assert (exists es, SearchEvents wFilters 1 0 (Some (bz "recent")) wDb = Ok es) as [es E] by (eexists; vm_compute; reflexivity).
  assert (exists es', SearchEvents wFilters 1 0 (Some (bz "recent")) wDb2 = Ok es') as [es' E'] by (eexists; vm_compute; reflexivity).
  rewrite E, E'. f_equal.
  refine (search_stable wDb wDb2 wXs [(3, wLate)] wFilters 1 0 (bz "recent") (1, wRecent) es es' eq_refl wDb_holds eq_refl wDb2_holds
    wLate_searchable wXs_distinct _ eq_refl _ eq_refl _ eq_refl E E').
  - apply list_elem_of_further, list_elem_of_here.
  - constructor; [done|constructor].
  - done.
Defined.

(** ** Where a search and the stream differ *)

(** The principal of an event is compared without case by a search only. *)
Example principal_case : let fs := [mkFilter (bz "principal") (bz "eq") (bz "ROOT")] in
  SearchEvents fs 1 0 None wDb = Ok [wRecent] /\ filtersMatch wRecent fs = Ok false.
Proof. vm_compute. auto. Qed.

(** So are the digits of an identifier. *)
Example digit_case : let fs := [mkFilter (bz "tx_hash") (bz "eq") (bz "DEAD")] in
  let e := mkStoredEvent (st_EventWithData wRecent) (st_Metadata wRecent) [z2b 222; z2b 173] in
  SearchEvents fs 1 0 None [EventDoc.stored_doc 0 e] = Ok [EventDoc.stored_form e] /\ filtersMatch e fs = Ok false.
Proof. vm_compute. auto. Qed.

(** A misspelt property selects every event in a search. *)
Example misspelt : let fs := [mkFilter (bz "Channel") (bz "eq") (bz "System")] in
  SearchEvents fs 1 0 None wDb = Ok [wRecent] /\ filtersMatch wRecent fs = Err ErrInvalidFilter.
Proof. vm_compute. auto. Qed.

(** A page of zero is a negative number of skipped documents. *)
Example page_zero : searchEventsHandler 15 (Some []) None (Some (bz "0")) wDb = Ok (500, None).
Proof. vm_compute. reflexivity. Qed.

Example bad_filter : searchEventsHandler 15 (Some [mkFilter (bz "channel") (bz "before") (bz "Security")]) None None wDb = Ok (400, None).
Proof. vm_compute. reflexivity. Qed.

End SearchWitness.

(** * The indexes over a list of documents

    A collection that checks its unique indexes satisfies the laws of [Schema]; one
    event is stored in it twice. *)
Module SchemaWitness.
Import Policy MongoEvents Schema SearchWitness AgentWitness.
#[local] Existing Instance ref_collation.

#[local] Instance bson_eq_dec : EqDecision bson.
Proof.
  unfold EqDecision, Decision. fix go 1. intros a b.
  decide equality; try apply decide; try apply _;
    [apply (list_eq_dec go)|apply list_eq_dec; decide equality; apply decide; apply _].
Defined.

Record collection : Type := mkCollection {
  c_docs : list bson;
  c_indexes : list IndexModel
}.

Definition put_docs (docs : list bson) (c : collection) : collection := mkCollection docs (c_indexes c).

Definition clashes (docs : list bson) (doc : bson) (i : IndexModel) : bool := im_Unique i && bool_decide (entry i doc ∈ entry i <$> docs).

#[local] Instance indexed_mongo : MongoCollection collection := {|
  mongo_FindOne q c := mongo_FindOne q (c_docs c);
  mongo_Find q c := mongo_Find q (c_docs c);
  mongo_InsertOne doc c :=
    let doc := with_id (zlen (c_docs c)) doc in
    if existsb (clashes (c_docs c) doc) (c_indexes c) then (c, WriteException [duplicateKey])
    else (put_docs (c_docs c ++ [doc]) c, Inserted);
  mongo_DeleteMany q c := let '(docs, r) := mongo_DeleteMany q (c_docs c) in (put_docs docs c, r);
  mongo_Aggregate pl c := mongo_Aggregate pl (c_docs c);
  mongo_CountDocuments c := mongo_CountDocuments (c_docs c)
|}.

#[local] Instance obeyed_dec docs i : Decision (obeyed docs i).
Proof. unfold obeyed. apply _. Defined.

#[local] Instance indexed_create : IndexedCollection collection := {|
  mongo_CreateMany ms c :=
    if forallb (fun i => bool_decide (obeyed (c_docs c) i)) ms then (mkCollection (c_docs c) (c_indexes c ++ ms), Ok tt)
    else (c, Err (NewError (bz "E11000 duplicate key error collection")))
|}.

#[local] Instance indexed_laws : IndexLaws collection.
Proof.
  refine {| contents := c_docs; indexes := c_indexes |}; cbn.
  - intros ms c c' r E. destruct (forallb _ ms) eqn:Ef; injection E as <- <-; cbn; [|by split_and!].
    split_and!; [done|intros i Hi; apply list.elem_of_app; by left|]. intros _. apply List.Forall_forall. intros i Hi. split.
    + apply list.elem_of_app. right. by apply list_elem_of_In.
    + rewrite forallb_forall in Ef. by apply Ef, bool_decide_eq_true in Hi.
  - intros doc c c' o E. destruct (existsb _ (c_indexes c)) eqn:Ex; injection E as <- <-; (split; [done|]); [by left|right].
    eexists. split; [reflexivity|]. intros i Hi Hu Hin. apply not_true_iff_false in Ex. apply Ex, existsb_exists. exists i.
    split; [by apply list_elem_of_In|]. unfold clashes. by rewrite Hu, bool_decide_true.
  - intros q c c' o [= <- _]. split; [done|]. cbn. apply sublist_filter.
Defined.

Definition wEmpty : collection := mkCollection [] [].
Definition wReady : collection := mkCollection [] event_indexes.

Lemma ids_stay_unique_witness :
  events_InitSchema wEmpty = (wReady, Ok tt) /\
  NoDup (Query.at_path KeyEventId <$> contents (foldl (fun d op => perform op d) wReady [Storing wRecent; Storing wRecent; Storing wOld])).
Proof.
  assert (events_InitSchema wEmpty = (wReady, Ok tt)) as E by (vm_compute; reflexivity).
  split; [exact E|]. exact (ids_stay_unique wEmpty wReady [Storing wRecent; Storing wRecent; Storing wOld] E).
Defined.

Example stored_once : (length (c_docs (foldl (fun d op => perform op d) wReady [Storing wRecent; Storing wRecent])) = 1)%nat /\
  (Store wRecent (perform (Storing wRecent) wReady)).2 = Err ErrEventAlreadyStored.
Proof. vm_compute. done. Qed.

End SchemaWitness.
