(* ===== verification/HttpServer.v ===== *)
(** * The HTTP servers of an off-chain node

    The routes of [internal/server/server.go] and [internal/viewer/server.go]
    with the handlers behind them, the binding of request bodies, and the
    handlers that only report ([stats.go], [status.go], [checktoken.go]).  The
    router of gin, which finds the route of a request, is not modelled: a
    request names its route. *)

From S2P Require Import Prelude Types Text JsonText JsonScan JsonCompact JsonCodec JsonCodecFacts Platform Bson JsonTypes JsonTypesFacts JsonDecoded StateStore StateStoreFacts StoreInterface Repository BlockchainClient OffchainNode NodeFacts JsonOffchain TimeText Viewer Search Stream JsonViewer.

Module HttpServer.
Import JsonCodec JsonTypes JsonOffchain JsonViewer.

(** [ShouldBindJSON]: the first value of the body; the types have no rules of
    validation. *)
Definition ShouldBindJSON {A} (dec : decoder A) (zero : A) (body : bytes) : option A :=
  match Decode_into dec zero body with Ok a => Some a | _ => None end.

(** ** The server of the agents *)
Module Server.
Import Node.

Section Server.
Context `{Ed25519} `{Payload.PayloadJson}.
Context {K R S : Type} `{ChainClient K} `{EventRepository R} `{StateStore S}.
(* [EventCount] and [TestConnection] of the repository *)
Variable EventCount : R -> result Z.
Variable TestConnection : R -> result unit.

Record stats : Type := mkStats {
  event_count : Z;
  missing_event_count : Z;
  last_seen_block_height : option Z;
  missing_blocks : list BlockRange
}.

Definition HandleStats : M (Node K R S) (Z * option stats) :=
  do eventCount <- attempt (m_lift (fun n => EventCount (repo n))) ;;
  match eventCount with
  | inr _ => m_ret (500, None)
  | inl eventCount =>
      do missingEventCount <- attempt (m_lift (fun n => st_MissingEventCount (store n))) ;;
      match missingEventCount with
      | inr _ => m_ret (500, None)
      | inl missingEventCount =>
          do lastSeenBlockHeight <- attempt (on_store st_LastSeenBlockHeight) ;;
          match lastSeenBlockHeight with
          | inr _ => m_ret (500, None)
          | inl lastSeenBlockHeight =>
              do missingBlocksWithKey <- attempt (m_lift (fun n => st_MissingBlocks (store n))) ;;
              match missingBlocksWithKey with
              | inr _ => m_ret (500, None)
              | inl missingBlocksWithKey =>
                  m_ret (200, Some (mkStats eventCount missingEventCount lastSeenBlockHeight
                    (br_Range <$> (missingBlocksWithKey : list BlockRangeWithId))))
              end
          end
      end
  end.

Definition HandleStatus : M (Node K R S) Z :=
  do tested <- attempt (m_lift (fun n => TestConnection (repo n))) ;;
  match tested with inr _ => m_ret 500 | inl _ => m_ret 200 end.

Inductive route : Type := GetEvent | Status | SubmitEvent | DebugStats.

(** [Run]: what is registered with the router. *)
Definition routes (production : bool) : list (bytes * bytes * route) :=
  [(bz "GET", bz "/event/:event_id", GetEvent);
   (bz "GET", bz "/status", Status);
   (bz "POST", bz "/event", SubmitEvent)] ++
  if production then [] else [(bz "GET", bz "/debug/stats", DebugStats)].

Inductive answer : Type :=
| AEvent (e : StoredEvent)
| AStats (s : stats)
| ANothing.

(** The handler of a route; [param] is the parameter of the path. *)
Definition handle (viewer : bool) (Broadcast : bytes -> result unit) (r : route) (param body : bytes) : M (Node K R S) (Z * answer) :=
  match r with
  | GetEvent =>
      do out <- HandleGetEvent param ;;
      m_ret (fst out, match snd out with Some e => AEvent e | None => ANothing end)
  | Status => do status <- HandleStatus ;; m_ret (status, ANothing)
  | SubmitEvent =>
      do status <- HandleSubmit viewer Broadcast
        (ShouldBindJSON dec_SubmitRequest (mkSubmitRequest [] [] [] [] []) body) ;;
      m_ret (status, ANothing)
  | DebugStats =>
      do out <- HandleStats ;;
      m_ret (fst out, match snd out with Some s => AStats s | None => ANothing end)
  end.

(** A request for a route that is not registered is not found. *)
Definition serve (production viewer : bool) (Broadcast : bytes -> result unit) (method path param body : bytes) : M (Node K R S) (Z * answer) :=
  match List.find (fun x => bool_decide (fst x = (method, path))) (routes production) with
  | Some (_, r) => handle viewer Broadcast r param body
  | None => m_ret (404, ANothing)
  end.

(** *** Properties *)

(** The statistics are what the node knows: the size of its repository, the
    missing events, the last block and the missing ranges of blocks. *)
Theorem stats_report `{!StateStoreLaws S} (n : Node K R S) st count :
  implements (store n) st -> EventCount (repo n) = Ok count ->
  HandleStats n = (n, Ok (200, Some (mkStats count (zlen (s_events st)) (s_height st) (br_Range <$> s_blocks st)))).
Proof.
  intros Hi Hc. unfold HandleStats, attempt, m_bind, m_lift, m_ret. rewrite Hc. rewrite (law_count _ _ Hi).
  unfold on_store, m_zoom. rewrite (law_last_height _ _ Hi). destruct n as [k r d e]. cbn [put_store store] in *.
  by rewrite (law_blocks _ _ Hi).
Qed.

(** In production the endpoint for debugging is not served. *)
Theorem production_hides_stats viewer Broadcast method path param body (n n' : Node K R S) status s :
  serve true viewer Broadcast method path param body n <> (n', Ok (status, AStats s)).
Proof.
  unfold serve. destruct (List.find _ (routes true)) as [[mp r]|] eqn:E; [|done].
  apply List.find_some in E as [Hin _]. unfold handle, m_bind, m_ret.
  destruct Hin as [[= <- <-]|[[= <- <-]|[[= <- <-]|[]]]].
  - destruct (HandleGetEvent param n) as [? [[? [e|]]| |]]; by intros [=].
  - destruct (HandleStatus n) as [? [| |]]; by intros [=].
  - destruct (HandleSubmit _ _ _ n) as [? [| |]]; by intros [=].
Qed.

End Server.
End Server.

(** ** The server of the viewer *)
Module ViewerRoutes.
Import Viewer Filters.

Record challengeRequestBody : Type := mkChallengeRequestBody { cq_Principal : bytes }.
Definition dec_challengeRequestBody : decoder challengeRequestBody := dec_struct
  [(bz "principal", set_field cq_Principal (fun x _ => mkChallengeRequestBody x) dec_string)].

Record challengeResponseRequestBody : Type := mkChallengeResponseRequestBody {
  rb_Principal : bytes;
  rb_Challenge : bytes;
  rb_Response : bytes
}.
Definition dec_challengeResponseRequestBody : decoder challengeResponseRequestBody := dec_struct
  [(bz "principal", set_field rb_Principal (fun x b => mkChallengeResponseRequestBody x (rb_Challenge b) (rb_Response b)) dec_string);
   (bz "challenge", set_field rb_Challenge (fun x b => mkChallengeResponseRequestBody (rb_Principal b) x (rb_Response b)) dec_bytes);
   (bz "response", set_field rb_Response (fun x b => mkChallengeResponseRequestBody (rb_Principal b) (rb_Challenge b) x) dec_bytes)].

Record searchRequestBody : Type := mkSearchRequestBody { sb_Filters : list Filter }.
Definition dec_searchRequestBody : decoder searchRequestBody := dec_struct
  [(bz "filters", set_field sb_Filters (fun x _ => mkSearchRequestBody x) dec_Filters)].

Inductive route : Type := CheckToken | Challenge | ChallengeResponse | SearchRoute | EventById | StreamRoute.

(** [Run]: the routes, and whether the middleware [authenticate] is before the
    handler. *)
Definition routes : list (bytes * bytes * bool * route) :=
  [(bz "GET", bz "/auth/check-token", true, CheckToken);
   (bz "POST", bz "/auth/challenge", false, Challenge);
   (bz "POST", bz "/auth/challenge-response", false, ChallengeResponse);
   (bz "POST", bz "/events", true, SearchRoute);
   (bz "GET", bz "/events/by-id/:id", true, EventById);
   (bz "GET", bz "/events/stream", false, StreamRoute)].

(** What a request carries. *)
Record request : Type := mkRequest {
  rq_header : bytes;           (* Authorization *)
  rq_param : bytes;
  rq_first : option bytes;     (* of the query *)
  rq_page : option bytes;
  rq_body : bytes
}.

Inductive answer : Type :=
| APrincipal (p : Principal)
| AChallenge (c : bytes)
| AToken (t : bytes)
| AEvents (l : list StoredEvent)
| AEvent (e : StoredEvent)
| AUpgrade                     (* to a websocket *)
| ANothing.

Section Routes.
Context `{Ed25519} `{Jwt} `{UuidText}.
Context {K CH D R : Type} `{ChainClient K} `{ChallengeDriver CH} `{MongoCollection D} `{Search.MongoSearch D} `{EventRepository R}.
Variable config : ViewerServer.
Variable SearchPageLimit : Z.

Definition with_answer {A} (f : A -> answer) (out : Z * option A) : Z * answer :=
  (fst out, match snd out with Some a => f a | None => ANothing end).

Definition checkTokenHandler (principal : Principal) : Z * answer := (200, APrincipal principal).

(** The handler of a route, for the principal [authenticate] has found.  [now]
    and [random] are the clock and the random source, [d] and [r] the collection
    of events. *)
Definition handle (now : time) (random : result bytes) (d : D) (r : R) (route_ : route) (principal : Principal) (q : request)
  : M (Server K CH) (Z * answer) :=
  match route_ with
  | CheckToken => m_ret (checkTokenHandler principal)
  | Challenge =>
      do out <- challengeHandler now random
        (cq_Principal <$> ShouldBindJSON dec_challengeRequestBody (mkChallengeRequestBody []) (rq_body q)) ;;
      m_ret (with_answer AChallenge out)
  | ChallengeResponse =>
      do out <- challengeResponseHandler config now
        ((fun b => (rb_Principal b, rb_Challenge b, rb_Response b)) <$>
         ShouldBindJSON dec_challengeResponseRequestBody (mkChallengeResponseRequestBody [] [] []) (rq_body q)) ;;
      m_ret (with_answer AToken out)
  | SearchRoute =>
      do out <- m_lift (fun _ => Search.searchEventsHandler SearchPageLimit
        (sb_Filters <$> ShouldBindJSON dec_searchRequestBody (mkSearchRequestBody []) (rq_body q)) (rq_first q) (rq_page q) d) ;;
      m_ret (with_answer AEvents out)
  | EventById =>
      do out <- m_lift (fun _ => getEventHandler (rq_param q) r) ;;
      m_ret (with_answer AEvent out)
  | StreamRoute => m_ret (101, AUpgrade)
  end.

Definition serve (now : time) (random : result bytes) (d : D) (r : R) (method path : bytes) (q : request)
  : M (Server K CH) (Z * answer) :=
  match List.find (fun x => bool_decide (fst (fst x) = (method, path))) routes with
  | Some (_, true, route_) =>
      match authenticate config (rq_header q) with
      | inl status => m_ret (status, ANothing)
      | inr principal => handle now random d r route_ principal q
      end
  | Some (_, false, route_) => handle now random d r route_ [] q
  | None => m_ret (404, ANothing)
  end.

(** *** Properties *)

(** What is only for those who have logged in. *)
Definition restricted (a : answer) : Prop :=
  match a with APrincipal _ | AEvents _ | AEvent _ => True | _ => False end.

(** C30. Whatever is asked of the server, stored events and the name of a principal
    are returned only for a request with a token the server accepts. *)
Theorem viewer_requires_token now random d r method path q (s s' : Server K CH) status a :
  serve now random d r method path q s = (s', Ok (status, a)) -> restricted a ->
  exists subject, validateToken config (rq_header q) = Some subject /\ forall p, a = APrincipal p -> p = subject.
Proof.
  unfold serve. destruct (List.find _ routes) as [[[mp auth] r_]|] eqn:E; [|by intros [= <- <- <-]].
  apply List.find_some in E as [Hin _].
  assert ((auth = true \/ forall p (s s' : Server K CH) status a, handle now random d r r_ p q s = (s', Ok (status, a)) -> ~ restricted a) /\
    forall p p' (s s' : Server K CH) status, handle now random d r r_ p q s = (s', Ok (status, APrincipal p')) -> p' = p) as [Hauth Hp].
  { destruct Hin as [[= <- <- <-]|[[= <- <- <-]|[[= <- <- <-]|[[= <- <- <-]|[[= <- <- <-]|[[= <- <- <-]|[]]]]]]];
      (split; [try (by left); right|]); cbn [handle]; unfold m_bind, m_ret, m_lift, with_answer.
    all: repeat intro; repeat case_match; simplify_eq; cbn in *; try done. }
  destruct auth.
  - unfold authenticate. destruct (rq_header q) as [|c h] eqn:Eh; [by intros [= <- <- <-]|].
    destruct (validateToken config (c :: h)) as [subject|]; [|by intros [= <- <- <-]].
    intros Hh _. exists subject. split; [done|]. intros p ->. by eapply Hp.
  - intros Hh Hr. destruct Hauth as [Ha|Hn]; [done|]. by destruct (Hn _ _ _ _ _ Hh).
Qed.

End Routes.
End ViewerRoutes.
End HttpServer.
