(* ===== verification/Subscription.v ===== *)
(** * Following the chain

    Models how the off-chain node learns of blocks and events: the messages of
    the websocket of a node ([pkg/blockchain/websocket.go], [jsonrpc.go]) and
    their translation into block heights and missing events
    ([pkg/blockchain/subscriber.go]).  CometBFT, which publishes the events of a
    transaction, and the codec of its messages are parameters. *)

From S2P Require Import Prelude Types Text Sha256 Platform Abci IdentityApp EventsApp StateStore StateStoreFacts StoreInterface Harmoniser Pool.

(** ** Messages ([jsonrpc.go]) *)

(** A decoded JSON value, Go's [any]; the keys of an object are distinct. *)
Inductive any : Type :=
| ANil
| ABool (b : bool)
| ANum (z : Z)
| AStr (s : bytes)
| AArr (l : list any)
| AMap (m : list (bytes * any)).

Record ResultEvent : Type := mkResultEvent {
  re_Query : bytes;
  re_Data : any;
  re_Events : option (gmap bytes (list bytes)) (* [None] is the nil map *)
}.

Record EventRpcResponse : Type := mkEventRpcResponse {
  rr_Id : Z;
  rr_Result : ResultEvent
}.

Record JsonRpcRequest : Type := mkJsonRpcRequest {
  jr_JsonRPCVersion : bytes;
  jr_Method : bytes;
  jr_Id : Z;
  jr_Query : bytes
}.

Definition newSubscribeRequest (id : Z) (query : bytes) : JsonRpcRequest :=
  mkJsonRpcRequest (bz "2.0") (bz "subscribe") id query.

Module Subscription.

(** ** The connection ([websocket.go]) *)

Definition queryIdEvents : Z := 0.
Definition queryIdBlocks : Z := 1.

Definition eventQuery : bytes := EventsApp.EventCreate ++ bz ".type='create'".
Definition blockQuery : bytes := bz "tm.event='NewBlock'".

Definition subscriptions : list JsonRpcRequest :=
  [newSubscribeRequest queryIdEvents eventQuery; newSubscribeRequest queryIdBlocks blockQuery].

(** The scheme of the address; parsing and printing it is [net/url]. *)
Definition websocketScheme (scheme : bytes) : bytes :=
  if bool_decide (scheme = bz "https") then bz "wss" else bz "ws".

Inductive channel : Type := EventCh | NewBlockCh.

Section Messages.
Context `{Json EventRpcResponse}.

(** The channel a message is pushed to, if any. *)
Definition onMessage (isText : bool) (b : bytes) : option (channel * ResultEvent) :=
  if negb isText then None
  else match Unmarshal b with
       | Ok data =>
           if bool_decide (re_Query (rr_Result data) = []) || bool_decide (re_Events (rr_Result data) = None) then None
           else if rr_Id data =? queryIdEvents then Some (EventCh, rr_Result data)
           else if rr_Id data =? queryIdBlocks then Some (NewBlockCh, rr_Result data)
           else None
       | _ => None
       end.

(** The goroutine of [ConnectWebsocket]. *)
Inductive ws_state : Type :=
| Dialing
| Subscribing (conn : nat)
| Listening (conn : nat)
| WsStopped.

Record ws_loop : Type := mkWsLoop {
  ws : ws_state;
  isShutdown : bool
}.

Inductive ws_input : Type :=
| DialFails
| Dials (conn : nat)
| SubscribeFails            (* the first or the second *)
| Subscribed
| Message (isText : bool) (b : bytes)
| ReadFails (isCloseError : bool)
| ShutdownSignal.

Inductive ws_output : Type :=
| Push (ch : channel) (ev : ResultEvent)
| AnswerShutdown.

Definition set_ws (w : ws_state) (s : ws_loop) : ws_loop := mkWsLoop w (isShutdown s).

(** An input that does not fit the state is ignored. *)
Definition ws_step (s : ws_loop) (i : ws_input) : ws_loop * list ws_output :=
  match ws s, i with
  | WsStopped, _ => (s, [])
  | Dialing, ShutdownSignal => (mkWsLoop WsStopped true, [])
  | Dialing, Dials conn => (set_ws (if isShutdown s then WsStopped else Subscribing conn) s, [])
  | Dialing, DialFails => (set_ws (if isShutdown s then WsStopped else Dialing) s, [])
  | Subscribing conn, Subscribed => (set_ws (Listening conn) s, [])
  | Subscribing conn, SubscribeFails => (set_ws (if isShutdown s then WsStopped else Subscribing conn) s, [])
  | Subscribing _, ShutdownSignal | Listening _, ShutdownSignal => (mkWsLoop (ws s) true, [AnswerShutdown])
  | Listening _, Message isText b =>
      (s, match onMessage isText b with Some (ch, ev) => [Push ch ev] | None => [] end)
  | Listening _, ReadFails isCloseError =>
      (set_ws (if negb isCloseError && isShutdown s then WsStopped else Dialing) s, [])
  | _, _ => (s, [])
  end.

Fixpoint ws_run (s : ws_loop) (is_ : list ws_input) : ws_loop * list ws_output :=
  match is_ with
  | [] => (s, [])
  | i :: rest => let '(s, out) := ws_step s i in let '(s, out') := ws_run s rest in (s, out ++ out')
  end.

(** A connection on which a subscription fails is kept: the loop tries the
    subscriptions on it again and never dials another one. *)
Lemma dead_connection_kept conn n : ws_run (mkWsLoop (Subscribing conn) false) (replicate n SubscribeFails) =
  (mkWsLoop (Subscribing conn) false, []).
Proof. induction n as [|n IH]; [done|]. cbn [replicate ws_run ws_step ws isShutdown]. unfold set_ws. cbn [isShutdown]. by rewrite IH. Qed.

(** Without a connection a shutdown is not acknowledged. *)
Lemma shutdown_unanswered : ws_step (mkWsLoop Dialing false) ShutdownSignal = (mkWsLoop WsStopped true, []).
Proof. done. Qed.

(** After a read error the loop connects again and continues to deliver. *)
Lemma reconnects conn conn' b ch ev isCloseError : onMessage true b = Some (ch, ev) ->
  ws_run (mkWsLoop (Listening conn) false) [ReadFails isCloseError; DialFails; Dials conn'; Subscribed; Message true b] =
  (mkWsLoop (Listening conn') false, [Push ch ev]).
Proof. intros E. destruct isCloseError; cbn -[onMessage]; by rewrite E. Qed.

End Messages.

(** ** Heights and events ([subscriber.go]) *)

Fixpoint map_get (k : bytes) (m : list (bytes * any)) : option any :=
  match m with
  | [] => None
  | (k', v) :: rest => if bool_decide (k' = k) then Some v else map_get k rest
  end.

Definition as_string (v : any) : option bytes := match v with AStr s => Some s | _ => None end.

Fixpoint traverseJsonMap {T} (as_T : any -> option T) (working : list (bytes * any)) (fields : list bytes) : result T :=
  match fields with
  | [] => Err (NewError (bz "no value found"))
  | [field] =>
      match map_get field working ≫= as_T with
      | Some v => Ok v
      | None => Err (NewError (bz "Field " ++ field ++ bz " is not of type"))
      end
  | field :: rest =>
      match map_get field working with
      | Some (AMap next) => traverseJsonMap as_T next rest
      | _ => Err (NewError (bz "Field " ++ field ++ bz " is not a map"))
      end
  end.

(** What is sent on the channel of heights, and of events. *)
Definition onNewBlock (ev : ResultEvent) : option Z :=
  match re_Data ev with
  | AMap dataMap =>
      match traverseJsonMap as_string dataMap [bz "value"; bz "block"; bz "header"; bz "height"] with
      | Ok blockHeightStr => match Strconv.ParseInt blockHeightStr with Ok h => Some h | _ => None end
      | _ => None
      end
  | _ => None
  end.

Definition event_values (ev : ResultEvent) (key : bytes) : list bytes :=
  match re_Events ev with Some m => default [] (m !! key) | None => [] end.

Definition onChainEvent (now : time) (ev : ResultEvent) : option MissingEvent :=
  match event_values ev (EventsApp.EventCreate ++ bz ".event_id"), event_values ev (bz "tx.height") with
  | eventId :: _, height :: _ =>
      match Strconv.ParseInt height, Hex.DecodeString eventId with
      | Ok blockHeight, Ok eventIdDecoded => Some (NewMissingEvent eventIdDecoded now blockHeight)
      | _, _ => None
      end
  | _, _ => None
  end.

(** ** From a transaction to the queue of missing events *)

(** What CometBFT publishes of a transaction: the attributes of its events under
    composite keys, and its height. *)
Definition attribute_values (key : bytes) (events : list AbciEvent) : list bytes :=
  concat ((fun e => attr_Value <$> filter (fun a => ae_Type e ++ bz "." ++ attr_Key a = key) (ae_Attributes e)) <$> events).

Record published (events : list AbciEvent) (height : Z) (ev : ResultEvent) : Prop := {
  pb_attributes key : key <> bz "tm.event" -> key <> bz "tx.hash" -> key <> bz "tx.height" ->
    event_values ev key = attribute_values key events;
  pb_height : event_values ev (bz "tx.height") = [Strconv.FormatInt height]
}.

Section Noticed.
Context `{L : PlatformLaws}.

(** An accepted creation emits an event with the identifier. *)
Lemma accepted_emits t ids req st app tx data e : IdentityApp.repr t ids -> EventsApp.in_block app st tx -> time_ok (fb_Time req) ->
  EventsApp.accepted ids (fb_Height req) (fb_Time req) tx data e ->
  exists app' res, EventsApp.FinalizeBlock t req data app = (app', Ok res) /\ tx_Code (TxResult res) = EventsCode.CodeOk /\
    tx_Events (TxResult res) = EventsApp.createEvents (EventId (em_Metadata e)) (md_Principal (em_Metadata e)) /\
    length (EventId (em_Metadata e)) = 32%nat.
Proof.
  intros Hi Hb Ht Ha. destruct Ha as [payload sg rq id Hp [Hsg Hval] Hty Hq Hid Hni].
  assert (EventsApp.decode t data = Ok (inr payload)) as Hd.
  { unfold EventsApp.decode. by rewrite Hp, (IdentityApp.repr_Get _ _ _ Hi), Hsg, Hval. }
  unfold EventsApp.FinalizeBlock. rewrite Hd. destruct (EventsApp.reload_spec app st tx Hb) as (app' & -> & Hb' & _).
  rewrite bool_decide_true by done. unfold EventsApp.finalizeCreate. rewrite Hq, Hid, (EventsApp.ib_tx _ _ _ Hb').
  destruct (Contains _ _) eqn:Ec; [by apply Contains_spec in Ec|]. cbv zeta. unfold EventsRepo.Hash.
  destruct (law_Hash (EventsApp.Repository app')) as [h Hh]. cbn [EventsApp.Repository EventsApp.set_tx]. rewrite Hh.
  assert (representable (mkCreateResponse (mkMetadata id (fb_Time req) (sp_Principal payload)))) as Hrep.
  { split; [done|]. by destruct (law_decoded _ _ Hp) as (_ & ? & _). }
  destruct (law_round_trip _ Hrep) as (rb & -> & _ & _). eexists _, _. split; [done|]. split; [done|]. split; [done|].
  cbn. unfold EventHash.NewEventHash in Hid. apply res_bind_ok in Hid as (eb & _ & [= <-]). apply Sha256.Sum256_length.
Qed.

Lemma published_create eventId principal height ev now : in_s 64 height ->
  published (EventsApp.createEvents eventId principal) height ev ->
  onChainEvent now ev = Some (NewMissingEvent eventId now height).
Proof.
  intros Hh [Ha Ht]. unfold onChainEvent. rewrite Ht, Ha by done.
  replace (attribute_values _ _) with [Hex.EncodeToString eventId] by (by vm_compute).
  by rewrite Strconv.ParseInt_FormatInt, Hex.decode_encode.
Qed.

Context {S : Type} `{StateStoreLaws S}.

(** C17. An event that is created on the chain is noticed: an accepted creation
    emits an event, and when CometBFT publishes it, the node that receives the
    message puts the identifier of the event, with its height, into its queue of
    missing events. *)
Theorem created_event_is_queued t ids req st app tx data e ev now (d : S) s :
  IdentityApp.repr t ids -> EventsApp.in_block app st tx -> time_ok (fb_Time req) ->
  EventsApp.accepted ids (fb_Height req) (fb_Time req) tx data e -> in_s 64 (fb_Height req) ->
  implements d s -> room (s_eventCounter s) 1 -> Codec.binary_time now ->
  (forall app' res, EventsApp.FinalizeBlock t req data app = (app', Ok res) ->
     published (tx_Events (TxResult res)) (fb_Height req) ev) ->
  exists missing d' s', onChainEvent now ev = Some missing /\ Harmoniser.onEvent missing d = (d', Ok tt) /\
    implements d' s' /\ me_EventId missing = EventId (em_Metadata e) /\ me_BlockHeight missing = fb_Height req /\
    forall id, Harmoniser.known s' id <-> Harmoniser.known s id \/ id = EventId (em_Metadata e).
Proof.
  intros Hi Hb Htm Ha Hh Hs Hr Ht Hpub. destruct (accepted_emits t ids req st app tx data e Hi Hb Htm Ha) as (app' & res & E & _ & Hev & Hlen).
  specialize (Hpub _ _ E). rewrite Hev in Hpub. pose proof (published_create _ _ _ _ now Hh Hpub) as Hon.
  assert (MissingEventCodec.event_fits (NewMissingEvent (EventId (em_Metadata e)) now (fb_Height req))) as Hf.
  { split_and!; cbn; [unfold zlen; rewrite Hlen; lia|done|done|unfold in_s; lia]. }
  destruct (law_add_event d s _ Hs Hr Hf) as (d' & Ed & Hs').
  eexists _, d', _. split; [exact Hon|]. split; [exact (Harmoniser.logged_ok _ _ _ _ Ed)|]. split; [exact Hs'|].
  split; [done|]. split; [done|]. intros id. by rewrite Harmoniser.known_enqueue.
Qed.

End Noticed.
End Subscription.

(** * The goroutines that follow the chain

    Models [Subscribe] and [subscribe] of [pkg/blockchain/subscriber.go]: one
    goroutine for each node, which connects, and then turns the messages that the
    websocket pushes on its two channels into heights and missing events. *)

Module Subscriber.
Import Pool Subscription.

(** ** One goroutine for each node *)

(** The nodes that are followed: all of the pool, dead ones included. *)
Definition followed {T} `{Countable T} (env : nat -> Moment T) : M (Pool T) (list T) := GetAll env true.

(** The attempts of a goroutine; [ConnectWebsocket] fails only when the address of
    the node cannot be parsed. *)
Fixpoint connected (ConnectWebsocket : nat -> result unit) (i attempts : nat) : bool :=
  match attempts with
  | O => false
  | S attempts => match ConnectWebsocket i with Ok _ => true | _ => connected ConnectWebsocket (S i) attempts end
  end.

(** ** The loop of [subscribe] *)

(** Which of the channels are not nil. *)
Record channels : Type := mkChannels {
  newBlockCh : bool;
  chainEventCh : bool
}.

(** What is received: [None] from a channel that is closed. *)
Inductive received : Type :=
| FromBlocks (ev : option ResultEvent)
| FromEvents (now : time) (ev : option ResultEvent).

Inductive sent : Type := Height (h : Z) | Missing (e : MissingEvent).

Definition zero_event : ResultEvent := mkResultEvent [] ANil None.

(** A receive from a nil channel does not happen. *)
Definition enabled (c : channels) (i : received) : bool :=
  match i with FromBlocks _ => newBlockCh c | FromEvents _ _ => chainEventCh c end.

Definition translate (i : received) : option sent :=
  match i with
  | FromBlocks ev => Height <$> onNewBlock (default zero_event ev)
  | FromEvents now ev => Missing <$> onChainEvent now (default zero_event ev)
  end.

Definition close_nil (c : channels) (i : received) : channels :=
  match i with
  | FromBlocks None => mkChannels false (chainEventCh c)
  | FromEvents _ None => mkChannels (newBlockCh c) false
  | _ => c
  end.

(** One round: the channels, what is sent on, and whether the loop is left.  A
    message that cannot be used continues with the next round, past the check. *)
Definition round (c : channels) (i : received) : channels * option sent * bool :=
  let c := close_nil c i in
  match translate i with
  | None => (c, None, false)
  | Some out => (c, Some out, negb (newBlockCh c) && negb (chainEventCh c))
  end.

(** [None] as the channels: [subscribe] has returned. *)
Fixpoint subscribe (c : option channels) (is_ : list received) : option channels * list sent :=
  match is_, c with
  | i :: is_, Some c =>
      if enabled c i then
        let '(c, out, leaves) := round c i in
        let '(c', outs) := subscribe (if leaves then None else Some c) is_ in
        (c', option_list out ++ outs)
      else subscribe (Some c) is_
  | _, _ => (c, [])
  end.

Definition opened : option channels := Some (mkChannels true true).

(** ** Properties *)

(** A round in which something is sent on leaves its channel open. *)
Lemma round_stays c i : enabled c i = true -> (round c i).2 = false.
Proof.
  destruct c as [b e], i as [[ev|]|now [ev|]]; cbn; unfold round; cbn; try done.
  - intros ->. destruct (onNewBlock ev); cbn; [|done]. by destruct e.
  - intros ->. destruct (onChainEvent now ev); cbn; [|done]. by rewrite andb_comm.
Qed.

(** [subscribe] never returns: when a channel is closed the round ends before
    the check, so that a goroutine whose channels are both closed waits for
    ever. *)
Theorem subscribe_never_returns is_ : is_Some (subscribe opened is_).1.
Proof.
  unfold opened. generalize (mkChannels true true). induction is_ as [|i is_ IH]; intros c; cbn [subscribe]; [done|].
  destruct (enabled c i) eqn:E; [|apply IH]. pose proof (round_stays c i E) as Hr.
  destruct (round c i) as [[c' out] leaves]. cbn in Hr. subst leaves. specialize (IH c'). by destruct (subscribe (Some c') is_).
Qed.

Lemma both_closed is_ : subscribe (Some (mkChannels false false)) is_ = (Some (mkChannels false false), []).
Proof. induction is_ as [|i is_ IH]; [done|]. destruct i; cbn; exact IH. Qed.

(** While the channels are open every message is translated, in the order of
    arrival, and messages that cannot be used are left out. *)
Definition is_message (i : received) : Prop :=
  match i with FromBlocks ev => is_Some ev | FromEvents _ ev => is_Some ev end.

Theorem subscribe_translates is_ : Forall is_message is_ -> subscribe opened is_ = (opened, omap translate is_).
Proof.
  unfold opened. induction 1 as [|i is_ Hi _ IH]; [done|]. cbn [subscribe].
  assert (enabled (mkChannels true true) i = true) as -> by (by destruct i).
  assert (round (mkChannels true true) i = (mkChannels true true, translate i, false)) as ->.
  { destruct i as [ev|now ev], Hi as [e ->]; unfold round; cbn; [by destruct (onNewBlock e)|by destruct (onChainEvent now e)]. }
  rewrite IH. cbn. by destruct (translate i).
Qed.

(** A node whose address cannot be parsed is tried again for ever. *)
Lemma never_connected err i attempts : connected (fun _ => Err err) i attempts = false.
Proof. revert i. induction attempts as [|n IH]; intros i; [done|]. apply IH. Qed.

(** Every connection of the pool is followed once. *)
Lemma followed_all {T} `{Countable T} (env : nat -> Moment T) p : followed env p = (p, Ok (conns p ++ deadConns p)).
Proof. done. Qed.

End Subscriber.
