(* ===== verification/SubscriptionWitness.v ===== *)
(** * A creation that is noticed

    The sample chain accepts a creation; the message of CometBFT for it leads to
    an entry in the queue of an empty state store. *)

From S2P Require Import Prelude Types Text Sha256 Platform Abci Rpc IdentityApp EventsApp Multiplexer Chain Reference ChainWitness StateStore StateStoreFacts StateStoreWitness StoreInterface Harmoniser Subscription.

Module SubscriptionWitness.
Import Subscription ChainWitness MuxState Multiplexer Chain Reference.

Abbreviation Db := (gmap bytes bytes).

(** ** What CometBFT publishes *)

Definition wEventId (e : EventWithMetadata) : bytes := EventId (em_Metadata e).

Definition wMessage (e : EventWithMetadata) (height : Z) : ResultEvent :=
  mkResultEvent eventQuery ANil (Some
    {[bz "create.type" := [bz "create"]; bz "create.event_id" := [Hex.EncodeToString (wEventId e)];
      bz "create.principal" := [md_Principal (em_Metadata e)]; bz "tx.height" := [Strconv.FormatInt height]]}).

Lemma wMessage_published e height :
  published (EventsApp.createEvents (wEventId e) (md_Principal (em_Metadata e))) height (wMessage e height).
Proof.
  split; [|by unfold event_values; cbn; simplify_map_eq].
  intros key _ _ Hh. unfold event_values, attribute_values. cbn [re_Events wMessage].
  destruct (decide (key = bz "create.type")) as [->|H1']; [by simplify_map_eq|].
  destruct (decide (key = bz "create.event_id")) as [->|H2']; [by simplify_map_eq|].
  destruct (decide (key = bz "create.principal")) as [->|H3']; [by simplify_map_eq|].
  rewrite !lookup_insert_ne, lookup_singleton_ne by done.
  unfold EventsApp.createEvents, utils_Event. cbn [fmap list_fmap concat ae_Attributes ae_Type].
  rewrite !filter_cons_False; [done|by intros <-..].
Qed.

(** ** A creation *)

Definition wRequest : CreateRequest := mkCreateRequest (em_ScrubbedEvent some_event) (replicate 16 (z2b 1)).
Definition wPayload : SignedPayload :=
  mkSignedPayload (mkPayload RequestTypeCreate (encoded wRequest)) root (Hex.EncodeToString (ed_sign root_key (encoded wRequest))).
Definition wData : bytes := encoded wPayload.

Lemma wData_decodes : Unmarshal wData = Ok wPayload.
Proof. vm_compute. reflexivity. Qed.
Lemma wRequest_decodes : Unmarshal (p_Data (sp_Payload wPayload)) = Ok wRequest.
Proof. vm_compute. reflexivity. Qed.

Lemma wEvent_encoded : Marshal (se_Event (cr_Event wRequest)) = Ok (encoded (se_Event (cr_Event wRequest))).
Proof. vm_compute. reflexivity. Qed.

Lemma root_registered : IdentityApp.ids (c_ids sample) !! root = Some root_data.
Proof. cbn. by rewrite lookup_insert_eq. Qed.

Lemma wAccepted height : exists e, EventsApp.accepted (c_ids sample) height now EventsApp.defaultTxState wData e.
Proof.
  eexists. eapply (EventsApp.accept_create _ _ _ _ _ wPayload root_data wRequest).
  - exact wData_decodes.
  - split; [exact root_registered|].
    destruct (Rpc.sign_validates (mkPayload RequestTypeCreate (encoded wRequest)) root root_key) as (p & Hp & _ & _ & _ & Hv); [reflexivity|].
    unfold Rpc.sign in Hp. rewrite Sign_key in Hp by reflexivity. injection Hp as <-. exact Hv.
  - change (RequestTypeCreate = RequestTypeCreate). reflexivity.
  - exact wRequest_decodes.
  - unfold EventHash.NewEventHash. rewrite wEvent_encoded. reflexivity.
  - apply not_elem_of_nil.
Qed.

Definition wRound : RequestFinalizeBlock := mkRequestFinalizeBlock [] [] 4 now.

Lemma created_event_is_queued_witness : exists e missing (d' : Db) s',
  onChainEvent now (wMessage e 4) = Some missing /\ Harmoniser.onEvent missing (∅ : Db) = (d', Ok tt) /\ implements d' s' /\
  me_EventId missing = wEventId e /\ me_BlockHeight missing = 4 /\
  forall id, Harmoniser.known s' id <-> Harmoniser.known emptyStore id \/ id = wEventId e.
Proof.
  destruct sample_node as (m & Hr & _). pose proof (ar_world _ _ Hr) as Hw. destruct (wAccepted 4) as [e He]. exists e.
  apply (created_event_is_queued (identities (world m)) (c_ids sample) wRound (c_evs sample) (w_ev (world m)) EventsApp.defaultTxState wData e
    (wMessage e 4) now (∅ : Db) emptyStore (ib_ids _ _ _ Hw) (ib_evs _ _ _ Hw) now_ok He).
  - done.
  - exact empty_represents.
  - by split; vm_compute.
  - by vm_compute.
  - intros app' res E. destruct (accepted_emits _ _ wRound _ _ _ _ _ (ib_ids _ _ _ Hw) (ib_evs _ _ _ Hw) now_ok He) as (a & r & E' & _ & Hev & _).
    rewrite E in E'. injection E' as <- <-. rewrite Hev. apply wMessage_published.
Defined.

(** The height of a new block. *)
Example block_height : onNewBlock (mkResultEvent blockQuery
  (AMap [(bz "type", AStr (bz "tendermint/event/NewBlock")); (bz "value", AMap [(bz "block", AMap [(bz "header", AMap [(bz "height", AStr (bz "42"))])])])])
  (Some ∅)) = Some 42.
Proof. vm_compute. reflexivity. Qed.

End SubscriptionWitness.
