(* ===== verification/Console.v ===== *)
(** * The console client

    Models [chain-client]: sending a transaction and waiting for its result
    ([common/pkg/blockchain/helpers/transaction.go]), the validation of input
    ([validate/string.go], [prompt/text.go]), keys on disk ([internal/util.go])
    and the actions of the menus ([internal]).  What the user enters, generated
    keys and nonces are arguments; files are a map from paths to contents. *)

From S2P Require Import Prelude Types Text Platform Policy Abci MerkleProof Rpc IdentityApp EventsApp.

Module Console.
Import Rpc.

(** ** Sending a transaction ([transaction.go]) *)

Inductive poll : Type :=
| TxFound (res : ExecTxResult)
| TxNotFound
| TxError (err : error).

Definition deadlineExceeded : error := Sentinel (bz "context deadline exceeded").

(** The attempts that fit into the timeout. *)
Fixpoint poll_from (Tx : nat -> poll) (i attempts : nat) : result ExecTxResult :=
  match attempts with
  | O => Err deadlineExceeded
  | S attempts =>
      match Tx i with
      | TxFound res => Ok res
      | TxNotFound => poll_from Tx (S i) attempts
      | TxError err => Err err
      end
  end.

(** [sync] is the answer of [BroadcastTxSync]: its code and the text for a
    failure. *)
Definition BroadcastAndPoll (sync : result (Z * bytes)) (Tx : nat -> poll) (attempts : nat) : result ExecTxResult :=
  let* (code, text) := sync in
  if negb (code =? 0) then Err (NewError (bz "Transaction failed! " ++ text))
  else poll_from Tx 0 attempts.

(** The first result within the timeout is returned; a transaction that is not
    in a block by then is reported as a failure. *)
Lemma poll_finds Tx n res attempts : (forall i, (i < n)%nat -> Tx i = TxNotFound) -> Tx n = TxFound res -> (n < attempts)%nat ->
  poll_from Tx 0 attempts = Ok res.
Proof.
  intros Hno Hyes Hn. replace attempts with (n + S (attempts - n - 1))%nat by lia. clear Hn.
  assert (forall k i, (i + k = n)%nat -> poll_from Tx i (k + S (attempts - n - 1)) = Ok res) as Hk; [|by apply Hk].
  induction k as [|k IH]; intros i Hi; cbn.
  - replace i with n by lia. by rewrite Hyes.
  - rewrite Hno by lia. apply IH. lia.
Qed.

Lemma poll_times_out Tx attempts : (forall i, (i < attempts)%nat -> Tx i = TxNotFound) -> poll_from Tx 0 attempts = Err deadlineExceeded.
Proof.
  intros Hno. assert (forall k i, (i + k = attempts)%nat -> poll_from Tx i k = Err deadlineExceeded) as Hk; [|by apply Hk].
  induction k as [|k IH]; intros i Hi; cbn; [done|]. rewrite Hno by lia. apply IH. lia.
Qed.

(** ** Validation ([string.go], [text.go]) *)

Definition MinLength (min : Z) (input : bytes) : option error :=
  if zlen input <? min then Some (NewError (bz "input must be at least " ++ Strconv.FormatInt min ++ bz " characters long")) else None.

Definition LengthBetween (min max : Z) (input : bytes) : option error :=
  if zlen input <? min then Some (NewError (bz "input must be at least " ++ Strconv.FormatInt min ++ bz " characters long"))
  else if max <? zlen input then Some (NewError (bz "input must be at most " ++ Strconv.FormatInt max ++ bz " characters long"))
  else None.

Definition Sha256Hash (input : bytes) : option error :=
  if negb (Hex.is_sha256_hex input) then Some (NewError (bz "input must be a SHA256 hash")) else None.

Fixpoint combineValidators (validators : list (bytes -> option error)) (s : bytes) : option error :=
  match validators with
  | [] => None
  | validator :: rest => match validator s with Some err => Some err | None => combineValidators rest s end
  end.

Lemma combineValidators_accepts validators s : combineValidators validators s = None <-> Forall (fun v => v s = None) validators.
Proof.
  induction validators as [|v validators IH]; cbn; [by split|]. rewrite List.Forall_cons_iff, <- IH.
  destruct (v s); [split; [done|by intros [? _]]|]. by split; [|intros [_ ?]].
Qed.

(** ** The state *)

(** What [config.json] holds. *)
Record Config : Type := mkConfig {
  cf_ActivePrivateKey : option bytes;
  cf_PrivateKeyFiles : gmap bytes bytes
}.

Record Client : Type := mkClient {
  c_Config : Config;
  c_ActivePrincipal : option bytes;
  c_ActivePrivateKey : option bytes;
  c_files : gmap bytes bytes;
  c_configFile : Config
}.

(** What the system and the node answer. *)
Record Env : Type := mkEnv {
  WriteFile : bytes -> result unit;             (* for a path *)
  WriteConfig : result unit;
  Broadcast : bytes -> result ExecTxResult      (* [BroadcastAndPollDefault] *)
}.

(** The menu that is opened next. *)
Inductive screen : Type := MainMenu | AppMenu | IdentityMenu | EventsMenu | CreateMenu | PolicyMenu | KeyMenu | Shown (title : bytes) (next : screen).

Definition put_config (cf : Config) (c : Client) : Client :=
  mkClient cf (c_ActivePrincipal c) (c_ActivePrivateKey c) (c_files c) (c_configFile c).
Definition put_principal (p : option bytes) (c : Client) : Client :=
  mkClient (c_Config c) p (c_ActivePrivateKey c) (c_files c) (c_configFile c).
Definition put_key (k : option bytes) (c : Client) : Client :=
  mkClient (c_Config c) (c_ActivePrincipal c) k (c_files c) (c_configFile c).
Definition put_file (path contents : bytes) (c : Client) : Client :=
  mkClient (c_Config c) (c_ActivePrincipal c) (c_ActivePrivateKey c) (<[path := contents]> (c_files c)) (c_configFile c).
Definition save_config (c : Client) : Client :=
  mkClient (c_Config c) (c_ActivePrincipal c) (c_ActivePrivateKey c) (c_files c) (c_Config c).
Definition add_key_file (principal path : bytes) (cf : Config) : Config :=
  mkConfig (cf_ActivePrivateKey cf) (<[principal := path]> (cf_PrivateKeyFiles cf)).
Definition activate (principal : bytes) (cf : Config) : Config :=
  mkConfig (Some principal) (cf_PrivateKeyFiles cf).

Definition no_such_file : error := NewError (bz "no such file or directory").
Definition nil_dereference : bytes := bz "invalid memory address or nil pointer dereference".

(** ** Keys on disk ([util.go]) *)

Definition LoadPrivateKey (keyFile : bytes) (c : Client) : result bytes :=
  match c_files c !! keyFile with
  | None => Err no_such_file
  | Some contents => Base64.DecodeString contents
  end.

Section Actions.
Context `{P : Platform}.
Variable env : Env.

Definition WritePrivateKey (keyFile key : bytes) : M Client unit :=
  do _ <- m_lift (fun _ => WriteFile env keyFile) ;;
  m_modify (put_file keyFile (Base64.EncodeToString key)).

Definition ConfigWrite : M Client unit :=
  do _ <- m_lift (fun _ => WriteConfig env) ;;
  m_modify save_config.

(** ** Identities ([seed.go], [register.go], [importkey.go], [prompts.go]) *)

(** [key] is the generated pair, public key first. *)
Definition HandleSeed (principal privKeyPath : bytes) (key : result (bytes * bytes)) : M Client screen :=
  do (pub, priv) <- m_lift (fun _ => key) ;;
  do marshalled <- m_lift (fun _ =>
    b_Marshal (b_Unsigned (b_Data RequestTypeSeed (mkPayloadSeed principal pub) (b_App AppNameIdentity NewBuilder)))) ;;
  do res <- m_lift (fun _ => Broadcast env marshalled) ;;
  if tx_Code res =? 0 then
    do _ <- WritePrivateKey privKeyPath priv ;;
    do _ <- m_modify (fun c => put_key (Some priv) (put_principal (Some principal)
              (put_config (activate principal (add_key_file principal privKeyPath (c_Config c))) c))) ;;
    do _ <- ConfigWrite ;;
    m_ret IdentityMenu
  else m_ret IdentityMenu.

Definition HandleRegister (principal : bytes) (role : Role) (privKeyPath : bytes) (key : result (bytes * bytes)) : M Client screen := fun c =>
  match c_ActivePrincipal c, c_ActivePrivateKey c with
  | Some active, Some activeKey =>
      (do (pub, priv) <- m_lift (fun _ => key) ;;
       do marshalled <- m_lift (fun _ =>
         b_Marshal (b_Signed active activeKey (b_Data RequestTypeRegister (mkPayloadRegister principal role pub)
           (b_App AppNameIdentity NewBuilder)))) ;;
       do res <- m_lift (fun _ => Broadcast env marshalled) ;;
       if tx_Code res =? IdentityCode.CodeOk then
         do _ <- WritePrivateKey privKeyPath priv ;;
         do _ <- m_modify (fun c => put_config (add_key_file principal privKeyPath (c_Config c)) c) ;;
         do _ <- ConfigWrite ;;
         m_ret IdentityMenu
       else m_ret IdentityMenu) c
  | _, _ => (c, Ok (Shown (bz "Error") IdentityMenu))
  end.

Definition HandleImportPrivateKey (principal privKeyPath : bytes) : M Client screen := fun c =>
  match LoadPrivateKey privKeyPath c with
  | Ok _ =>
      (do _ <- m_modify (fun c => put_config (add_key_file principal privKeyPath (c_Config c)) c) ;;
       do _ <- ConfigWrite ;; m_ret KeyMenu) c
  | _ => (c, Ok (Shown (bz "Failed to load private key") KeyMenu))
  end.

(** The choice of a key in [OpenPrivateKeySelector]. *)
Definition selectKey (username key : bytes) : M Client screen :=
  do _ <- m_modify (fun c => put_principal (Some username) (put_config (activate username (c_Config c)) c)) ;;
  do _ <- ConfigWrite ;;
  do privKey <- m_lift (LoadPrivateKey key) ;;
  do _ <- m_modify (put_key (Some privKey)) ;;
  m_ret MainMenu.

(** ** Events and policies ([eventcreate.go], [policydeploy.go]) *)

Definition submitEvent (nonce : bytes) (event : ScrubbedEvent) : M Client screen := fun c =>
  match c_ActivePrincipal c, c_ActivePrivateKey c with
  | Some active, Some activeKey =>
      (do marshalled <- m_lift (fun _ =>
         b_Marshal (b_Signed active activeKey (b_Data RequestTypeCreate (mkCreateRequest event nonce) (b_App AppNameEvents NewBuilder)))) ;;
       do res <- m_lift (fun _ => Broadcast env marshalled) ;;
       m_ret (if tx_Code res =? EventsCode.CodeOk then Shown (bz "Event Metadata") EventsMenu else CreateMenu)) c
  | _, _ => (c, Ok (Shown (bz "Error") MainMenu))
  end.

(** The file holds an event with data, which is replaced by its hash. *)
Definition HandleImportEvent (nonce : bytes) (event : result EventWithData) : M Client screen :=
  do event <- m_lift (fun _ => event) ;;
  submitEvent nonce (mkScrubbedEvent (Hex.EncodeToString (EventHash.EventData_Hash (ed_EventData event))) (ed_Event event)).

(** [*c.ActivePrincipal] is read without a check. *)
Definition HandlePolicyDeploy `{Json SetPolicyRequest} (nonce : bytes) (policy : result RetentionPolicy) : M Client screen := fun c =>
  match policy with
  | Panic w => (c, Panic w)
  | Err err => (c, Err err)
  | Ok policy =>
      match Policy.Validate policy with
      | Some _ => (c, Ok (Shown (bz "Policy Validation Error") PolicyMenu))
      | None =>
          match c_ActivePrincipal c with
          | None => (c, Panic nil_dereference)
          | Some active =>
              (do marshalled <- m_lift (fun c =>
                 b_Marshal (b_Signed active (default [] (c_ActivePrivateKey c))
                   (b_Data RequestTypeSetPolicy (mkSetPolicyRequest policy nonce) (b_App AppNameRetention NewBuilder)))) ;;
               do res <- m_lift (fun _ => Broadcast env marshalled) ;;
               m_ret (if tx_Code res =? EventsCode.CodeOk then Shown (bz "Policy Set") PolicyMenu
                      else if bool_decide (tx_Codespace res = RetentionCode.Codespace) && (tx_Code res =? RetentionCode.CodePolicyAlreadySet)
                      then Shown (bz "Policy Already Set") PolicyMenu
                      else if bool_decide (tx_Codespace res = RetentionCode.Codespace) && (tx_Code res =? RetentionCode.CodeUnauthorized)
                      then Shown (bz "Unauthorized") PolicyMenu
                      else PolicyMenu)) c
          end
      end
  end.

End Actions.

(** ** Viewing ([eventview.go], [viewidentity.go], [policyview.go]) *)
Section Views.
Context `{P : Platform}.

(** [query] is [ABCIQueryWithOptions], for a path and data; what is shown
    depends on the answer. *)
Variable query : bytes -> bytes -> result ResponseQuery.

Definition HandleViewEvent (eventId : bytes) : result screen :=
  let* marshalled := Marshal (mkMuxedRequest AppNameEvents []) in
  let* res := query (bz "/event-by-id/" ++ eventId) marshalled in
  if bool_decide (q_Codespace res = EventsCode.Codespace) && (q_Code res =? EventsCode.CodeOk) then
    let* _ := MerkleProof.ValidateProofOps (q_ProofOps res) in Ok (Shown (q_Value res) EventsMenu)
  else if bool_decide (q_Codespace res = EventsCode.Codespace) && (q_Code res =? EventsCode.CodeEventNotFound) then
    Ok (Shown (bz "Event not found") EventsMenu)
  else if bool_decide (q_Codespace res = EventsCode.Codespace) && (q_Code res =? EventsCode.CodeTreeUninitialized) then
    Ok (Shown (bz "Missing Proof") EventsMenu)
  else Ok (Shown (bz "Error") EventsMenu).

Definition HandleViewPrincipal (principal : bytes) : result screen :=
  let* marshalled := Marshal (mkMuxedRequest AppNameIdentity []) in
  let* res := query (bz "/" ++ principal) marshalled in
  if q_Code res =? IdentityCode.CodeOk then
    let* _ := MerkleProof.ValidateProofOps (q_ProofOps res) in Ok (Shown (q_Value res) IdentityMenu)
  else if bool_decide (q_Codespace res = IdentityCode.Codespace) && (q_Code res =? IdentityCode.CodeNotFound) then
    Ok (Shown (bz "Principal not found") IdentityMenu)
  else if bool_decide (q_Codespace res = IdentityCode.Codespace) && (q_Code res =? IdentityCode.CodeTreeUninitialized) then
    Ok (Shown (bz "Missing Proof") IdentityMenu)
  else Ok (Shown (bz "Unknown error") IdentityMenu).

(** [shown] is the policy as [DisplayMarshalled] prints it. *)
Definition HandlePolicyView (shown : StoredPolicy -> bytes) : result screen :=
  let* marshalled := Marshal (mkMuxedRequest AppNameRetention []) in
  let* res := query (bz "/") marshalled in
  if bool_decide (q_Codespace res = RetentionCode.Codespace) && (q_Code res =? RetentionCode.CodeOk) then
    let* policy := Unmarshal (A := StoredPolicy) (q_Value res) in Ok (Shown (shown policy) PolicyMenu)
  else if bool_decide (q_Codespace res = RetentionCode.Codespace) && (q_Code res =? RetentionCode.CodePolicyNotSet) then
    Ok (Shown (bz "Policy not set") PolicyMenu)
  else Ok (Shown (bz "Error") PolicyMenu).

End Views.

(** ** Properties *)
Section Facts.
Context `{L : PlatformLaws}.
Context `{!JsonLaws PayloadRegister} `{!JsonCompact PayloadRegister} `{!JsonLaws CreateRequest} `{!JsonCompact CreateRequest}.
Variable env : Env.
Implicit Types c : Client.

(** A key that was written is loaded. *)
Lemma key_round_trip path key c : LoadPrivateKey path (put_file path (Base64.EncodeToString key) c) = Ok key.
Proof. unfold LoadPrivateKey. cbn. rewrite lookup_insert_eq. apply Base64.base64_decode_encode. Qed.

(** What the console asks the chain when a principal is registered. *)
Lemma register_request s tx0 active d sk principal role pub : ed_key sk = true -> IdentityApp.ids s !! active = Some d ->
  PublicKey d = ed_public sk -> IsAdmin d = true -> IdentityApp.ids s !! principal = None -> principal ∉ IdentityApp.registering tx0 -> utf8 active ->
  representable (mkPayloadRegister principal role pub) ->
  exists tx inner, b_Marshal (b_Signed active sk (b_Data RequestTypeRegister (mkPayloadRegister principal role pub) (b_App AppNameIdentity NewBuilder))) = Ok tx /\
    Unmarshal tx = Ok (mkMuxedRequest AppNameIdentity inner) /\
    IdentityApp.accepted s tx0 inner (IdentityApp.AddIdentity principal (mkIdentityData pub role)).
Proof.
  intros Hk Hd Hpk Hadm Hnew Hpend Hu Hrep. destruct (law_round_trip _ Hrep) as (data & Hm & _ & Hum).
  destruct (signed_request_round_trip_lemma RequestTypeRegister (mkPayloadRegister principal role pub) AppNameIdentity active sk data)
    as (tx & inner & p & Htx & Hmux & Hin & Hpay & Hpr & Hval); [done..|].
  exists tx, inner. split; [exact Htx|]. split; [exact Hmux|].
  apply (IdentityApp.accept_register _ _ _ p d (mkPayloadRegister principal role pub)); rewrite ?Hpay; try done.
  split; [by rewrite Hpr|by rewrite Hpk].
Qed.

(** And when an event is created. *)
Lemma create_request s height t active d sk event nonce : ed_key sk = true -> IdentityApp.ids s !! active = Some d -> PublicKey d = ed_public sk -> utf8 active ->
  representable (mkCreateRequest event nonce) ->
  exists tx inner e, b_Marshal (b_Signed active sk (b_Data RequestTypeCreate (mkCreateRequest event nonce) (b_App AppNameEvents NewBuilder))) = Ok tx /\
    Unmarshal tx = Ok (mkMuxedRequest AppNameEvents inner) /\ EventsApp.accepted s height t EventsApp.defaultTxState inner e /\
    em_ScrubbedEvent e = event /\ md_Principal (em_Metadata e) = active.
Proof.
  intros Hk Hd Hpk Hu Hrep. destruct (law_round_trip _ Hrep) as (data & Hm & _ & Hum).
  destruct (signed_request_round_trip_lemma RequestTypeCreate (mkCreateRequest event nonce) AppNameEvents active sk data)
    as (tx & inner & p & Htx & Hmux & Hin & Hpay & Hpr & Hval); [done..|].
  destruct Hrep as [[Ho Hev] Hn]. destruct (law_round_trip _ Hev) as (eb & Heb & _).
  eexists tx, inner, _. split; [exact Htx|]. split; [exact Hmux|]. split.
  - eapply (EventsApp.accept_create _ _ _ _ _ p d (mkCreateRequest event nonce)); rewrite ?Hpay; try done.
    + split; [by rewrite Hpr|by rewrite Hpk].
    + unfold EventHash.NewEventHash. rewrite Hpr, Heb. reflexivity.
    + apply not_elem_of_nil.
  - by rewrite Hpr.
Qed.

(** C20. A principal that an administrator registers with the console can create
    events with it: the chain accepts the registration; the console keeps the
    key, and when it is selected, the request for an event is accepted on the
    chain with the new identity. *)
Theorem registered_principal_creates_events s tx0 active d sk principal role path priv event nonce height t c :
  c_ActivePrincipal c = Some active -> c_ActivePrivateKey c = Some sk -> ed_key sk = true -> ed_key priv = true ->
  IdentityApp.ids s !! active = Some d -> PublicKey d = ed_public sk -> IsAdmin d = true ->
  IdentityApp.ids s !! principal = None -> principal ∉ IdentityApp.registering tx0 ->
  utf8 active -> utf8 principal -> representable (mkPayloadRegister principal role (ed_public priv)) ->
  representable (mkCreateRequest event nonce) ->
  exists req inner, Unmarshal req = Ok (mkMuxedRequest AppNameIdentity inner) /\
    IdentityApp.accepted s tx0 inner (IdentityApp.AddIdentity principal (mkIdentityData (ed_public priv) role)) /\
    forall res, Broadcast env req = Ok res -> tx_Code res = IdentityCode.CodeOk -> WriteFile env path = Ok tt -> WriteConfig env = Ok tt ->
    exists c1 c2 req2 inner2 e,
      HandleRegister env principal role path (Ok (ed_public priv, priv)) c = (c1, Ok IdentityMenu) /\
      selectKey env principal path c1 = (c2, Ok MainMenu) /\
      submitEvent env nonce event c2 = (c2, let* res := Broadcast env req2 in
        Ok (if tx_Code res =? EventsCode.CodeOk then Shown (bz "Event Metadata") EventsMenu else CreateMenu)) /\
      Unmarshal req2 = Ok (mkMuxedRequest AppNameEvents inner2) /\
      EventsApp.accepted (IdentityApp.apply_change (IdentityApp.AddIdentity principal (mkIdentityData (ed_public priv) role)) s) height t EventsApp.defaultTxState inner2 e /\
      em_ScrubbedEvent e = event /\ md_Principal (em_Metadata e) = principal.
Proof.
  intros Hap Hak Hk Hkp Hd Hpk Hadm Hnew Hpend Hu Hup Hreg Hrep.
  destruct (register_request s tx0 active d sk principal role (ed_public priv)) as (req & inner & Hreq & Hmux & Hacc); [done..|].
  exists req, inner. split; [exact Hmux|]. split; [exact Hacc|]. intros res Hb Hcode Hwf Hwc.
  set (s' := IdentityApp.apply_change (IdentityApp.AddIdentity principal (mkIdentityData (ed_public priv) role)) s).
  destruct (create_request s' height t principal (mkIdentityData (ed_public priv) role) priv event nonce) as (req2 & inner2 & e & Hreq2 & Hmux2 & Hacc2 & He & Hpr);
    [done|by unfold s'; cbn; rewrite lookup_insert_eq|done..|].
  eexists _, _, req2, inner2, e. split.
  { unfold HandleRegister, WritePrivateKey, ConfigWrite, m_bind, m_lift, m_modify, m_ret. rewrite Hap, Hak, Hreq, Hb, Hcode.
    cbn. rewrite Hwf. cbn. rewrite Hwc. reflexivity. }
  split.
  { unfold selectKey, ConfigWrite, m_bind, m_lift, m_modify, m_ret. rewrite Hwc. unfold LoadPrivateKey. cbn.
    rewrite lookup_insert_eq, Base64.base64_decode_encode. reflexivity. }
  split; [|done]. unfold submitEvent, m_bind, m_lift, m_ret.
  cbn [c_ActivePrincipal c_ActivePrivateKey put_key put_principal put_config save_config]. rewrite Hreq2. by destruct (Broadcast env req2).
Qed.

(** *** Failures *)

(** A key file that cannot be read leaves the console with the name of one
    principal and the key of another. *)
Lemma unreadable_key_mismatch username key c : c_files c !! key = None -> WriteConfig env = Ok tt ->
  exists c', selectKey env username key c = (c', Err no_such_file) /\
    c_ActivePrincipal c' = Some username /\ c_ActivePrivateKey c' = c_ActivePrivateKey c.
Proof.
  intros Hf Hw. eexists. unfold selectKey, ConfigWrite, m_bind, m_lift, m_modify. rewrite Hw. unfold LoadPrivateKey. cbn. by rewrite Hf.
Qed.

(** A principal can be seeded without a key: when the file cannot be written
    after the chain has accepted the seed, the key is kept nowhere. *)
Lemma seeded_key_lost principal path pub priv req res err c :
  b_Marshal (b_Unsigned (b_Data RequestTypeSeed (mkPayloadSeed principal pub) (b_App AppNameIdentity NewBuilder))) = Ok req ->
  Broadcast env req = Ok res -> tx_Code res = 0 -> WriteFile env path = Err err ->
  HandleSeed env principal path (Ok (pub, priv)) c = (c, Err err).
Proof.
  intros Hm Hb Hc Hw. unfold HandleSeed, WritePrivateKey, m_bind, m_lift. rewrite Hm, Hb, Hc. cbn. by rewrite Hw.
Qed.

(** A policy cannot be deployed without an active principal: the console
    crashes. *)
Lemma deploy_without_principal `{Json SetPolicyRequest} nonce policy c : Policy.Validate policy = None -> c_ActivePrincipal c = None ->
  HandlePolicyDeploy env nonce (Ok policy) c = (c, Panic nil_dereference).
Proof. intros Hv Hp. unfold HandlePolicyDeploy. by rewrite Hv, Hp. Qed.

End Facts.
End Console.
