(* ===== verification/ConsoleMain.v ===== *)
(** * The console as a program

    Models the rest of [chain-client]: its configuration file ([config]), the
    start of the program ([cmd/client/main.go]), the menus ([prompts.go],
    [prompt/select.go], [display.go]) with the actions of [Console] behind them,
    and the loop that returns to the main menu after an error.  What the user
    chooses and enters, what is generated and what the node answers are
    arguments. *)

From S2P Require Import Prelude Types Text JsonText JsonScan JsonCodec JsonCodecFacts Platform Policy Bson JsonTypes EventXml JsonDecoded Abci MerkleProof Rpc IdentityApp EventsApp ChainMain Console.

Module ConsoleMain.
Import JsonCodec JsonCodecFacts JsonTypes Console.

(** ** The configuration file *)

Record FileConfig : Type := mkFileConfig {
  fc_Address : bytes;
  fc_WebsocketAddress : bytes;
  fc_Client : Config
}.

Definition Default : FileConfig :=
  mkFileConfig (bz "http://localhost:26657/") (bz "ws://localhost:26657/websocket") (mkConfig None ∅).

Definition enc_FileConfig : encoder FileConfig := fun c =>
  enc_struct
    [(bz "comet_bft", enc_struct [(bz "address", enc_string (fc_Address c)); (bz "websocket_address", enc_string (fc_WebsocketAddress c))]);
     (bz "client", enc_struct [(bz "active_private_key", enc_ptr enc_string (cf_ActivePrivateKey (fc_Client c)));
                               (bz "private_key_files", Maps.enc_map enc_string (cf_PrivateKeyFiles (fc_Client c)))])].

Definition dec_Client : decoder Config := dec_struct
  [(bz "active_private_key", set_field cf_ActivePrivateKey (fun x c => mkConfig x (cf_PrivateKeyFiles c)) (dec_ptr [] dec_string));
   (bz "private_key_files", set_field cf_PrivateKeyFiles (fun x c => mkConfig (cf_ActivePrivateKey c) x) (Maps.dec_map [] dec_string))].

(** The addresses are decoded into the fields that stand for those of the nested
    struct. *)
Definition dec_FileConfig : decoder FileConfig := dec_struct
  [(bz "comet_bft", dec_struct
     [(bz "address", set_field fc_Address (fun x c => mkFileConfig x (fc_WebsocketAddress c) (fc_Client c)) dec_string);
      (bz "websocket_address", set_field fc_WebsocketAddress (fun x c => mkFileConfig (fc_Address c) x (fc_Client c)) dec_string)]);
   (bz "client", set_field fc_Client (fun x c => mkFileConfig (fc_Address c) (fc_WebsocketAddress c) x) dec_Client)].

Definition config_text (c : FileConfig) : result bytes := ChainMain.MarshalIndent enc_FileConfig c.

(** [file] is what [config.json] holds, [create] what creating it returns.  The
    settings of the file are decoded over the defaults. *)
Definition LoadConfig (file : option bytes) (create : result unit) : result FileConfig :=
  let* text :=
    match file with
    | Some text => Ok text
    | None => let* _ := create in config_text Default
    end in
  Decode_into dec_FileConfig Default text.

(** At the first start the defaults are written, and read. *)
Example first_start : LoadConfig None (Ok tt) = Ok Default.
Proof. vm_compute. reflexivity. Qed.

(** What a file leaves out keeps its default. *)
Example empty_file : LoadConfig (Some (bz "{}")) (Ok tt) = Ok Default.
Proof. vm_compute. reflexivity. Qed.

(** ** The start ([main.go]) *)

(** [panic(err)]. *)
Definition or_panic {A} (r : result A) : result A :=
  match r with Err e => Panic (Error e) | r => r end.

Definition clear_active (c : Config) : Config := mkConfig None (cf_PrivateKeyFiles c).

(** The client at the first menu; [write] is what [conf.Write] returns.  The
    client keeps a copy of the settings from before a key that cannot be used
    is cleared. *)
Definition startClient (conf : Config) (files : gmap bytes bytes) (write : result unit) : result Client :=
  let client := mkClient conf None None files conf in
  match cf_ActivePrivateKey conf with
  | None => Ok client
  | Some active =>
      let file := cf_PrivateKeyFiles conf !! active in
      let* conf := match file with
                   | Some _ => Ok conf
                   | None => let* _ := or_panic write in Ok (clear_active conf)
                   end in
      match LoadPrivateKey (default [] file) client with
      | Ok key => Ok (mkClient (c_Config client) (cf_ActivePrivateKey conf) (Some key) files conf)
      | _ => let* _ := or_panic write in Ok (mkClient (c_Config client) None None files (clear_active conf))
      end
  end.

(** ** Menus *)

Inductive choice : Type :=
| Open (s : screen)
| Quit
| ImportKey
| UseKey (username path : bytes)
| ABCIInfo
| Seed
| Register
| ViewPrincipal
| ImportEvent
| GenerateEvent
| ViewEvent
| DeployPolicy
| ViewPolicy.

(** The options of a menu; [keys] are the key files in the order of the
    iteration. *)
Definition options (keys : list (bytes * bytes)) (s : screen) : list (bytes * choice) :=
  match s with
  | MainMenu => [(bz "Interact with node", Open AppMenu); (bz "Select private key", Open KeyMenu); (bz "Quit", Quit)]
  | KeyMenu => (bz "Import", ImportKey) :: ((fun kv => (fst kv, UseKey (fst kv) (snd kv))) <$> keys) ++ [(bz "Back", Open MainMenu)]
  | AppMenu => [(bz "Identity", Open IdentityMenu); (bz "Events", Open EventsMenu);
                (bz "Event Retention Policy", Open PolicyMenu); (bz "ABCI Info", ABCIInfo); (bz "Back", Open MainMenu)]
  | IdentityMenu => [(bz "Seed", Seed); (bz "Register", Register); (bz "View Principal", ViewPrincipal); (bz "Back", Open AppMenu)]
  | EventsMenu => [(bz "Create", Open CreateMenu); (bz "View", ViewEvent); (bz "Back", Open AppMenu)]
  | CreateMenu => [(bz "Import From XML File", ImportEvent); (bz "Generate Random Event", GenerateEvent); (bz "Back", Open EventsMenu)]
  | PolicyMenu => [(bz "Deploy Policy File", DeployPolicy); (bz "View Active Policy", ViewPolicy); (bz "Back", Open AppMenu)]
  | Shown _ _ => [] (* left by [display] *)
  end.

(** What one round of the console needs from outside. *)
Record Answers : Type := mkAnswers {
  an_pick : result nat;                       (* the option chosen *)
  an_keys : list (bytes * bytes);             (* the order of the key files *)
  an_text : nat -> result bytes;              (* what is entered at the prompts, in order *)
  an_role : result bytes;
  an_pair : result (bytes * bytes);           (* a generated key pair *)
  an_nonce : bytes;
  an_xml : result bytes;                      (* the file of an imported event *)
  an_generated : System;                      (* the random values of a generated event *)
  an_policy : result RetentionPolicy;         (* a policy file *)
  an_query : bytes -> bytes -> result ResponseQuery;
  an_info : result bytes;
  an_shown : StoredPolicy -> bytes;
  an_display : result unit                    (* a prompt that shows a text *)
}.

Definition ErrInterrupt : error := Sentinel (bz "^C").
Definition no_such_option : error := NewError (bz "i was less than len(options)").

Section Menus.
Context `{P : Platform} `{Json SetPolicyRequest} `{UuidText}.
Variable env : Env.

(** A screen that shows something is left for the one behind it. *)
Fixpoint display (a : Answers) (s : screen) : result screen :=
  match s with
  | Shown _ next => let* _ := an_display a in display a next
  | s => Ok s
  end.

(** The event of [HandleGenerateEvent]. *)
Definition generated_event (s : System) : ScrubbedEvent :=
  mkScrubbedEvent (Hex.EncodeToString (EventHash.EventData_Hash []))
    (mkEvent (mkSystem (mkProvider (Some (bz "Random-Provider")) (prov_Guid (sys_Provider s)) None) (sys_EventId s)
       (sys_SystemTime s) (sys_EventRecordId s) (sys_ActivityId s) (sys_ProcessId s) (sys_ThreadId s)
       (bz "Security") (bz "computer-name"))).

(** The action of an option; [None] ends the program. *)
Definition execute (ch : choice) (a : Answers) : M Client (option screen) :=
  let shown (m : M Client screen) : M Client (option screen) :=
    do s <- m ;; do s <- m_lift (fun _ => display a s) ;; m_ret (Some s) in
  match ch with
  | Open s => m_ret (Some s)
  | Quit => m_ret None
  | ImportKey =>
      do principal <- m_lift (fun _ => an_text a 0) ;;
      do path <- m_lift (fun _ => an_text a 1) ;;
      shown (HandleImportPrivateKey env principal path)
  | UseKey username path => shown (selectKey env username path)
  | ABCIInfo =>
      do info <- m_lift (fun _ => an_info a) ;;
      shown (m_ret (Shown info AppMenu))
  | Seed =>
      do principal <- m_lift (fun _ => an_text a 0) ;;
      do path <- m_lift (fun _ => an_text a 1) ;;
      shown (HandleSeed env principal path (an_pair a))
  | Register => fun c =>
      (* the active principal is looked at before anything is asked *)
      match c_ActivePrincipal c, c_ActivePrivateKey c with
      | Some _, Some _ =>
          (do principal <- m_lift (fun _ => an_text a 0) ;;
           do role <- m_lift (fun _ => an_role a) ;;
           do path <- m_lift (fun _ => an_text a 1) ;;
           shown (HandleRegister env principal role path (an_pair a))) c
      | _, _ => shown (HandleRegister env [] [] [] (an_pair a)) c
      end
  | ViewPrincipal =>
      do principal <- m_lift (fun _ => an_text a 0) ;;
      shown (m_lift (fun _ => HandleViewPrincipal (an_query a) principal))
  | ImportEvent => shown (HandleImportEvent env (an_nonce a) (let* b := an_xml a in EventXml.Unmarshal b))
  | GenerateEvent => shown (submitEvent env (an_nonce a) (generated_event (an_generated a)))
  | ViewEvent =>
      do eventId <- m_lift (fun _ => an_text a 0) ;;
      shown (m_lift (fun _ => HandleViewEvent (an_query a) eventId))
  | DeployPolicy => shown (HandlePolicyDeploy env (an_nonce a) (an_policy a))
  | ViewPolicy => shown (m_lift (fun _ => HandlePolicyView (an_query a) (an_shown a)))
  end.

(** [SelectAndExecute]. *)
Definition SelectAndExecute (s : screen) (a : Answers) : M Client (option screen) :=
  do i <- m_lift (fun _ => an_pick a) ;;
  match options (an_keys a) s !! i with
  | Some (_, ch) => execute ch a
  | None => m_lift (fun _ => Err no_such_option)
  end.

(** ** The loop of [main] *)

Inductive status : Type := At (s : screen) | Exited | Crashed (w : bytes).

(** One round: the choice of an option, or the error it ends with, which is
    shown before the main menu is opened again. *)
Definition round (s : screen) (a : Answers) (c : Client) : Client * status :=
  match SelectAndExecute s a c with
  | (c, Ok (Some s)) => (c, At s)
  | (c, Ok None) => (c, Exited)
  | (c, Panic w) => (c, Crashed w)
  | (c, Err err) =>
      if errors_Is err ErrInterrupt then (c, Exited)
      else match an_display a with
           | Ok _ => (c, At MainMenu)
           | Err err => (c, Crashed (Error err))
           | Panic w => (c, Crashed w)
           end
  end.

Fixpoint session (l : list Answers) (c : Client) (st : status) : Client * status :=
  match l, st with
  | a :: l, At s => let '(c, st) := round s a c in session l c st
  | _, _ => (c, st)
  end.

(** [main]: the settings, the connection to the chain, the client, and its menus. *)
Definition main (load : result FileConfig) (logger : result unit) (connect : bytes -> bytes -> result unit) (info : result unit)
  (files : gmap bytes bytes) (write : result unit) (l : list Answers) : result (Client * status) :=
  let* conf := or_panic load in
  let* _ := or_panic logger in
  let* _ := or_panic (connect (fc_Address conf) (fc_WebsocketAddress conf)) in
  let* _ := or_panic info in
  let* client := startClient (fc_Client conf) files write in
  Ok (session l client (At MainMenu)).

(** ** Properties *)

Create HintDb console.
Context `{!UuidLaws}.

Definition key_length (r : result bytes) : Prop := match r with Ok key => zlen key = PrivateKeySize | _ => True end.

(** What the console is given: nothing panics, a text can be shown, and generated
    keys have the length of a key. *)
Definition answers_well (a : Answers) : Prop :=
  safe (an_pick a) /\ (forall i, safe (an_text a i)) /\ safe (an_role a) /\
  (safe (an_pair a) /\ key_length (let* (_, priv) := an_pair a in Ok priv)) /\ safe (an_xml a) /\
  safe (an_policy a) /\ (forall p d, safe (an_query a p d)) /\ safe (an_info a) /\ an_display a = Ok tt.

Definition env_well : Prop :=
  (forall p, safe (WriteFile env p)) /\ safe (WriteConfig env) /\ (forall b, safe (Broadcast env b)).

(** A principal is active, with a key; the files hold no keys of another
    length. *)
Definition console_well (c : Client) : Prop :=
  is_Some (c_ActivePrincipal c) /\ (exists key, c_ActivePrivateKey c = Some key /\ zlen key = PrivateKeySize) /\
  map_Forall (fun _ contents => key_length (Base64.DecodeString contents)) (c_files c).

(** Computations that do not panic and keep the console well. *)
Definition calm {A} (m : M Client A) : Prop := forall c, console_well c -> safe (m c).2 /\ console_well (m c).1.

Lemma calm_ret {A} (a : A) : calm (m_ret a).
Proof. by intros c Hc. Qed.
Lemma calm_lift {A} (f : Client -> result A) : (forall c, console_well c -> safe (f c)) -> calm (m_lift f).
Proof. intros Hf c Hc. split; [by apply Hf|done]. Qed.
Lemma calm_modify f : (forall c, console_well c -> console_well (f c)) -> calm (m_modify f).
Proof. intros Hf c Hc. split; [done|by apply Hf]. Qed.
Lemma calm_bind_lift {A B} (f : Client -> result A) (k : A -> M Client B) : (forall c, console_well c -> safe (f c)) ->
  (forall c a, console_well c -> f c = Ok a -> calm (k a)) -> calm (m_bind (m_lift f) k).
Proof.
  intros Hf Hk c Hc. unfold m_bind, m_lift. specialize (Hf c Hc). destruct (f c) as [a|e|w] eqn:E; [by apply (Hk c a)|done|done].
Qed.
Lemma calm_bind {A B} (m : M Client A) (k : A -> M Client B) : calm m -> (forall a, calm (k a)) -> calm (m_bind m k).
Proof.
  intros Hm Hk c Hc. unfold m_bind. destruct (Hm c Hc) as [Hs Hp]. destruct (m c) as [c' [a|e|w]]; cbn in *; [by apply Hk|done|done].
Qed.

Lemma safe_Marshal {A} `{Json A} (a : A) : safe (Marshal a).
Proof. unfold safe. destruct (Marshal a) eqn:E; try done. by apply Marshal_no_panic in E. Qed.
Lemma safe_Unmarshal_json {A} `{Json A} b : safe (Unmarshal (A := A) b).
Proof. unfold safe. destruct (Unmarshal b) eqn:E; try done. by apply Unmarshal_no_panic in E. Qed.

Lemma safe_Sign key m : zlen key = PrivateKeySize -> safe (ed25519_Sign key m).
Proof. intros Hk. unfold ed25519_Sign. by rewrite Hk. Qed.
Lemma safe_signed {D} `{Json D} (b : Rpc.Builder D) principal key : zlen key = PrivateKeySize ->
  safe (Rpc.b_Marshal (Rpc.b_Signed principal key b)).
Proof.
  intros Hk. apply safe_bind; [|intros; apply safe_Marshal]. apply safe_bind; [|done]. apply safe_bind; [|intros; apply safe_Marshal].
  unfold Rpc.buildSigned. cbn. destruct (Rpc.b_data _ b); [|done]. destruct (bool_decide _); [done|].
  apply safe_bind; [apply safe_bind; [apply safe_Marshal|done]|]. intros p. by apply safe_bind; [apply safe_Sign|].
Qed.
Lemma safe_unsigned {D} `{Json D} (b : Rpc.Builder D) : safe (Rpc.b_Marshal (Rpc.b_Unsigned b)).
Proof.
  apply safe_bind; [|intros; apply safe_Marshal]. apply safe_bind; [|done]. apply safe_bind; [|intros; apply safe_Marshal].
  unfold Rpc.buildUnsigned. cbn. destruct (Rpc.b_data _ b); [|done]. destruct (bool_decide _); [done|].
  by apply safe_bind; [apply safe_bind; [apply safe_Marshal|done]|].
Qed.

Lemma safe_LoadPrivateKey path c : safe (LoadPrivateKey path c).
Proof. unfold LoadPrivateKey. destruct (c_files c !! path); [apply JsonDecoded.safe_Base64|done]. Qed.
Lemma loaded_key path c key : console_well c -> LoadPrivateKey path c = Ok key -> zlen key = PrivateKeySize.
Proof.
  intros (_ & _ & Hf). unfold LoadPrivateKey. destruct (c_files c !! path) as [t|] eqn:E; [|done].
  specialize (Hf _ _ E). cbn in Hf. by destruct (Base64.DecodeString t); intros [= <-].
Qed.

Lemma safe_ValidateProofOps ops : safe (MerkleProof.ValidateProofOps ops).
Proof.
  destruct ops as [[|op l]|]; try done. apply safe_bind; [|by intros []]. apply safe_bind; [apply safe_Unmarshal_json|].
  intros p. by destruct (proof_variant _).
Qed.

(** Steps of a computation. *)
Ltac calm := repeat first
  [ apply calm_ret
  | apply calm_bind_lift; [intros|intros]
  | apply calm_bind; [|intros]
  | apply calm_modify; intros
  | apply calm_lift; intros
  | match goal with |- calm (if ?b then _ else _) => destruct b end ].

Hypothesis Henv : env_well.

Lemma well_put_file path key c : console_well c -> zlen key = PrivateKeySize -> console_well (put_file path (Base64.EncodeToString key) c).
Proof.
  intros (Hp & Hkey & Hf) Hk. split_and!; [done..|]. apply map_Forall_insert_2; [|done]. by rewrite Base64.base64_decode_encode.
Qed.
Lemma well_put_key key c : console_well c -> zlen key = PrivateKeySize -> console_well (put_key (Some key) c).
Proof. intros (Hp & Hkey & Hf) Hk. split_and!; [done|by exists key|done]. Qed.

Lemma well_put_principal p c : console_well c -> console_well (put_principal (Some p) c).
Proof. intros (Hp & Hkey & Hf). by split_and!. Qed.
Lemma well_put_config cf c : console_well c -> console_well (put_config cf c).
Proof. done. Qed.
Lemma well_save_config c : console_well c -> console_well (save_config c).
Proof. done. Qed.
Lemma safe_WriteFile path : safe (WriteFile env path).
Proof. apply Henv. Qed.
Lemma safe_WriteConfig : safe (WriteConfig env).
Proof. apply Henv. Qed.
Lemma safe_Broadcast b : safe (Broadcast env b).
Proof. apply Henv. Qed.
#[local] Hint Resolve well_put_file well_put_key well_put_principal well_put_config well_save_config loaded_key : console.
#[local] Hint Resolve safe_WriteFile safe_WriteConfig safe_Broadcast safe_signed safe_unsigned safe_LoadPrivateKey : console.

Lemma calm_HandleSeed principal path pair : safe pair -> key_length (let* (_, priv) := pair in Ok priv) ->
  calm (HandleSeed env principal path pair).
Proof.
  intros Hs Hk. unfold HandleSeed. apply calm_bind_lift; [done|]. intros _ [pub priv] _ ->. cbn in Hk. by calm; eauto with console.
Qed.

Lemma calm_HandleRegister principal role path pair : safe pair -> key_length (let* (_, priv) := pair in Ok priv) ->
  calm (HandleRegister env principal role path pair).
Proof.
  intros Hs Hk c Hc. unfold HandleRegister. destruct (proj1 Hc) as [active ->]. destruct (proj1 (proj2 Hc)) as (key & -> & Hkey).
  revert c Hc. apply calm_bind_lift; [done|]. intros _ [pub priv] _ ->. cbn in Hk. by calm; eauto with console.
Qed.

Lemma calm_HandleImportPrivateKey principal path : calm (HandleImportPrivateKey env principal path).
Proof.
  intros c Hc. unfold HandleImportPrivateKey. destruct (LoadPrivateKey path c); [|done..]. revert c Hc. by calm; eauto with console.
Qed.

Lemma calm_selectKey username path : calm (selectKey env username path).
Proof. unfold selectKey. by calm; eauto with console. Qed.

Lemma calm_submitEvent nonce event : calm (submitEvent env nonce event).
Proof.
  intros c Hc. unfold submitEvent. destruct (proj1 Hc) as [active ->]. destruct (proj1 (proj2 Hc)) as (key & -> & Hkey).
  revert c Hc. by calm; eauto with console.
Qed.

Lemma calm_HandlePolicyDeploy nonce policy : safe policy -> calm (HandlePolicyDeploy env nonce policy).
Proof.
  intros Hs c Hc. unfold HandlePolicyDeploy. destruct policy as [policy|e|w]; [|done..].
  destruct (Policy.Validate policy); [done|]. destruct (proj1 Hc) as [active ->]. revert c Hc.
  apply calm_bind_lift; [|by intros; calm; eauto with console].
  intros c (_ & (key & -> & Hkey) & _). by apply safe_signed.
Qed.

(** Viewing changes nothing. *)
Lemma safe_if {A} (b : bool) (r r' : result A) : safe r -> safe r' -> safe (if b then r else r').
Proof. by destruct b. Qed.

Lemma safe_views a : (forall p d, safe (an_query a p d)) -> (forall x, safe (HandleViewPrincipal (an_query a) x)) /\
  (forall x, safe (HandleViewEvent (an_query a) x)) /\ safe (HandlePolicyView (an_query a) (an_shown a)).
Proof.
  intros Hq. unfold HandleViewPrincipal, HandleViewEvent, HandlePolicyView. split_and!; intros;
    (apply safe_bind; [apply safe_Marshal|intros; apply safe_bind; [apply Hq|intros]]); repeat apply safe_if; try done;
    apply safe_bind; first [apply safe_ValidateProofOps|apply safe_Unmarshal_json|done].
Qed.

Lemma display_shows a s : an_display a = Ok tt -> exists s', display a s = Ok s'.
Proof. intros Hd. induction s; cbn; eauto. by rewrite Hd. Qed.

Lemma calm_execute ch a : answers_well a -> calm (execute ch a).
Proof.
  intros (Hpick & Htext & Hrole & [Hpair Hlen] & Hevent & Hpol & Hq & Hinfo & Hdisplay).
  assert (forall m : M Client screen, calm m ->
    calm (do s <- m ;; do s <- m_lift (fun _ => display a s) ;; m_ret (Some s))) as Hshown.
  { intros m Hm. apply calm_bind; [done|]. intros s. apply calm_bind_lift; [|intros; apply calm_ret].
    intros c _. by destruct (display_shows a s Hdisplay) as [s' ->]. }
  destruct (safe_views a Hq) as (Hv1 & Hv2 & Hv3).
  destruct ch; cbn [execute]; try apply calm_ret.
  - by repeat (apply calm_bind_lift; [done|intros]); apply Hshown, calm_HandleImportPrivateKey.
  - apply Hshown, calm_selectKey.
  - apply calm_bind_lift; [done|intros]. apply Hshown, calm_ret.
  - by repeat (apply calm_bind_lift; [done|intros]); apply Hshown, calm_HandleSeed.
  - intros c Hc. destruct (proj1 Hc) as [active ->]. destruct (proj1 (proj2 Hc)) as (key & -> & _). revert c Hc.
    by repeat (apply calm_bind_lift; [done|intros]); apply Hshown, calm_HandleRegister.
  - apply calm_bind_lift; [done|intros]. apply Hshown, calm_lift. intros; apply Hv1.
  - apply Hshown. unfold HandleImportEvent. apply calm_bind_lift; [intros; apply safe_bind; [done|apply XmlSafe.safe_event_xml]|]. intros. apply calm_submitEvent.
  - apply Hshown, calm_submitEvent.
  - apply calm_bind_lift; [done|intros]. apply Hshown, calm_lift. intros; apply Hv2.
  - by apply Hshown, calm_HandlePolicyDeploy.
  - apply Hshown, calm_lift. intros; apply Hv3.
Qed.

Lemma calm_Select s a : answers_well a -> calm (SelectAndExecute s a).
Proof.
  intros Ha. unfold SelectAndExecute. apply calm_bind_lift; [intros; apply Ha|]. intros _ i _ _.
  destruct (options (an_keys a) s !! i) as [[n ch]|]; [by apply calm_execute|by apply calm_lift].
Qed.

Definition running (st : status) : Prop := match st with Crashed _ => False | _ => True end.

Lemma round_runs s a c : answers_well a -> console_well c -> console_well (round s a c).1 /\ running (round s a c).2.
Proof.
  intros Ha Hc. unfold round. destruct (calm_Select s a Ha c Hc) as [Hs Hw].
  destruct (SelectAndExecute s a c) as [c' [[s'|]|err|w]]; cbn in *; try done.
  destruct (errors_Is err ErrInterrupt); [done|]. destruct Ha as (_ & _ & _ & _ & _ & _ & _ & _ & ->). done.
Qed.


(** *** Failures *)

(** Outside of that the console crashes: a file with a key of another length is
    imported and selected without complaint, and the first event that is created
    with it ends the program. *)
Lemma short_key_crashes username path key nonce event c b : c_files c !! path = Some (Base64.EncodeToString key) ->
  zlen key <> PrivateKeySize -> WriteConfig env = Ok tt -> Marshal (mkCreateRequest event nonce) = Ok b -> exists c1 c2 w,
  HandleImportPrivateKey env username path c = (c1, Ok KeyMenu) /\ selectKey env username path c1 = (c2, Ok MainMenu) /\
  submitEvent env nonce event c2 = (c2, Panic w).
Proof.
  intros Hf Hk Hw Hb. apply Z.eqb_neq in Hk. eexists _, _, _. split_and!.
  - unfold HandleImportPrivateKey, LoadPrivateKey. rewrite Hf, Base64.base64_decode_encode.
    unfold ConfigWrite, m_bind, m_lift, m_modify. rewrite Hw. reflexivity.
  - unfold selectKey, ConfigWrite, m_bind, m_lift, m_modify. rewrite Hw. unfold LoadPrivateKey. cbn.
    rewrite Hf, Base64.base64_decode_encode. reflexivity.
  - unfold submitEvent, m_bind, m_lift. cbn. unfold Rpc.b_Marshal, Rpc.Build, Rpc.buildSigned, Rpc.wrap, Rpc.sign, ed25519_Sign.
    cbn. rewrite Hb. cbn. rewrite Hk. reflexivity.
Qed.

(** An active key whose file is not known is cleared in the configuration file,
    and not in the client's copy, which puts it back with the next change. *)
Lemma cleared_key_returns conf files active principal path key : cf_ActivePrivateKey conf = Some active ->
  cf_PrivateKeyFiles conf !! active = None -> files !! [] = None -> files !! path = Some (Base64.EncodeToString key) ->
  WriteConfig env = Ok tt -> exists c c', startClient conf files (Ok tt) = Ok c /\
  cf_ActivePrivateKey (c_configFile c) = None /\ HandleImportPrivateKey env principal path c = (c', Ok KeyMenu) /\
  cf_ActivePrivateKey (c_configFile c') = Some active.
Proof.
  intros Ha Hn He Hp Hw. eexists _, _. split_and!.
  - unfold startClient. rewrite Ha, Hn. unfold LoadPrivateKey. cbn. rewrite He. reflexivity.
  - done.
  - unfold HandleImportPrivateKey, LoadPrivateKey. cbn. rewrite Hp, Base64.base64_decode_encode.
    unfold ConfigWrite, m_bind, m_lift, m_modify. rewrite Hw. reflexivity.
  - done.
Qed.

End Menus.
End ConsoleMain.
