(* ===== verification/Benchmark.v ===== *)
(** * The load generators

    Models [benchmark]: the transactions of the load test of the chain
    ([internal/factories]), the tool that prints the submission of one event
    ([cmd/generate-offchain-payload]), the one that creates many events and
    collects their submissions ([cmd/store-and-generate-offchain-payloads]), and
    the one that sends these to a node ([cmd/submit-offchain-payloads]).  They are
    the clients of the whole system: what they make is accepted by the chain and
    by the off-chain node. *)

From S2P Require Import Prelude Types Text JsonText JsonScan JsonCompact JsonCodec JsonCodecFacts Platform Policy Bson JsonTypes JsonTypesFacts JsonPlatform EventXml Abci Rpc IdentityApp EventsApp StateStore StateStoreFacts StoreInterface Console ConsoleMain Repository BlockchainClient OffchainNode NodeFacts JsonOffchain HttpServer.

Module Benchmark.
Import JsonCodec JsonCodecFacts JsonTypes JsonOffchain ConsoleMain.

(** ** Configuration ([config.go]) *)

Record Config : Type := mkConfig {
  PrincipalName : bytes;
  PrincipalPrivateKey : bytes
}.

Definition dec_Config : decoder Config := dec_struct
  [(bz "principal_name", set_field PrincipalName (fun x c => mkConfig x (PrincipalPrivateKey c)) dec_string);
   (bz "principal_private_key", set_field PrincipalPrivateKey (fun x c => mkConfig (PrincipalName c) x) dec_string)].

Definition Load (read : result bytes) : result Config :=
  let* data := read in Unmarshal_into dec_Config (mkConfig [] []) data.

(** ** Transactions ([event.go], [data.go]) *)

Record EventClient : Type := mkEventClient {
  principalName : bytes;
  privateKey : bytes
}.

Definition NewClient (c : Config) : result EventClient :=
  let* decoded := Base64.DecodeString (PrincipalPrivateKey c) in
  Ok (mkEventClient (PrincipalName c) decoded).

Section Transactions.
Context `{P : Platform}.

(** [s] holds the random values. *)
Definition RandomEvent (s : System) : ScrubbedEvent := generated_event s.

Definition creation (event : ScrubbedEvent) (nonce principal key : bytes) : result bytes :=
  Rpc.b_Marshal (Rpc.b_Signed principal key
    (Rpc.b_Data RequestTypeCreate (mkCreateRequest event nonce) (Rpc.b_App AppNameEvents Rpc.NewBuilder))).

Definition GenerateTx (s : System) (nonce : bytes) (c : EventClient) : result bytes :=
  creation (RandomEvent s) nonce (principalName c) (privateKey c).

(** ** Creating many events *)

Definition set_record (i : Z) (e : EventWithData) : EventWithData :=
  mkEventWithData (mkEvent (Events.put_EventRecordId i (ev_System (ed_Event e)))) (ed_EventData e).

(** The payloads: the event of the file with the numbers 0, 1, ... as its record. *)
Fixpoint payloads (event : EventWithData) (principal key : bytes) (nonces : list bytes) (i : Z) : result (list bytes) :=
  match nonces with
  | [] => Ok []
  | nonce :: nonces =>
      let event := set_record i event in
      let* payload := or_panic (creation (mkScrubbedEvent (Hex.EncodeToString (EventHash.EventData_Hash (ed_EventData event)))
                                                          (ed_Event event)) nonce principal key) in
      let* rest := payloads event principal key nonces (i + 1) in
      Ok (payload :: rest)
  end.

End Transactions.

(** ** The submission of an event *)
Section Submissions.
Context `{Ed25519}.

Definition submission (eventId txHash : bytes) (data : EventData) (principal key : bytes) : result SubmitRequest :=
  let* signature := ed25519_Sign key (EventHash.EventData_Hash data) in
  Ok (mkSubmitRequest eventId txHash data principal (Hex.EncodeToString signature)).

(** The flags of [generate-offchain-payload]. *)
Record Flags : Type := mkFlags {
  fl_event_id : bytes;
  fl_tx_hash : bytes;
  fl_event_data : bytes;
  fl_principal : bytes;
  fl_priv_key : bytes
}.

(** What is printed; [None] is the usage. *)
Definition generatePayload (f : Flags) : result (option bytes) :=
  if bool_decide (fl_event_id f = []) || bool_decide (fl_tx_hash f = []) || bool_decide (fl_principal f = []) then Ok None
  else
    let* eventId := or_panic (Hex.DecodeString (fl_event_id f)) in
    let* txHash := or_panic (Hex.DecodeString (fl_tx_hash f)) in
    let* data := or_panic (Unmarshal_into dec_EventData [] (fl_event_data f)) in
    let* key := or_panic (Base64.DecodeString (fl_priv_key f)) in
    let* req := submission eventId txHash data (fl_principal f) key in
    let* marshalled := or_panic (enc_SubmitRequest req) in
    Ok (Some marshalled).

(** What a worker makes of the result of a transaction; [hash] is the hash of the
    transaction. *)
Definition collect (event : EventWithData) (principal key : bytes) (res : ExecTxResult) (hash : bytes) : result SubmitRequest :=
  let* data := Unmarshal_into Events.dec_CreateResponse (mkCreateResponse Events.zero_Metadata) (tx_Data res) in
  submission (EventId (cresp_Metadata data)) hash (ed_EventData event) principal key.

End Submissions.

(** ** The workers

    The workers of an [errgroup] share a channel of payloads; one that fails
    returns, the others go on, and the first error is kept.  [answer p r]: the
    worker may obtain [r] for the payload [p]. *)
Section Workers.
Context {R : Type} (answer : bytes -> result R -> Prop).

Record Group : Type := mkGroup {
  g_ch : list bytes;        (* closed, with what is left *)
  g_idle : nat;             (* workers between two payloads *)
  g_busy : list bytes;      (* payloads that are being worked on *)
  g_results : list R;       (* appended under the lock *)
  g_error : option error
}.

Inductive g_step : Group -> Group -> Prop :=
| g_take p ch w busy rs e :
    g_step (mkGroup (p :: ch) (S w) busy rs e) (mkGroup ch w (busy ++ [p]) rs e)
| g_finish ch w b1 p b2 rs e r : answer p (Ok r) ->
    g_step (mkGroup ch w (b1 ++ p :: b2) rs e) (mkGroup ch (S w) (b1 ++ b2) (rs ++ [r]) e)
| g_fail ch w b1 p b2 rs e err : answer p (Err err) ->
    g_step (mkGroup ch w (b1 ++ p :: b2) rs e) (mkGroup ch w (b1 ++ b2) rs (match e with Some e => Some e | None => Some err end)).

Definition g_start (ps : list bytes) (workers : nat) : Group := mkGroup ps workers [] [] None.

(** [Wait] returns: every worker has returned. *)
Definition g_waited (g : Group) : Prop := g_busy g = [] /\ (g_ch g = [] \/ g_idle g = 0%nat).

(** What holds while the workers run: the payloads are those answered, failed, being
    worked on, or left. *)
Definition g_inv (ps : list bytes) (workers : nat) (g : Group) : Prop :=
  exists answered failed, ps ≡ₚ answered ++ failed ++ g_busy g ++ g_ch g /\
    Forall2 (fun p r => answer p (Ok r)) answered (g_results g) /\
    Forall (fun p => exists err, answer p (Err err)) failed /\ (g_error g = None <-> failed = []) /\
    (g_idle g + length (g_busy g) + length failed)%nat = workers.

Lemma g_inv_reachable ps workers g : rtc g_step (g_start ps workers) g -> g_inv ps workers g.
Proof.
  revert g. apply rtc_ind_r; [exists [], []; cbn; split_and!; try done; lia|].
  intros a b _ Hstep (ans & fl & Hp & Ha & Hf & He & Hw). destruct Hstep; cbn in *.
  - exists ans, fl. cbn. split_and!; try done; [|rewrite length_app; cbn; lia]. rewrite Hp. solve_Permutation.
  - exists (ans ++ [p]), fl. cbn. rewrite length_app in *. cbn in *. split_and!; try done; [| |lia].
    + rewrite Hp. solve_Permutation.
    + apply Forall2_app; [done|by constructor].
  - exists ans, (fl ++ [p]). cbn. rewrite length_app in *. cbn in *. rewrite length_app. cbn. split_and!; try done; [| | |lia].
    + rewrite Hp. solve_Permutation.
    + apply Forall_app. split; [done|]. constructor; [by exists err|done].
    + split; [by destruct e|by destruct fl].
Qed.

(** Whatever the order, the workers come to an end, and when [Wait] then reports no
    error, every payload has been answered exactly once. *)
Lemma workers_end : well_founded (fun b a => g_step a b).
Proof.
  apply (wf_projected lt (fun g => 2 * length (g_ch g) + length (g_busy g))%nat); [|apply lt_wf].
  intros b a Hstep. destruct Hstep; cbn; rewrite !length_app; cbn; lia.
Qed.

Lemma workers_answer_all ps workers g : (0 < workers)%nat -> rtc g_step (g_start ps workers) g -> g_waited g -> g_error g = None ->
  exists answered, answered ≡ₚ ps /\ Forall2 (fun p r => answer p (Ok r)) answered (g_results g).
Proof.
  intros Hw Hr [Hb Hend] He. apply g_inv_reachable in Hr as (ans & fl & Hp & Ha & _ & Hn & Hcount).
  apply Hn in He as ->. rewrite Hb in *. cbn in *. destruct Hend as [Hch|Hi]; [|lia].
  rewrite Hch in *. cbn in Hp. rewrite app_nil_r in Hp. by exists ans.
Qed.

End Workers.
Arguments Group R : clear implicits.

(** ** The tools that fill and read the file of submissions *)

(** The flags and surroundings of [store-and-generate-offchain-payloads]. *)
Record StoreFlags : Type := mkStoreFlags {
  sf_event_file : bytes;
  sf_principal : bytes;
  sf_priv_key : bytes;
  sf_n : Z;
  sf_workers : Z
}.

Section Files.
Context `{UuidText} `{P : Platform}.

(** Before the workers start: the event, the key and the payloads; [None] is the
    usage.  A channel cannot have a negative capacity. *)
Definition prepare (f : StoreFlags) (read : result bytes) (client : result unit) (nonces : nat -> bytes) :
  result (option (EventWithData * bytes * list bytes)) :=
  if bool_decide (sf_event_file f = []) || bool_decide (sf_principal f = []) || bool_decide (sf_priv_key f = []) ||
     bool_decide (sf_n f = 0) then Ok None
  else
    let* xmlRaw := or_panic read in
    let* event := or_panic (EventXml.Unmarshal xmlRaw) in
    let* key := or_panic (Base64.DecodeString (sf_priv_key f)) in
    let* _ := or_panic client in
    if sf_n f <? 0 then Panic (bz "makechan: size out of range")
    else
      let* ps := payloads event (sf_principal f) key (nonces <$> seq 0 (Z.to_nat (sf_n f))) 0 in
      Ok (Some (event, key, ps)).

(** What a worker may obtain for a payload: [network] answers with the result of the
    transaction and its hash, or with an error. *)
Definition store_answer (network : bytes -> result (ExecTxResult * bytes) -> Prop) (event : EventWithData) (principal key : bytes)
  (payload : bytes) (r : result SubmitRequest) : Prop :=
  exists res, network payload res /\ r = (let* res := res in collect event principal key res.1 res.2).

(** After [Wait]: the contents of the file that is written. *)
Definition out_file (g : Group SubmitRequest) : result bytes :=
  match g_error g with
  | Some err => Panic (Error err)
  | None => or_panic (enc_slice enc_SubmitRequest (g_results g))
  end.

(** [submit-offchain-payloads] reads the file and fills its channel. *)
Definition zero_SubmitRequest : SubmitRequest := mkSubmitRequest [] [] [] [] [].

Definition read_payloads (read : result bytes) : result (list bytes) :=
  let* data := or_panic read in
  let* reqs := or_panic (Unmarshal_into (dec_slice zero_SubmitRequest dec_SubmitRequest) [] data) in
  or_panic (enc_list enc_SubmitRequest reqs).

(** The answer to one request; [post] is the status of the node. *)
Definition submit_answer (post : bytes -> result Z -> Prop) (payload : bytes) (r : result unit) : Prop :=
  exists status, post payload status /\
    r = (let* code := status in if code =? 201 then Ok tt else Err (NewError (bz "unexpected status code: " ++ Strconv.FormatInt code))).

Definition DeadlineExceeded : error := Sentinel (bz "context deadline exceeded").

(** What is reported at the end: the number of events and the milliseconds from [start]
    to the deadline of the test, whenever it ended. *)
Definition report (start deadline : Z) (g : Group unit) : result (nat * Z) :=
  match g_error g with
  | Some err => if errors_Is err DeadlineExceeded then Ok (length (g_results g), (deadline - start) ÷ 1000000) else Panic (Error err)
  | None => Ok (length (g_results g), (deadline - start) ÷ 1000000)
  end.

(** What one tool writes the other reads: the channel holds one payload for each
    submission collected, in their order, and no file is unreadable. *)
Theorem submissions_file_read g : g_error g = None -> Forall representable (g_results g) ->
  exists text vs, out_file g = Ok text /\ read_payloads (Ok text) = Ok vs /\
    Forall2 (fun v req => enc_SubmitRequest req = Ok v) vs (g_results g).
Proof.
  intros He Hr. unfold out_file. rewrite He.
  assert (Forall (codable enc_SubmitRequest dec_SubmitRequest) (g_results g)) as Hc.
  { eapply Forall_impl; [exact codable_SubmitRequest|exact Hr]. }
  destruct (codable_round_trip _ _ [] _ (codable_slice zero_SubmitRequest _ _ _ Hc)) as (text & Henc & _ & Hdec).
  assert (exists vs, enc_list enc_SubmitRequest (g_results g) = Ok vs /\
            Forall2 (fun v req => enc_SubmitRequest req = Ok v) vs (g_results g)) as (vs & Hvs & Hf).
  { clear -Hc. induction Hc as [|req reqs (v & Hv & _) _ (vs & Hvs & IH)]; [by exists []|].
    exists (v :: vs). cbn [enc_list]. rewrite Hv. cbn [res_bind]. rewrite Hvs. split; [done|by constructor]. }
  exists text, vs. rewrite Henc. unfold read_payloads. cbn [or_panic res_bind]. rewrite Hdec. cbn [or_panic res_bind].
  by rewrite Hvs.
Qed.

End Files.

(** ** The chain accepts the transactions *)
Section Chain.
Context `{L : PlatformLaws} `{!JsonLaws CreateRequest} `{!JsonCompact CreateRequest}.

(** A transaction of the load test records a new event of its principal. *)
Theorem generated_tx_accepted s height t c d sys nonce : ed_key (privateKey c) = true ->
  IdentityApp.ids s !! principalName c = Some d -> PublicKey d = ed_public (privateKey c) -> utf8 (principalName c) ->
  representable (mkCreateRequest (RandomEvent sys) nonce) ->
  exists tx inner e, GenerateTx sys nonce c = Ok tx /\ Unmarshal tx = Ok (mkMuxedRequest AppNameEvents inner) /\
    EventsApp.accepted s height t EventsApp.defaultTxState inner e /\ md_Principal (em_Metadata e) = principalName c.
Proof.
  intros Hk Hd Hpk Hu Hr.
  destruct (Console.create_request s height t (principalName c) d (privateKey c) (RandomEvent sys) nonce Hk Hd Hpk Hu Hr)
    as (tx & inner & e & Htx & Hm & Ha & _ & Hp). by exists tx, inner, e.
Qed.

End Chain.

(** ** The off-chain node accepts the submissions *)
Section Node.
Context `{UuidText}.
Import Payload OffchainNode.Node NodeFacts Submission.
Context `{Ed25519Laws}.
Context {K R S : Type} `{ChainClientLaws K} `{EventRepositoryLaws R} `{StateStoreLaws S}.
Context (chain_storable : forall tx ev data, on_chain tx ev -> er_storable (full_event ev data tx)).

(** A submission made with the key of the principal that created the event. *)
Lemma submission_authentic_for id tx data principal sk d ev : ed_key sk = true -> registered principal d -> PublicKey d = ed_public sk ->
  on_chain tx ev -> EventId (em_Metadata ev) = id -> md_Principal (em_Metadata ev) = principal ->
  OffChainHash (em_ScrubbedEvent ev) = Hex.EncodeToString (EventHash.EventData_Hash data) ->
  exists req, submission id tx data principal sk = Ok req /\ authentic req d ev /\ sr_EventId req = id /\
    (data_ok data -> utf8 principal -> representable req).
Proof.
  intros Hk Hreg Hpk Hc Hid Hpr Hh. unfold submission. rewrite Sign_key by done. eexists. split; [reflexivity|].
  split; [|split; [done|]]; [split; cbn; try done|].
  - rewrite Hpk. by apply law_public_length.
  - eexists. split; [apply Hex.decode_encode|]. rewrite Hpk. by apply law_verify_sign.
  - intros Hd Hu. split_and!; [done|done|apply Rpc.hex_utf8].
Qed.

Lemma Decode_value {A} (dec : decoder A) zero v : JsonCompact.compact_value v -> Decode_into dec zero v = dec zero v.
Proof.
  intros Hv. pose proof (Unmarshal_value dec zero v Hv) as Hu. unfold Unmarshal_into, on_value in Hu. unfold Decode_into.
  destruct Hv as [[Hs Hv] _]. assert (JsonScan.value (JsonScan.fuel v) v = Some []) as E.
  { rewrite <- (app_nil_r v) at 2. apply Hv; [unfold JsonScan.fuel; lia|done]. }
  rewrite E in *. rewrite bool_decide_true in Hu by done. exact Hu.
Qed.

(** C11. What [generate-offchain-payload] prints for an event of the chain is accepted
    by the server of an off-chain node: it is answered with 201, and the event is
    stored and no longer missing. *)
Theorem generated_payload_accepted EventCount TestConnection production viewer Broadcast data principal sk d ev tx text n :
  ed_key sk = true -> registered principal d -> PublicKey d = ed_public sk -> on_chain tx ev ->
  md_Principal (em_Metadata ev) = principal -> OffChainHash (em_ScrubbedEvent ev) = Hex.EncodeToString (EventHash.EventData_Hash data) ->
  Unmarshal_into dec_EventData [] text = Ok data -> data_ok data -> utf8 principal -> principal <> [] -> tx <> [] ->
  EventId (em_Metadata ev) <> [] -> client_up -> identities_up -> database_up -> node_ok n -> (forall msg, Broadcast msg = Ok tt) ->
  exists printed n',
    generatePayload (mkFlags (Hex.EncodeToString (EventId (em_Metadata ev))) (Hex.EncodeToString tx) text principal (Base64.EncodeToString sk)) =
      Ok (Some printed) /\
    HttpServer.Server.serve (K := K) (R := R) (S := S) EventCount TestConnection production viewer Broadcast (bz "POST") (bz "/event") [] printed n =
      (n', Ok (201, HttpServer.Server.ANothing)) /\
    EventId (em_Metadata ev) ∈ stored_id <$> er_events (repo n') /\ not_missing (EventId (em_Metadata ev)) n'.
Proof.
  intros Hk Hreg Hpk Hc Hpr Hh Htext Hdata Hu Hp Htx Hid Hup Hids Hdb Hn Hb.
  destruct (submission_authentic_for _ tx data principal sk d ev Hk Hreg Hpk Hc eq_refl Hpr Hh) as (req & Hreq & Hauth & Hrid & Hrep).
  specialize (Hrep Hdata Hu). destruct (codable_SubmitRequest req Hrep) as (printed & Henc & Hcomp & Hdec).
  destruct (message_decodes (H := payload_json) (H0 := JsonPlatform.compact_raw) TypeBroadcastEvent req) as (raw & msg & Hmsg & _); [done..|].
  destruct (authentic_submission_accepted chain_storable viewer Broadcast req d ev msg n) as (n' & Hs & Hin & Hm); try done.
  exists printed, n'. rewrite <- Hrid in *. split_and!; [| |done|done].
  - unfold generatePayload. cbn [fl_event_id fl_tx_hash fl_event_data fl_principal fl_priv_key].
    assert (forall b, b <> [] -> Hex.EncodeToString b <> []) as Hne.
    { intros b Hnil E. apply (f_equal length) in E. rewrite Hex.length_encode in E. by destruct b. }
    rewrite !bool_decide_false by auto. cbn [orb]. rewrite !Hex.decode_encode. cbn [or_panic res_bind].
    rewrite Htext. cbn [or_panic res_bind]. rewrite Base64.base64_decode_encode. cbn [or_panic res_bind].
    rewrite Hreq. cbn [res_bind]. by rewrite Henc.
  - unfold HttpServer.Server.serve. cbn [HttpServer.Server.routes app List.find fst].
    rewrite bool_decide_false by done. cbn iota. rewrite bool_decide_false by done. cbn iota. rewrite bool_decide_true by done.
    unfold HttpServer.Server.handle, HttpServer.ShouldBindJSON. rewrite Decode_value, Hdec by done.
    unfold m_bind at 1. by rewrite Hs.
Qed.

End Node.
End Benchmark.
