(* ===== verification/HttpWitness.v ===== *)
(** * Requests to the HTTP servers

    Requests as the clients send them: a log-in with JSON bodies, a check of the
    token, and the statistics of a node that misses blocks.  Below, a node of
    the chain started from files, and the load generators. *)

From S2P Require Import Prelude Types Text JsonWitness Platform Bson UuidReference Reference ChainWitness StateStore StateStoreFacts StateStoreWitness StoreInterface HarmoniserWitness Repository BlockchainClient OffchainNode NodeFacts JsonOffchain TimeText Viewer Search Stream JsonViewer MongoReference OffchainWitness AgentWitness SearchWitness HttpServer JsonCodec Abci Multiplexer Chain ChainHistory ChainMain JsonPlatform IdentityApp EventsApp SubscriptionWitness ConsoleMain Benchmark.

Module HttpWitness.
Import Viewer ChainWitness AgentWitness.
Import HttpServer HttpServer.ViewerRoutes.
#[local] Existing Instance toy_jwt.
#[local] Existing Instance list_driver.
#[local] Existing Instance root_client.
#[local] Existing Instance SearchWitness.ref_search.

Abbreviation Sv := (Server unit Records).

Definition get (header : bytes) : request := mkRequest header [] None None [].
Definition post (body : bytes) : request := mkRequest [] [] None None body.

(** Bytes are in base 64. *)
Definition login_body : bytes :=
  JsonWitness.js "{'principal':'root','challenge':'" ++ Base64.EncodeToString wChallenge ++
  JsonWitness.js "','response':'" ++ Base64.EncodeToString wSignature ++ JsonWitness.js "'} trailing text is not looked at".

Example login : serve wConfig 15 now (Ok []) ([] : list bson) ([] : list bson) (bz "POST") (bz "/auth/challenge-response") (post login_body)
  wServer = (mkServer tt [], Ok (200, AToken (bz "secretroot"))).
Proof. vm_compute. reflexivity. Qed.

Lemma check_token : serve wConfig 15 now (Ok []) ([] : list bson) ([] : list bson) (bz "GET") (bz "/auth/check-token") (get (bz "secretroot"))
  wServer = (wServer, Ok (200, APrincipal root)).
Proof. vm_compute. reflexivity. Qed.

Example no_token : serve wConfig 15 now (Ok []) ([] : list bson) ([] : list bson) (bz "POST") (bz "/events") (post (JsonWitness.js "{'filters':[]}"))
  wServer = (wServer, Ok (401, ANothing)).
Proof. vm_compute. reflexivity. Qed.

Lemma viewer_requires_token_witness :
  exists subject, validateToken wConfig (bz "secretroot") = Some subject /\ forall p, APrincipal root = APrincipal p -> p = subject.
Proof.
  exact (viewer_requires_token wConfig 15 now (Ok []) ([] : list bson) ([] : list bson) (bz "GET") (bz "/auth/check-token")
    (get (bz "secretroot")) wServer wServer 200 (APrincipal root) check_token I).
Defined.

Lemma stats_report_witness : exists d : gmap bytes bytes,
  Server.HandleStats (K := unit) (R := list bson) (fun r => Ok (zlen r)) (Node.mkNode tt [] d []) =
  (Node.mkNode tt [] d [], Ok (200, Some (Server.mkStats 0 0 None [mkBlockRange 3 8]))).
Proof.
  destruct HarmoniserWitness.wPending_reached as [d Hd]. exists d.
  exact (Server.stats_report (fun r : list bson => Ok (zlen r)) (Node.mkNode tt [] d []) HarmoniserWitness.wPending 0 Hd eq_refl).
Defined.

End HttpWitness.

(** * A node of the chain started from files

    The process of [ChainMain] on the reference platform: a first start on an
    empty directory, and the default settings it writes and then refuses. *)

Module StartWitness.
Import JsonCodec MuxState Multiplexer Chain ChainHistory Reference ChainWitness ChainMain.

Definition disk_file : bytes := JsonWitness.js "{ 'state_store': { 'type': 'disk', 'disk': { 'directory': 'data' } } }".
Definition disk_config : Config := mkConfig (bz "disk") (bz "data") [] [].
Definition path : bytes := bz "config.json".

Definition libraries (file : result bytes) : Libraries :=
  mkLibraries (Ok (bz "/root")) (fun _ => file) (fun _ _ => Ok tt) (Ok Default) (fun _ => Ok tt)
    (fun _ _ => Ok empty_db) (fun _ => Ok tt) (fun _ _ => empty_db) (fun _ => empty_tree)
    (fun _ => Ok tt) (Ok tt) (Ok tt) (Ok tt) (Ok tt) (Ok tt) (Ok tt).

Lemma fresh_start_witness : exists m,
  main (libraries (Ok disk_file)) path (bz "$HOME/.cometbft/config/config.toml") = Ok m /\
  at_rest m genesis /\ Height (state m) = 0.
Proof.
  apply (fresh_start (libraries (Ok disk_file)) disk_config path disk_file (bz "/root")).
  - reflexivity.
  - discriminate.
  - reflexivity.
  - vm_compute. reflexivity.
  - reflexivity.
  - reflexivity.
  - intros name. exists empty_db. repeat split.
  - split; reflexivity.
Defined.

Lemma default_file_refused_witness : exists text, default_file = Ok text /\
  main (libraries (Ok text)) path [] = fatal "unknown state store type".
Proof.
  assert (exists text, default_file = Ok text) as [text Ht] by (eexists; vm_compute; reflexivity).
  exists text. split; [exact Ht|].
  destruct (default_file_refused (libraries (Ok text)) path (bz "/root") []) as (text' & Ht' & _ & H2);
    [reflexivity|discriminate|]. assert (text' = text) as -> by congruence. exact (H2 eq_refl).
Defined.

Example home_expanded : ReplaceAll (bz "$HOME/.cometbft/config/config.toml") (bz "$HOME") (bz "/root") = bz "/root/.cometbft/config/config.toml".
Proof. vm_compute. reflexivity. Qed.

End StartWitness.

(** * The load generators on concrete data

    A transaction for the sample chain, and the submission of the event of
    [OffchainWitness] as the command prints it. *)

Module BenchmarkWitness.
Import Chain Reference ChainWitness SubscriptionWitness Payload Node NodeFacts OffchainWitness Benchmark.
#[local] Existing Instance toy_client.
#[local] Existing Instance toy_client_laws.
#[local] Instance create_laws : JsonLaws CreateRequest := JsonPlatform.laws_CreateRequest.
#[local] Instance create_compact : JsonCompact CreateRequest := JsonPlatform.compact_CreateRequest.

(** ** A transaction *)

Definition wClient : EventClient := mkEventClient root root_key.

Example configured : (let* c := Load (Ok (JsonWitness.js "{'principal_name':'root','principal_private_key':'AAEC'}")) in NewClient c) =
  Ok (mkEventClient root (z2b <$> [0; 1; 2])).
Proof. vm_compute. reflexivity. Qed.

Definition wRandom : System := ev_System (se_Event (em_ScrubbedEvent some_event)).

Lemma generated_tx_accepted_witness : exists tx inner e, GenerateTx wRandom (replicate 16 (z2b 1)) wClient = Ok tx /\
  Unmarshal tx = Ok (mkMuxedRequest AppNameEvents inner) /\
  EventsApp.accepted (c_ids sample) 5 now EventsApp.defaultTxState inner e /\ md_Principal (em_Metadata e) = root.
Proof.
  apply (generated_tx_accepted (c_ids sample) 5 now wClient root_data wRandom (replicate 16 (z2b 1))).
  - reflexivity.
  - exact root_registered.
  - reflexivity.
  - reflexivity.
  - repeat split; by vm_compute.
Defined.

(** ** A submission *)

Lemma wIdentities_up : Submission.identities_up.
Proof. intros p d k [-> ->] _. by exists k. Qed.

Definition wText : bytes := JsonWitness.js "[{'name':'SubjectUserName','value':'alice'}]".

Lemma authentic_submission_accepted_witness : exists n', HandleSubmit true (fun _ => Ok tt) (Some wSubmit) wNode = (n', Ok 201) /\
  bz "event" ∈ stored_id <$> er_events (repo n') /\ not_missing (bz "event") n'.
Proof.
  destruct (message_decodes (H0 := JsonPlatform.compact_raw) TypeBroadcastEvent wSubmit) as (raw & msg & Hmsg & _); [done|vm_compute; repeat constructor|].
  apply (Submission.authentic_submission_accepted wEv_storable true (fun _ => Ok tt) wSubmit root_data wEv msg wNode).
  - exact wClient_up.
  - exact wIdentities_up.
  - exact wDatabase_up.
  - exact wNode_ok.
  - split; [by split| | |by split|reflexivity|reflexivity|reflexivity].
    + vm_compute. reflexivity.
    + exists (ed_sign root_key (EventHash.EventData_Hash wData)). split; [apply Hex.decode_encode|]. vm_compute. reflexivity.
  - exact Hmsg.
  - reflexivity.
Defined.

Lemma generated_payload_accepted_witness : exists printed n',
  generatePayload (mkFlags (Hex.EncodeToString (bz "event")) (Hex.EncodeToString wTx) wText root (Base64.EncodeToString root_key)) = Ok (Some printed) /\
  HttpServer.Server.serve (fun r => Ok (zlen r)) (fun _ => Ok tt) true true (fun _ => Ok tt) (bz "POST") (bz "/event") [] printed wNode =
    (n', Ok (201, HttpServer.Server.ANothing)) /\
  bz "event" ∈ stored_id <$> er_events (repo n') /\ not_missing (bz "event") n'.
Proof.
  apply (generated_payload_accepted wEv_storable (fun r => Ok (zlen r)) (fun _ => Ok tt) true true (fun _ => Ok tt)
    wData root root_key root_data wEv wTx wText wNode).
  - reflexivity.
  - by split.
  - reflexivity.
  - by split.
  - reflexivity.
  - reflexivity.
  - vm_compute. reflexivity.
  - vm_compute. repeat constructor.
  - reflexivity.
  - discriminate.
  - discriminate.
  - discriminate.
  - exact wClient_up.
  - exact wIdentities_up.
  - exact wDatabase_up.
  - exact wNode_ok.
  - reflexivity.
Defined.

End BenchmarkWitness.
