(* ===== verification/ConsoleWitness.v ===== *)
(** * The console on the sample chain

    The administrator of the sample chain registers a principal, which then
    creates an event; and the ways in which an action of the console fails. *)

From S2P Require Import Prelude Types Text Platform Policy Abci Rpc IdentityApp EventsApp Chain JsonPlatform Bson UuidReference JsonWitness EventXml Reference ChainWitness SubscriptionWitness JsonCodecFacts Console ConsoleMain.

Module ConsoleWitness.
Import Console ConsoleMain Chain Reference ChainWitness SubscriptionWitness.

#[local] Instance register_laws : JsonLaws PayloadRegister := JsonPlatform.laws_PayloadRegister _.
#[local] Instance create_laws : JsonLaws CreateRequest := JsonPlatform.laws_CreateRequest.
#[local] Instance create_compact : JsonCompact CreateRequest := JsonPlatform.compact_CreateRequest.

Definition wEnv : Env := mkEnv (fun _ => Ok tt) (Ok tt) (fun _ => Ok (mkExecTxResult 0 [] [] [] [])).
Definition wConsole : Client := mkClient (mkConfig (Some root) ∅) (Some root) (Some root_key) ∅ (mkConfig (Some root) ∅).
Definition alice : bytes := bz "alice".
Definition alice_key : bytes := replicate 64 (z2b 7).
Definition alice_data : IdentityData := mkIdentityData (ed_public alice_key) RoleUser.

Lemma registered_principal_creates_events_witness : exists req inner,
  Unmarshal req = Ok (mkMuxedRequest AppNameIdentity inner) /\
  IdentityApp.accepted (c_ids sample) IdentityApp.defaultTxState inner (IdentityApp.AddIdentity alice alice_data) /\
  exists c1 c2, HandleRegister wEnv alice RoleUser (bz "key") (Ok (ed_public alice_key, alice_key)) wConsole = (c1, Ok IdentityMenu) /\
    selectKey wEnv alice (bz "key") c1 = (c2, Ok MainMenu).
Proof.
  destruct (registered_principal_creates_events wEnv (c_ids sample) IdentityApp.defaultTxState root root_data root_key alice RoleUser (bz "key")
    alice_key (em_ScrubbedEvent some_event) (replicate 16 (z2b 1)) 5 now wConsole) as (req & inner & Hm & Ha & Hrest).
  - reflexivity.
  - reflexivity.
  - reflexivity.
  - reflexivity.
  - exact root_registered.
  - reflexivity.
  - reflexivity.
  - cbn. by rewrite lookup_insert_ne.
  - apply not_elem_of_nil.
  - reflexivity.
  - reflexivity.
  - repeat split.
  - split; [exact (proj1 some_event_ok)|done].
  - exists req, inner. split; [exact Hm|]. split; [exact Ha|].
    destruct (Hrest (mkExecTxResult 0 [] [] [] []) eq_refl eq_refl eq_refl eq_refl) as (c1 & c2 & _ & _ & _ & H1' & H2' & _).
    exists c1, c2. split; [exact H1'|exact H2'].
Defined.

(** ** A session: an event is generated, one is imported, a query fails, an option that does not
    exist is chosen, and the program is left *)

#[local] Instance set_policy_json : Json SetPolicyRequest := JsonPlatform.json_SetPolicyRequest.

Definition wAnswers (i : nat) : Answers :=
  mkAnswers (Ok i) [] (fun _ => Ok (bz "text")) (Ok RoleUser) (Ok (ed_public alice_key, alice_key)) (replicate 16 (z2b 1))
    (Ok XmlWitness.TestXml) (ev_System (se_Event (em_ScrubbedEvent some_event))) (Err no_such_file) (fun _ _ => Err no_such_file) (Ok [])
    (fun _ => []) (Ok tt).

Definition wSession : list Answers := wAnswers <$> [0; 1; 0; 1; 0; 0; 1; 9; 2]%nat.

(** The screens of the session. *)
Example wScreens : (fun n => (session wEnv (take n wSession) wConsole (At MainMenu)).2) <$> seq 1 9 =
  [At AppMenu; At EventsMenu; At CreateMenu; At EventsMenu; At CreateMenu; At EventsMenu; At MainMenu; At MainMenu; Exited].
Proof. vm_compute. reflexivity. Qed.


End ConsoleWitness.
