(* ===== verification/Broadcast.v ===== *)
(** * Broadcast channels

    Models [common/pkg/broadcast]: a channel with several listeners
    ([channel.go]), a broadcast that waits for an answer of every listener
    ([wait.go]) and the one for errors with which the program shuts down
    ([errorwait.go]).  Channels are numbers; they have no buffer, so a send waits
    for its receiver, and listeners are served in the order in which they
    subscribed.  Who receives and what is answered are arguments. *)

From S2P Require Import Prelude.

Module Broadcast.

(** ** Listeners ([channel.go]) *)

Record BroadcastChannel : Type := mkBroadcastChannel {
  listeners : list nat;
  made : nat; (* channels made so far *)
  closed : gset nat
}.

Definition NewBroadcastChannel : BroadcastChannel := mkBroadcastChannel [] 0 ∅.

Definition Subscribe (b : BroadcastChannel) : nat * BroadcastChannel :=
  (made b, mkBroadcastChannel (listeners b ++ [made b]) (S (made b)) (closed b)).

Definition CloseAll (b : BroadcastChannel) : BroadcastChannel :=
  mkBroadcastChannel [] (made b) (list_to_set (listeners b) ∪ closed b).

(** The goroutine of [Publish]: the listeners that have the value, in the order
    of the sends, and those that wait. *)
Inductive publishing (receives : nat -> Prop) : list nat * list nat -> list nat * list nat -> Prop :=
| publish_send got l rest : receives l -> publishing receives (got, l :: rest) (got ++ [l], rest).

Definition Publish (receives : nat -> Prop) (b : BroadcastChannel) : list nat * list nat -> Prop :=
  rtc (publishing receives) ([], listeners b).

(** ** Waiting ([wait.go]) *)
Section Wait.
Context {T : Type}.
Variable receives : nat -> Prop.
Variable replies : nat -> T -> Prop.

(** The listeners that wait for the channel, those that have it and have not
    answered, and the answers, with who gave them. *)
Record waiting : Type := mkWaiting {
  unsent : list nat;
  asked : list nat;
  results : list (nat * T)
}.

Inductive wait_step : waiting -> waiting -> Prop :=
| wait_send l rest a r : receives l -> wait_step (mkWaiting (l :: rest) a r) (mkWaiting rest (a ++ [l]) r)
| wait_reply u l a a' r v : a ≡ₚ l :: a' -> replies l v -> wait_step (mkWaiting u a r) (mkWaiting u a' (r ++ [(l, v)])).

(** What [PublishAndWait] can return: the answers, and whether it timed out. *)
Inductive PublishAndWait (b : BroadcastChannel) : list T * bool -> Prop :=
| wait_none : listeners b = [] -> PublishAndWait b ([], false)
| wait_all w : listeners b <> [] -> rtc wait_step (mkWaiting (listeners b) [] []) w ->
    length (results w) = length (listeners b) -> PublishAndWait b (snd <$> results w, false)
| wait_timeout w : listeners b <> [] -> rtc wait_step (mkWaiting (listeners b) [] []) w ->
    length (results w) <> length (listeners b) -> PublishAndWait b (snd <$> results w, true).

End Wait.
Arguments mkWaiting {T}.
Arguments unsent {T}.
Arguments asked {T}.
Arguments results {T}.

(** ** Errors ([errorwait.go]) *)

(** [errors.Join]: the errors that are not nil, a line each. *)
Definition errors_Join (errs : list (option error)) : option error :=
  match omap id errs with
  | [] => None
  | e :: es => Some (NewError (Error e ++ concat ((fun e => z2b 10 :: Error e) <$> es)))
  end.

Definition Await_result (out : list (option error) * bool) : option error :=
  let '(errs, timedOut) := out in if timedOut : bool then None else errors_Join errs.

Definition Await (receives : nat -> Prop) (replies : nat -> option error -> Prop) (b : BroadcastChannel) (err : option error) : Prop :=
  exists out, PublishAndWait receives replies b out /\ err = Await_result out.

(** ** Properties *)

(** Every channel of the broadcast was made by it, once. *)
Definition well_formed (b : BroadcastChannel) : Prop :=
  NoDup (listeners b) /\ Forall (fun l => (l < made b)%nat) (listeners b) /\ set_Forall (fun l => (l < made b)%nat) (closed b).

Lemma Subscribe_fresh b ch b' : well_formed b -> Subscribe b = (ch, b') ->
  well_formed b' /\ ch ∉ listeners b /\ ch ∉ closed b /\ listeners b' = listeners b ++ [ch].
Proof.
  intros (Hn & Hl & Hc) [= <- <-]. cbn.
  assert (made b ∉ listeners b) as Hnew.
  { intros Hin%list_elem_of_In. apply (proj1 (List.Forall_forall _ _) Hl) in Hin. lia. }
  assert (made b ∉ closed b) by (intros Hin; apply Hc in Hin; lia).
  split_and!; try done. split_and!; cbn.
  - apply list.NoDup_app. split_and!; [done| |apply NoDup_singleton]. intros x Hx Hin%list_elem_of_singleton. by subst.
  - apply Forall_app. split; [|constructor; [lia|constructor]]. eapply List.Forall_impl; [|exact Hl]. cbn. lia.
  - intros x Hx. apply Hc in Hx. lia.
Qed.

Lemma CloseAll_closes b : well_formed b -> well_formed (CloseAll b) /\ listeners (CloseAll b) = [] /\
  forall l, l ∈ listeners b -> l ∈ closed (CloseAll b).
Proof.
  intros (Hn & Hl & Hc). split_and!; cbn; [split_and!; cbn|done|set_solver].
  - apply NoDup_nil_2.
  - constructor.
  - intros x Hx. apply elem_of_union in Hx as [Hx|Hx]; [|by apply Hc].
    apply elem_of_list_to_set, list_elem_of_In in Hx. by apply (proj1 (List.Forall_forall _ _) Hl) in Hx.
Qed.

(** A listener that does not receive keeps the value from those behind it. *)
Lemma Publish_in_order receives b got rest : Publish receives b (got, rest) ->
  listeners b = got ++ rest /\ Forall receives got.
Proof.
  unfold Publish. remember ([] : list nat, listeners b) as s eqn:Es. remember (got, rest) as s' eqn:Es'. intros Hr.
  cut (listeners b = s'.1 ++ s'.2 /\ Forall receives s'.1); [by subst s'|]. clear Es' got rest.
  assert (listeners b = s.1 ++ s.2 /\ Forall receives s.1) as Hs by (subst s; by repeat constructor). clear Es.
  induction Hr as [|s1 s2 s3 Hs12 _ IH]; [done|]. apply IH. destruct Hs12 as [got l rest Hl]. cbn in *.
  destruct Hs as [-> Hg]. rewrite <- app_assoc. split; [done|]. apply Forall_app. split; [done|]. by repeat constructor.
Qed.

Section WaitFacts.
Context {T : Type}.
Variable receives : nat -> Prop.
Variable replies : nat -> T -> Prop.

(** The listeners are those that have not been sent the channel, in order, and
    before them those that have; the latter have answered or will. *)
Record Waits (ls : list nat) (w : waiting) : Prop := {
  wt_order : exists sent, ls = sent ++ unsent w /\ Forall receives sent /\ sent ≡ₚ asked w ++ (results w).*1;
  wt_replies : Forall (fun x => replies x.1 x.2) (results w)
}.

Lemma Waits_run ls w : rtc (wait_step receives replies) (mkWaiting ls [] []) w -> Waits ls w.
Proof.
  intros Hr. assert (Waits ls (mkWaiting ls [] [])) as Hw by (split; [exists []; by repeat constructor|constructor]).
  revert Hw. generalize dependent (mkWaiting (T := T) ls [] []). intros w0 Hr.
  induction Hr as [|w1 w2 w3 Hs _ IH]; [done|]. intros [(sent & -> & Hrec & Hp) Hrep]. apply IH. clear IH.
  destruct Hs as [l rest a r Hl|u l a a' r v Ha Hv]; cbn in *; split; cbn; [|done| |].
  - exists (sent ++ [l]). rewrite <- app_assoc. split; [done|]. split; [apply Forall_app; split; [done|by repeat constructor]|].
    rewrite Hp, <- !app_assoc. f_equiv. apply Permutation_app_comm.
  - exists sent. split; [done|]. split; [done|]. rewrite Hp, Ha, fmap_app. cbn. rewrite app_assoc.
    rewrite <- Permutation_cons_append. done.
  - apply Forall_app. split; [done|]. by repeat constructor.
Qed.

(** When [PublishAndWait] does not time out, it has exactly one answer of
    every listener. *)
Theorem all_answered b out : PublishAndWait receives replies b (out, false) ->
  exists answers, out = snd <$> answers /\ fst <$> answers ≡ₚ listeners b /\ Forall (fun x => replies x.1 x.2) answers.
Proof.
  intros Hp. inversion Hp as [Hn|w Hn Hr Hlen|]; subst.
  - exists []. by rewrite Hn.
  - destruct (Waits_run _ _ Hr) as [(sent & Hls & _ & Hs) Hrep]. exists (results w). split; [done|]. split; [|done].
    pose proof (Permutation_length Hs) as Hl. rewrite length_app, length_fmap in Hl. rewrite Hls, length_app in Hlen.
    destruct (asked w); [|cbn in Hl; lia]. destruct (unsent w); [|cbn in Hlen; lia]. by rewrite Hls, app_nil_r, Hs.
Qed.

Lemma sent_before before l after sent rest : before ++ l :: after = sent ++ rest -> Forall receives sent -> ~ receives l ->
  sent `prefix_of` before.
Proof.
  intros Hls Hrec Hl. apply app_eq_inv in Hls as [(k & -> & Hk)|(k & -> & Hk)]; [by exists k|].
  destruct k as [|x k]; [exists []; by rewrite !app_nil_r|]. injection Hk as <- _.
  apply Forall_app in Hrec as [_ Hrec]. by apply List.Forall_inv in Hrec.
Qed.

(** A listener that has stopped receiving, without having unsubscribed,
    which is impossible, makes every broadcast time out, and none of the listeners
    behind it hears of it. *)
Lemma lost_listener before l after b out timedOut : listeners b = before ++ l :: after -> ~ receives l ->
  PublishAndWait receives replies b (out, timedOut) ->
  timedOut = true /\ exists answers, out = snd <$> answers /\ fst <$> answers ⊆ before.
Proof.
  intros Hb Hl Hp.
  assert (forall w, rtc (wait_step receives replies) (mkWaiting (listeners b) [] []) w ->
    fst <$> results w ⊆ before /\ (length (results w) <= length before)%nat) as Hw.
  { intros w Hr. destruct (Waits_run _ _ Hr) as [(sent & Hls & Hrec & Hs) _].
    destruct (sent_before before l after sent (unsent w)) as [k ->]; [by rewrite <- Hb|done..|].
    split; [intros x Hx; apply elem_of_app; left; rewrite Hs; apply elem_of_app; by right|].
    pose proof (Permutation_length Hs) as Hlen. rewrite length_app, length_fmap in Hlen. rewrite length_app. lia. }
  inversion Hp as [Hn|w Hn Hr Hlen|w Hn Hr Hlen]; subst.
  - by rewrite Hn in Hb; destruct before.
  - destruct (Hw w Hr) as [_ Hle]. rewrite Hb, length_app in Hlen. cbn in Hlen. lia.
  - split; [done|]. exists (results w). split; [done|]. by destruct (Hw w Hr).
Qed.

End WaitFacts.

Lemma timeout_is_silent receives replies b l err : l ∈ listeners b -> ~ receives l ->
  Await receives replies b err -> err = None.
Proof.
  intros Hin Hl ([out timedOut] & Hp & ->). apply list_elem_of_split in Hin as (before & after & Hb).
  by destruct (lost_listener receives replies before l after b out timedOut Hb Hl Hp) as [-> _].
Qed.

(** A shutdown that times out is reported as a success: when a listener has
    stopped receiving, [Await] returns no error, whatever the others answer, and
    the listeners behind it are not told to stop. *)
Theorem timeout_reported_as_success receives replies b before l after : listeners b = before ++ l :: after -> ~ receives l ->
  (forall err, Await receives replies b err -> err = None) /\
  forall w, rtc (wait_step receives replies) (mkWaiting (listeners b) [] []) w -> asked w ++ (results w).*1 ⊆ before.
Proof.
  intros Hb Hl. split.
  - intros err. apply (timeout_is_silent receives replies b l); [|done]. rewrite Hb. apply elem_of_app. right. apply list_elem_of_here.
  - intros w Hr. destruct (Waits_run _ _ _ _ Hr) as [(sent & Hls & Hrec & Hs) _]. rewrite <- Hs.
    destruct (sent_before receives before l after sent (unsent w)) as [k ->]; [by rewrite <- Hb|done..|].
    intros x Hx. apply elem_of_app. by left.
Qed.

(** ** A loop that subscribes in every round ([cmd/offchain-interface/main.go])

    The goroutine that drops expired challenges calls [Subscribe] each time it
    waits, so after [n] ticks it has [n + 1] channels and listens to the last.
    [drop] is [DropExpiredChallenges], whose errors are only logged. *)

Fixpoint dropChallengesLoop {D} (drop : D -> D) (ticks : nat) (b : BroadcastChannel) (d : D) : nat * BroadcastChannel * D :=
  let '(ch, b) := Subscribe b in
  match ticks with O => (ch, b, d) | S ticks => dropChallengesLoop drop ticks b (drop d) end.

Lemma dropChallengesLoop_listeners {D} (drop : D -> D) ticks : forall b ch b' d d', dropChallengesLoop drop ticks b d = (ch, b', d') ->
  listeners b' = listeners b ++ seq (made b) (S ticks) /\ ch = (made b + ticks)%nat.
Proof.
  induction ticks as [|ticks IH]; intros b ch b' d d' E; cbn in E.
  - injection E as <- <- _. cbn. split; [done|lia].
  - apply IH in E as [-> ->]. cbn. rewrite <- app_assoc. split; [done|lia].
Qed.

(** After its first tick no shutdown is orderly: it times out, which is
    reported as a success. *)
Lemma ticking_loop_spoils_shutdown {D} (drop : D -> D) receives replies b ticks ch b' d d' err : dropChallengesLoop drop ticks b d = (ch, b', d') -> (0 < ticks)%nat ->
  (forall l, (made b <= l)%nat -> receives l -> l = ch) -> Await receives replies b' err -> err = None.
Proof.
  intros E Ht Hrec Ha. destruct (dropChallengesLoop_listeners _ _ _ _ _ _ _ E) as [Hl ->].
  eapply (timeout_is_silent receives replies b' (made b)); [|intros Hr; apply Hrec in Hr; lia|done].
  rewrite Hl, elem_of_app. right. apply list_elem_of_In, in_seq. lia.
Qed.

(** ** On a concrete channel *)

(** Two listeners, of which the first has returned. *)
Definition wChannel : BroadcastChannel := snd (Subscribe (snd (Subscribe NewBroadcastChannel))).

Lemma timeout_reported_as_success_witness :
  (forall err, Await (fun l => l = 1%nat) (fun _ v => v = Some (NewError (bz "not stopped"))) wChannel err -> err = None) /\
  forall w, rtc (wait_step (fun l => l = 1%nat) (fun _ v => v = Some (NewError (bz "not stopped"))))
    (mkWaiting (listeners wChannel) [] []) w -> asked w ++ (results w).*1 ⊆ [].
Proof. apply (timeout_reported_as_success (fun l => l = 1%nat) _ wChannel [] 0 [1%nat]); done. Defined.

(** Both answer, the second one first. *)
Lemma wAnswers : PublishAndWait (fun _ => True) (fun l (v : nat) => v = (10 + l)%nat) wChannel ([11; 10]%nat, false).
Proof.
  apply (wait_all _ _ wChannel (mkWaiting [] [] [(1, 11); (0, 10)]%nat)); [done| |done].
  eapply rtc_l; [by apply wait_send|]. eapply rtc_l; [by apply wait_send|].
  eapply rtc_l; [apply (wait_reply _ _ [] 1 _ [0%nat]); [apply Permutation_swap|done]|].
  eapply rtc_l; [by apply (wait_reply _ _ [] 0 _ [])|]. apply rtc_refl.
Qed.

Lemma all_answered_witness : exists answers : list (nat * nat), [11; 10]%nat = snd <$> answers /\
  fst <$> answers ≡ₚ listeners wChannel /\ Forall (fun x => x.2 = (10 + x.1)%nat) answers.
Proof. exact (all_answered _ _ wChannel _ wAnswers). Defined.

End Broadcast.
