(* ===== verification/StreamFacts.v ===== *)
(** * What the stream guarantees

    Whatever reaches a socket is a refusal, or an event for a client that
    presented a valid token and whose filters match it; a round hands an event
    to exactly the clients that may see it; and a client whose writing goroutine
    has returned stops the stream for everyone. *)

From S2P Require Import Prelude Types Text Platform Bson Repository Retention RetentionFacts TimeText Viewer Search SearchFacts Stream.

Module StreamFacts.
Import Filters Viewer Stream SearchFacts.

Section Facts.
Context `{StreamJson} `{Jwt} `{UuidText}.
Variable config : ViewerServer.

Abbreviation step := (step config).
Abbreviation run := (run config).

Implicit Types (s : streamBroadcaster) (k : conn) (c : nat) (e : StoredEvent) (tr : list label).

(** ** Runs *)

Lemma run_one s l s' : step s l s' -> run s [l] s'.
Proof. intros Hs. apply (run_snoc config s [] s l s'); [constructor|done]. Qed.

Lemma run_trans s tr s' tr' s'' : run s tr s' -> run s' tr' s'' -> run s (tr ++ tr') s''.
Proof. intros Hr. induction 1; [by rewrite app_nil_r|]. rewrite app_assoc. econstructor; eauto. Qed.

Lemma run_cons s l s' tr s'' : step s l s' -> run s' tr s'' -> run s (l :: tr) s''.
Proof. intros Hs Hr. apply (run_trans s [l] s' tr s''); [by apply run_one|done]. Qed.

Lemma run_snoc_inv s tr l s'' : run s (tr ++ [l]) s'' -> exists s', run s tr s' /\ step s' l s''.
Proof.
  remember (tr ++ [l]) as t eqn:Et. intros Hr. destruct Hr as [|s t' s' l' s'' Hr Hs]; [by destruct tr|].
  apply app_inj_tail in Et as [-> ->]. eauto.
Qed.

Lemma run_app_inv s tr1 tr2 s'' : run s (tr1 ++ tr2) s'' -> exists s', run s tr1 s' /\ run s' tr2 s''.
Proof.
  revert s''. induction tr2 as [|l tr2 IH] using rev_ind; intros s'' Hr.
  - rewrite app_nil_r in Hr. exists s''. split; [done|constructor].
  - rewrite app_assoc in Hr. apply run_snoc_inv in Hr as (s1 & Hr1 & Hs).
    destruct (IH _ Hr1) as (s' & ? & ?). exists s'. split; [done|by econstructor].
Qed.

Lemma run_cons_inv s l tr s'' : run s (l :: tr) s'' -> exists s', step s l s' /\ run s' tr s''.
Proof.
  intros Hr. destruct (run_app_inv s [l] tr s'' Hr) as (s' & Hl & Hr'). exists s'. split; [|done].
  apply (run_snoc_inv s []) in Hl as (s1 & Hn & Hs). remember [] as n eqn:En. destruct Hn as [|? t]; [done|by destruct t].
Qed.

(** ** Safety *)

(** A message of the client was a valid token. *)
Definition authorised c tr : Prop := exists b message auth, Received c b ∈ tr /\ Unmarshal b = Ok message /\
  ws_Type message = wsMessageTypeAuth /\ Unmarshal (ws_Payload message) = Ok auth /\ is_Some (validateToken config (Token auth)).

(** The client had these filters at some time. *)
Definition had c tr (fs : list Filter) : Prop := fs = [] \/ exists b message, Received c b ∈ tr /\ Unmarshal b = Ok message /\
  ws_Type message = wsMessageTypeSetFilters /\ Unmarshal (ws_Payload message) = Ok fs.

(** The client may see the event: the copy of its filters matches. *)
Definition allowed c tr e : Prop := authorised c tr /\ exists fs fs', had c tr fs /\ had c tr fs' /\
  filtersMatch e (copy_filters (length fs) fs') = Ok true.

Definition source tr e (p : bytes) : Prop := Took e ∈ tr /\ event_message e = Ok p.

(** The bytes are an event that was handed over when the client was allowed to
    see it, or the refusal of a token. *)
Definition delivered c tr (m : bytes) : Prop := refusal = Some m \/ exists e before after,
  tr = before ++ Handed c e :: after /\ source before e m /\ allowed c before e.

Definition loop_ok tr (l : loop_state) : Prop :=
  match l with
  | Waiting | LoopStopped => True
  | Visiting e p _ => source tr e p
  | Measuring e p c _ => source tr e p /\ authorised c tr
  | Copying e p c n _ => source tr e p /\ authorised c tr /\ exists fs, had c tr fs /\ n = length fs
  | Writing e p c _ => source tr e p /\ allowed c tr e
  end.

Record conn_ok tr c k : Prop := {
  ck_auth : isAuthenticated (client k) = true -> authorised c tr;
  ck_filters : had c tr (filters (client k));
  ck_writer m : writes k = WriterSending m -> delivered c tr m;
  ck_reader m : reads k = Refusing m -> refusal = Some m
}.

Record Inv tr s : Prop := {
  iv_conns : map_Forall (conn_ok tr) (conns s);
  iv_loop : loop_ok tr (loop s)
}.

(** What holds of a history holds of a longer one. *)
Lemma elem_of_longer {A} (x : A) l l' : x ∈ l -> x ∈ l ++ l'.
Proof. rewrite elem_of_app. by left. Qed.
#[local] Hint Resolve elem_of_longer : core.

Lemma authorised_longer c tr tr' : authorised c tr -> authorised c (tr ++ tr').
Proof. intros (b & m & a & Hin & Hm). exists b, m, a. auto. Qed.
#[local] Hint Resolve authorised_longer : core.

Lemma had_longer c tr tr' fs : had c tr fs -> had c (tr ++ tr') fs.
Proof. intros [->|(b & m & Hin & Hm)]; [by left|]. right. exists b, m. auto. Qed.
#[local] Hint Resolve had_longer : core.

Lemma allowed_longer c tr tr' e : allowed c tr e -> allowed c (tr ++ tr') e.
Proof. intros (Ha & fs & fs' & H1' & H2' & Hm). split; [auto|]. exists fs, fs'. auto. Qed.
#[local] Hint Resolve allowed_longer : core.

Lemma source_longer tr tr' e p : source tr e p -> source (tr ++ tr') e p.
Proof. intros [? ?]. split; auto. Qed.
#[local] Hint Resolve source_longer : core.

Lemma delivered_longer c tr tr' m : delivered c tr m -> delivered c (tr ++ tr') m.
Proof.
  intros [Hr|(e & before & after & -> & Hs)]; [by left|]. right. exists e, before, (after ++ tr'). by rewrite <- app_assoc.
Qed.
#[local] Hint Resolve delivered_longer : core.

Lemma conn_ok_longer tr tr' c k : conn_ok tr c k -> conn_ok (tr ++ tr') c k.
Proof. intros [? ? ? ?]. split; eauto. Qed.

Lemma loop_ok_longer tr tr' l : loop_ok tr l -> loop_ok (tr ++ tr') l.
Proof. destruct l; cbn; intros; destruct_and?; eauto. destruct H5 as (fs & ? & ?). eauto 10. Qed.
#[local] Hint Resolve conn_ok_longer loop_ok_longer : core.

(** A step that changes one connection. *)
Lemma conns_put tr l s c k : map_Forall (conn_ok tr) (conns s) -> conn_ok (tr ++ [l]) c k ->
  map_Forall (conn_ok (tr ++ [l])) (<[c := k]> (conns s)).
Proof.
  intros Hc Hk. apply map_Forall_insert_2; [done|]. eapply map_Forall_impl; [exact Hc|]. cbn. auto.
Qed.

Lemma conns_same tr l s : map_Forall (conn_ok tr) (conns s) -> map_Forall (conn_ok (tr ++ [l])) (conns s).
Proof. intros Hc. eapply map_Forall_impl; [exact Hc|]. cbn. auto. Qed.

(** What a message changes. *)
Lemma handled tr c k b (k' : streamClient) out : handleMessage config b (client k) = (k', out) -> conn_ok tr c k ->
  (isAuthenticated k' = true -> authorised c (tr ++ [Received c b])) /\ had c (tr ++ [Received c b]) (filters k') /\
  (forall m, out = Some m -> refusal = Some m).
Proof.
  intros E [Ha Hf _ _]. assert (Received c b ∈ tr ++ [Received c b]) as Hin by (apply elem_of_app; right; apply list_elem_of_here).
  assert ((client k, None) = (k', out) -> (isAuthenticated k' = true -> authorised c (tr ++ [Received c b])) /\
    had c (tr ++ [Received c b]) (filters k') /\ (forall m, out = Some m -> refusal = Some m)) as Hsame.
  { intros [= <- <-]. split_and!; [auto..|discriminate]. }
  unfold handleMessage, handleAuth, handleSetFilters in E. destruct (Unmarshal b) as [message| |] eqn:Eb; [|by apply Hsame..].
  case_bool_decide as Ht.
  - destruct (Unmarshal (ws_Payload message)) as [auth| |] eqn:Ep; [|by apply Hsame..].
    destruct (validateToken config (Token auth)) eqn:Ev; injection E as <- <-; [|by auto].
    split_and!; [|cbn; auto|discriminate]. intros _. exists b, message, auth. rewrite Ev. eauto 10.
  - case_bool_decide as Ht'; [|by apply Hsame].
    destruct (Unmarshal (ws_Payload message)) as [fs| |] eqn:Ep; [|by apply Hsame..]. injection E as <- <-.
    split_and!; [cbn; auto|right; eauto 10|discriminate].
Qed.

Lemma Inv_step tr s l s' : Inv tr s -> step s l s' -> Inv (tr ++ [l]) s'.
Proof.
  intros [Hc Hl] Hs. pose proof (loop_ok_longer tr [l] _ Hl) as Hl'.
  assert (forall c k, conns s !! c = Some k -> conn_ok tr c k) as Hk by (intros c k Hck; exact (Hc c k Hck)).
  destruct Hs; cbn [put_conn put_loop eventWebsocketHandler Register Unregister conns clients loop] in *;
    try (specialize (Hk _ _ ltac:(eassumption)) as Hck; destruct Hck as [Hka Hkf Hkw Hkr]);
    (split; cbn; [first [apply conns_put; [done|]|by apply conns_same]|try exact Hl']).
  all: try (split; cbn; eauto; try discriminate; fail).
  all: try match goal with Hlp : loop _ = _ |- _ => rewrite Hlp in Hl, Hl'; cbn in Hl, Hl' end.
  - split; cbn; [discriminate|by left|discriminate..].
  - match goal with Hm : handleMessage _ _ _ = _ |- _ => destruct (handled tr c k b k' out Hm) as (H1' & H2' & H3'); [by split|] end.
    split; cbn; [done..|by eauto|]. intros m. destruct out as [m'|]; [|done]. intros [= ->]. by apply H3'.
  - split; cbn; [auto..| |discriminate]. intros m' [= <-]. left. by apply Hkr.
  - split; [|done]. apply elem_of_app. right. apply list_elem_of_here.
  - exact Hl'.
  - split; [exact Hl'|auto].
  - destruct Hl'. split_and!; [done..|]. eauto.
  - destruct Hl' as (Hs' & Ha' & fs & Hf' & ->). unfold matched.
    destruct (filtersMatch e _) as [[|]| |] eqn:Em; cbn; [|done..]. split; [done|]. split; [done|]. eauto 10.
  - destruct Hl as [Hs' Ha']. split; cbn; [auto..| |by eauto]. intros m [= <-]. right. by exists e, tr, [].
  - by destruct Hl'.
Qed.

Lemma Inv_run tr s : run newStreamBroadcaster tr s -> Inv tr s.
Proof.
  remember newStreamBroadcaster as s0 eqn:E0. induction 1 as [|? tr s' l s'' Hr IH Hs].
  - subst. by split; [apply map_Forall_empty|].
  - by eapply Inv_step; [apply IH|].
Qed.

(** C15. Whatever is written to a socket is the refusal of a token, or a stored
    event that was handed to a client which had presented a valid token before
    and whose filters, as the broadcaster copied them, match the event. *)
Theorem stream_safe before after c m s :
  run newStreamBroadcaster (before ++ Sent c m :: after) s -> delivered c before m.
Proof.
  intros Hr. apply run_app_inv in Hr as (s1 & Hr1 & Hr2). apply run_cons_inv in Hr2 as (s2 & Hs & _).
  destruct (Inv_run _ _ Hr1) as [Hc _]. inversion Hs; subst. by eapply ck_writer; [apply Hc|].
Qed.

(** The copy is the list of filters when they are not replaced meanwhile. *)
Lemma copy_filters_same fs : copy_filters (length fs) fs = fs.
Proof. unfold copy_filters. by rewrite firstn_all, Nat.sub_diag, app_nil_r. Qed.

(** ** A client that is not served *)

(** C39. Once the broadcaster is writing to a client whose writing goroutine has
    returned, it does so for ever: no event is taken from the node again, no
    client can connect or be unregistered, and no client is sent an event. *)
Theorem dead_client_blocks_stream s e p c k rest tr s' :
  loop s = Writing e p c rest -> conns s !! c = Some k -> writes k = WriterStopped -> run s tr s' ->
  loop s' = Writing e p c rest /\ clients s' = clients s /\
  Forall (fun l => match l with Took _ | Connected _ | Left _ | Handed _ _ => False | _ => True end) tr.
Proof.
  intros Hl Hc Hw Hr.
  cut (loop s' = Writing e p c rest /\ clients s' = clients s /\
    (exists k', conns s' !! c = Some k' /\ writes k' = WriterStopped) /\
    Forall (fun l => match l with Took _ | Connected _ | Left _ | Handed _ _ => False | _ => True end) tr).
  { by intros (? & ? & _ & ?). }
  induction Hr as [s|s tr s' l s'' Hr IH Hs]; [by eauto 10|].
  destruct (IH Hl Hc) as (Hl' & Hcl & (k' & Hc' & Hw') & Htr).
  assert (forall c1 k1 k2, conns s' !! c1 = Some k1 -> (writes k1 = WriterStopped -> writes k2 = WriterStopped) ->
    exists k', <[c1 := k2]> (conns s') !! c = Some k' /\ writes k' = WriterStopped) as Hput.
  { intros c1 k1 k2 Hk1 Hk2. destruct (decide (c1 = c)) as [->|Hne].
    - exists k2. rewrite lookup_insert_eq. split; [done|]. apply Hk2. congruence.
    - exists k'. by rewrite lookup_insert_ne. }
  inversion Hs; subst; unfold unlocked in *; try (destruct_or?; congruence);
    (split; [exact Hl'|]); (split; [exact Hcl|]); (split; [|apply Forall_app; split; [done|by repeat constructor]]);
    cbn; (eapply Hput; [eassumption|cbn; congruence]).
Qed.

(** ** Rounds *)

(** The client may see the event. *)
Definition wanted s e c : bool :=
  match conns s !! c with
  | Some k => isAuthenticated (client k) && match filtersMatch e (filters (client k)) with Ok b => b | _ => false end
  | None => false
  end.

(** How often a client is handed an event. *)
Definition is_handed c (l : label) : bool := match l with Handed c' _ => bool_decide (c' = c) | _ => false end.
Definition handed c tr : nat := length (filter (fun l => is_handed c l = true) tr).

Lemma handed_snoc c tr l : handed c (tr ++ [l]) = (handed c tr + if is_handed c l then 1 else 0)%nat.
Proof. unfold handed. rewrite list.filter_app, length_app. f_equal. by destruct (is_handed c l) eqn:E; cbn; rewrite E. Qed.

(** Every registered client has a connection. *)
Lemma registered_step s l s' : clients s ⊆ dom (conns s) -> step s l s' -> clients s' ⊆ dom (conns s').
Proof. intros Hd Hs. destruct Hs; cbn; rewrite ?dom_insert_L; set_solver. Qed.

Lemma registered_run tr s : run newStreamBroadcaster tr s -> clients s ⊆ dom (conns s).
Proof.
  remember newStreamBroadcaster as s0 eqn:E0. induction 1; [subst; set_solver|]. eapply registered_step; eauto.
Qed.

(** The loop does not stand still on a client that is not registered. *)
Definition visited (l : loop_state) : gset nat :=
  match l with
  | Waiting | LoopStopped => ∅
  | Visiting _ _ rest => rest
  | Measuring _ _ c rest | Copying _ _ c _ rest | Writing _ _ c rest => {[c]} ∪ rest
  end.

Lemma visited_step s l s' : visited (loop s) ⊆ clients s -> step s l s' -> visited (loop s') ⊆ clients s'.
Proof.
  intros Hv Hs. destruct Hs; cbn in *; unfold unlocked, matched in *; try done;
    try (destruct_or?; match goal with Hl : loop _ = _ |- _ => rewrite Hl in * end; cbn in *; repeat case_match; cbn; set_solver).
Qed.

Lemma visited_run tr s : run newStreamBroadcaster tr s -> visited (loop s) ⊆ clients s.
Proof.
  remember newStreamBroadcaster as s0 eqn:E0. induction 1; [by subst|]. eapply visited_step; eauto.
Qed.

(** *** Exactness

    One client is watched: the others may send messages, connect, fail and
    leave while the event goes round. *)
Section Round.
Variables (s0 : streamBroadcaster) (e : StoredEvent) (p : bytes) (c0 : nat).
Hypothesis Hdom : clients s0 ⊆ dom (conns s0).

(** What is known of the loop, and whether it still has to hand the event to
    the client. *)
Definition in_round (l : loop_state) : Prop :=
  match l with
  | Waiting | LoopStopped => True
  | Visiting e' p' rest => e' = e /\ p' = p /\ rest ⊆ clients s0
  | Measuring e' p' c rest => e' = e /\ p' = p /\ {[c]} ∪ rest ⊆ clients s0 /\ c ∉ rest /\
      (c = c0 -> ((isAuthenticated ∘ client) <$> conns s0 !! c) = Some true)
  | Copying e' p' c n rest => e' = e /\ p' = p /\ {[c]} ∪ rest ⊆ clients s0 /\ c ∉ rest /\
      (c = c0 -> ((isAuthenticated ∘ client) <$> conns s0 !! c) = Some true /\
        ((length ∘ filters ∘ client) <$> conns s0 !! c) = Some n)
  | Writing e' p' c rest => e' = e /\ p' = p /\ {[c]} ∪ rest ⊆ clients s0 /\ c ∉ rest /\ (c = c0 -> wanted s0 e c = true)
  end.

Definition due (cs : gset nat) : nat := if bool_decide (c0 ∈ cs) && wanted s0 e c0 then 1 else 0.

Record Round tr s : Prop := {
  rd_client k : conns s0 !! c0 = Some k -> exists k', conns s !! c0 = Some k' /\ client k' = client k;
  rd_loop : in_round (loop s);
  rd_count : loop s <> LoopStopped -> (handed c0 tr + due (visited (loop s)) = due (clients s0))%nat;
  rd_events c e' : Handed c e' ∈ tr -> e' = e
}.

(** The client sends nothing, and no second event is taken. *)
Definition quiet (l : label) : Prop := match l with Received c _ => c <> c0 | Took _ => False | _ => True end.

Lemma due_same (cs cs' : gset nat) : (c0 ∈ cs <-> c0 ∈ cs') -> due cs = due cs'.
Proof. intros Hcs. unfold due. by rewrite (bool_decide_ext _ _ Hcs). Qed.

Lemma due_skip c rest : (c = c0 -> wanted s0 e c = false) -> due (rest ∖ {[c]}) = due rest.
Proof.
  intros Hw. destruct (decide (c = c0)) as [->|Hne]; [|apply due_same; set_solver].
  unfold due. by rewrite Hw, !andb_false_r.
Qed.

Lemma due_hand c rest : (c = c0 -> wanted s0 e c = true) -> c ∉ rest ->
  due ({[c]} ∪ rest) = ((if bool_decide (c = c0) then 1 else 0) + due rest)%nat.
Proof.
  intros Hw Hc. destruct (decide (c = c0)) as [->|Hne].
  - unfold due. rewrite !bool_decide_true, (bool_decide_false (c0 ∈ rest)) by set_solver. by rewrite Hw.
  - rewrite bool_decide_false by done. apply due_same. set_solver.
Qed.

(** The watched client is the same as at the start of the round. *)
Lemma same_client tr s k : Round tr s -> c0 ∈ clients s0 -> conns s !! c0 = Some k ->
  exists k0, conns s0 !! c0 = Some k0 /\ client k = client k0.
Proof.
  intros [Hc _ _ _] Hin Hk. assert (is_Some (conns s0 !! c0)) as [k0 Hk0] by (apply elem_of_dom; set_solver).
  destruct (Hc k0 Hk0) as (k' & Hk' & Hcl). exists k0. split; [done|congruence].
Qed.

Lemma Round_client tr s l s' k : Round tr s -> quiet l -> step s l s' -> conns s0 !! c0 = Some k ->
  exists k', conns s' !! c0 = Some k' /\ client k' = client k.
Proof.
  intros [Hc _ _ _] Hq Hs Hck. destruct (Hc k Hck) as (k' & Hk' & Hcl).
  assert (forall c1 k1 k2, conns s !! c1 = Some k1 -> (c1 = c0 -> client k2 = client k1) ->
    exists k'0, <[c1:=k2]> (conns s) !! c0 = Some k'0 /\ client k'0 = client k) as Hput.
  { intros c1 k1 k2 Hk1 Hk2. destruct (decide (c1 = c0)) as [->|Hne].
    - exists k2. rewrite lookup_insert_eq. split; [done|]. rewrite Hk2 by done. congruence.
    - exists k'. by rewrite lookup_insert_ne. }
  destruct Hs; cbn in *; try done; try (by eauto);
    try (eapply Hput; [eassumption|done]); exists k'; (rewrite lookup_insert_ne; [done|congruence]).
Qed.

(** A step of the loop: what is due after it and what is handed over. *)
Lemma Round_loop tr s l s' : Round tr s -> quiet l -> step s l s' ->
  in_round (loop s') /\ (loop s' <> LoopStopped ->
  loop s <> LoopStopped /\ ((if is_handed c0 l then 1 else 0) + due (visited (loop s')) = due (visited (loop s)))%nat).
Proof.
  intros HR Hq Hs. pose proof (rd_loop _ _ HR) as Hl.
  destruct Hs as [| | | | | | | | | | |s e' p' c k rest Hlp Hc Hk Ha|s e' p' c k rest Hlp Hc Hk Ha|s e' p' c k rest Hlp Hk|
    s e' p' c k n rest Hlp Hk|s e' p' c k rest Hlp Hk Hw|s e' p' Hlp|s Hlp]; cbn in *; try done; rewrite ?Hlp in *; cbn in *; try done.
  - destruct Hl as (-> & -> & Hr). split; [split_and!; [done..|set_solver]|]. intros _. split; [done|].
    apply due_skip. intros ->. destruct (same_client tr s k HR) as (k0 & Hk0 & Hcl); [set_solver|done|].
    unfold wanted. by rewrite Hk0, <- Hcl, Ha.
  - destruct Hl as (-> & -> & Hr). split.
    + split_and!; [done..|set_solver|set_solver|]. intros ->.
      destruct (same_client tr s k HR) as (k0 & Hk0 & Hcl); [set_solver|done|]. by rewrite Hk0; cbn; rewrite <- Hcl, Ha.
    + intros _. split; [done|]. apply due_same. destruct (decide (c0 = c)); set_solver.
  - destruct Hl as (-> & -> & Hr & Hn & Ha). split; [|by intros _]. split_and!; [done..|]. intros ->.
    destruct (same_client tr s k HR) as (k0 & Hk0 & Hcl); [set_solver|done|]. split; [by apply Ha|].
    by rewrite Hk0; cbn; rewrite <- Hcl.
  - destruct Hl as (-> & -> & Hr & Hn & Ha).
    assert (c = c0 -> wanted s0 e c = match filtersMatch e (copy_filters n (filters (client k))) with Ok b => b | _ => false end) as Hw.
    { intros ->. destruct (same_client tr s k HR) as (k0 & Hk0 & Hcl); [set_solver|done|].
      destruct (Ha eq_refl) as [Hau Hlen]. rewrite Hk0 in Hau, Hlen. cbn in Hau, Hlen. injection Hau as Hau. injection Hlen as <-.
      rewrite Hcl, copy_filters_same. unfold wanted. by rewrite Hk0, Hau. }
    unfold matched.
    assert ((c = c0 -> wanted s0 e c = false) -> in_round (Visiting e p rest) /\ (Visiting e p rest <> LoopStopped ->
      Copying e p c n rest <> LoopStopped /\ due rest = due ({[c]} ∪ rest))) as Hskip.
    { intros Hf. split; [split_and!; [done..|set_solver]|]. intros _. split; [done|].
      rewrite <- (due_skip c ({[c]} ∪ rest)) by done. apply due_same. set_solver. }
    destruct (filtersMatch e _) as [[|]| |]; cbn; [|by apply Hskip..|by split].
    split; [by split_and!|]. by intros _.
  - destruct Hl as (-> & -> & Hr & Hn & Hwt). split; [split_and!; [done..|set_solver]|]. intros _. split; [done|].
    by rewrite (due_hand c rest).
Qed.

Lemma Round_step tr s l s' : Round tr s -> quiet l -> step s l s' -> Round (tr ++ [l]) s'.
Proof.
  intros HR Hq Hs. destruct (Round_loop tr s l s' HR Hq Hs) as [Hl Hn]. split; [|done| |].
  - intros k Hck. by eapply Round_client.
  - intros Hst. destruct (Hn Hst) as [Hst0 Hc]. pose proof (rd_count _ _ HR Hst0). rewrite handed_snoc. lia.
  - intros c e' Hin. apply elem_of_app in Hin as [Hin|Hin%list_elem_of_singleton]; [by eapply rd_events|]. subst l.
    pose proof (rd_loop _ _ HR) as Hlp. inversion Hs; subst.
    match goal with Hw : loop _ = Writing _ _ _ _ |- _ => rewrite Hw in Hlp end. by destruct Hlp.
Qed.

Lemma Round_run s tr s' : Round [] s -> Forall quiet tr -> run s tr s' -> Round tr s'.
Proof.
  intros HR Hq Hr. induction Hr as [|s tr s' l s'' Hr IH Hs]; [done|].
  apply Forall_app in Hq as [Hq Hl]. eapply Round_step; [by apply IH| |done]. by apply List.Forall_inv in Hl.
Qed.

End Round.


(** *** Completion *)
Section Completion.
Context `{!UuidLaws}.

Lemma filtersMatch_no_panic e fs w : filtersMatch e fs <> Panic w.
Proof.
  induction fs as [|f fs IH]; [done|]. cbn [filtersMatch].
  assert (forall w, Matches f e <> Panic w) as Hm.
  { intros w'. unfold Matches, equal, guid_matches, Strconv.Atoi, Strconv.ParseInt.
    pose proof (DateTime.Parse_no_panic (Value f)). pose proof (law_uuid_safe (Value f)).
    repeat (case_match; cbn [res_bind]; try done); congruence. }
  destruct (Matches f e) as [[|]| |]; cbn; [done..|congruence].
Qed.

(** A writing goroutine that accepts bytes, or will when it has written what it
    has. *)
Definition serves s c : Prop := exists k, conns s !! c = Some k /\
  (writes k = WriterIdle \/ exists m, writes k = WriterSending m /\ ws_open k = true).

Lemma complete_write s e p c rest : loop s = Writing e p c rest -> serves s c -> c ∉ rest -> (forall c', c' ∈ rest -> serves s c') ->
  exists tr s', run s tr s' /\ loop s' = Visiting e p rest /\ forall c', c' ∈ rest -> serves s' c'.
Proof.
  intros Hl (k & Hk & Hw) Hc Hrest.
  assert (exists tr s1, run s tr s1 /\ loop s1 = Writing e p c rest /\ (exists k1, conns s1 !! c = Some k1 /\ writes k1 = WriterIdle) /\
    forall c', c' ∈ rest -> serves s1 c') as (tr & s1 & Hr & Hl1 & (k1 & Hk1 & Hw1) & Hs1).
  { destruct Hw as [Hw|(m & Hw & Ho)].
    - exists [], s. split; [constructor|]. eauto 10.
    - eexists _, _. split; [apply run_one; by eapply step_send|]. split; [done|]. split; [eexists; split; [apply lookup_insert_eq|done]|].
      intros c' Hc'. destruct (Hrest c' Hc') as (k' & Hk' & Hw'). exists k'. split; [|done]. cbn.
      rewrite lookup_insert_ne; [done|]. intros ->. done. }
  eexists _, _. split; [eapply run_trans; [exact Hr|]; apply run_one; by eapply step_hand|]. split; [done|].
  intros c' Hc'. destruct (Hs1 c' Hc') as (k' & Hk' & Hw'). exists k'. split; [|done]. cbn.
  rewrite lookup_insert_ne; [done|]. intros ->. done.
Qed.

Lemma complete_copy s e p c n rest : loop s = Copying e p c n rest -> serves s c -> c ∉ rest -> (forall c', c' ∈ rest -> serves s c') ->
  exists tr s', run s tr s' /\ loop s' = Visiting e p rest /\ forall c', c' ∈ rest -> serves s' c'.
Proof.
  intros Hl Hsc Hc Hrest. pose proof Hsc as (k & Hk & _).
  pose proof (step_copy config s e p c k n rest Hl Hk) as Hst. unfold matched in Hst.
  pose proof (filtersMatch_no_panic e (copy_filters n (filters (client k)))) as Hnp.
  destruct (filtersMatch e _) as [[|]|err|w]; [| | |by destruct (Hnp w)].
  - destruct (complete_write (put_loop (Writing e p c rest) s) e p c rest eq_refl Hsc Hc Hrest) as (tr & s' & Hr & Hs').
    exists (Internal :: tr), s'. split; [by eapply run_cons|done].
  - eexists _, _. split; [by apply run_one|]. by split.
  - eexists _, _. split; [by apply run_one|]. by split.
Qed.

Lemma complete_measure s e p c rest : loop s = Measuring e p c rest -> serves s c -> c ∉ rest -> (forall c', c' ∈ rest -> serves s c') ->
  exists tr s', run s tr s' /\ loop s' = Visiting e p rest /\ forall c', c' ∈ rest -> serves s' c'.
Proof.
  intros Hl Hsc Hc Hrest. pose proof Hsc as (k & Hk & _).
  destruct (complete_copy (put_loop (Copying e p c (length (filters (client k))) rest) s) e p c _ rest eq_refl Hsc Hc Hrest) as (tr & s' & Hr & Hs').
  exists (Internal :: tr), s'. split; [|done]. eapply run_cons; [by eapply step_measure|done].
Qed.

Lemma complete_visits s e p rest : loop s = Visiting e p rest -> (forall c, c ∈ rest -> serves s c) ->
  exists tr s', run s tr s' /\ loop s' = Waiting.
Proof.
  remember (size rest) as n eqn:En. revert s rest En. induction n as [|n IH]; intros s rest En Hl Hrest.
  - assert (rest = ∅) as -> by (apply leibniz_equiv, size_empty_inv; done).
    eexists _, _. split; [apply run_one; by eapply step_round|done].
  - assert (exists c, c ∈ rest) as [c Hc] by (apply set_choose_L; intros ->; rewrite size_empty in En; done).
    assert (size (rest ∖ {[c]}) = n) as Hsz by (rewrite size_difference, size_singleton by set_solver; lia).
    assert (exists tr s1, run s tr s1 /\ loop s1 = Visiting e p (rest ∖ {[c]}) /\ forall c', c' ∈ rest ∖ {[c]} -> serves s1 c')
      as (tr & s1 & Hr & Hl1 & Hs1).
    { assert (forall c', c' ∈ rest ∖ {[c]} -> serves s c') as Hrest' by (intros c' Hc'; apply Hrest; set_solver).
      destruct (Hrest c Hc) as (k & Hk & Hw). destruct (isAuthenticated (client k)) eqn:Ha.
      - destruct (complete_measure (put_loop (Measuring e p c (rest ∖ {[c]})) s) e p c _ eq_refl) as (tr & s' & Hr & Hs');
          [by exists k|set_solver|exact Hrest'|]. exists (Internal :: tr), s'. split; [|done].
        eapply run_cons; [by eapply step_authenticated|done].
      - eexists _, _. split; [apply run_one; by eapply step_skip|]. by split. }
    destruct (IH s1 (rest ∖ {[c]}) (eq_sym Hsz) Hl1 Hs1) as (tr' & s' & Hr' & Hw).
    exists (tr ++ tr'), s'. split; [by eapply run_trans|done].
Qed.

(** The client that is being visited is not visited again. *)
Definition current (l : loop_state) : Prop :=
  match l with
  | Measuring _ _ c rest | Copying _ _ c _ rest | Writing _ _ c rest => c ∉ rest
  | _ => True
  end.

Lemma current_run tr s : run newStreamBroadcaster tr s -> current (loop s).
Proof.
  remember newStreamBroadcaster as s0 eqn:E0. induction 1 as [|? tr s' l s'' Hr IH Hs]; [by subst|]. specialize (IH E0).
  destruct Hs; cbn in *; try done; try match goal with Hl : loop _ = _ |- _ => rewrite Hl in * end; cbn in *; try done; [set_solver|].
  unfold matched. repeat case_match; done.
Qed.

(** C22. The broadcaster does not stop on its own: in every reachable state, as
    long as the writing goroutines of the registered clients serve, it can finish
    the round it is in and take the next event. *)
Theorem stream_live tr s : run newStreamBroadcaster tr s -> (forall c, c ∈ clients s -> serves s c) -> loop s <> LoopStopped ->
  exists tr' s', run s tr' s' /\ loop s' = Waiting.
Proof.
  intros Hr Hserve Hst. pose proof (visited_run _ _ Hr) as Hv. pose proof (current_run _ _ Hr) as Hcur.
  assert (forall e p rest tr1 s1, run s tr1 s1 -> loop s1 = Visiting e p rest -> (forall c, c ∈ rest -> serves s1 c) ->
    exists tr' s', run s tr' s' /\ loop s' = Waiting) as Hfin.
  { intros e p rest tr1 s1 Hr1 Hl1 Hs1. destruct (complete_visits s1 e p rest Hl1 Hs1) as (tr2 & s' & Hr2 & Hw).
    exists (tr1 ++ tr2), s'. split; [by eapply run_trans|done]. }
  destruct (loop s) as [|e p rest|e p c rest|e p c n rest|e p c rest|] eqn:Hl; cbn in Hv, Hcur; [| | | | |done].
  - exists [], s. split; [constructor|done].
  - apply (Hfin e p rest [] s); [constructor|done|]. intros c Hc. apply Hserve. set_solver.
  - destruct (complete_measure s e p c rest Hl) as (tr1 & s1 & H1' & H2' & H3'); [apply Hserve; set_solver|done|intros c' Hc'; apply Hserve; set_solver|].
    by eapply Hfin.
  - destruct (complete_copy s e p c n rest Hl) as (tr1 & s1 & H1' & H2' & H3'); [apply Hserve; set_solver|done|intros c' Hc'; apply Hserve; set_solver|].
    by eapply Hfin.
  - destruct (complete_write s e p c rest Hl) as (tr1 & s1 & H1' & H2' & H3'); [apply Hserve; set_solver|done|intros c' Hc'; apply Hserve; set_solver|].
    by eapply Hfin.
Qed.

End Completion.
End Facts.
End StreamFacts.
