(* ===== verification/StreamWitness.v ===== *)
(** * The stream on concrete messages

    Runs of the stream on JSON messages: a client that logs in and receives an
    event, a client that vanishes, and a client that
    replaces its filters while the broadcaster copies them. *)

From S2P Require Import Prelude Types Text Platform Bson UuidReference JsonWitness Repository Retention TimeText Viewer Search SearchFacts MongoReference ChainWitness AgentWitness SearchWitness Stream StreamFacts JsonViewer.

Module StreamWitness.
Import Filters Viewer Stream StreamFacts SearchFacts SearchWitness ChainWitness AgentWitness.

Definition fSystem : Filter := mkFilter (bz "channel") (bz "eq") (bz "System").
Definition fSecurity : Filter := mkFilter (bz "channel") (bz "eq") (bz "Security").
Definition fType : Filter := mkFilter (bz "event_type_id") (bz "eq") (bz "1").

#[local] Existing Instance JsonViewer.stream_json.
#[local] Existing Instance toy_jwt.

Abbreviation js := JsonWitness.js.

Definition mToken : bytes := js "{'type': 'auth', 'data': {'token': 'secretroot'}}".
Definition mBadToken : bytes := js "{'type':'auth','data':{'token':'guess'}}".
Definition mSystem : bytes := js "{'type':'subscribe','data':[{'property':'channel','operator':'eq','value':'System'}]}".
Definition mSecurity : bytes :=
  js "{'type':'subscribe','data':[{'property':'channel','operator':'eq','value':'Security'},{'property':'event_type_id','operator':'eq','value':'1'}]}".

(** ** Handlers *)

Example good_token : handleMessage wConfig mToken newStreamClient = (mkStreamClient true [], None).
Proof. vm_compute. reflexivity. Qed.
Example bad_token : handleMessage wConfig mBadToken newStreamClient = (newStreamClient, Some (js "{'type':'error','data':{'message':'invalid token'}}")).
Proof. vm_compute. reflexivity. Qed.

(** ** Runs *)

Lemma run_end s s' : s = s' -> run wConfig s [] s'.
Proof. intros ->. apply run_nil. Qed.

Ltac next rule := eapply run_cons; [eapply rule; try (vm_compute; reflexivity)|].

Definition wMessage : bytes := match WriteJSON wsMessageTypeEvent wRecent with Ok b => b | _ => [] end.

(** A client logs in, and an event is taken, handed over and sent. *)
Definition wTrace : list label :=
  [Connected 0; Received 0 mToken; Took wRecent; Internal; Internal; Internal; Handed 0 wRecent].

Definition loop_conn (l : loop_state) (w : writer) : streamBroadcaster :=
  mkStreamBroadcaster {[0%nat := mkConn (mkStreamClient true []) Reading w true]} {[0%nat]} l.

Lemma wRun : run wConfig newStreamBroadcaster wTrace (loop_conn (Visiting wRecent wMessage ∅) (WriterSending wMessage)).
Proof.
  next step_connect. { by left. }
  next step_receive. next step_take.
  eapply run_cons; [eapply (step_authenticated _ _ _ _ 0); [reflexivity|cbn; set_solver|reflexivity|vm_compute; reflexivity]|].
  next step_measure. next step_copy.
  next step_hand. apply run_end; vm_compute; reflexivity.
Qed.

Lemma wSent : run wConfig newStreamBroadcaster (wTrace ++ [Sent 0 wMessage]) (loop_conn (Visiting wRecent wMessage ∅) WriterIdle).
Proof.
  eapply run_snoc; [exact wRun|]. apply (step_send _ (loop_conn (Visiting wRecent wMessage ∅) (WriterSending wMessage)) 0
    (mkConn (mkStreamClient true []) Reading (WriterSending wMessage) true)); reflexivity.
Qed.

Lemma stream_safe_witness : delivered wConfig 0 wTrace wMessage.
Proof. exact (stream_safe wConfig wTrace [] 0 wMessage _ wSent). Defined.

(** A second client logs in while the event goes round. *)
Definition wRound : list label := [Received 1 mToken; Internal; Internal; Internal; Handed 0 wRecent; Internal; Internal; Internal;
  Handed 1 wRecent; Internal].

Definition two_conns (l : loop_state) (c1 : streamClient) (w : writer) : streamBroadcaster :=
  mkStreamBroadcaster {[0%nat := mkConn (mkStreamClient true []) Reading w true; 1%nat := mkConn c1 Reading w true]} {[0%nat; 1%nat]} l.

Lemma wLogged : run wConfig newStreamBroadcaster [Connected 0; Received 0 mToken; Connected 1] (two_conns Waiting newStreamClient WriterIdle).
Proof.
  next step_connect. { by left. } next step_receive. next step_connect. { by left. } apply run_end; vm_compute; reflexivity.
Qed.

Ltac visit n := eapply run_cons; [eapply (step_authenticated _ _ _ _ n); [reflexivity|vm_compute; reflexivity|reflexivity|vm_compute; reflexivity]|].

Lemma wRounded : run wConfig (two_conns Waiting newStreamClient WriterIdle) (Took wRecent :: wRound)
  (two_conns Waiting (mkStreamClient true []) (WriterSending wMessage)).
Proof.
  next step_take. next step_receive. visit 0%nat. next step_measure. next step_copy. next step_hand.
  visit 1%nat. next step_measure. next step_copy. next step_hand.
  eapply run_cons; [eapply step_round; vm_compute; reflexivity|]. apply run_end; vm_compute; reflexivity.
Qed.


Lemma stream_live_witness : exists tr' s',
  run wConfig (loop_conn (Visiting wRecent wMessage ∅) (WriterSending wMessage)) tr' s' /\ loop s' = Waiting.
Proof.
  apply (stream_live wConfig wTrace _ wRun); [|discriminate].
  intros c Hc. cbn in Hc. apply elem_of_singleton in Hc as ->. eexists. split; [reflexivity|]. right. by eexists.
Defined.

Lemma event_message_round_trip_witness : exists msg raw,
  WriteJSON wsMessageTypeEvent wRecent = Ok msg /\
  Unmarshal msg = Ok (mkWebsocketMessage wsMessageTypeEvent raw) /\ Unmarshal raw = Ok wRecent.
Proof.
  apply (JsonViewer.event_message_round_trip wRecent).
  repeat split; vm_compute; congruence || reflexivity || exact (List.Forall_nil _).
Defined.

(** ** A client that vanishes *)

Definition dead : streamBroadcaster := loop_conn (Writing wRecent wMessage 0 ∅) WriterStopped.

(** A ping fails after the client has logged in; the next event blocks the
    broadcaster. *)
Lemma dead_reachable : run wConfig newStreamBroadcaster
  [Connected 0; Received 0 mToken; Stopped 0; Took wRecent; Internal; Internal; Internal] dead.
Proof.
  next step_connect. { by left. } next step_receive. next step_ping_fails. next step_take.
  eapply run_cons; [eapply (step_authenticated _ _ _ _ 0); [reflexivity|cbn; set_solver|reflexivity|vm_compute; reflexivity]|].
  next step_measure. next step_copy. apply run_end; vm_compute; reflexivity.
Qed.

(** The reading goroutine notices that the client is gone and waits for the
    mutex. *)
Lemma dead_client_blocks_stream_witness : exists tr s, run wConfig newStreamBroadcaster tr dead /\ run wConfig dead [Internal] s /\
  loop s = loop dead /\ clients s = {[0%nat]}.
Proof.
  eexists _, _. split; [exact dead_reachable|].
  assert (run wConfig dead [Internal] (put_conn 0 (mkConn (mkStreamClient true []) Leaving WriterStopped false) dead)) as Hr
    by (apply run_one; apply (step_read_fails _ dead 0 (mkConn (mkStreamClient true []) Reading WriterStopped true)); reflexivity).
  split; [exact Hr|].
  destruct (dead_client_blocks_stream wConfig dead wRecent wMessage 0 _ ∅ _ _ eq_refl eq_refl eq_refl Hr) as (Hl & Hc & _).
  by split.
Defined.

(** ** Filters replaced during a round *)

(** The length of the list of filters is read before the mutex is taken: a
    client that replaces its filters at that moment is sent an event that
    neither its old nor its new filters match. *)
Theorem replaced_filters_let_event_through : exists before s, 
  run wConfig newStreamBroadcaster (before ++ [Handed 0 wRecent]) s /\
  before = [Connected 0; Received 0 mToken; Received 0 mSystem; Took wRecent; Internal; Internal; Received 0 mSecurity; Internal] /\
  filtersMatch wRecent [fSystem] = Ok false /\ filtersMatch wRecent [fSecurity; fType] = Ok false.
Proof.
  eexists _, _. split; [|by split; [|vm_compute]].
  next step_connect. { by left. } next step_receive. next step_receive. next step_take.
  eapply run_cons; [eapply (step_authenticated _ _ _ _ 0); [reflexivity|cbn; set_solver|reflexivity|vm_compute; reflexivity]|].
  next step_measure. next step_receive. next step_copy. next step_hand.
  apply run_end; vm_compute; reflexivity.
Qed.

End StreamWitness.
